(* ===== verification/_CoqProject ===== *)
-Q . S2P
Prelude.v
Errors.v
Pod.v
DelegationState.v
SlotToggle.v
Runtime.v
SystemProgram.v
Program.v
Core.v
RestakingCore.v
VaultConfig.v
Vault.v
VaultTickets.v
VaultShares.v
VaultInstruction.v
VaultAdmin.v
VaultTicketHandlers.v
VaultShareHandlers.v
VaultUpdateHandlers.v
VaultProgram.v
VaultFees.v
RestakingProgram.v
UpdateCycle.v
Isolation.v
Effects.v
Testbed.v
VaultIsolation.v
VaultAuthority.v
VaultEffects.v
UpdateEffects.v
RestakingAuthority.v
TxBytes.v
TxFrame.v
TxFormat.v
TxView.v
ComputeBudget.v
Fees.v
TxMeta.v
Processing.v
Locks.v
Blockhashes.v
StatusCache.v
BatchLamports.v
WireMessage.v
Admission.v
Concurrency.v
Merkle.v
Poh.v
PohRecorder.v
CostModel.v
BlockCosts.v
NonceProgram.v
Consumer.v
