(* ===== verification/Prelude.v ===== *)
(** * Payout: a verification of the restaking programs and of the runtime under them

    The repository holds two things.  [restaking/] is a pair of on-chain programs:
    the vault program takes deposits of a token, mints shares for them and
    delegates the deposits to operators, and the restaking program keeps the
    relations between networks, operators and vaults.  [gorchain/] is the
    validator that runs them.  This development follows one path through both,
    from the bytes of a transaction to the accounts that the programs leave on
    the ledger and the entry that records the transaction.  Source paths below
    are relative to [src/] ([src/restaking/] for the programs).

    ** How code becomes definitions

    Rust's integers are unbounded integers with the checks, saturation or
    wrap-around of the operation written out; [Result] is [result] with [let?]
    and [;?] for the question mark; code that may panic or read outside a buffer
    returns an [outcome] with [let*].  A method with [&mut self] returns the new
    value.  Structs are records with the update notation of this file.  A
    running program is the state and error monad [M] of [Program].  Code that is
    not in the repository (hash functions, the token program, address
    derivation, sysvar layouts, other crates) is an argument, collected in
    classes [Env], [PohEnv], [AdmissionEnv] and the like, with its documented
    behaviour in a class of laws; [Testbed] and the examples at the end of the
    files give concrete instances that satisfy the laws.

    ** The programs

    - [Errors], [Pod]: error types and codes, byte layouts of accounts.
    - [DelegationState], [SlotToggle]: stake in its three buckets
      ([vault_core/src/delegation_state.rs]), features with warm-up and cooldown
      ([core/src/slot_toggle.rs]).
    - [Core], [RestakingCore], [VaultConfig], [Vault], [VaultTickets]: account
      loaders and every account type with its methods ([core/], [restaking_core/],
      [vault_core/]).
    - [VaultInstruction], [VaultAdmin], [VaultTicketHandlers],
      [VaultShareHandlers], [VaultUpdateHandlers], [VaultProgram]: one definition
      per handler and the dispatch of [vault_program/src/].
    - [RestakingProgram]: the handlers and dispatch of [restaking_program/src/].

    What is proved of them.  [VaultShares]: minting and burning compute the
    values of a reference over unbounded integers, a share never loses value, a
    round trip makes no profit.  [VaultFees]: fee changes and reward fees.
    [UpdateCycle]: the update of an epoch as a step relation; every operator is
    visited once, the cycle never gets stuck, and at the end withdrawals are
    covered.  [VaultEffects] and [UpdateEffects]: what instructions do to the
    accounts of the ledger, from the instruction's bytes to the commit.
    [VaultAuthority], [RestakingAuthority]: who has to sign, when a vault is
    frozen.  [VaultIsolation]: which accounts an instruction can change, whatever
    the programs it calls do.

    ** The runtime of a program

    [Runtime], [SystemProgram], [Program]: accounts and privileges, the memory
    copy of accounts that a program works on, cross-program calls and the commit
    ([gorchain/transaction-context], [syscalls], [program-runtime],
    [programs/system]).  [Isolation] and [Effects] hold the proof rules that the
    theorems above use.  [NonceProgram] completes the system program with the
    instructions on nonce accounts and its whole dispatch: a nonce that was
    replaced never returns, and an account that loses lamports or whose data or
    owner change was authorized to, apart from the initialization and upgrade of
    nonce accounts, which keep its balance and owner.

    ** From the wire to a block

    - [TxBytes], [TxFrame], [TxFormat], [TxView]: the zero-copy parser of
      [gorchain/transaction-view].  It accepts exactly the encodings of
      transactions, its unchecked reads stay in the buffer, sanitizing and the
      writable flags follow their rules.
    - [ComputeBudget], [Fees]: the limits and the fee of a transaction, the
      charge of the payer, the distribution of a block's fees.
    - [TxMeta], [CostModel], [BlockCosts]: what the runtime remembers of a
      transaction, its cost and the limits of a block
      ([gorchain/runtime-transaction], [gorchain/cost-model],
      [gorchain/core/src/banking_stage/qos_service.rs]).  The cost follows from
      the bytes; the tracker is the sum of what is in flight or committed, stays
      within the limits and refuses exactly what would break them.
    - [Processing], [BatchLamports]: loading, executing and committing a batch
      ([gorchain/svm], [gorchain/runtime]); what a failed transaction costs.
    - [Locks], [Blockhashes], [StatusCache]: account locks, the queue of recent
      blockhashes and the cache of processed transactions, each refined to the
      history it stands for.
    - [WireMessage], [Admission], [Concurrency]: the checks of the bank and the
      functions that lock, check, execute, commit and release a batch, and their
      interleaving by several threads as a step relation.  Lamports are conserved
      and no message is processed twice.
    - [Merkle], [Poh], [PohRecorder]: the Merkle tree, the hash chain, the entries
      with their verifiers and the recorder.  Paths verify, roots bind their items
      up to a collision, the verifiers agree, and what the recorder sends is a
      valid chain.
    - [Consumer]: the threads of a leader, composed of the parts above
      ([gorchain/core/src/banking_stage/consumer.rs], [committer.rs],
      [gorchain/poh/src/transaction_recorder.rs]).  The function of a thread is a
      run of a step relation; along every interleaving what is sent, what is
      committed and what the block is charged for agree.

    ** Bounds and fuel

    Loops that are not structural carry fuel, and a theorem shows that the given
    fuel is enough: the levels of a Merkle tree ([Merkle.new], the number of
    items), the iterators of the parser (the number of parts), the loop of
    [PohRecorder.record] (the hashes left for the bank,
    [recorder_operations_return]) and the threads that call it
    ([consumer_refines_steps]), the catch-up loop of the vault's share queue
    (two rounds).  Bounds that theorems assume are stated in them: 64-bit totals,
    packets of at most 1232 bytes, block limits below 2^39
    units, slots whose tick heights fit in 64 bits.

    ** Not modelled

    The virtual machine of programs: what an instruction of another program does
    is an argument bound by the rules of the runtime.  Compute metering, logs,
    metrics, timing, caches of compiled programs and of stakes, the storage of
    accounts, consensus, networking, RPC and the command-line tools: they do not
    decide what the modelled parts compute, or are inputs and outputs of other
    machines.  The Borsh decoder of instruction data and SHA-256 are arguments.
    The shutdown of the validator, in which a thread may lose the answer of the
    recorder, is left out.
    The derive macro emits an empty implementation; generated clients and tests
    are not code of the programs.  The sweep manager and sweep program of
    [PLAN.md] have no source in the repository.

    This file holds what the others share: results, machine arithmetic, record
    updates, and lemmas on lists and integers. *)

From stdpp Require Import base numbers list gmap.
From Stdlib Require Import Lia.
Local Open Scope Z_scope.

(** ** Results: Rust's [Result] with the [?] operator *)

Inductive result (E A : Type) : Type :=
| Ok (a : A)
| Err (e : E).
Arguments Ok {E A} a.
Arguments Err {E A} e.

(** Rust's [From] between error types, inserted by every [?]. *)
Class FromErr (E1 E2 : Type) := from_err : E1 -> E2.
#[export] Instance FromErr_refl E : FromErr E E | 0 := fun e => e.

Definition qbind {E1 E2 A B} `{FromErr E1 E2}
    (m : result E1 A) (k : A -> result E2 B) : result E2 B :=
  match m with
  | Ok a => k a
  | Err e => Err (from_err e)
  end.

Definition ok_or {E A} (o : option A) (e : E) : result E A :=
  match o with
  | Some a => Ok a
  | None => Err e
  end.

Definition map_err {E1 E2 A} (f : E1 -> E2) (m : result E1 A) : result E2 A :=
  match m with
  | Ok a => Ok a
  | Err e => Err (f e)
  end.

(** [m?] used as the last expression of a function: only the conversion. *)
Definition into {E1 E2 A} `{FromErr E1 E2} (m : result E1 A) : result E2 A :=
  map_err from_err m.

Definition is_ok {E A} (m : result E A) : bool :=
  match m with Ok _ => true | Err _ => false end.

Declare Scope rust_scope.
Delimit Scope rust_scope with rust.
Notation "'let?' x ':=' m 'in' k" := (qbind m (fun x => k))
  (at level 10, x pattern, m at level 100, k at level 200,
   format "'[v' 'let?'  x  ':='  m  'in' '//' k ']'") : rust_scope.
Notation "m ';?' k" := (qbind m (fun _ => k))
  (at level 199, right associativity,
   format "'[v' m  ';?' '//' k ']'") : rust_scope.
Open Scope rust_scope.

(** ** Machine integers: unsigned values as [Z], with the checked and
    saturating operations of the Rust standard library. *)

Abbreviation U8_MAX := 255.
Abbreviation U16_MAX := 65535.
Abbreviation U32_MAX := 4294967295.
Abbreviation U64_MAX := 18446744073709551615.
Abbreviation U128_MAX := 340282366920938463463374607431768211455.

Definition is_u8 (z : Z) : Prop := 0 <= z <= U8_MAX.
Definition is_u16 (z : Z) : Prop := 0 <= z <= U16_MAX.
Definition is_u64 (z : Z) : Prop := 0 <= z <= U64_MAX.
Definition is_u128 (z : Z) : Prop := 0 <= z <= U128_MAX.

Definition checked_add (max a b : Z) : option Z :=
  if a + b <=? max then Some (a + b) else None.
Definition checked_sub (a b : Z) : option Z :=
  if b <=? a then Some (a - b) else None.
Definition checked_mul (max a b : Z) : option Z :=
  if a * b <=? max then Some (a * b) else None.
Definition checked_div (a b : Z) : option Z :=
  if b =? 0 then None else Some (a / b).
Definition checked_rem (a b : Z) : option Z :=
  if b =? 0 then None else Some (a mod b).
Definition saturating_sub (a b : Z) : Z := Z.max 0 (a - b).
Definition saturating_add (max a b : Z) : Z := Z.min max (a + b).
Definition saturating_mul (max a b : Z) : Z := Z.min max (a * b).
(** Arithmetic modulo the width of the type whose largest value is [max], and
    the [as] cast to that type. *)
Definition wrapping_add (max a b : Z) : Z := (a + b) mod (max + 1).
Definition wrapping_sub (max a b : Z) : Z := (a - b) mod (max + 1).
Definition wrapping_mul (max a b : Z) : Z := (a * b) mod (max + 1).
Definition as_uint (max z : Z) : Z := z mod (max + 1).
(** [u128::div_ceil]: quotient, plus one when the remainder is positive. *)
Definition div_ceil (a b : Z) : Z :=
  if 0 <? a mod b then a / b + 1 else a / b.
(** [TryFrom] to a narrower unsigned type whose largest value is [max]. *)
Definition try_into (max z : Z) : option Z :=
  if z <=? max then Some z else None.

(** [len()]. *)
Definition zlen {A} (l : list A) : Z := Z.of_nat (length l).

(** ** Record update *)

Class Eta (R : Type) := eta : R -> R.
Class Setter {R E : Type} (p : R -> E) := set_field : E -> R -> R.

Ltac solve_setter p :=
  match type of p with
  | ?R -> ?E =>
      let t := constr:(fun (x : E) (r : R) =>
        ltac:(
          let e := constr:(eta (R := R)) in
          let er := eval hnf in e in
          let u := eval cbv beta in (er r) in
          match eval pattern (p r) in u with
          | ?f _ => let v := eval cbv beta in (f x) in exact v
          end)) in
      exact t
  end.
#[export] Hint Extern 1 (Setter ?p) => solve_setter p : typeclass_instances.

Notation "v <| p := x |>" := (set_field (p := p) x v)
  (at level 1, left associativity, format "v <| p  :=  x |>") : rust_scope.

(** ** Inversion of success *)

Section ResultLemmas.
Context {E1 E2 A B : Type} `{!FromErr E1 E2}.

Lemma qbind_Ok (m : result E1 A) (k : A -> result E2 B) b :
  qbind m k = Ok b <-> exists a, m = Ok a /\ k a = Ok b.
Proof. destruct m; simpl; naive_solver. Qed.

Lemma ok_or_Ok (o : option A) (e : E1) a : ok_or o e = Ok a <-> o = Some a.
Proof. destruct o; simpl; naive_solver. Qed.

Lemma ok_or_Err (o : option A) (e e' : E1) :
  ok_or o e = Err e' <-> o = None /\ e = e'.
Proof. destruct o; simpl; naive_solver. Qed.

Lemma map_err_Ok (f : E1 -> E2) (m : result E1 A) a :
  map_err f m = Ok a <-> m = Ok a.
Proof. destruct m; simpl; naive_solver. Qed.

Lemma into_Ok (m : result E1 A) a : into (E2 := E2) m = Ok a <-> m = Ok a.
Proof. apply map_err_Ok. Qed.
End ResultLemmas.

Lemma checked_add_Some max a b c :
  checked_add max a b = Some c <-> c = a + b /\ a + b <= max.
Proof. unfold checked_add. destruct (Z.leb_spec (a + b) max); naive_solver lia. Qed.
Lemma checked_add_None max a b : checked_add max a b = None <-> max < a + b.
Proof. unfold checked_add. destruct (Z.leb_spec (a + b) max); naive_solver lia. Qed.
Lemma checked_sub_Some a b c : checked_sub a b = Some c <-> c = a - b /\ b <= a.
Proof. unfold checked_sub. destruct (Z.leb_spec b a); naive_solver lia. Qed.
Lemma checked_sub_None a b : checked_sub a b = None <-> a < b.
Proof. unfold checked_sub. destruct (Z.leb_spec b a); naive_solver lia. Qed.
Lemma checked_mul_Some max a b c :
  checked_mul max a b = Some c <-> c = a * b /\ a * b <= max.
Proof. unfold checked_mul. destruct (Z.leb_spec (a * b) max); naive_solver lia. Qed.
Lemma checked_mul_None max a b : checked_mul max a b = None <-> max < a * b.
Proof. unfold checked_mul. destruct (Z.leb_spec (a * b) max); naive_solver lia. Qed.
Lemma checked_div_Some a b c : checked_div a b = Some c <-> c = a / b /\ b <> 0.
Proof. unfold checked_div. destruct (Z.eqb_spec b 0); naive_solver. Qed.
Lemma checked_div_None a b : checked_div a b = None <-> b = 0.
Proof. unfold checked_div. destruct (Z.eqb_spec b 0); naive_solver. Qed.
Lemma checked_rem_Some a b c : checked_rem a b = Some c <-> c = a mod b /\ b <> 0.
Proof. unfold checked_rem. destruct (Z.eqb_spec b 0); naive_solver. Qed.
Lemma checked_rem_None a b : checked_rem a b = None <-> b = 0.
Proof. unfold checked_rem. destruct (Z.eqb_spec b 0); naive_solver. Qed.
Lemma try_into_Some max a c : try_into max a = Some c <-> c = a /\ a <= max.
Proof. unfold try_into. destruct (Z.leb_spec a max); naive_solver lia. Qed.
Lemma try_into_None max a : try_into max a = None <-> max < a.
Proof. unfold try_into. destruct (Z.leb_spec a max); naive_solver lia. Qed.

Lemma wrapping_add_small max a b : 0 <= a + b <= max -> wrapping_add max a b = a + b.
Proof. intros H. apply Z.mod_small. lia. Qed.
Lemma wrapping_sub_small max a b : 0 <= a - b <= max -> wrapping_sub max a b = a - b.
Proof. intros H. apply Z.mod_small. lia. Qed.
Lemma wrapping_mul_small max a b : 0 <= a * b <= max -> wrapping_mul max a b = a * b.
Proof. intros H. apply Z.mod_small. lia. Qed.
Lemma as_uint_small max a : 0 <= a <= max -> as_uint max a = a.
Proof. intros H. apply Z.mod_small. lia. Qed.

Lemma option_bind_Some {A B} (o : option A) (f : A -> option B) b :
  (o ≫= f) = Some b <-> exists a, o = Some a /\ f a = Some b.
Proof. destruct o; simpl; naive_solver. Qed.
Lemma option_fmap_Some {A B} (o : option A) (f : A -> B) b :
  (f <$> o) = Some b <-> exists a, o = Some a /\ f a = b.
Proof. destruct o; simpl; naive_solver. Qed.

(** Turn boolean comparisons in the context into propositions. *)
Ltac bool_to_prop :=
  repeat match goal with
  | H : (_ && _)%bool = true |- _ => apply andb_true_iff in H as [? ?]
  | H : (_ || _)%bool = false |- _ => apply orb_false_iff in H as [? ?]
  | H : (_ || _)%bool = true |- _ => apply orb_true_iff in H
  | H : (_ && _)%bool = false |- _ => apply andb_false_iff in H
  | H : negb _ = true |- _ => apply negb_true_iff in H
  | H : negb _ = false |- _ => apply negb_false_iff in H
  | H : (_ <=? _) = true |- _ => apply Z.leb_le in H
  | H : (_ <=? _) = false |- _ => apply Z.leb_gt in H
  | H : (_ <? _) = true |- _ => apply Z.ltb_lt in H
  | H : (_ <? _) = false |- _ => apply Z.ltb_ge in H
  | H : (_ =? _) = true |- _ => apply Z.eqb_eq in H
  | H : (_ =? _) = false |- _ => apply Z.eqb_neq in H
  | H : (_ >? _) = _ |- _ => rewrite Z.gtb_ltb in H
  end.

(** One step of decomposing a hypothesis saying that a computation
    succeeded. *)
Ltac inv_ok_step :=
  match goal with
  | H : Ok _ = Ok _ |- _ => injection H; clear H; intros
  | H : Ok _ = Err _ |- _ => discriminate H
  | H : Err _ = Ok _ |- _ => discriminate H
  | H : Some _ = Some _ |- _ => injection H; clear H; intros
  | H : None = Some _ |- _ => discriminate H
  | H : qbind _ _ = Ok _ |- _ =>
      let a := fresh "r" in let E := fresh "Hr" in
      apply qbind_Ok in H as (a & E & H); cbn beta in H
  | H : ok_or _ _ = Ok _ |- _ => apply ok_or_Ok in H
  | H : map_err _ _ = Ok _ |- _ => apply map_err_Ok in H
  | H : into _ = Ok _ |- _ => apply into_Ok in H
  | H : checked_add _ _ _ = Some _ |- _ => apply checked_add_Some in H as [? ?]
  | H : checked_sub _ _ = Some _ |- _ => apply checked_sub_Some in H as [? ?]
  | H : checked_mul _ _ _ = Some _ |- _ => apply checked_mul_Some in H as [? ?]
  | H : checked_div _ _ = Some _ |- _ => apply checked_div_Some in H as [? ?]
  | H : checked_rem _ _ = Some _ |- _ => apply checked_rem_Some in H as [? ?]
  | H : try_into _ _ = Some _ |- _ => apply try_into_Some in H as [? ?]
  | H : (_ ≫= _) = Some _ |- _ =>
      let a := fresh "o" in let E := fresh "Ho" in
      apply option_bind_Some in H as (a & E & H); cbn beta in H
  | H : (_ <$> _) = Some _ |- _ =>
      let a := fresh "o" in let E := fresh "Ho" in
      apply option_fmap_Some in H as (a & E & H); cbn beta in H
  | H : (if ?b then Err _ else _) = Ok _ |- _ =>
      let E := fresh "Hc" in destruct b eqn:E; [discriminate H|]
  | H : (if ?b then _ else Err _) = Ok _ |- _ =>
      let E := fresh "Hc" in destruct b eqn:E; [|discriminate H]
  | u : unit |- _ => destruct u
  end.
Ltac inv_ok := repeat (inv_ok_step; subst); bool_to_prop.

(** ** Checks over a list *)

Fixpoint all_ok {A E} (f : A -> result E unit) (l : list A) : result E unit :=
  match l with
  | [] => Ok tt
  | x :: l => f x ;? all_ok f l
  end.

Lemma all_ok_iff {A E} (f : A -> result E unit) l :
  all_ok f l = Ok tt <-> Forall (fun x => f x = Ok tt) l.
Proof.
  induction l as [|x l IH]; simpl; [by split; [constructor|]|].
  rewrite qbind_Ok, Forall_cons, <- IH. split; [intros ([] & ? & ?)|intros [? ?]]; eauto.
Qed.

Lemma all_ok_Forall {A E} (f : A -> result E unit) l :
  all_ok f l = Ok tt -> Forall (fun x => f x = Ok tt) l.
Proof. apply all_ok_iff. Qed.

Lemma all_ok_Err {A E} (f : A -> result E unit) l e :
  all_ok f l = Err e -> Exists (fun x => f x = Err e) l.
Proof.
  induction l as [|x l IH]; simpl; [done|]. destruct (f x) as [[]|e'] eqn:E1; simpl; intros H.
  - right. by apply IH.
  - left. rewrite E1. by injection H as <-.
Qed.

(** ** Arithmetic shared by the fee and share computations *)

Create HintDb rust.

Lemma div_ceil_spec a b : 0 < b -> (div_ceil a b - 1) * b < a <= div_ceil a b * b.
Proof.
  intros Hb. unfold div_ceil.
  pose proof (Z.div_mod a b ltac:(lia)). pose proof (Z.mod_pos_bound a b Hb).
  destruct (Z.ltb_spec 0 (a mod b)); nia.
Qed.

Lemma div_ceil_nonneg a b : 0 <= a -> 0 < b -> 0 <= div_ceil a b.
Proof. intros Ha Hb. pose proof (div_ceil_spec a b Hb). nia. Qed.

Lemma div_ceil_le a b c : 0 < b -> a <= c * b -> div_ceil a b <= c.
Proof. intros Hb Hc. pose proof (div_ceil_spec a b Hb). nia. Qed.

Lemma div_ceil_ge a b c : 0 < b -> (c - 1) * b < a -> c <= div_ceil a b.
Proof. intros Hb Hc. pose proof (div_ceil_spec a b Hb). nia. Qed.

Lemma div_ceil_0 b : 0 < b -> div_ceil 0 b = 0.
Proof. intros Hb. pose proof (div_ceil_spec 0 b Hb). nia. Qed.

(** Floor of a proportional share. *)
Lemma div_floor_spec a b : 0 < b -> a / b * b <= a < (a / b + 1) * b.
Proof.
  intros Hb. pose proof (Z.div_mod a b ltac:(lia)). pose proof (Z.mod_pos_bound a b Hb).
  nia.
Qed.

Lemma div_mul_le_self a b c : 0 <= a -> 0 <= b <= c -> 0 < c -> a * b / c <= a.
Proof. intros. apply Z.div_le_upper_bound; nia. Qed.

#[export] Hint Resolve div_ceil_nonneg Z.div_pos : rust.

(** ** Sums over a list *)

Definition zsum {A} (f : A -> Z) (l : list A) : Z := foldr (fun x s => f x + s) 0 l.

Lemma zsum_cons {A} (f : A -> Z) x l : zsum f (x :: l) = f x + zsum f l.
Proof. done. Qed.

Lemma zsum_insert {A} (f : A -> Z) l i x y :
  l !! i = Some x -> zsum f (<[i := y]> l) = zsum f l - f x + f y.
Proof.
  revert i. induction l as [|z l IH]; intros [|i] H; simplify_eq/=; [lia|].
  rewrite IH by done. lia.
Qed.

Lemma zsum_ext {A} (f g : A -> Z) l : Forall (fun x => f x = g x) l -> zsum f l = zsum g l.
Proof. induction 1; simpl; [done|lia]. Qed.

Lemma zsum_add {A} (f g : A -> Z) l : zsum (fun x => f x + g x) l = zsum f l + zsum g l.
Proof. induction l; simpl; lia. Qed.

Lemma zsum_nonneg {A} (f : A -> Z) l : Forall (fun x => 0 <= f x) l -> 0 <= zsum f l.
Proof. induction 1; simpl; lia. Qed.

Lemma zsum_le {A} (f g : A -> Z) l : Forall (fun x => f x <= g x) l -> zsum f l <= zsum g l.
Proof. induction 1; simpl; lia. Qed.

Lemma zsum_const {A} (c : Z) (l : list A) : zsum (fun _ => c) l = c * Z.of_nat (length l).
Proof. induction l; simpl; lia. Qed.

Lemma zsum_scale {A} (f : A -> Z) c l : zsum (fun x => c * f x) l = c * zsum f l.
Proof. induction l; simpl; lia. Qed.

Lemma zsum_app {A} (f : A -> Z) l l' : zsum f (l ++ l') = zsum f l + zsum f l'.
Proof. induction l; simpl; lia. Qed.

Lemma zsum_perm {A} (f : A -> Z) l l' : l ≡ₚ l' -> zsum f l = zsum f l'.
Proof. induction 1; simpl; lia. Qed.

Lemma zsum_lookup_le {A} (f : A -> Z) l i x :
  Forall (fun y => 0 <= f y) l -> l !! i = Some x -> f x <= zsum f l.
Proof.
  intros H. revert i. induction H as [|y l Hy Hl IH]; intros [|i] E; simplify_eq/=.
  - pose proof (zsum_nonneg f l Hl). lia.
  - specialize (IH _ E). lia.
Qed.

(** A sum of indicators is the length exactly when all of them hold. *)
Lemma zsum_indicator {A} (p : A -> bool) l :
  0 <= zsum (fun x => if p x then 1 else 0) l <= Z.of_nat (length l) /\
  (zsum (fun x => if p x then 1 else 0) l = Z.of_nat (length l) -> Forall (fun x => p x = true) l).
Proof.
  induction l as [|x l [IH1 IH2]]; simpl; [split; [lia|done]|].
  destruct (p x) eqn:E; (split; [lia|]); intros H; [|lia].
  constructor; [done|]. apply IH2. lia.
Qed.
