(* ===== verification/Errors.v ===== *)
(** * Error types of the programs

    [ProgramError] of the Solana SDK (the constructors the sources use), the
    three error enums of the repository ([core/src/error.rs],
    [vault_sdk/src/error.rs], [restaking_sdk/src/error.rs]) with their
    numeric codes, and the conversions that the [?] operator inserts. *)

From stdpp Require Import base numbers.
From S2P Require Import Prelude.
Local Open Scope Z_scope.

(** Errors a program returns to the runtime. *)
Module ProgramError.

Inductive ProgramError : Type :=
| Custom (code : Z)
| InvalidArgument
| InvalidInstructionData
| InvalidAccountData
| AccountDataTooSmall
| InsufficientFunds
| IncorrectProgramId
| MissingRequiredSignature
| AccountAlreadyInitialized
| UninitializedAccount
| NotEnoughAccountKeys
| AccountBorrowFailed
| MaxSeedLengthExceeded
| InvalidSeeds
| BorshIoError
| AccountNotRentExempt
| UnsupportedSysvar
| IllegalOwner
| InvalidRealloc
| InvalidAccountOwner
| ArithmeticOverflow
| Immutable.

#[global] Instance ProgramError_eq_dec : EqDecision ProgramError.
Proof. solve_decision. Defined.

End ProgramError.
Abbreviation ProgramError := ProgramError.ProgramError.

(** [core/src/error.rs]. *)
Module CoreError.

Inductive CoreError : Type :=
| BadEpochLength.

(** [e as u32]: the discriminant of the enum. *)
Definition code (e : CoreError) : Z :=
  match e with
  | BadEpochLength => 0
  end.

#[global] Instance CoreError_eq_dec : EqDecision CoreError.
Proof. solve_decision. Defined.

End CoreError.
Abbreviation CoreError := CoreError.CoreError.

(** [vault_sdk/src/error.rs]. *)
Module VaultError.

Inductive VaultError : Type :=
| VaultSlashUnderflow
| VaultInitialAmountFailed
| VaultInsufficientFunds
| VaultOverflow
| VaultOperatorAdminInvalid
| VaultAdminInvalid
| VaultCapacityAdminInvalid
| VaultMintBurnAdminInvalid
| VaultDelegationAdminInvalid
| VaultDelegateAssetAdminInvalid
| VaultCapacityExceeded
| VaultSlasherAdminInvalid
| VaultNcnAdminInvalid
| VaultFeeAdminInvalid
| ConfigAdminInvalid
| ConfigFeeAdminInvalid
| VaultFeeCapExceeded
| VaultFeeChangeTooSoon
| VaultFeeBumpTooLarge
| VaultUnderflow
| VaultUpdateNeeded
| VaultIsUpdated
| VaultOperatorDelegationUpdateNeeded
| VaultOperatorDelegationIsUpdated
| VaultUpdateIncorrectIndex
| VaultUpdateStateNotFinishedUpdating
| VaultSecurityOverflow
| VaultSlashIncomplete
| VaultSecurityUnderflow
| SlippageError
| VaultStakerWithdrawalTicketNotWithdrawable
| VaultNcnSlasherTicketFailedCooldown
| VaultNcnSlasherTicketFailedWarmup
| VaultNcnTicketFailedCooldown
| VaultNcnTicketFailedWarmup
| VaultNcnTicketUnslashable
| OperatorVaultTicketUnslashable
| NcnOperatorStateUnslashable
| VaultNcnSlasherTicketUnslashable
| NcnVaultTicketUnslashable
| NcnVaultSlasherTicketUnslashable
| VaultMaxSlashedPerOperatorExceeded
| VaultStakerWithdrawalTicketInvalidStaker
| SlasherOverflow
| NcnOverflow
| OperatorOverflow
| VaultDelegationZero
| VaultCooldownZero
| VaultBurnZero
| VaultEnqueueWithdrawalAmountZero
| VaultMintZero
| VaultIsPaused
| InvalidDepositor
| InvalidDepositTokenAccount
| NoSupportedMintBalanceChange
| InvalidEpochLength
| VaultRewardFeeDeltaTooLarge
| VaultRewardFeeIsZero
| VrtOutCannotBeZero
| NonZeroAdditionalAssetsNeededForWithdrawalAtEndOfUpdate
| ArithmeticOverflow
| ArithmeticUnderflow
| DivisionByZero.

(** [e as u32]: the discriminant of the enum. *)
Definition code (e : VaultError) : Z :=
  match e with
  | VaultSlashUnderflow => 1000
  | VaultInitialAmountFailed => 1001
  | VaultInsufficientFunds => 1002
  | VaultOverflow => 1003
  | VaultOperatorAdminInvalid => 1004
  | VaultAdminInvalid => 1005
  | VaultCapacityAdminInvalid => 1006
  | VaultMintBurnAdminInvalid => 1007
  | VaultDelegationAdminInvalid => 1008
  | VaultDelegateAssetAdminInvalid => 1009
  | VaultCapacityExceeded => 1010
  | VaultSlasherAdminInvalid => 1011
  | VaultNcnAdminInvalid => 1012
  | VaultFeeAdminInvalid => 1013
  | ConfigAdminInvalid => 1014
  | ConfigFeeAdminInvalid => 1015
  | VaultFeeCapExceeded => 1016
  | VaultFeeChangeTooSoon => 1017
  | VaultFeeBumpTooLarge => 1018
  | VaultUnderflow => 1019
  | VaultUpdateNeeded => 1020
  | VaultIsUpdated => 1021
  | VaultOperatorDelegationUpdateNeeded => 1022
  | VaultOperatorDelegationIsUpdated => 1023
  | VaultUpdateIncorrectIndex => 1024
  | VaultUpdateStateNotFinishedUpdating => 1025
  | VaultSecurityOverflow => 1026
  | VaultSlashIncomplete => 1027
  | VaultSecurityUnderflow => 1028
  | SlippageError => 1029
  | VaultStakerWithdrawalTicketNotWithdrawable => 1030
  | VaultNcnSlasherTicketFailedCooldown => 1031
  | VaultNcnSlasherTicketFailedWarmup => 1032
  | VaultNcnTicketFailedCooldown => 1033
  | VaultNcnTicketFailedWarmup => 1034
  | VaultNcnTicketUnslashable => 1035
  | OperatorVaultTicketUnslashable => 1036
  | NcnOperatorStateUnslashable => 1037
  | VaultNcnSlasherTicketUnslashable => 1038
  | NcnVaultTicketUnslashable => 1039
  | NcnVaultSlasherTicketUnslashable => 1040
  | VaultMaxSlashedPerOperatorExceeded => 1041
  | VaultStakerWithdrawalTicketInvalidStaker => 1042
  | SlasherOverflow => 1043
  | NcnOverflow => 1044
  | OperatorOverflow => 1045
  | VaultDelegationZero => 1046
  | VaultCooldownZero => 1047
  | VaultBurnZero => 1048
  | VaultEnqueueWithdrawalAmountZero => 1049
  | VaultMintZero => 1050
  | VaultIsPaused => 1051
  | InvalidDepositor => 1052
  | InvalidDepositTokenAccount => 1053
  | NoSupportedMintBalanceChange => 1054
  | InvalidEpochLength => 1055
  | VaultRewardFeeDeltaTooLarge => 1056
  | VaultRewardFeeIsZero => 1057
  | VrtOutCannotBeZero => 1058
  | NonZeroAdditionalAssetsNeededForWithdrawalAtEndOfUpdate => 1059
  | ArithmeticOverflow => 3000
  | ArithmeticUnderflow => 3001
  | DivisionByZero => 3002
  end.

#[global] Instance VaultError_eq_dec : EqDecision VaultError.
Proof. solve_decision. Defined.

End VaultError.
Abbreviation VaultError := VaultError.VaultError.

(** [restaking_sdk/src/error.rs]. *)
Module RestakingError.

Inductive RestakingError : Type :=
| NcnOperatorAdminInvalid
| NcnCooldownOperatorFailed
| NcnSlasherAdminInvalid
| NcnVaultAdminInvalid
| NcnAdminInvalid
| NcnDelegateAdminInvalid
| NcnVaultSlasherTicketFailedCooldown
| NcnVaultTicketFailedCooldown
| NcnWarmupOperatorFailed
| NcnVaultSlasherTicketFailedWarmup
| NcnVaultTicketFailedWarmup
| OperatorNcnAdminInvalid
| OperatorVaultAdminInvalid
| OperatorAdminInvalid
| OperatorDelegateAdminInvalid
| OperatorCooldownNcnFailed
| OperatorVaultTicketFailedCooldown
| OperatorVaultTicketFailedWarmup
| OperatorWarmupNcnFailed
| OperatorFeeCapExceeded
| NcnOverflow
| OperatorOverflow
| VaultOverflow
| SlasherOverflow
| InvalidEpochLength
| ConfigAdminInvalid
| ArithmeticOverflow
| ArithmeticUnderflow
| DivisionByZero.

(** [e as u32]: the discriminant of the enum. *)
Definition code (e : RestakingError) : Z :=
  match e with
  | NcnOperatorAdminInvalid => 1000
  | NcnCooldownOperatorFailed => 1001
  | NcnSlasherAdminInvalid => 1002
  | NcnVaultAdminInvalid => 1003
  | NcnAdminInvalid => 1004
  | NcnDelegateAdminInvalid => 1005
  | NcnVaultSlasherTicketFailedCooldown => 1006
  | NcnVaultTicketFailedCooldown => 1007
  | NcnWarmupOperatorFailed => 1008
  | NcnVaultSlasherTicketFailedWarmup => 1009
  | NcnVaultTicketFailedWarmup => 1010
  | OperatorNcnAdminInvalid => 2000
  | OperatorVaultAdminInvalid => 2001
  | OperatorAdminInvalid => 2002
  | OperatorDelegateAdminInvalid => 2003
  | OperatorCooldownNcnFailed => 2004
  | OperatorVaultTicketFailedCooldown => 2005
  | OperatorVaultTicketFailedWarmup => 2006
  | OperatorWarmupNcnFailed => 2007
  | OperatorFeeCapExceeded => 2008
  | NcnOverflow => 2009
  | OperatorOverflow => 2010
  | VaultOverflow => 2011
  | SlasherOverflow => 2012
  | InvalidEpochLength => 2013
  | ConfigAdminInvalid => 2014
  | ArithmeticOverflow => 3000
  | ArithmeticUnderflow => 3001
  | DivisionByZero => 3002
  end.

#[global] Instance RestakingError_eq_dec : EqDecision RestakingError.
Proof. solve_decision. Defined.

End RestakingError.
Abbreviation RestakingError := RestakingError.RestakingError.

(** [impl From<..> for ProgramError]: every repository error becomes
    [Custom] of its code. *)
#[export] Instance CoreError_into_ProgramError : FromErr CoreError ProgramError :=
  fun e => ProgramError.Custom (CoreError.code e).
#[export] Instance VaultError_into_ProgramError : FromErr VaultError ProgramError :=
  fun e => ProgramError.Custom (VaultError.code e).
#[export] Instance RestakingError_into_ProgramError : FromErr RestakingError ProgramError :=
  fun e => ProgramError.Custom (RestakingError.code e).

(** [Err(VaultError::X.into())]. *)
Definition VErr {A} (e : VaultError) : result ProgramError A := Err (from_err e).
Definition RErr {A} (e : RestakingError) : result ProgramError A := Err (from_err e).

(** Errors of the runtime services that a program calls: the instruction
    errors that [system_processor.rs], [transaction-context/src/lib.rs] and
    [invoke_context.rs] raise. *)
Module InstructionError.

Inductive InstructionError : Type :=
| MissingRequiredSignature
| PrivilegeEscalation
| MissingAccount
| NotEnoughAccountKeys
| InvalidArgument
| InvalidInstructionData
| InsufficientFunds
| ArithmeticOverflow
| ModifiedProgramId
| ExternalAccountLamportSpend
| ReadonlyLamportChange
| ReadonlyDataModified
| ExternalAccountDataModified
| AccountDataSizeChanged
| InvalidRealloc
| MaxAccountsDataAllocationsExceeded
| UnbalancedInstruction
| ProgramFailedToComplete
| InvalidAccountData
| InvalidAccountOwner
| AccountDataTooSmall
| UnsupportedSysvar
| Custom (code : Z).

#[global] Instance InstructionError_eq_dec : EqDecision InstructionError.
Proof. solve_decision. Defined.

End InstructionError.
Abbreviation InstructionError := InstructionError.InstructionError.

(** What ends an instruction early: the error value a program returns, an
    error the runtime raises in a call, or a Rust panic.  In the three cases
    the transaction is rolled back. *)
Inductive Fault : Type :=
| ProgErr (e : ProgramError)
| InstrErr (e : InstructionError)
| Panic.

#[global] Instance Fault_eq_dec : EqDecision Fault.
Proof. solve_decision. Defined.

#[export] Instance ProgramError_into_Fault : FromErr ProgramError Fault := ProgErr.
#[export] Instance InstructionError_into_Fault : FromErr InstructionError Fault := InstrErr.
#[export] Instance CoreError_into_Fault : FromErr CoreError Fault :=
  fun e => ProgErr (from_err e).
#[export] Instance VaultError_into_Fault : FromErr VaultError Fault :=
  fun e => ProgErr (from_err e).
#[export] Instance RestakingError_into_Fault : FromErr RestakingError Fault :=
  fun e => ProgErr (from_err e).
