(* ===== verification/Pod.v ===== *)
(** * Plain-old-data layouts and account deserialization

    [bytemuck/src/types.rs] ([PodU16], [PodU64], [PodBool]: little-endian
    byte arrays) and [bytemuck/src/lib.rs] ([AccountDeserialize]).  A
    [#[repr(C)]] struct of byte-aligned fields is the concatenation of its
    fields, so layouts are built from a codec per field type with [pod_pair]
    and [pod_iso]; the laws of [LawfulPod] are the two round trips. *)

From stdpp Require Import base numbers list.
From Stdlib Require Import Lia.
From S2P Require Import Prelude Errors.
Local Open Scope Z_scope.

(** A byte is a [Z] in range, a byte string a list of them. *)
Definition is_byte (b : Z) : Prop := 0 <= b < 256.
Definition bytes_wf (bs : list Z) : Prop := Forall is_byte bs.

(** ** Little-endian integers ([to_le_bytes], [from_le_bytes]) *)

Fixpoint to_le_bytes (n : nat) (z : Z) : list Z :=
  match n with
  | O => []
  | S n => z mod 256 :: to_le_bytes n (z / 256)
  end.

Fixpoint from_le_bytes (bs : list Z) : Z :=
  match bs with
  | [] => 0
  | b :: bs => b + 256 * from_le_bytes bs
  end.

(** ** Codecs *)

Record codec (A : Type) := Codec {
  pod_size : nat;
  pod_wf : A -> Prop;
  to_bytes : A -> list Z;
  of_bytes : list Z -> A;
}.
Arguments Codec {A} _ _ _ _.
Arguments pod_size {A} _.
Arguments pod_wf {A} _ _.
Arguments to_bytes {A} _ _.
Arguments of_bytes {A} _ _.

(** An integer of [n] bytes whose range is [P]: [u8] and the [Pod*]
    integers. *)
Definition pod_uint (n : nat) (P : Z -> Prop) : codec Z :=
  Codec n P (to_le_bytes n) from_le_bytes.
Definition pod_u8 : codec Z := pod_uint 1 is_u8.
Definition PodU16 : codec Z := pod_uint 2 is_u16.
Definition PodU64 : codec Z := pod_uint 8 is_u64.
(** A 32-byte key, as the integer its bytes denote. *)
Definition is_pubkey (z : Z) : Prop := 0 <= z < 2 ^ 256.
Definition pod_pubkey : codec Z := pod_uint 32 is_pubkey.

(** [[u8; n]]. *)
Definition pod_array (n : nat) : codec (list Z) :=
  Codec n (fun bs => length bs = n /\ bytes_wf bs) id id.

Definition pod_pair {A B} (c1 : codec A) (c2 : codec B) : codec (A * B) :=
  Codec (pod_size c1 + pod_size c2)
    (fun p => pod_wf c1 p.1 /\ pod_wf c2 p.2)
    (fun p => to_bytes c1 p.1 ++ to_bytes c2 p.2)
    (fun bs => (of_bytes c1 (take (pod_size c1) bs), of_bytes c2 (drop (pod_size c1) bs))).

(** A struct from the tuple of its fields. *)
Definition pod_iso {A B} (f : A -> B) (g : B -> A) (c : codec A) : codec B :=
  Codec (pod_size c) (fun b => pod_wf c (g b)) (fun b => to_bytes c (g b))
    (fun bs => f (of_bytes c bs)).

(** [PodBool]: any byte is accepted, zero is [false]; the wrapped byte is kept. *)
Definition PodBool : codec Z := pod_u8.
Definition from_bool (b : bool) : Z := if b then 1 else 0.
Definition bool_from (b : Z) : bool := negb (b =? 0).

(** ** Account deserialization *)

Class AccountDeserialize (A : Type) := {
  acc_codec : codec A;
  DISCRIMINATOR : Z;
}.

(** [bytemuck::try_from_bytes] of a byte-aligned type: only the size is
    checked. *)
Definition try_from_bytes {A} (c : codec A) (bs : list Z) : option A :=
  if Nat.eqb (length bs) (pod_size c) then Some (of_bytes c bs) else None.

(** The message of a discriminator mismatch evaluates [data.first().unwrap()],
    which panics on empty data; [&data[8..]] panics on data shorter than the
    header. *)
Definition try_from_slice_unchecked (A : Type) `{!AccountDeserialize A}
    (data : list Z) : result Fault A :=
  match data with
  | [] => Err Panic
  | b :: _ =>
      if negb (b =? DISCRIMINATOR) then Err (ProgErr ProgramError.InvalidAccountData)
      else if Nat.ltb (length data) 8 then Err Panic
      else into (ok_or (try_from_bytes acc_codec (drop 8 data)) ProgramError.InvalidAccountData)
  end.

(** Writing through the reference that [try_from_slice_unchecked_mut]
    returns: the header is kept, the struct's bytes are replaced. *)
Definition write_back {A} `{!AccountDeserialize A} (data : list Z) (a : A) : list Z :=
  take 8 data ++ to_bytes acc_codec a.

(** ** Laws *)

Class LawfulPod {A} (c : codec A) := {
  to_bytes_length a : length (to_bytes c a) = pod_size c \/ ~ pod_wf c a;
  to_bytes_wf a : pod_wf c a -> bytes_wf (to_bytes c a);
  of_to_bytes a : pod_wf c a -> of_bytes c (to_bytes c a) = a;
  to_of_bytes bs : length bs = pod_size c -> bytes_wf bs -> to_bytes c (of_bytes c bs) = bs;
  of_bytes_wf bs : length bs = pod_size c -> bytes_wf bs -> pod_wf c (of_bytes c bs);
}.

Lemma to_bytes_len {A} (c : codec A) `{!LawfulPod c} a :
  pod_wf c a -> length (to_bytes c a) = pod_size c.
Proof. intros Hwf. destruct (to_bytes_length a); [done|contradiction]. Qed.

Lemma bytes_wf_app bs1 bs2 : bytes_wf (bs1 ++ bs2) <-> bytes_wf bs1 /\ bytes_wf bs2.
Proof. apply Forall_app. Qed.
Lemma bytes_wf_take n bs : bytes_wf bs -> bytes_wf (take n bs).
Proof. apply Forall_take. Qed.
Lemma bytes_wf_drop n bs : bytes_wf bs -> bytes_wf (drop n bs).
Proof. apply Forall_drop. Qed.
#[export] Hint Resolve bytes_wf_take bytes_wf_drop : rust.

Lemma to_le_bytes_length n z : length (to_le_bytes n z) = n.
Proof. revert z; induction n; intros; simpl; auto. Qed.

Lemma to_le_bytes_wf n z : bytes_wf (to_le_bytes n z).
Proof.
  revert z; induction n as [|n IH]; intros z; simpl; [constructor|].
  constructor; [|apply IH]. unfold is_byte. apply Z.mod_pos_bound; lia.
Qed.

Lemma pow256_S n : 256 ^ Z.of_nat (S n) = 256 * 256 ^ Z.of_nat n.
Proof. rewrite Nat2Z.inj_succ, Z.pow_succ_r by lia. done. Qed.

Lemma from_to_le_bytes n z : 0 <= z < 256 ^ Z.of_nat n -> from_le_bytes (to_le_bytes n z) = z.
Proof.
  revert z; induction n as [|n IH]; intros z Hz; [simpl in *; lia|].
  rewrite pow256_S in Hz. simpl. rewrite IH.
  - pose proof (Z.div_mod z 256 ltac:(lia)). lia.
  - split; [apply Z.div_pos; lia|]. apply Z.div_lt_upper_bound; lia.
Qed.

Lemma from_le_bytes_bound bs : bytes_wf bs -> 0 <= from_le_bytes bs < 256 ^ Z.of_nat (length bs).
Proof.
  induction 1 as [|b bs Hb _ IH]; [simpl; lia|].
  cbn [length]. rewrite pow256_S. simpl from_le_bytes. unfold is_byte in Hb. lia.
Qed.

Lemma to_from_le_bytes bs : bytes_wf bs -> to_le_bytes (length bs) (from_le_bytes bs) = bs.
Proof.
  induction 1 as [|b bs Hb _ IH]; [done|]. unfold is_byte in Hb.
  cbn [length to_le_bytes from_le_bytes].
  replace ((b + 256 * from_le_bytes bs) mod 256) with b
    by (rewrite Z.mul_comm, Z.mod_add, Z.mod_small by lia; done).
  replace ((b + 256 * from_le_bytes bs) / 256) with (from_le_bytes bs)
    by (rewrite Z.mul_comm, Z.div_add, Z.div_small by lia; done).
  by rewrite IH.
Qed.

Lemma pod_uint_lawful n P :
  (forall z, P z <-> 0 <= z < 256 ^ Z.of_nat n) -> LawfulPod (pod_uint n P).
Proof.
  intros HP. split; simpl.
  - intros; left; apply to_le_bytes_length.
  - intros; apply to_le_bytes_wf.
  - intros a Ha; apply from_to_le_bytes, HP, Ha.
  - intros bs <- Hbs; by apply to_from_le_bytes.
  - intros bs <- Hbs; apply HP; by apply from_le_bytes_bound.
Qed.
Ltac solve_uint :=
  apply pod_uint_lawful; intros z;
  match goal with |- context [256 ^ ?e] =>
    let v := eval vm_compute in (256 ^ e) in change (256 ^ e) with v end;
  unfold is_u8, is_u16, is_u64, is_pubkey;
  try (let v := eval vm_compute in (2 ^ 256) in change (2 ^ 256) with v); lia.
#[export] Instance pod_u8_lawful : LawfulPod pod_u8.
Proof. solve_uint. Qed.
#[export] Instance PodBool_lawful : LawfulPod PodBool.
Proof. solve_uint. Qed.
#[export] Instance PodU16_lawful : LawfulPod PodU16.
Proof. solve_uint. Qed.
#[export] Instance PodU64_lawful : LawfulPod PodU64.
Proof. solve_uint. Qed.
#[export] Instance pod_pubkey_lawful : LawfulPod pod_pubkey.
Proof. solve_uint. Qed.

#[export] Instance pod_array_lawful n : LawfulPod (pod_array n).
Proof.
  split; simpl; try done; [|naive_solver].
  intros a. destruct (decide (length a = n)); [left; done|right; naive_solver].
Qed.

#[export] Instance pod_pair_lawful {A B} (c1 : codec A) (c2 : codec B) :
  LawfulPod c1 -> LawfulPod c2 -> LawfulPod (pod_pair c1 c2).
Proof.
  intros L1 L2. split; simpl.
  - intros [a b]; simpl. rewrite length_app.
    destruct (to_bytes_length (c := c1) a) as [->|?]; [|right; naive_solver].
    destruct (to_bytes_length (c := c2) b) as [->|?]; [by left|right; naive_solver].
  - intros [a b] [Ha Hb]; simpl in *. apply bytes_wf_app; split; by apply to_bytes_wf.
  - intros [a b] [Ha Hb]; simpl in *.
    rewrite take_app_length', drop_app_length' by (by rewrite to_bytes_len).
    by rewrite !of_to_bytes.
  - intros bs Hlen Hbs.
    rewrite !to_of_bytes; auto with rust;
      [apply take_drop | rewrite length_drop; lia | rewrite length_take; lia].
  - intros bs Hlen Hbs. split; apply of_bytes_wf; auto with rust;
      [rewrite length_take; lia | rewrite length_drop; lia].
Qed.

Lemma pod_iso_lawful {A B} (f : A -> B) (g : B -> A) (c : codec A) :
  LawfulPod c -> (forall a, g (f a) = a) -> (forall b, f (g b) = b) ->
  LawfulPod (pod_iso f g c).
Proof.
  intros L Hgf Hfg. split; simpl.
  - intros b. apply to_bytes_length.
  - intros b. apply to_bytes_wf.
  - intros b Hb. by rewrite of_to_bytes.
  - intros bs ??. rewrite Hgf. by apply to_of_bytes.
  - intros bs ??. rewrite Hgf. by apply of_bytes_wf.
Qed.

(** The struct instances: tuples and records are definitionally inverse. *)
Ltac solve_lawful :=
  apply pod_iso_lawful;
  [ repeat (apply pod_pair_lawful || apply _)
  | intros; repeat match goal with p : prod _ _ |- _ => destruct p end; reflexivity
  | by intros [] ].

Section Deserialize.
Context {A : Type} `{!AccountDeserialize A} `{!LawfulPod (acc_codec (A := A))}.

Definition account_len : nat := 8 + pod_size (acc_codec (A := A)).

(** Deserialization succeeds exactly on data of the account's length whose
    first byte is the discriminator. *)
Lemma try_from_slice_unchecked_Ok data a :
  try_from_slice_unchecked A data = Ok a <->
  length data = account_len /\ head data = Some DISCRIMINATOR /\
  a = of_bytes acc_codec (drop 8 data).
Proof.
  unfold try_from_slice_unchecked, account_len, try_from_bytes.
  destruct data as [|b bs]; [simpl; naive_solver|].
  destruct (Z.eqb_spec b DISCRIMINATOR) as [->|Hb]; simpl negb; cbv iota;
    [|simpl; naive_solver].
  destruct (Nat.ltb_spec (length (DISCRIMINATOR :: bs)) 8) as [Hlt|Hge].
  { split; [done|]. intros (Hl & _). lia. }
  rewrite into_Ok, ok_or_Ok.
  destruct (Nat.eqb_spec (length (drop 8 (DISCRIMINATOR :: bs))) (pod_size acc_codec)) as [He|He];
    rewrite length_drop in He.
  - split; [intros [= <-]; split; [lia|done] | intros (_ & _ & ->); done].
  - split; [done|]. intros (Hl & _). lia.
Qed.

Lemma write_back_length data a :
  pod_wf acc_codec a -> length data = account_len -> length (write_back data a) = account_len.
Proof.
  unfold write_back, account_len. intros Ha Hl.
  rewrite length_app, length_take, to_bytes_len by done. lia.
Qed.

(** What is written through the mutable reference is what the next
    deserialization reads. *)
Lemma try_from_write_back data a a' :
  pod_wf acc_codec a' -> try_from_slice_unchecked A data = Ok a ->
  try_from_slice_unchecked A (write_back data a') = Ok a'.
Proof.
  intros Hwf (Hl & Hh & _)%try_from_slice_unchecked_Ok.
  apply try_from_slice_unchecked_Ok. rewrite write_back_length by done.
  assert (length (take 8 data) = 8%nat) as Ht
    by (rewrite length_take; unfold account_len in Hl; lia).
  unfold write_back. split_and!; [done| |].
  - destruct data as [|b bs]; [done|]. done.
  - rewrite drop_app_length' by done. by rewrite of_to_bytes.
Qed.

(** A write that changes nothing leaves the bytes as they were. *)
Lemma write_back_id data a :
  bytes_wf data -> try_from_slice_unchecked A data = Ok a -> write_back data a = data.
Proof.
  intros Hb (Hl & _ & ->)%try_from_slice_unchecked_Ok. unfold write_back.
  rewrite to_of_bytes; [apply take_drop| |by apply bytes_wf_drop].
  rewrite length_drop. unfold account_len in Hl. lia.
Qed.

Lemma try_from_slice_wf data a :
  bytes_wf data -> try_from_slice_unchecked A data = Ok a -> pod_wf acc_codec a.
Proof.
  intros Hb (Hl & _ & ->)%try_from_slice_unchecked_Ok.
  apply of_bytes_wf; [|by apply bytes_wf_drop].
  rewrite length_drop. unfold account_len in Hl. lia.
Qed.
End Deserialize.
Arguments account_len A {_}.
