(* ===== verification/DelegationState.v ===== *)
(** * Delegated stake of an operator ([vault_core/src/delegation_state.rs])

    The three buckets of stake, their movement (delegate, cool down, epoch
    update), slashing, and aggregation into a vault's totals.  Methods that
    take [&mut self] return the new value; when they fail the transaction is
    rolled back, so an error carries no state. *)

From stdpp Require Import base numbers list.
From Stdlib Require Import Lia.
From S2P Require Import Prelude Errors Pod.
Local Open Scope Z_scope.

Module DelegationState.

Record DelegationState := mk {
  staked_amount : Z;
  enqueued_for_cooldown_amount : Z;
  cooling_down_amount : Z;
  reserved : list Z;
}.

#[global] Instance eta_DelegationState : Eta DelegationState := fun d =>
  mk (staked_amount d) (enqueued_for_cooldown_amount d) (cooling_down_amount d) (reserved d).

Definition RESERVED_SPACE_LEN : nat := 256.

Definition layout : codec DelegationState :=
  pod_iso (fun '(a, (b, (c, r))) => mk a b c r)
    (fun d => (staked_amount d, (enqueued_for_cooldown_amount d, (cooling_down_amount d, reserved d))))
    (pod_pair PodU64 (pod_pair PodU64 (pod_pair PodU64 (pod_array RESERVED_SPACE_LEN)))).

Definition default : DelegationState := mk 0 0 0 (replicate RESERVED_SPACE_LEN 0).

Definition new (staked_amount enqueued_for_cooldown_amount cooling_down_amount : Z)
    : DelegationState :=
  mk staked_amount enqueued_for_cooldown_amount cooling_down_amount
    (replicate RESERVED_SPACE_LEN 0).

Definition subtract (self other : DelegationState) : result VaultError DelegationState :=
  let? staked := ok_or (checked_sub (staked_amount self) (staked_amount other))
      VaultError.VaultSecurityUnderflow in
  let? enqueued := ok_or (checked_sub (enqueued_for_cooldown_amount self)
      (enqueued_for_cooldown_amount other)) VaultError.VaultSecurityUnderflow in
  let? cooling := ok_or (checked_sub (cooling_down_amount self) (cooling_down_amount other))
      VaultError.VaultSecurityUnderflow in
  Ok self<|staked_amount := staked|><|enqueued_for_cooldown_amount := enqueued|>
         <|cooling_down_amount := cooling|>.

Definition accumulate (self other : DelegationState) : result VaultError DelegationState :=
  let? staked := ok_or (checked_add U64_MAX (staked_amount self) (staked_amount other))
      VaultError.VaultSecurityOverflow in
  let? enqueued := ok_or (checked_add U64_MAX (enqueued_for_cooldown_amount self)
      (enqueued_for_cooldown_amount other)) VaultError.VaultSecurityOverflow in
  let? cooling := ok_or (checked_add U64_MAX (cooling_down_amount self)
      (cooling_down_amount other)) VaultError.VaultSecurityOverflow in
  Ok self<|staked_amount := staked|><|enqueued_for_cooldown_amount := enqueued|>
         <|cooling_down_amount := cooling|>.

Definition total_security (self : DelegationState) : result VaultError Z :=
  ok_or
    (checked_add U64_MAX (staked_amount self) (enqueued_for_cooldown_amount self) ≫= fun x =>
     checked_add U64_MAX x (cooling_down_amount self))
    VaultError.VaultSecurityOverflow.

Definition update (self : DelegationState) : DelegationState :=
  self<|cooling_down_amount := enqueued_for_cooldown_amount self|>
      <|enqueued_for_cooldown_amount := 0|>.

(** The closure of [slash]: the amount it is given and the captured
    [remaining_slash], both updated. *)
Definition apply_slash (amount remaining_slash : Z) : result VaultError (Z * Z) :=
  if (amount =? 0) || (remaining_slash =? 0) then Ok (amount, remaining_slash)
  else
    let slash_amount := Z.min amount remaining_slash in
    let? amount' := ok_or (checked_sub amount slash_amount) VaultError.VaultSecurityUnderflow in
    let? remaining' := ok_or (checked_sub remaining_slash slash_amount)
        VaultError.VaultSecurityUnderflow in
    Ok (amount', remaining').

Definition slash (self : DelegationState) (slash_amount : Z)
    : result VaultError DelegationState :=
  let? total_security_amount := total_security self in
  if slash_amount >? total_security_amount then Err VaultError.VaultSlashUnderflow
  else
    let? (staked, remaining) := apply_slash (staked_amount self) slash_amount in
    let? (enqueued, remaining) := apply_slash (enqueued_for_cooldown_amount self) remaining in
    let? (cooling, remaining) := apply_slash (cooling_down_amount self) remaining in
    if remaining >? 0 then Err VaultError.VaultSlashIncomplete
    else Ok self<|staked_amount := staked|><|enqueued_for_cooldown_amount := enqueued|>
                <|cooling_down_amount := cooling|>.

Definition cooldown (self : DelegationState) (amount : Z) : result VaultError DelegationState :=
  if amount =? 0 then Err VaultError.VaultCooldownZero
  else
    let? staked := ok_or (checked_sub (staked_amount self) amount)
        VaultError.VaultSecurityUnderflow in
    let? enqueued := ok_or (checked_add U64_MAX (enqueued_for_cooldown_amount self) amount)
        VaultError.VaultSecurityOverflow in
    Ok self<|staked_amount := staked|><|enqueued_for_cooldown_amount := enqueued|>.

Definition delegate (self : DelegationState) (amount : Z) : result VaultError DelegationState :=
  if amount =? 0 then Err VaultError.VaultDelegationZero
  else
    let? staked := ok_or (checked_add U64_MAX (staked_amount self) amount)
        VaultError.VaultSecurityOverflow in
    Ok self<|staked_amount := staked|>.

(** ** Invariant and abstract view *)

(** Every bucket holds a [u64]. *)
Definition wf (d : DelegationState) : Prop :=
  is_u64 (staked_amount d) /\ is_u64 (enqueued_for_cooldown_amount d) /\
  is_u64 (cooling_down_amount d).

(** The mathematical sum of the buckets. *)
Definition sum (d : DelegationState) : Z :=
  staked_amount d + enqueued_for_cooldown_amount d + cooling_down_amount d.

End DelegationState.
Abbreviation DelegationState := DelegationState.DelegationState.
Import DelegationState.

#[export] Instance DelegationState_lawful : LawfulPod layout.
Proof. solve_lawful. Qed.

Lemma total_security_Ok d s :
  wf d -> total_security d = Ok s <-> s = sum d /\ sum d <= U64_MAX.
Proof.
  unfold total_security, wf, sum, is_u64. intros (?&?&?). rewrite ok_or_Ok. split.
  - intros Ht; inv_ok. lia.
  - intros [-> ?]. unfold checked_add.
    destruct (Z.leb_spec (staked_amount d + enqueued_for_cooldown_amount d) U64_MAX); [|lia].
    simpl. destruct (Z.leb_spec (staked_amount d + enqueued_for_cooldown_amount d
      + cooling_down_amount d) U64_MAX); [done|lia].
Qed.

Lemma apply_slash_Ok a r :
  0 <= a -> 0 <= r -> apply_slash a r = Ok (a - Z.min a r, r - Z.min a r).
Proof.
  intros Ha Hr. unfold apply_slash.
  destruct (Z.eqb_spec a 0); simpl; [f_equal; f_equal; lia|].
  destruct (Z.eqb_spec r 0); simpl; [f_equal; f_equal; lia|].
  unfold checked_sub.
  destruct (Z.leb_spec (Z.min a r) a); [|lia]. simpl.
  destruct (Z.leb_spec (Z.min a r) r); [done|lia].
Qed.

(** The staged slash of [amount]: first the stake, then the enqueued bucket,
    then the cooling bucket. *)
Definition slashed (d : DelegationState) (amount : Z) : DelegationState :=
  let s1 := Z.min (staked_amount d) amount in
  let s2 := Z.min (enqueued_for_cooldown_amount d) (amount - s1) in
  let s3 := Z.min (cooling_down_amount d) (amount - s1 - s2) in
  d<|staked_amount := staked_amount d - s1|>
   <|enqueued_for_cooldown_amount := enqueued_for_cooldown_amount d - s2|>
   <|cooling_down_amount := cooling_down_amount d - s3|>.

Lemma slash_eq d amount :
  wf d -> 0 <= amount -> sum d <= U64_MAX ->
  slash d amount = if amount <=? sum d then Ok (slashed d amount)
                   else Err VaultError.VaultSlashUnderflow.
Proof.
  intros Hwf Ha Hs. unfold slash.
  rewrite (proj2 (total_security_Ok d (sum d) Hwf) (conj eq_refl Hs)). simpl.
  rewrite Z.gtb_ltb. destruct (Z.leb_spec amount (sum d)), (Z.ltb_spec (sum d) amount); try lia;
    [|done].
  unfold wf, is_u64, sum in *.
  rewrite apply_slash_Ok by lia. simpl. rewrite apply_slash_Ok by lia. simpl.
  rewrite apply_slash_Ok by lia. simpl.
  rewrite Z.gtb_ltb.
  match goal with |- context [0 <? ?e] => destruct (Z.ltb_spec 0 e); [lia|done] end.
Qed.

Lemma slash_overflow d amount :
  wf d -> U64_MAX < sum d -> slash d amount = Err VaultError.VaultSecurityOverflow.
Proof.
  intros Hwf Hs. unfold slash. destruct (total_security d) as [t|e] eqn:Ht; simpl.
  - apply total_security_Ok in Ht; [lia|done].
  - unfold total_security in Ht. by apply ok_or_Err in Ht as [_ <-].
Qed.

(** ** Preservation of the invariant, and the effect on the total *)

Ltac ds_solve :=
  unfold wf, sum, is_u64 in *; simpl in *; split_and?; try lia.

Lemma subtract_Ok d o d' :
  wf d -> wf o -> subtract d o = Ok d' ->
  wf d' /\ sum d' = sum d - sum o /\ reserved d' = reserved d /\
  staked_amount d' = staked_amount d - staked_amount o /\
  enqueued_for_cooldown_amount d' =
    enqueued_for_cooldown_amount d - enqueued_for_cooldown_amount o /\
  cooling_down_amount d' = cooling_down_amount d - cooling_down_amount o.
Proof. intros Hd Ho H. unfold subtract in H. inv_ok. ds_solve; done. Qed.

Lemma accumulate_Ok d o d' :
  wf d -> wf o -> accumulate d o = Ok d' ->
  wf d' /\ sum d' = sum d + sum o /\ reserved d' = reserved d /\
  staked_amount d' = staked_amount d + staked_amount o /\
  enqueued_for_cooldown_amount d' =
    enqueued_for_cooldown_amount d + enqueued_for_cooldown_amount o /\
  cooling_down_amount d' = cooling_down_amount d + cooling_down_amount o.
Proof. intros Hd Ho H. unfold accumulate in H. inv_ok. ds_solve; done. Qed.

Lemma delegate_Ok d amount d' :
  wf d -> is_u64 amount -> delegate d amount = Ok d' ->
  wf d' /\ sum d' = sum d + amount /\ 0 < amount /\
  d' = d<|staked_amount := staked_amount d + amount|>.
Proof. intros Hd Ha H. unfold delegate in H. inv_ok. ds_solve; done. Qed.

Lemma cooldown_Ok d amount d' :
  wf d -> is_u64 amount -> cooldown d amount = Ok d' ->
  wf d' /\ sum d' = sum d /\ 0 < amount <= staked_amount d /\
  d' = d<|staked_amount := staked_amount d - amount|>
        <|enqueued_for_cooldown_amount := enqueued_for_cooldown_amount d + amount|>.
Proof. intros Hd Ha H. unfold cooldown in H. inv_ok. ds_solve; done. Qed.

Lemma update_wf d : wf d -> wf (update d).
Proof. ds_solve. Qed.

Lemma update_sum d : sum (update d) = sum d - cooling_down_amount d.
Proof. unfold sum, update; simpl. lia. Qed.

Lemma slashed_wf d amount :
  wf d -> 0 <= amount <= sum d -> wf (slashed d amount) /\ sum (slashed d amount) = sum d - amount.
Proof. intros Hd Ha. unfold slashed. ds_solve. Qed.

(** Two epochs empty both cooldown buckets; further updates change nothing. *)
Lemma update_fixpoint d n :
  Nat.iter (2 + n) update d
  = d<|enqueued_for_cooldown_amount := 0|><|cooling_down_amount := 0|>.
Proof. induction n as [|n IH]; [by destruct d|]. simpl in *. by rewrite IH. Qed.

(** ** Claims *)

(** Slashing takes exactly the amount, from the fullest commitment first.
    [slash] fails only when the total security does not fit in 64 bits or is
    less than the amount; otherwise the total falls by exactly the amount,
    enqueued stake is touched only after all staked tokens are gone and
    cooling stake only after both, and the error for an incomplete slash is
    never returned. *)
Theorem slash_is_exact_and_ordered d amount :
  wf d -> 0 <= amount ->
  match slash d amount with
  | Ok d' =>
      amount <= sum d /\ wf d' /\ sum d' = sum d - amount /\ reserved d' = reserved d /\
      staked_amount d' = Z.max 0 (staked_amount d - amount) /\
      (enqueued_for_cooldown_amount d' <> enqueued_for_cooldown_amount d ->
       staked_amount d' = 0) /\
      (cooling_down_amount d' <> cooling_down_amount d ->
       staked_amount d' = 0 /\ enqueued_for_cooldown_amount d' = 0)
  | Err VaultError.VaultSecurityOverflow => U64_MAX < sum d
  | Err VaultError.VaultSlashUnderflow => sum d < amount
  | Err _ => False
  end.
Proof.
  intros Hwf Ha. destruct (Z.lt_ge_cases U64_MAX (sum d)) as [Hs|Hs].
  { by rewrite slash_overflow. }
  rewrite slash_eq by done. destruct (Z.leb_spec amount (sum d)) as [Hle|Hgt]; [|done].
  destruct (slashed_wf d amount Hwf ltac:(lia)) as [Hwf' Hsum'].
  split_and!; try done; unfold slashed, wf, is_u64 in *; simpl; lia.
Qed.

Lemma slash_is_exact_and_ordered_witness :
  exists d', slash (new 100 50 20) 130 = Ok d' /\ sum d' = 40 /\
    staked_amount d' = 0 /\ enqueued_for_cooldown_amount d' = 20 /\ cooling_down_amount d' = 20.
Proof.
  pose proof (slash_is_exact_and_ordered (new 100 50 20) 130
    ltac:(unfold wf, is_u64; cbn; lia) ltac:(lia)) as H.
  destruct (slash (new 100 50 20) 130) as [d'|] eqn:E; [|vm_compute in E; done].
  exists d'. vm_compute in E. injection E as <-. repeat split; reflexivity.
Defined.

(** [accumulate] and [subtract] are inverse.  Subtracting what was
    accumulated gives back the state, and a successful subtraction is undone
    by accumulating. *)
Theorem accumulate_subtract_roundtrip d o d' :
  wf d -> wf o ->
  (accumulate d o = Ok d' -> subtract d' o = Ok d) /\
  (subtract d o = Ok d' -> accumulate d' o = Ok d).
Proof.
  intros Hd Ho. split; intros H.
  - apply accumulate_Ok in H as (_ & _ & Hr & H1 & H2 & H3); [|done|done].
    unfold subtract. rewrite H1, H2, H3. unfold wf, is_u64, checked_sub in *.
    rewrite !(proj2 (Z.leb_le _ _)) by lia. destruct d, d'; simpl in *. subst.
    unfold set_field; simpl. do 2 f_equal; lia.
  - apply subtract_Ok in H as (Hw & _ & Hr & H1 & H2 & H3); [|done|done].
    unfold accumulate. rewrite H1, H2, H3. unfold wf, is_u64, checked_add in *.
    rewrite !(proj2 (Z.leb_le _ _)) by lia. destruct d, d'; simpl in *. subst.
    unfold set_field; simpl. do 2 f_equal; lia.
Qed.

Lemma accumulate_subtract_roundtrip_witness :
  accumulate (new 100 50 20) (new 7 8 9) = Ok (new 107 58 29) /\
  subtract (new 107 58 29) (new 7 8 9) = Ok (new 100 50 20).
Proof.
  assert (accumulate (new 100 50 20) (new 7 8 9) = Ok (new 107 58 29)) as E
    by (vm_compute; reflexivity).
  split; [exact E|].
  apply (accumulate_subtract_roundtrip (new 100 50 20) (new 7 8 9) (new 107 58 29));
    [unfold wf, is_u64; cbn; lia|unfold wf, is_u64; cbn; lia|exact E].
Defined.
