(* ===== verification/SlotToggle.v ===== *)
(** * Slot-toggled features ([core/src/slot_toggle.rs], [core/src/lib.rs])

    A [SlotToggle] records the slots at which a feature was last added and
    removed; its state (inactive, warming up, active, cooling down) is
    computed from the two slots and the current epoch.  The file models the
    struct and its methods, an abstract timer automaton, and proves that the
    struct implements the automaton along every history of calls. *)

From stdpp Require Import base numbers list.
From Stdlib Require Import Lia.
From S2P Require Import Prelude Errors Pod.
Local Open Scope Z_scope.

(** [jito_jsm_core::get_epoch]. *)
Definition get_epoch (slot epoch_length : Z) : result CoreError Z :=
  let? epoch := ok_or (checked_div slot epoch_length) CoreError.BadEpochLength in
  Ok epoch.

Module SlotToggle.

Record SlotToggle := mk {
  slot_added : Z;
  slot_removed : Z;
  reserved : list Z;
}.

#[global] Instance eta_SlotToggle : Eta SlotToggle := fun t =>
  mk (slot_added t) (slot_removed t) (reserved t).

Definition layout : codec SlotToggle :=
  pod_iso (fun '(a, (b, r)) => mk a b r)
    (fun t => (slot_added t, (slot_removed t, reserved t)))
    (pod_pair PodU64 (pod_pair PodU64 (pod_array 32))).

Inductive SlotToggleState : Type :=
| Inactive
| WarmUp
| Active
| Cooldown.

#[global] Instance SlotToggleState_eq_dec : EqDecision SlotToggleState.
Proof. solve_decision. Defined.

Definition new (slot : Z) : SlotToggle := mk slot slot (replicate 32 0).

Definition state (self : SlotToggle) (slot epoch_length : Z)
    : result ProgramError SlotToggleState :=
  let? current_epoch := get_epoch slot epoch_length in
  match slot_added self ?= slot_removed self with
  | Eq => Ok Inactive
  | Lt =>
      let? slot_removed_epoch := get_epoch (slot_removed self) epoch_length in
      let? next := ok_or (checked_add U64_MAX slot_removed_epoch 1)
          ProgramError.ArithmeticOverflow in
      if current_epoch >? next then Ok Inactive else Ok Cooldown
  | Gt =>
      let? slot_added_epoch := get_epoch (slot_added self) epoch_length in
      let? next := ok_or (checked_add U64_MAX slot_added_epoch 1)
          ProgramError.ArithmeticOverflow in
      if current_epoch >? next then Ok Active else Ok WarmUp
  end.

Definition activate (self : SlotToggle) (slot epoch_length : Z)
    : result ProgramError (SlotToggle * bool) :=
  let? st := state self slot epoch_length in
  match st with
  | Inactive =>
      if slot_added self =? slot then Ok (self, false)
      else Ok (self<|slot_added := slot|>, true)
  | _ => Ok (self, false)
  end.

Definition deactivate (self : SlotToggle) (slot epoch_length : Z)
    : result ProgramError (SlotToggle * bool) :=
  let? st := state self slot epoch_length in
  match st with
  | Active => Ok (self<|slot_removed := slot|>, true)
  | _ => Ok (self, false)
  end.

Definition is_active_or_cooldown (self : SlotToggle) (slot epoch_length : Z)
    : result ProgramError bool :=
  let? st := state self slot epoch_length in
  Ok (match st with Active | Cooldown => true | _ => false end).

Definition is_active (self : SlotToggle) (slot epoch_length : Z) : result ProgramError bool :=
  let? st := state self slot epoch_length in
  Ok (match st with Active => true | _ => false end).

(** ** Histories of calls *)

Inductive Call : Type :=
| Activate (slot : Z)
| Deactivate (slot : Z).

Definition call_slot (c : Call) : Z :=
  match c with Activate s | Deactivate s => s end.

Definition do_call (epoch_length : Z) (t : SlotToggle) (c : Call)
    : result ProgramError (SlotToggle * bool) :=
  match c with
  | Activate s => activate t s epoch_length
  | Deactivate s => deactivate t s epoch_length
  end.

(** Run a history, collecting what each call answered. *)
Fixpoint run (epoch_length : Z) (t : SlotToggle) (cs : list Call)
    : result ProgramError (SlotToggle * list bool) :=
  match cs with
  | [] => Ok (t, [])
  | c :: cs =>
      let? (t1, b) := do_call epoch_length t c in
      let? (t2, bs) := run epoch_length t1 cs in
      Ok (t2, b :: bs)
  end.

(** ** The abstract automaton: which phase was entered, and when *)

Inductive Phase : Type :=
| Created (slot : Z)
| On (epoch : Z)
| Off (epoch : Z).

#[global] Instance Phase_eq_dec : EqDecision Phase.
Proof. solve_decision. Defined.

(** One full epoch has to pass after the epoch of the switch. *)
Definition phase_state (p : Phase) (epoch : Z) : SlotToggleState :=
  match p with
  | Created _ => Inactive
  | On e => if e + 2 <=? epoch then Active else WarmUp
  | Off e => if e + 2 <=? epoch then Inactive else Cooldown
  end.

Definition phase_call (epoch_length : Z) (p : Phase) (c : Call) : Phase * bool :=
  let e := call_slot c / epoch_length in
  match c, phase_state p e with
  | Activate s, Inactive =>
      if decide (p = Created s) then (p, false) else (On e, true)
  | Deactivate _, Active => (Off e, true)
  | _, _ => (p, false)
  end.

Fixpoint phase_run (epoch_length : Z) (p : Phase) (cs : list Call) : Phase * list bool :=
  match cs with
  | [] => (p, [])
  | c :: cs =>
      let '(p1, b) := phase_call epoch_length p c in
      let '(p2, bs) := phase_run epoch_length p1 cs in
      (p2, b :: bs)
  end.

(** The slots of a history never decrease and stay below the largest [u64]. *)
Fixpoint history (from : Z) (cs : list Call) : Prop :=
  match cs with
  | [] => True
  | c :: cs => from <= call_slot c < U64_MAX /\ history (call_slot c) cs
  end.

(** The slot of the last call of a history. *)
Fixpoint last_slot (from : Z) (cs : list Call) : Z :=
  match cs with
  | [] => from
  | c :: cs => last_slot (call_slot c) cs
  end.

(** The simulation relation at a slot no later than the next call. *)
Definition sim (epoch_length : Z) (now : Z) (t : SlotToggle) (p : Phase) : Prop :=
  0 <= slot_added t <= now /\ 0 <= slot_removed t <= now /\
  match p with
  | Created s => slot_added t = s /\ slot_removed t = s
  | On e => slot_removed t < slot_added t /\ slot_added t / epoch_length = e
  | Off e => slot_added t < slot_removed t /\ slot_removed t / epoch_length = e
  end.

End SlotToggle.
Abbreviation SlotToggle := SlotToggle.SlotToggle.

(** [if !toggle.activate(..)? { return Err(e) }] and its counterpart, as the
    handlers that warm up or cool down a relation use them. *)
Definition activate_or {E} `{FromErr E ProgramError} (t : SlotToggle) (slot epoch_length : Z)
    (e : E) : result ProgramError SlotToggle :=
  let? (t', ok) := SlotToggle.activate t slot epoch_length in
  if negb ok then Err (from_err e) else Ok t'.

Definition deactivate_or {E} `{FromErr E ProgramError} (t : SlotToggle) (slot epoch_length : Z)
    (e : E) : result ProgramError SlotToggle :=
  let? (t', ok) := SlotToggle.deactivate t slot epoch_length in
  if negb ok then Err (from_err e) else Ok t'.

Import SlotToggle.


#[export] Instance SlotToggle_lawful : LawfulPod layout.
Proof. solve_lawful. Qed.

Lemma get_epoch_Ok slot el : 0 < el -> get_epoch slot el = Ok (slot / el).
Proof. intros. unfold get_epoch, checked_div. destruct (Z.eqb_spec el 0); [lia|done]. Qed.

Lemma get_epoch_inv slot el e : get_epoch slot el = Ok e -> e = slot / el /\ el <> 0.
Proof. intros H. unfold get_epoch in H. inv_ok. done. Qed.

Lemma epoch_mono el s1 s2 : 0 < el -> s1 <= s2 -> s1 / el <= s2 / el.
Proof. intros. apply Z.div_le_mono; lia. Qed.

Lemma epoch_le_slot el s : 0 < el -> 0 <= s -> 0 <= s / el <= s.
Proof.
  intros. split; [by apply Z.div_pos; lia|]. apply Z.div_le_upper_bound; nia.
Qed.

Lemma next_epoch_Ok {E} (e : E) el s :
  0 < el -> 0 <= s < U64_MAX ->
  ok_or (checked_add U64_MAX (s / el) 1) e = Ok (s / el + 1).
Proof.
  intros Hel Hs. pose proof (epoch_le_slot el s ltac:(lia) ltac:(lia)).
  apply ok_or_Ok, checked_add_Some. lia.
Qed.

Section Refinement.
Context (el : Z) (Hel : 0 < el).

Lemma state_sim now t p slot :
  sim el now t p -> now <= slot < U64_MAX ->
  state t slot el = Ok (phase_state p (slot / el)).
Proof.
  intros (Ha & Hr & Hp) Hs. unfold state. rewrite get_epoch_Ok by done. simpl.
  destruct p as [s|e|e]; simpl in Hp |- *.
  - destruct Hp as [-> ->]. by rewrite Z.compare_refl.
  - destruct Hp as [Hlt <-].
    rewrite (proj2 (Z.compare_gt_iff (slot_added t) (slot_removed t))) by lia.
    rewrite get_epoch_Ok by done. simpl. rewrite next_epoch_Ok by lia. simpl.
    rewrite Z.gtb_ltb.
    destruct (Z.ltb_spec (slot_added t / el + 1) (slot / el)),
      (Z.leb_spec (slot_added t / el + 2) (slot / el)); done || lia.
  - destruct Hp as [Hlt <-].
    rewrite (proj2 (Z.compare_lt_iff (slot_added t) (slot_removed t))) by lia.
    rewrite get_epoch_Ok by done. simpl. rewrite next_epoch_Ok by lia. simpl.
    rewrite Z.gtb_ltb.
    destruct (Z.ltb_spec (slot_removed t / el + 1) (slot / el)),
      (Z.leb_spec (slot_removed t / el + 2) (slot / el)); done || lia.
Qed.

Lemma sim_later now now' t p : sim el now t p -> now <= now' -> sim el now' t p.
Proof. unfold sim. intros (? & ? & ?) ?. split_and!; try lia. done. Qed.

(** A phase that reads as inactive was switched off strictly earlier. *)
Lemma sim_inactive_removed now t p slot :
  sim el now t p -> now <= slot -> phase_state p (slot / el) = Inactive ->
  p <> Created slot -> slot_removed t < slot /\ slot_added t < slot.
Proof.
  intros (Ha & Hr & Hp) Hs Hst Hne. destruct p as [s|e|e]; simpl in *.
  - destruct Hp as [E1 E2]. assert (s <> slot) by congruence. lia.
  - destruct (_ <=? _); done.
  - destruct Hp as [? <-]. destruct (Z.leb_spec (slot_removed t / el + 2) (slot / el)); [|done].
    assert (slot_removed t <> slot) by (intros <-; lia). lia.
Qed.

Lemma do_call_sim now t p c :
  sim el now t p -> now <= call_slot c < U64_MAX ->
  exists t', do_call el t c = Ok (t', (phase_call el p c).2) /\
    sim el (call_slot c) t' (phase_call el p c).1.
Proof.
  intros Hsim Hc. pose proof (sim_later _ (call_slot c) _ _ Hsim ltac:(lia)) as Hlater.
  destruct c as [s|s]; simpl in *; unfold phase_call, activate, deactivate;
    rewrite (state_sim _ _ _ _ Hsim Hc); simpl;
    destruct (phase_state p (s / el)) eqn:Hst; eauto.
  - destruct (decide (p = Created s)) as [->|Hne].
    + destruct Hsim as (_ & _ & <- & _). rewrite Z.eqb_refl. eauto.
    + destruct (sim_inactive_removed now t p s Hsim ltac:(lia) Hst Hne).
      destruct (Z.eqb_spec (slot_added t) s); [lia|].
      eexists; split; [done|]. destruct Hlater as (? & ? & _).
      split_and!; simpl; try lia.
  - eexists; split; [done|]. destruct Hlater as (Ha & Hr & Hp).
    split_and!; simpl; try lia.
    destruct p as [?|e|e]; simpl in *; [done| |destruct (_ <=? _); done].
    destruct Hp as [? <-]. destruct (Z.leb_spec (slot_added t / el + 2) (s / el)); [|done].
    assert (slot_added t <> s) by (intros <-; lia). lia.
Qed.

Lemma run_sim now t p cs :
  sim el now t p -> history now cs ->
  exists t', run el t cs = Ok (t', (phase_run el p cs).2) /\
    sim el (last_slot now cs) t' (phase_run el p cs).1.
Proof.
  revert now t p. induction cs as [|c cs IH]; intros now t p Hsim Hh; simpl.
  { eauto. }
  destruct Hh as [Hc Hh].
  destruct (do_call_sim _ _ _ _ Hsim Hc) as (t1 & -> & Hsim1). simpl.
  destruct (phase_call el p c) as [p1 b] eqn:Ep; simpl in *.
  destruct (IH _ _ _ Hsim1 Hh) as (t2 & Hrun & Hsim2). rewrite Hrun. simpl.
  destruct (phase_run el p1 cs) as [p2 bs]; simpl in *.
  eauto.
Qed.
End Refinement.

(** C40: the toggle implements the abstract timer automaton.  Along every
    history of [activate]/[deactivate] calls with non-decreasing slots no call
    fails, each answers what the automaton answers, and the state read at any
    later slot is the automaton's: warm-up and cooldown each last the rest of
    the epoch of the call and one full epoch more. *)
Theorem slot_toggle_refines el created cs :
  0 < el -> 0 <= created -> history created cs ->
  exists t, run el (new created) cs = Ok (t, (phase_run el (Created created) cs).2) /\
    forall slot, last_slot created cs <= slot < U64_MAX ->
      state t slot el = Ok (phase_state (phase_run el (Created created) cs).1 (slot / el)).
Proof.
  intros Hel Hc Hh.
  assert (sim el created (new created) (Created created)) as Hs
    by (unfold sim; simpl; lia).
  destruct (run_sim el Hel _ _ _ _ Hs Hh) as (t & Hrun & Hsim).
  exists t. split; [done|]. intros slot Hslot. by eapply state_sim.
Qed.

Lemma slot_toggle_refines_witness :
  exists t, run 150 (new 100) [Activate 100; Activate 101; Deactivate 401]
              = Ok (t, [false; true; true]) /\
            state t 599 150 = Ok Cooldown /\ state t 600 150 = Ok Inactive.
Proof.
  destruct (slot_toggle_refines 150 100 [Activate 100; Activate 101; Deactivate 401])
    as (t & Hrun & Hst); [lia|lia|simpl; lia|].
  exists t. split; [exact Hrun|]. split; (rewrite Hst; [reflexivity|simpl; lia]).
Defined.

Lemma state_bad_epoch_length t slot :
  state t slot 0 = Err (from_err CoreError.BadEpochLength).
Proof. done. Qed.
