(* ===== verification/Runtime.v ===== *)
(** * The runtime a program runs in

    Accounts and their privileges, the checks of the transaction context
    ([gorchain/transaction-context/src/lib.rs]: [BorrowedAccount]), the
    synchronisation of a program's memory with the transaction's accounts
    ([gorchain/syscalls/src/cpi.rs], [gorchain/program-runtime/src/serialization.rs])
    and the privilege rules of cross-program invocation
    ([gorchain/program-runtime/src/invoke_context.rs]).

    A program sees its accounts through a memory copy (the [view]); its
    writes reach the transaction only when they are committed, at a
    cross-program invocation and when the program returns, and that is where
    the runtime enforces ownership and writability. *)

From stdpp Require Import base numbers list gmap.
From Stdlib Require Import Lia.
From S2P Require Import Prelude Errors Pod.
Local Open Scope Z_scope.

Abbreviation Pubkey := Z (only parsing).
(** [Pubkey::default()] and [system_program::id()] are the all-zero key. *)
Definition Pubkey_default : Pubkey := 0.
Definition system_program_id : Pubkey := 0.

Record Account := mkAccount {
  lamports : Z;
  data : list Z;
  owner : Pubkey;
  executable : bool;
}.
#[export] Instance eta_Account : Eta Account := fun a =>
  mkAccount (lamports a) (data a) (owner a) (executable a).

(** An account that does not exist: no lamports, no data, owned by the
    system program. *)
Definition empty_account : Account := mkAccount 0 [] system_program_id false.

Abbreviation Store := (gmap Z Account).
Definition acct (s : Store) (k : Pubkey) : Account := default empty_account (s !! k).

(** An account of an instruction with its privileges: [AccountInfo] for the
    program, [InstructionAccount] for the runtime, [AccountMeta] in an
    instruction that a program builds. *)
Record AccountInfo := mkInfo {
  key : Pubkey;
  is_signer : bool;
  is_writable : bool;
}.

#[export] Instance AccountInfo_eq_dec : EqDecision AccountInfo.
Proof. solve_decision. Defined.

(** ** Instructions that the programs build for other programs *)

Inductive Instruction : Type :=
| system_create_account (from_pubkey to_pubkey : Pubkey) (lamports space : Z) (owner : Pubkey)
| system_transfer (from_pubkey to_pubkey : Pubkey) (lamports : Z)
| system_allocate (pubkey : Pubkey) (space : Z)
| system_assign (pubkey owner : Pubkey)
| token_transfer (token_program source destination authority : Pubkey) (amount : Z)
| token_mint_to (token_program mint account owner : Pubkey) (amount : Z)
| token_burn (token_program account mint authority : Pubkey) (amount : Z)
| token_close_account (token_program account destination owner : Pubkey)
| token_approve (token_program source delegate owner : Pubkey) (amount : Z)
| token_revoke (token_program source owner : Pubkey)
| token_initialize_mint2 (token_program mint mint_authority : Pubkey)
    (freeze_authority : option Pubkey) (decimals : Z)
| create_associated_token_account (funding wallet mint token_program : Pubkey)
| create_metadata_accounts_v3 (program metadata mint mint_authority payer update_authority : Pubkey)
    (name symbol uri : list Z)
| update_metadata_accounts_v2 (program metadata update_authority : Pubkey)
    (name symbol uri : list Z).

(** ** The transaction's accounts *)

Record Tx := mkTx {
  accounts : Store;
  resize_delta : Z;
  lamports_delta : Z;
}.
#[export] Instance eta_Tx : Eta Tx := fun t =>
  mkTx (accounts t) (resize_delta t) (lamports_delta t).

Definition MAX_ACCOUNT_DATA_LEN : Z := 10 * 1024 * 1024.
Definition MAX_ACCOUNT_DATA_GROWTH_PER_TRANSACTION : Z := MAX_ACCOUNT_DATA_LEN * 2.
Definition MAX_PERMITTED_DATA_INCREASE : Z := 10 * 1024.


Definition set_account (t : Tx) (k : Pubkey) (a : Account) : Tx :=
  t<|accounts := <[k := a]> (accounts t)|>.

(** ** [BorrowedAccount]: checked access to one account.  [prog] is the
    program that runs, [i] the account with its privileges. *)
Module BorrowedAccount.

Definition get (i : AccountInfo) (t : Tx) : Account := acct (accounts t) (key i).

Definition is_owned_by_current_program (prog : Pubkey) (i : AccountInfo) (t : Tx) : bool :=
  owner (get i t) =? prog.

Definition is_zeroed (bs : list Z) : bool := forallb (Z.eqb 0) bs.

Definition set_owner (prog : Pubkey) (i : AccountInfo) (pubkey : Pubkey) (t : Tx)
    : result InstructionError Tx :=
  if negb (is_owned_by_current_program prog i t) then Err InstructionError.ModifiedProgramId
  else if negb (is_writable i) then Err InstructionError.ModifiedProgramId
  else if negb (is_zeroed (data (get i t))) then Err InstructionError.ModifiedProgramId
  else if owner (get i t) =? pubkey then Ok t
  else Ok (set_account t (key i) (get i t)<|owner := pubkey|>).

Definition set_lamports (prog : Pubkey) (i : AccountInfo) (n : Z) (t : Tx)
    : result InstructionError Tx :=
  if negb (is_owned_by_current_program prog i t) && (n <? lamports (get i t))
  then Err InstructionError.ExternalAccountLamportSpend
  else if negb (is_writable i) then Err InstructionError.ReadonlyLamportChange
  else if lamports (get i t) =? n then Ok t
  else Ok (set_account t (key i) (get i t)<|lamports := n|>)
            <|lamports_delta := lamports_delta t + (n - lamports (get i t))|>.

Definition checked_add_lamports (prog : Pubkey) (i : AccountInfo) (n : Z) (t : Tx)
    : result InstructionError Tx :=
  let? total := ok_or (checked_add U64_MAX (lamports (get i t)) n)
      InstructionError.ArithmeticOverflow in
  set_lamports prog i total t.

Definition checked_sub_lamports (prog : Pubkey) (i : AccountInfo) (n : Z) (t : Tx)
    : result InstructionError Tx :=
  let? total := ok_or (checked_sub (lamports (get i t)) n)
      InstructionError.ArithmeticOverflow in
  set_lamports prog i total t.

Definition can_data_be_changed (prog : Pubkey) (i : AccountInfo) (t : Tx)
    : result InstructionError unit :=
  if negb (is_writable i) then Err InstructionError.ReadonlyDataModified
  else if negb (is_owned_by_current_program prog i t)
  then Err InstructionError.ExternalAccountDataModified
  else Ok tt.

Definition can_data_be_resized (prog : Pubkey) (i : AccountInfo) (new_len : Z) (t : Tx)
    : result InstructionError unit :=
  let old_len := zlen (data (get i t)) in
  if negb (new_len =? old_len) && negb (is_owned_by_current_program prog i t)
  then Err InstructionError.AccountDataSizeChanged
  else if new_len >? MAX_ACCOUNT_DATA_LEN then Err InstructionError.InvalidRealloc
  else if resize_delta t + (new_len - old_len) >? MAX_ACCOUNT_DATA_GROWTH_PER_TRANSACTION
  then Err InstructionError.MaxAccountsDataAllocationsExceeded
  else can_data_be_changed prog i t.

Definition set_data_from_slice (prog : Pubkey) (i : AccountInfo) (bs : list Z) (t : Tx)
    : result InstructionError Tx :=
  can_data_be_resized prog i (zlen bs) t ;?
  Ok (set_account t (key i) (get i t)<|data := bs|>)
       <|resize_delta := resize_delta t + (zlen bs - zlen (data (get i t)))|>.

(** Zero-extends or truncates. *)
Definition resize (bs : list Z) (n : Z) : list Z :=
  take (Z.to_nat n) bs ++ replicate (Z.to_nat (n - zlen bs)) 0.

Definition set_data_length (prog : Pubkey) (i : AccountInfo) (new_length : Z) (t : Tx)
    : result InstructionError Tx :=
  can_data_be_resized prog i new_length t ;?
  if zlen (data (get i t)) =? new_length then Ok t
  else Ok (set_account t (key i) (get i t)<|data := resize (data (get i t)) new_length|>)
            <|resize_delta := resize_delta t + (new_length - zlen (data (get i t)))|>.

End BorrowedAccount.

(** Bring one account of the program's memory into the transaction: lamports
    first, then data, then owner, each through the checks above.  Unchanged
    data is accepted where it may not be changed. *)
Definition commit_lamports (prog : Pubkey) (i : AccountInfo) (a : Account) (t : Tx)
    : result InstructionError Tx :=
  if lamports (BorrowedAccount.get i t) =? lamports a then Ok t
  else BorrowedAccount.set_lamports prog i (lamports a) t.

Definition commit_data (prog : Pubkey) (i : AccountInfo) (a : Account) (t : Tx)
    : result InstructionError Tx :=
  match BorrowedAccount.can_data_be_resized prog i (zlen (data a)) t with
  | Ok _ => BorrowedAccount.set_data_from_slice prog i (data a) t
  | Err e => if decide (data (BorrowedAccount.get i t) = data a) then Ok t else Err e
  end.

Definition commit_owner (prog : Pubkey) (i : AccountInfo) (a : Account) (t : Tx)
    : result InstructionError Tx :=
  if owner (BorrowedAccount.get i t) =? owner a then Ok t
  else BorrowedAccount.set_owner prog i (owner a) t.

(** Before a cross-program invocation. *)
Definition update_callee_account (prog : Pubkey) (i : AccountInfo) (a : Account) (t : Tx)
    : result InstructionError Tx :=
  let? t1 := commit_lamports prog i a t in
  let? t2 := commit_data prog i a t1 in
  commit_owner prog i a t2.

(** When the program returns; [pre_len] is the data length it was started
    with. *)
Definition deserialize_account (prog : Pubkey) (i : AccountInfo) (pre_len : Z) (a : Account)
    (t : Tx) : result InstructionError Tx :=
  let? t1 := commit_lamports prog i a t in
  if (saturating_sub (zlen (data a)) pre_len >? MAX_PERMITTED_DATA_INCREASE)
     || (zlen (data a) >? MAX_ACCOUNT_DATA_LEN)
  then Err InstructionError.InvalidRealloc
  else
    let? t2 := commit_data prog i a t1 in
    commit_owner prog i a t2.
