(* ===== verification/SystemProgram.v ===== *)
(** * The system program ([gorchain/programs/system/src/system_processor.rs])

    Creating accounts, allocating, assigning and transferring.  The
    instruction's accounts are the list [infos] with the privileges the caller
    granted. *)

From stdpp Require Import base numbers list gmap.
From Stdlib Require Import Lia.
From S2P Require Import Prelude Errors Pod Runtime.
Local Open Scope Z_scope.

Module SystemProgram.

(** [SystemError] codes, as [InstructionError::Custom]. *)
Definition AccountAlreadyInUse : InstructionError := InstructionError.Custom 0.
Definition ResultWithNegativeLamports : InstructionError := InstructionError.Custom 1.
Definition InvalidAccountDataLength : InstructionError := InstructionError.Custom 3.

Definition MAX_PERMITTED_DATA_LENGTH : Z := MAX_ACCOUNT_DATA_LEN.

Definition get_signers (infos : list AccountInfo) : list Pubkey :=
  map key (filter (fun i => is_signer i = true) infos).

(** An address with the account that signs for it when it was derived from a
    seed. *)
Record Address := mkAddress {
  address : Pubkey;
  base : option Pubkey;
}.

Definition address_is_signer (self : Address) (signers : list Pubkey) : bool :=
  match base self with
  | Some base => bool_decide (base ∈ signers)
  | None => bool_decide (address self ∈ signers)
  end.

Definition allocate (i : AccountInfo) (addr : Address) (space : Z) (signers : list Pubkey) (t : Tx)
    : result InstructionError Tx :=
  if negb (address_is_signer addr signers)
  then Err InstructionError.MissingRequiredSignature
  else if negb (Nat.eqb (length (data (BorrowedAccount.get i t))) 0)
          || negb (owner (BorrowedAccount.get i t) =? system_program_id)
  then Err AccountAlreadyInUse
  else if space >? MAX_PERMITTED_DATA_LENGTH then Err InvalidAccountDataLength
  else BorrowedAccount.set_data_length system_program_id i space t.

Definition assign (i : AccountInfo) (addr : Address) (new_owner : Pubkey) (signers : list Pubkey)
    (t : Tx) : result InstructionError Tx :=
  if owner (BorrowedAccount.get i t) =? new_owner then Ok t
  else if negb (address_is_signer addr signers)
  then Err InstructionError.MissingRequiredSignature
  else BorrowedAccount.set_owner system_program_id i new_owner t.

Definition allocate_and_assign (i : AccountInfo) (addr : Address) (space : Z) (new_owner : Pubkey)
    (signers : list Pubkey) (t : Tx) : result InstructionError Tx :=
  let? t1 := allocate i addr space signers t in
  assign i addr new_owner signers t1.

Definition transfer_verified (from to : AccountInfo) (n : Z) (t : Tx)
    : result InstructionError Tx :=
  if negb (Nat.eqb (length (data (BorrowedAccount.get from t))) 0)
  then Err InstructionError.InvalidArgument
  else if n >? lamports (BorrowedAccount.get from t) then Err ResultWithNegativeLamports
  else
    let? t1 := BorrowedAccount.checked_sub_lamports system_program_id from n t in
    BorrowedAccount.checked_add_lamports system_program_id to n t1.

Definition transfer (from to : AccountInfo) (n : Z) (t : Tx) : result InstructionError Tx :=
  if negb (is_signer from) then Err InstructionError.MissingRequiredSignature
  else transfer_verified from to n t.

Definition create_account (from to : AccountInfo) (to_address : Address) (n space : Z)
    (new_owner : Pubkey) (signers : list Pubkey) (t : Tx) : result InstructionError Tx :=
  if lamports (BorrowedAccount.get to t) >? 0 then Err AccountAlreadyInUse
  else
    let? t1 := allocate_and_assign to to_address space new_owner signers t in
    transfer from to n t1.

(** [Address::create] without a seed. *)
Definition own_address (i : AccountInfo) : Address := mkAddress (key i) None.

(** The dispatch of [Entrypoint] on the instructions that the restaking programs
    send; [NonceProgram] has all of them. *)
Definition process_instruction (ix : Instruction) (infos : list AccountInfo) (t : Tx)
    : result InstructionError Tx :=
  let signers := get_signers infos in
  match ix, infos with
  | system_create_account _ _ n space new_owner, from :: to :: _ =>
      create_account from to (own_address to) n space new_owner signers t
  | system_transfer _ _ n, from :: to :: _ => transfer from to n t
  | system_allocate _ space, i :: _ => allocate i (own_address i) space signers t
  | system_assign _ new_owner, i :: _ => assign i (own_address i) new_owner signers t
  | _, _ => Err InstructionError.NotEnoughAccountKeys
  end.

End SystemProgram.

Import SystemProgram.

(** ** What the checked setters do *)

Lemma acct_insert s k a : acct (<[k := a]> s) k = a.
Proof. unfold acct. by rewrite lookup_insert_eq. Qed.
Lemma acct_insert_ne s k k' a : k <> k' -> acct (<[k := a]> s) k' = acct s k'.
Proof. intros. unfold acct. by rewrite lookup_insert_ne. Qed.
#[export] Hint Rewrite acct_insert : rust.

Section Setters.
Context (prog : Pubkey).

(** [t'] differs from [t] at most in the account of key [k]. *)
Definition only_changes (k : Pubkey) (t t' : Tx) : Prop :=
  forall k', k' <> k -> acct (accounts t') k' = acct (accounts t) k'.

Lemma only_changes_refl k t : only_changes k t t.
Proof. done. Qed.
Lemma only_changes_set k a t : only_changes k t (set_account t k a).
Proof. intros k' Hk. simpl. by rewrite acct_insert_ne. Qed.
Lemma only_changes_trans k t1 t2 t3 :
  only_changes k t1 t2 -> only_changes k t2 t3 -> only_changes k t1 t3.
Proof. intros H1 H2 k' Hk. by rewrite H2, H1. Qed.

Lemma set_lamports_Ok i n t t' :
  BorrowedAccount.set_lamports prog i n t = Ok t' ->
  is_writable i = true /\
  (owner (BorrowedAccount.get i t) = prog \/ lamports (BorrowedAccount.get i t) <= n) /\
  BorrowedAccount.get i t' = (BorrowedAccount.get i t)<|lamports := n|> /\
  only_changes (key i) t t' /\
  lamports_delta t' = lamports_delta t + (n - lamports (BorrowedAccount.get i t)) /\
  resize_delta t' = resize_delta t.
Proof.
  unfold BorrowedAccount.set_lamports, BorrowedAccount.is_owned_by_current_program. intros H.
  destruct (negb _ && _) eqn:Hc; [done|].
  destruct (is_writable i) eqn:Hw; [|done]. simpl in H.
  split_and!; [done| | | | |].
  - bool_to_prop. destruct Hc; bool_to_prop; lia.
  - unfold BorrowedAccount.get in *.
    destruct (Z.eqb_spec (lamports (acct (accounts t) (key i))) n) as [<-|]; inv_ok.
    + by destruct (acct (accounts t') (key i)).
    + simpl. by rewrite acct_insert.
  - destruct (_ =? n); inv_ok; [apply only_changes_refl|apply only_changes_set].
  - destruct (Z.eqb_spec (lamports (BorrowedAccount.get i t)) n); inv_ok; simpl; lia.
  - destruct (_ =? n); inv_ok; done.
Qed.

Lemma set_data_length_Ok i n t t' :
  BorrowedAccount.set_data_length prog i n t = Ok t' ->
  is_writable i = true /\ owner (BorrowedAccount.get i t) = prog /\
  BorrowedAccount.get i t' =
    (BorrowedAccount.get i t)
      <|data := BorrowedAccount.resize (data (BorrowedAccount.get i t)) n|> /\
  only_changes (key i) t t' /\ lamports_delta t' = lamports_delta t.
Proof.
  intros H. unfold BorrowedAccount.set_data_length in H. inv_ok.
  assert (is_writable i = true /\ owner (BorrowedAccount.get i t) = prog) as [Hw Ho].
  { unfold BorrowedAccount.can_data_be_resized, BorrowedAccount.can_data_be_changed,
      BorrowedAccount.is_owned_by_current_program in Hr.
    inv_ok. done. }
  split_and!; [done|done| | |].
  - destruct (Z.eqb_spec (zlen (data (BorrowedAccount.get i t))) n) as [<-|]; inv_ok.
    + unfold BorrowedAccount.resize, zlen. rewrite Nat2Z.id, firstn_all, Z.sub_diag. simpl.
      rewrite app_nil_r. by destruct (BorrowedAccount.get i t').
    + unfold BorrowedAccount.get. simpl. by rewrite acct_insert.
  - destruct (_ =? n); inv_ok; [apply only_changes_refl|apply only_changes_set].
  - destruct (_ =? n); inv_ok; done.
Qed.

Lemma set_owner_Ok i pk t t' :
  BorrowedAccount.set_owner prog i pk t = Ok t' ->
  is_writable i = true /\ owner (BorrowedAccount.get i t) = prog /\
  BorrowedAccount.is_zeroed (data (BorrowedAccount.get i t)) = true /\
  BorrowedAccount.get i t' = (BorrowedAccount.get i t)<|owner := pk|> /\
  only_changes (key i) t t' /\ lamports_delta t' = lamports_delta t.
Proof.
  unfold BorrowedAccount.set_owner, BorrowedAccount.is_owned_by_current_program. intros H.
  inv_ok. split_and!; [done|done|done| | |].
  - destruct (Z.eqb_spec (owner (BorrowedAccount.get i t)) pk) as [<-|]; inv_ok.
    + by destruct (BorrowedAccount.get i t').
    + unfold BorrowedAccount.get. simpl. by rewrite acct_insert.
  - destruct (_ =? pk); inv_ok; [apply only_changes_refl|apply only_changes_set].
  - destruct (_ =? pk); inv_ok; done.
Qed.

Lemma set_data_from_slice_Ok i bs t t' :
  BorrowedAccount.set_data_from_slice prog i bs t = Ok t' ->
  is_writable i = true /\ owner (BorrowedAccount.get i t) = prog /\
  BorrowedAccount.get i t' = (BorrowedAccount.get i t)<|data := bs|> /\
  only_changes (key i) t t' /\ lamports_delta t' = lamports_delta t.
Proof.
  intros H. unfold BorrowedAccount.set_data_from_slice in H. inv_ok.
  unfold BorrowedAccount.can_data_be_resized, BorrowedAccount.can_data_be_changed,
    BorrowedAccount.is_owned_by_current_program in Hr.
  inv_ok.
  split_and!; [done|done| |apply only_changes_set|done].
  unfold BorrowedAccount.get. simpl. by rewrite acct_insert.
Qed.

End Setters.
