(* ===== verification/Program.v ===== *)
(** * Running a program: the account store, the state of a running
    instruction, cross-program invocation and return

    [Env] collects what the programs use of code that is not in the
    repository: address derivation, the token, associated-token and metadata
    programs and their instruction builders, the rent parameters.  [M] is the
    state-and-error monad of a running instruction; [invoke_signed] follows
    [cpi_common] ([gorchain/syscalls/src/cpi.rs]) and
    [prepare_next_instruction] ([gorchain/program-runtime/src/invoke_context.rs]),
    [run_instruction] the serialization of the accounts around a call
    ([gorchain/program-runtime/src/serialization.rs]). *)

From stdpp Require Import base numbers list gmap.
From Stdlib Require Import Lia.
From S2P Require Import Prelude Errors Pod Runtime SystemProgram.
Local Open Scope Z_scope.

(** ** Code outside the repository *)

(** The fields of a token account that the programs read. *)
Record TokenAccount := mkTokenAccount {
  ta_mint : Pubkey;
  ta_owner : Pubkey;
  ta_amount : Z;
}.

(** The fields of a mint that the programs read. *)
Record TokenMint := mkTokenMint {
  tm_supply : Z;
  tm_decimals : Z;
  tm_mint_authority : option Pubkey;
  tm_freeze_authority : option Pubkey;
}.

Class Env := {
  (** [Pubkey::find_program_address] and [Pubkey::create_program_address]. *)
  find_program_address : list (list Z) -> Pubkey -> Pubkey * Z;
  create_program_address : list (list Z) -> Pubkey -> result ProgramError Pubkey;
  get_associated_token_address : Pubkey -> Pubkey -> Pubkey;
  spl_token_id : Pubkey;
  spl_token_2022_id : Pubkey;
  spl_associated_token_account_id : Pubkey;
  (** [declare_id!(env!(..))] of the two programs. *)
  VAULT_PROGRAM_ID : Pubkey;
  RESTAKING_PROGRAM_ID : Pubkey;
  (** [Rent::minimum_balance] with the cluster's rent, and the SDK's default
      epoch length. *)
  minimum_balance : Z -> Z;
  DEFAULT_SLOTS_PER_EPOCH : Z;
  (** [StateWithExtensions::<spl_token_2022::state::Account>::unpack]. *)
  token_2022_account_unpack : list Z -> result ProgramError TokenAccount;
  (** [StateWithExtensions::<spl_token_2022::state::Mint>::unpack]. *)
  token_2022_mint_unpack : list Z -> result ProgramError TokenMint;
  (** [spl_token::state::Account::unpack] and [spl_token::state::Mint::unpack]. *)
  token_account_unpack : list Z -> result ProgramError TokenAccount;
  token_mint_unpack : list Z -> result ProgramError TokenMint;
  (** [spl_token_2022::state::Account::unpack], without extensions. *)
  token_2022_base_unpack : list Z -> result ProgramError TokenAccount;
  (** [spl_token::state::Mint::get_packed_len()]. *)
  Mint_packed_len : Z;
  (** The builders of the client crates: the account metas of an instruction,
      the program it is for, and whether a builder of the token program, which
      returns a result, accepts its arguments. *)
  client_ix_accounts : Instruction -> list AccountInfo;
  client_ix_program : Instruction -> Pubkey;
  ix_build : Instruction -> result ProgramError unit;
  (** The effect of an instruction of a program outside the repository, and
      the programs that such an instruction may run. *)
  external_process : Instruction -> list AccountInfo -> Tx -> result InstructionError Tx;
  external_programs : list Pubkey;
}.

(** [inline_mpl_token_metadata::id()]: the key that the base58 string
    ["metaqbxxUerdq28cj1RbAWkYQm3ybzjb6a8bt518x1s"] denotes. *)
Definition mpl_token_metadata_id : Pubkey :=
  31736051864343386377140475122520102291351351754714963786985232764708516622347.

(** The account metas and the program of an instruction: the metadata
    builders are in [vault_sdk/src/inline_mpl_token_metadata.rs], the others
    belong to the client crates. *)
Definition ix_accounts `{Env} (ix : Instruction) : list AccountInfo :=
  match ix with
  | create_metadata_accounts_v3 _ metadata mint mint_authority payer update_authority _ _ _ =>
      [mkInfo metadata false true; mkInfo mint false false; mkInfo mint_authority true false;
       mkInfo payer true true; mkInfo update_authority true false;
       mkInfo system_program_id false false]
  | update_metadata_accounts_v2 _ metadata update_authority _ _ _ =>
      [mkInfo metadata false true; mkInfo update_authority true false]
  | _ => client_ix_accounts ix
  end.

Definition ix_program `{Env} (ix : Instruction) : Pubkey :=
  match ix with
  | create_metadata_accounts_v3 program _ _ _ _ _ _ _ _
  | update_metadata_accounts_v2 program _ _ _ _ _ => program
  | _ => client_ix_program ix
  end.

(** The four instructions of the system program. *)
Definition is_system_ix (ix : Instruction) : bool :=
  match ix with
  | system_create_account _ _ _ _ _ | system_transfer _ _ _
  | system_allocate _ _ | system_assign _ _ => true
  | _ => false
  end.

(** The builders of the token program return a result, the others do not. *)
Definition build `{Env} (ix : Instruction) : result ProgramError unit :=
  match ix with
  | token_transfer _ _ _ _ _ | token_mint_to _ _ _ _ _ | token_burn _ _ _ _ _
  | token_close_account _ _ _ _ | token_approve _ _ _ _ _ | token_revoke _ _ _
  | token_initialize_mint2 _ _ _ _ _ => ix_build ix
  | _ => Ok tt
  end.

(** Documented behaviour of that code: the account metas of the system
    instructions and of a token transfer, and what the runtime guarantees of any program it calls. *)
Class EnvLaws (env : Env) : Prop := {
  create_account_metas from to n space o :
    ix_accounts (system_create_account from to n space o)
    = [mkInfo from true true; mkInfo to true true];
  transfer_metas from to n :
    ix_accounts (system_transfer from to n) = [mkInfo from true true; mkInfo to false true];
  allocate_metas k space : ix_accounts (system_allocate k space) = [mkInfo k true true];
  assign_metas k o : ix_accounts (system_assign k o) = [mkInfo k true true];
  token_transfer_metas p source destination authority n :
    ix_accounts (token_transfer p source destination authority n)
    = [mkInfo source false true; mkInfo destination false true; mkInfo authority true false];
  system_program_of ix : is_system_ix ix = true -> ix_program ix = system_program_id;
  (** Accounts that are not passed as writable keep their contents. *)
  external_readonly ix callee t t' k :
    external_process ix callee t = Ok t' ->
    Forall (fun i => key i = k -> is_writable i = false) callee ->
    acct (accounts t') k = acct (accounts t) k;
  (** Only the programs that run may change the data or the owner of what they
      own. *)
  external_foreign ix callee t t' k :
    external_process ix callee t = Ok t' ->
    owner (acct (accounts t) k) ∉ external_programs ->
    data (acct (accounts t') k) = data (acct (accounts t) k) /\
    owner (acct (accounts t') k) = owner (acct (accounts t) k);
}.

(** ** The state of a running instruction *)

Record World := mkWorld {
  view : Store;
  tx : Tx;
  entry : Store;
  infos : list AccountInfo;
  this_program : Pubkey;
  clock_slot : Z;
  cpis : list Instruction;
}.
#[export] Instance eta_World : Eta World := fun w =>
  mkWorld (view w) (tx w) (entry w) (infos w) (this_program w) (clock_slot w) (cpis w).

Definition M (A : Type) : Type := World -> result Fault (A * World).
Definition mret' {A} (a : A) : M A := fun w => Ok (a, w).
Definition mbind' {A B} (m : M A) (k : A -> M B) : M B := fun w =>
  match m w with
  | Ok (a, w') => k a w'
  | Err e => Err e
  end.
(** [e?] on a pure computation. *)
Definition lift {E A} `{FromErr E Fault} (r : result E A) : M A := fun w =>
  match r with
  | Ok a => Ok (a, w)
  | Err e => Err (from_err e)
  end.
(** A check that only reads the program's memory. *)
Definition ask {E A} `{FromErr E Fault} (r : Store -> result E A) : M A := fun w =>
  lift (r (view w)) w.
Definition fault {A} (e : Fault) : M A := fun _ => Err e.
Definition throw {A} (e : ProgramError) : M A := fault (ProgErr e).
Definition throw_vault {A} (e : VaultError) : M A := fault (from_err e).
Definition throw_restaking {A} (e : RestakingError) : M A := fault (from_err e).

Notation "'let!' x ':=' m 'in' k" := (mbind' m (fun x => k))
  (at level 10, x pattern, m at level 100, k at level 200,
   format "'[v' 'let!'  x  ':='  m  'in' '//' k ']'") : rust_scope.
Notation "m ';!' k" := (mbind' m (fun _ => k))
  (at level 199, right associativity, format "'[v' m  ';!' '//' k ']'") : rust_scope.

(** ** Access to the accounts *)

Definition account_of (s : Store) (i : AccountInfo) : Account := acct s (key i).
Definition data_is_empty (s : Store) (i : AccountInfo) : bool :=
  match data (account_of s i) with [] => true | _ => false end.

Definition modify_account (k : Pubkey) (f : Account -> Account) : M unit := fun w =>
  Ok (tt, w<|view := <[k := f (acct (view w) k)]> (view w)|>).

(** The struct behind [try_from_slice_unchecked] of the account's data, and
    the write through [try_from_slice_unchecked_mut]. *)
Definition read (A : Type) `{!AccountDeserialize A} (i : AccountInfo) : M A :=
  ask (fun s => try_from_slice_unchecked A (data (account_of s i))).
Definition write {A : Type} `{!AccountDeserialize A} (i : AccountInfo) (a : A) : M unit :=
  modify_account (key i) (fun acc => acc<|data := write_back (data acc) a|>).

(** [data[0] = DISCRIMINATOR] on freshly created data, then the struct. *)
Definition write_new {A : Type} `{!AccountDeserialize A} (i : AccountInfo) (a : A) : M unit :=
  let! d := ask (fun s => Ok (E := Fault) (data (account_of s i))) in
  match d with
  | [] => fault Panic
  | _ :: rest =>
      let d' := DISCRIMINATOR (A := A) :: rest in
      lift (try_from_slice_unchecked A d') ;!
      modify_account (key i) (fun acc => acc<|data := write_back d' a|>)
  end.

(** [accounts.split_at(n)], which panics when there are fewer accounts. *)
Definition split_at (n : nat) (accounts : list AccountInfo)
    : M (list AccountInfo * list AccountInfo) :=
  if (length accounts <? n)%nat then fault Panic
  else mret' (take n accounts, drop n accounts).

(** [Clock::get()?.slot]. *)
Definition get_slot : M Z := fun w => Ok (clock_slot w, w).

(** ** Cross-program invocation *)

Definition merged_privileges (metas : list AccountInfo) (m : AccountInfo) : AccountInfo :=
  mkInfo (key m)
    (existsb (fun m' => (key m' =? key m) && is_signer m') metas)
    (existsb (fun m' => (key m' =? key m) && is_writable m') metas).

Definition find_info (l : list AccountInfo) (k : Pubkey) : option AccountInfo :=
  List.find (fun i => key i =? k) l.

(** Keep the first account of each key. *)
Fixpoint distinct_infos (seen : list Pubkey) (l : list AccountInfo) : list AccountInfo :=
  match l with
  | [] => []
  | i :: l =>
      if bool_decide (key i ∈ seen) then distinct_infos seen l
      else i :: distinct_infos (key i :: seen) l
  end.

(** A callee's privilege must be held by the caller or granted by a derived
    address of the caller. *)
Definition check_privilege (caller : list AccountInfo) (signers : list Pubkey) (i : AccountInfo)
    : result InstructionError unit :=
  match find_info caller (key i) with
  | None => Err InstructionError.MissingAccount
  | Some c =>
      if is_writable i && negb (is_writable c) then Err InstructionError.PrivilegeEscalation
      else if is_signer i && negb (is_signer c || bool_decide (key i ∈ signers))
      then Err InstructionError.PrivilegeEscalation
      else Ok tt
  end.

Fixpoint fold_ok {A B E} (f : A -> B -> result E B) (l : list A) (b : B) : result E B :=
  match l with
  | [] => Ok b
  | x :: l => let? b' := f x b in fold_ok f l b'
  end.

Section Cpi.
Context {env : Env}.

Definition prepare_next_instruction (caller : list AccountInfo) (ix : Instruction)
    (signers : list Pubkey) : result InstructionError (list AccountInfo) :=
  let callee := map (merged_privileges (ix_accounts ix)) (ix_accounts ix) in
  all_ok (check_privilege caller signers) callee ;?
  match find_info caller (ix_program ix) with
  | None => Err InstructionError.MissingAccount
  | Some _ => Ok callee
  end.

(** [translate_accounts]: the caller's pending writes to the callee's
    accounts are committed; executable accounts are left alone. *)
Definition translate_account (w : World) (account_infos : list AccountInfo) (i : AccountInfo)
    (t : Tx) : result InstructionError Tx :=
  match find_info (infos w) (key i) with
  | None => Err InstructionError.MissingAccount
  | Some c =>
      if executable (acct (accounts t) (key i)) then Ok t
      else if bool_decide (key i ∈ map key account_infos)
      then update_callee_account (this_program w) c (acct (view w) (key i)) t
      else Err InstructionError.MissingAccount
  end.

(** [update_caller_account]: after the call the caller's memory shows the
    callee's changes to writable accounts. *)
Definition update_caller_account (before : Store) (t : Tx) (w : World) (i : AccountInfo) (s : Store)
    : result InstructionError Store :=
  let new := acct (accounts t) (key i) in
  if negb (is_writable i) || executable (acct before (key i)) then Ok s
  else if (zlen (data new) >? zlen (data (acct (entry w) (key i))) + MAX_PERMITTED_DATA_INCREASE)
          && negb (zlen (data (acct s (key i))) =? zlen (data new))
  then Err InstructionError.InvalidRealloc
  else Ok (<[key i := new]> s).

Definition process_callee (ix : Instruction) (callee : list AccountInfo) (t : Tx)
    : result InstructionError Tx :=
  if is_system_ix ix then SystemProgram.process_instruction ix callee t
  else external_process ix callee t.

Definition balanced (t : Tx) : result InstructionError unit :=
  if lamports_delta t =? 0 then Ok tt else Err InstructionError.UnbalancedInstruction.

Definition cpi (w : World) (ix : Instruction) (account_infos : list AccountInfo)
    (signers : list Pubkey) : result InstructionError World :=
  let? callee := prepare_next_instruction (infos w) ix signers in
  let distinct := distinct_infos [] callee in
  let? t1 := fold_ok (translate_account w account_infos) distinct (tx w) in
  balanced t1 ;?
  let? t2 := process_callee ix callee t1 in
  balanced t2 ;?
  let? v := fold_ok (update_caller_account (accounts t1) t2 w) distinct (view w) in
  Ok w<|view := v|><|tx := t2|><|cpis := cpis w ++ [ix]|>.

(** [invoke_signed(&builder(..)?, accounts, signer_seeds)]. *)
Definition invoke_signed (ix : Instruction) (account_infos : list AccountInfo)
    (signers_seeds : list (list (list Z))) : M unit := fun w =>
  let? _ := build ix in
  let? signers :=
    fold_ok (fun seeds acc =>
      match create_program_address seeds (this_program w) with
      | Ok s => Ok (acc ++ [s])
      | Err _ => Err (InstrErr InstructionError.ProgramFailedToComplete)
      end) signers_seeds [] in
  let? w' := cpi w ix account_infos signers in
  Ok (tt, w').

Definition invoke (ix : Instruction) (account_infos : list AccountInfo) : M unit :=
  invoke_signed ix account_infos [].

(** ** Running an instruction of a program *)

Definition enter (prog : Pubkey) (accs : list AccountInfo) (slot : Z) (t : Tx) : World :=
  mkWorld (accounts t) t (accounts t) accs prog slot [].

Definition exit_program (w : World) : result InstructionError Tx :=
  let? t := fold_ok (fun i t =>
      deserialize_account (this_program w) i (zlen (data (acct (entry w) (key i))))
        (acct (view w) (key i)) t)
    (distinct_infos [] (infos w)) (tx w) in
  balanced t ;?
  Ok t.

Definition run_instruction (handler : M unit) (prog : Pubkey) (accs : list AccountInfo)
    (slot : Z) (t : Tx) : result Fault (Tx * list Instruction) :=
  let? (_, w) := handler (enter prog accs slot t) in
  let? t' := exit_program w in
  Ok (t', cpis w).

End Cpi.
