(* ===== verification/Core.v ===== *)
(** * Shared program code ([core/src/lib.rs], [core/src/loader.rs])

    Account creation, closing and reallocation, and the loaders that check
    the accounts an instruction is given. *)

From stdpp Require Import base numbers list gmap.
From Stdlib Require Import Lia String Ascii.
From S2P Require Import Prelude Errors Pod Runtime SystemProgram Program.
Local Open Scope Z_scope.

(** Byte strings of seeds: [b"..."] and [Pubkey::to_bytes]. *)
Definition bytes_of_string (s : string) : list Z :=
  map (fun c => Z.of_nat (nat_of_ascii c)) (list_ascii_of_string s).
Definition pubkey_bytes (k : Pubkey) : list Z := to_le_bytes 32 k.
Definition u64_bytes (n : Z) : list Z := to_le_bytes 8 n.

(** The checks every [load] of a program account starts with: owner, data,
    writability and discriminator. *)
Definition load_program_account (A : Type) `{!AccountDeserialize A} (program_id : Pubkey)
    (account : AccountInfo) (expect_writable : bool) (s : Store) : result ProgramError unit :=
  if negb (owner (account_of s account) =? program_id) then Err ProgramError.InvalidAccountOwner
  else match data (account_of s account) with
  | [] => Err ProgramError.InvalidAccountData
  | b :: _ =>
      if expect_writable && negb (is_writable account) then Err ProgramError.InvalidAccountData
      else if negb (b =? DISCRIMINATOR (A := A)) then Err ProgramError.InvalidAccountData
      else Ok tt
  end.

(** [8 + size_of::<A>()]. *)
Definition account_size (A : Type) `{!AccountDeserialize A} : Z := Z.of_nat (account_len A).

(** [if account.key.ne(&expected)]. *)
Definition check_key (account : AccountInfo) (expected : Pubkey) : result ProgramError unit :=
  if negb (key account =? expected) then Err ProgramError.InvalidAccountData else Ok tt.

Section Core.
Context {env : Env}.

Definition load_signer (info : AccountInfo) (expect_writable : bool) : result ProgramError unit :=
  if negb (is_signer info) then Err ProgramError.MissingRequiredSignature
  else if expect_writable && negb (is_writable info) then Err ProgramError.InvalidAccountData
  else Ok tt.

Definition load_system_program (info : AccountInfo) : result ProgramError unit :=
  if negb (key info =? system_program_id) then Err ProgramError.IncorrectProgramId else Ok tt.

Definition load_associated_token_account_program (info : AccountInfo) : result ProgramError unit :=
  if negb (key info =? spl_associated_token_account_id) then Err ProgramError.IncorrectProgramId
  else Ok tt.

Definition load_token_program (info : AccountInfo) : result ProgramError unit :=
  if negb (key info =? spl_token_id) then Err ProgramError.IncorrectProgramId else Ok tt.

Definition load_token_2022_program (info : AccountInfo) : result ProgramError unit :=
  if negb (key info =? spl_token_2022_id) then Err ProgramError.IncorrectProgramId else Ok tt.

Definition load_system_account (info : AccountInfo) (expect_writable : bool) (s : Store)
    : result ProgramError unit :=
  if negb (owner (account_of s info) =? system_program_id) then Err ProgramError.InvalidAccountOwner
  else if negb (data_is_empty s info) then Err ProgramError.AccountAlreadyInitialized
  else if expect_writable && negb (is_writable info) then Err ProgramError.InvalidAccountData
  else Ok tt.

Definition load_associated_token_account (token_account : AccountInfo) (wallet mint : Pubkey)
    (s : Store) : result ProgramError unit :=
  if negb (owner (account_of s token_account) =? spl_token_id)
  then Err ProgramError.InvalidAccountOwner
  else if data_is_empty s token_account then Err ProgramError.InvalidAccountData
  else if negb (key token_account =? get_associated_token_address wallet mint)
  then Err ProgramError.InvalidAccountData
  else Ok tt.

Definition load_token_account (token_account : AccountInfo) (wallet mint : Pubkey)
    (token_program : AccountInfo) (s : Store) : result ProgramError unit :=
  if negb (key token_program =? spl_token_id) then Err ProgramError.IncorrectProgramId
  else if negb (owner (account_of s token_account) =? spl_token_id)
  then Err ProgramError.InvalidAccountOwner
  else if data_is_empty s token_account then Err ProgramError.InvalidAccountData
  else
    let? base := token_2022_account_unpack (data (account_of s token_account)) in
    if negb (ta_owner base =? wallet) then Err ProgramError.InvalidAccountData
    else if negb (ta_mint base =? mint) then Err ProgramError.InvalidAccountData
    else Ok tt.

Definition load_token_mint (info : AccountInfo) (s : Store) : result ProgramError unit :=
  if negb (owner (account_of s info) =? spl_token_id) then Err ProgramError.InvalidAccountOwner
  else if data_is_empty s info then Err ProgramError.InvalidAccountData
  else
    let? _ := token_2022_mint_unpack (data (account_of s info)) in
    Ok tt.

(** [rent] is the cluster's rent, [minimum_balance] of the environment. *)
Definition create_account (payer new_account system_program : AccountInfo)
    (program_owner : Pubkey) (space : Z) (seeds : list (list Z)) : M unit :=
  let! current_lamports := ask (fun s => Ok (E := Fault) (lamports (account_of s new_account))) in
  if current_lamports =? 0 then
    invoke_signed
      (system_create_account (key payer) (key new_account) (minimum_balance space) space
         program_owner)
      [payer; new_account; system_program] [seeds]
  else
    let required_lamports := saturating_sub (Z.max (minimum_balance space) 1) current_lamports in
    (if required_lamports >? 0 then
       invoke (system_transfer (key payer) (key new_account) required_lamports)
         [payer; new_account; system_program]
     else mret' tt) ;!
    invoke_signed (system_allocate (key new_account) space) [new_account; system_program] [seeds] ;!
    invoke_signed (system_assign (key new_account) program_owner) [new_account; system_program]
      [seeds].

(** [AccountInfo::realloc(new_len, false)]: the growth over the length at
    entry is limited; the memory after an account's data is zeroed. *)
Definition AccountInfo_realloc (account : AccountInfo) (new_len : Z) : M unit := fun w =>
  let old := data (account_of (view w) account) in
  if new_len =? zlen old then Ok (tt, w)
  else if saturating_sub new_len (zlen (data (account_of (entry w) account)))
            >? MAX_PERMITTED_DATA_INCREASE
  then Err (ProgErr ProgramError.InvalidRealloc)
  else modify_account (key account) (fun a => a<|data := BorrowedAccount.resize old new_len|>) w.

(** Create a program account of type [A] at [new_account] and write its first
    contents: [create_account], [data[0] = DISCRIMINATOR], assignment through
    the deserialized reference. *)
Definition create_program_account {A : Type} `{!AccountDeserialize A}
    (payer new_account system_program : AccountInfo) (program_id : Pubkey)
    (seeds : list (list Z)) (contents : A) : M unit :=
  create_account payer new_account system_program program_id (account_size A) seeds ;!
  write_new new_account contents.

Definition close_program_account (program_id : Pubkey)
    (account_to_close destination_account : AccountInfo) : M unit :=
  let! a := ask (fun s => Ok (E := Fault) (account_of s account_to_close)) in
  let! d := ask (fun s => Ok (E := Fault) (account_of s destination_account)) in
  if negb (owner a =? program_id) then throw ProgramError.IllegalOwner
  else
    let! total := lift (ok_or (checked_add U64_MAX (lamports d) (lamports a))
        ProgramError.ArithmeticOverflow) in
    modify_account (key destination_account) (fun x => x<|lamports := total|>) ;!
    modify_account (key account_to_close) (fun x => x<|lamports := 0|>) ;!
    modify_account (key account_to_close) (fun x => x<|owner := system_program_id|>) ;!
    AccountInfo_realloc account_to_close 0.

Definition realloc (account : AccountInfo) (new_size : Z) (payer : AccountInfo) : M unit :=
  let new_minimum_balance := minimum_balance new_size in
  let! current := ask (fun s => Ok (E := Fault) (lamports (account_of s account))) in
  let lamports_diff := saturating_sub new_minimum_balance current in
  invoke (system_transfer (key payer) (key account) lamports_diff) [payer; account] ;!
  AccountInfo_realloc account new_size.

End Core.
