(* ===== verification/RestakingCore.v ===== *)
(** * Accounts of the restaking program ([restaking_core/src])

    The global configuration, networks (NCNs), operators, and the tickets by
    which networks, operators, vaults and slashers opt in to each other. *)

From stdpp Require Import base numbers list.
From Stdlib Require Import Lia String.
From S2P Require Import Prelude Errors Pod SlotToggle Runtime Program Core.
Local Open Scope Z_scope.

(** [restaking_core/src/lib.rs]. *)
Abbreviation MAX_FEE_BPS := 10000.

(** One replacement of the [update_secondary_admin] methods. *)
Definition replace_key (old_admin new_admin current : Pubkey) : Pubkey :=
  if current =? old_admin then new_admin else current.

(** ** [config.rs] *)
Module RestakingConfig.

Record Config := mk {
  admin : Pubkey;
  vault_program : Pubkey;
  ncn_count : Z;
  operator_count : Z;
  epoch_length : Z;
  bump : Z;
  reserved : list Z;
}.

#[global] Instance eta_Config : Eta Config := fun v =>
  mk (admin v) (vault_program v) (ncn_count v) (operator_count v) (epoch_length v) (bump
    v) (reserved v).

Definition layout : codec Config :=
  pod_iso
    (fun '(x1, (x2, (x3, (x4, (x5, (x6, x7)))))) => mk x1 x2 x3 x4 x5 x6 x7)
    (fun v => (admin v, (vault_program v, (ncn_count v, (operator_count v, (epoch_length
      v, (bump v, reserved v)))))))
    (pod_pair pod_pubkey (pod_pair pod_pubkey (pod_pair PodU64 (pod_pair PodU64 (pod_pair
      PodU64 (pod_pair pod_u8 (pod_array 263))))))).

#[global] Instance Config_account : AccountDeserialize Config :=
  {| acc_codec := layout; DISCRIMINATOR := 1 |}.

Definition new `{Env} (admin vault_program : Pubkey) (bump : Z) : Config :=
  mk admin vault_program 0 0 DEFAULT_SLOTS_PER_EPOCH bump (replicate 263 0).

Definition increment_ncn_count (self : Config) : result RestakingError Config :=
  let? n := ok_or (checked_add U64_MAX (ncn_count self) 1) RestakingError.NcnOverflow in
  Ok self<|ncn_count := n|>.

Definition increment_operator_count (self : Config) : result RestakingError Config :=
  let? n := ok_or (checked_add U64_MAX (operator_count self) 1) RestakingError.OperatorOverflow in
  Ok self<|operator_count := n|>.

Definition set_admin (self : Config) (new_admin : Pubkey) : Config := self<|admin := new_admin|>.

Definition seeds : list (list Z) := [bytes_of_string "config"].

Definition find_address `{Env} (program_id : Pubkey) : Pubkey * Z * list (list Z) :=
  (find_program_address seeds program_id, seeds).

Definition load `{Env} (program_id : Pubkey) (account : AccountInfo) (expect_writable : bool)
    (s : Store) : result ProgramError unit :=
  load_program_account Config program_id account expect_writable s ;?
  check_key account (find_address program_id).1.1.

End RestakingConfig.
Abbreviation RestakingConfig := RestakingConfig.Config.
#[export] Instance RestakingConfig_lawful : LawfulPod RestakingConfig.layout.
Proof. solve_lawful. Qed.

(** ** [ncn.rs] *)
Module Ncn.

Record Ncn := mk {
  base : Pubkey;
  admin : Pubkey;
  operator_admin : Pubkey;
  vault_admin : Pubkey;
  slasher_admin : Pubkey;
  delegate_admin : Pubkey;
  metadata_admin : Pubkey;
  weight_table_admin : Pubkey;
  ncn_program_admin : Pubkey;
  index : Z;
  operator_count : Z;
  vault_count : Z;
  slasher_count : Z;
  bump : Z;
  reserved : list Z;
}.

#[global] Instance eta_Ncn : Eta Ncn := fun v =>
  mk (base v) (admin v) (operator_admin v) (vault_admin v) (slasher_admin v)
    (delegate_admin v) (metadata_admin v) (weight_table_admin v) (ncn_program_admin v)
    (index v) (operator_count v) (vault_count v) (slasher_count v) (bump v) (reserved v).

Definition layout : codec Ncn :=
  pod_iso
    (fun '(x1, (x2, (x3, (x4, (x5, (x6, (x7, (x8, (x9, (x10, (x11, (x12, (x13, (x14,
      x15)))))))))))))) => mk x1 x2 x3 x4 x5 x6 x7 x8 x9 x10 x11 x12 x13 x14 x15)
    (fun v => (base v, (admin v, (operator_admin v, (vault_admin v, (slasher_admin v,
      (delegate_admin v, (metadata_admin v, (weight_table_admin v, (ncn_program_admin v,
      (index v, (operator_count v, (vault_count v, (slasher_count v, (bump v, reserved
      v)))))))))))))))
    (pod_pair pod_pubkey (pod_pair pod_pubkey (pod_pair pod_pubkey (pod_pair pod_pubkey
      (pod_pair pod_pubkey (pod_pair pod_pubkey (pod_pair pod_pubkey (pod_pair pod_pubkey
      (pod_pair pod_pubkey (pod_pair PodU64 (pod_pair PodU64 (pod_pair PodU64 (pod_pair
      PodU64 (pod_pair pod_u8 (pod_array 263))))))))))))))).

#[global] Instance Ncn_account : AccountDeserialize Ncn :=
  {| acc_codec := layout; DISCRIMINATOR := 2 |}.

Definition new (base admin : Pubkey) (ncn_index bump : Z) : Ncn :=
  mk base admin admin admin admin admin admin admin admin ncn_index 0 0 0 bump
    (replicate 263 0).

Definition increment_operator_count (self : Ncn) : result RestakingError Ncn :=
  let? n := ok_or (checked_add U64_MAX (operator_count self) 1) RestakingError.OperatorOverflow in
  Ok self<|operator_count := n|>.

Definition increment_vault_count (self : Ncn) : result RestakingError Ncn :=
  let? n := ok_or (checked_add U64_MAX (vault_count self) 1) RestakingError.VaultOverflow in
  Ok self<|vault_count := n|>.

Definition increment_slasher_count (self : Ncn) : result RestakingError Ncn :=
  let? n := ok_or (checked_add U64_MAX (slasher_count self) 1) RestakingError.SlasherOverflow in
  Ok self<|slasher_count := n|>.

Definition check_admin (self : Ncn) (k : Pubkey) : result RestakingError unit :=
  if negb (admin self =? k) then Err RestakingError.NcnAdminInvalid else Ok tt.

Definition check_delegate_admin (self : Ncn) (k : Pubkey) : result RestakingError unit :=
  if negb (delegate_admin self =? k) then Err RestakingError.NcnDelegateAdminInvalid else Ok tt.

Definition update_secondary_admin (self : Ncn) (old_admin new_admin : Pubkey) : Ncn :=
  let r := replace_key old_admin new_admin in
  self<|operator_admin := r (operator_admin self)|>
      <|vault_admin := r (vault_admin self)|>
      <|slasher_admin := r (slasher_admin self)|>
      <|delegate_admin := r (delegate_admin self)|>
      <|metadata_admin := r (metadata_admin self)|>
      <|weight_table_admin := r (weight_table_admin self)|>
      <|ncn_program_admin := r (ncn_program_admin self)|>.

Definition seeds (base : Z) : list (list Z) :=
  [bytes_of_string "ncn"; pubkey_bytes base].

Definition find_address `{Env} (program_id base : Z) : Pubkey * Z * list (list Z) :=
  (find_program_address (seeds base) program_id, seeds base).

Definition load `{Env} (program_id : Pubkey) (account : AccountInfo) (expect_writable : bool)
    (s : Store) : result Fault unit :=
  load_program_account Ncn program_id account expect_writable s ;?
  let? v := try_from_slice_unchecked Ncn (data (account_of s account)) in
  into (check_key account (find_address program_id (base v)).1.1).

End Ncn.
Abbreviation Ncn := Ncn.Ncn.
#[export] Instance Ncn_lawful : LawfulPod Ncn.layout.
Proof. solve_lawful. Qed.

(** ** [operator.rs] *)
Module Operator.

Record Operator := mk {
  base : Pubkey;
  admin : Pubkey;
  ncn_admin : Pubkey;
  vault_admin : Pubkey;
  delegate_admin : Pubkey;
  metadata_admin : Pubkey;
  voter : Pubkey;
  index : Z;
  ncn_count : Z;
  vault_count : Z;
  operator_fee_bps : Z;
  bump : Z;
  reserved_space : list Z;
}.

#[global] Instance eta_Operator : Eta Operator := fun v =>
  mk (base v) (admin v) (ncn_admin v) (vault_admin v) (delegate_admin v) (metadata_admin
    v) (voter v) (index v) (ncn_count v) (vault_count v) (operator_fee_bps v) (bump v)
    (reserved_space v).

Definition layout : codec Operator :=
  pod_iso
    (fun '(x1, (x2, (x3, (x4, (x5, (x6, (x7, (x8, (x9, (x10, (x11, (x12, x13))))))))))))
      => mk x1 x2 x3 x4 x5 x6 x7 x8 x9 x10 x11 x12 x13)
    (fun v => (base v, (admin v, (ncn_admin v, (vault_admin v, (delegate_admin v,
      (metadata_admin v, (voter v, (index v, (ncn_count v, (vault_count v, (operator_fee_bps
      v, (bump v, reserved_space v)))))))))))))
    (pod_pair pod_pubkey (pod_pair pod_pubkey (pod_pair pod_pubkey (pod_pair pod_pubkey
      (pod_pair pod_pubkey (pod_pair pod_pubkey (pod_pair pod_pubkey (pod_pair PodU64
      (pod_pair PodU64 (pod_pair PodU64 (pod_pair PodU16 (pod_pair pod_u8 (pod_array
      261))))))))))))).

#[global] Instance Operator_account : AccountDeserialize Operator :=
  {| acc_codec := layout; DISCRIMINATOR := 3 |}.

Definition new (base admin : Pubkey) (index operator_fee_bps bump : Z) : Operator :=
  mk base admin admin admin admin admin admin index 0 0 operator_fee_bps bump
    (replicate 261 0).

Definition increment_ncn_count (self : Operator) : result RestakingError Operator :=
  let? n := ok_or (checked_add U64_MAX (ncn_count self) 1) RestakingError.NcnOverflow in
  Ok self<|ncn_count := n|>.

Definition increment_vault_count (self : Operator) : result RestakingError Operator :=
  let? n := ok_or (checked_add U64_MAX (vault_count self) 1) RestakingError.VaultOverflow in
  Ok self<|vault_count := n|>.

Definition check_admin (self : Operator) (k : Pubkey) : result RestakingError unit :=
  if negb (admin self =? k) then Err RestakingError.OperatorAdminInvalid else Ok tt.

Definition check_delegate_admin (self : Operator) (k : Pubkey) : result RestakingError unit :=
  if negb (delegate_admin self =? k) then Err RestakingError.OperatorDelegateAdminInvalid
  else Ok tt.

Definition update_secondary_admin (self : Operator) (old_admin new_admin : Pubkey) : Operator :=
  let r := replace_key old_admin new_admin in
  self<|ncn_admin := r (ncn_admin self)|>
      <|vault_admin := r (vault_admin self)|>
      <|voter := r (voter self)|>
      <|delegate_admin := r (delegate_admin self)|>
      <|metadata_admin := r (metadata_admin self)|>.

Definition seeds (base : Z) : list (list Z) :=
  [bytes_of_string "operator"; pubkey_bytes base].

Definition find_address `{Env} (program_id base : Z) : Pubkey * Z * list (list Z) :=
  (find_program_address (seeds base) program_id, seeds base).

Definition load `{Env} (program_id : Pubkey) (account : AccountInfo) (expect_writable : bool)
    (s : Store) : result Fault unit :=
  load_program_account Operator program_id account expect_writable s ;?
  let? v := try_from_slice_unchecked Operator (data (account_of s account)) in
  into (check_key account (find_address program_id (base v)).1.1).

End Operator.
Abbreviation Operator := Operator.Operator.
#[export] Instance Operator_lawful : LawfulPod Operator.layout.
Proof. solve_lawful. Qed.

(** ** [ncn_operator_state.rs] *)
Module NcnOperatorState.

Record NcnOperatorState := mk {
  ncn : Pubkey;
  operator : Pubkey;
  index : Z;
  ncn_opt_in_state : SlotToggle;
  operator_opt_in_state : SlotToggle;
  bump : Z;
  reserved : list Z;
}.

#[global] Instance eta_NcnOperatorState : Eta NcnOperatorState := fun v =>
  mk (ncn v) (operator v) (index v) (ncn_opt_in_state v) (operator_opt_in_state v) (bump
    v) (reserved v).

Definition layout : codec NcnOperatorState :=
  pod_iso
    (fun '(x1, (x2, (x3, (x4, (x5, (x6, x7)))))) => mk x1 x2 x3 x4 x5 x6 x7)
    (fun v => (ncn v, (operator v, (index v, (ncn_opt_in_state v, (operator_opt_in_state
      v, (bump v, reserved v)))))))
    (pod_pair pod_pubkey (pod_pair pod_pubkey (pod_pair PodU64 (pod_pair SlotToggle.layout
      (pod_pair SlotToggle.layout (pod_pair pod_u8 (pod_array 263))))))).

#[global] Instance NcnOperatorState_account : AccountDeserialize NcnOperatorState :=
  {| acc_codec := layout; DISCRIMINATOR := 4 |}.

Definition new (ncn operator : Pubkey) (index bump slot : Z) : NcnOperatorState :=
  mk ncn operator index (SlotToggle.new slot) (SlotToggle.new slot) bump (replicate 263 0).

Definition seeds (ncn operator : Z) : list (list Z) :=
  [bytes_of_string "ncn_operator_state"; pubkey_bytes ncn; pubkey_bytes operator].

Definition find_address `{Env} (program_id ncn operator : Z) : Pubkey * Z * list (list Z) :=
  (find_program_address (seeds ncn operator) program_id, seeds ncn operator).

Definition load `{Env} (program_id : Pubkey) (account ncn operator : AccountInfo)
    (expect_writable : bool) (s : Store) : result ProgramError unit :=
  load_program_account NcnOperatorState program_id account expect_writable s ;?
  check_key account (find_address program_id (key ncn) (key operator)).1.1.

End NcnOperatorState.
Abbreviation NcnOperatorState := NcnOperatorState.NcnOperatorState.
#[export] Instance NcnOperatorState_lawful : LawfulPod NcnOperatorState.layout.
Proof. solve_lawful. Qed.

(** ** [operator_vault_ticket.rs] *)
Module OperatorVaultTicket.

Record OperatorVaultTicket := mk {
  operator : Pubkey;
  vault : Pubkey;
  index : Z;
  state : SlotToggle;
  bump : Z;
  reserved : list Z;
}.

#[global] Instance eta_OperatorVaultTicket : Eta OperatorVaultTicket := fun v =>
  mk (operator v) (vault v) (index v) (state v) (bump v) (reserved v).

Definition layout : codec OperatorVaultTicket :=
  pod_iso
    (fun '(x1, (x2, (x3, (x4, (x5, x6))))) => mk x1 x2 x3 x4 x5 x6)
    (fun v => (operator v, (vault v, (index v, (state v, (bump v, reserved v))))))
    (pod_pair pod_pubkey (pod_pair pod_pubkey (pod_pair PodU64 (pod_pair SlotToggle.layout
      (pod_pair pod_u8 (pod_array 263)))))).

#[global] Instance OperatorVaultTicket_account : AccountDeserialize OperatorVaultTicket :=
  {| acc_codec := layout; DISCRIMINATOR := 5 |}.

Definition new (operator vault : Pubkey) (index bump slot : Z) : OperatorVaultTicket :=
  mk operator vault index (SlotToggle.new slot) bump (replicate 263 0).

Definition seeds (operator vault : Z) : list (list Z) :=
  [bytes_of_string "operator_vault_ticket"; pubkey_bytes operator; pubkey_bytes vault].

Definition find_address `{Env} (program_id operator vault : Z) : Pubkey * Z * list (list Z) :=
  (find_program_address (seeds operator vault) program_id, seeds operator vault).

Definition load `{Env} (program_id : Pubkey) (account operator vault : AccountInfo)
    (expect_writable : bool) (s : Store) : result ProgramError unit :=
  load_program_account OperatorVaultTicket program_id account expect_writable s ;?
  check_key account (find_address program_id (key operator) (key vault)).1.1.

End OperatorVaultTicket.
Abbreviation OperatorVaultTicket := OperatorVaultTicket.OperatorVaultTicket.
#[export] Instance OperatorVaultTicket_lawful : LawfulPod OperatorVaultTicket.layout.
Proof. solve_lawful. Qed.

(** ** [ncn_vault_ticket.rs] *)
Module NcnVaultTicket.

Record NcnVaultTicket := mk {
  ncn : Pubkey;
  vault : Pubkey;
  index : Z;
  state : SlotToggle;
  bump : Z;
  reserved : list Z;
}.

#[global] Instance eta_NcnVaultTicket : Eta NcnVaultTicket := fun v =>
  mk (ncn v) (vault v) (index v) (state v) (bump v) (reserved v).

Definition layout : codec NcnVaultTicket :=
  pod_iso
    (fun '(x1, (x2, (x3, (x4, (x5, x6))))) => mk x1 x2 x3 x4 x5 x6)
    (fun v => (ncn v, (vault v, (index v, (state v, (bump v, reserved v))))))
    (pod_pair pod_pubkey (pod_pair pod_pubkey (pod_pair PodU64 (pod_pair SlotToggle.layout
      (pod_pair pod_u8 (pod_array 263)))))).

#[global] Instance NcnVaultTicket_account : AccountDeserialize NcnVaultTicket :=
  {| acc_codec := layout; DISCRIMINATOR := 6 |}.

Definition new (ncn vault : Pubkey) (index bump slot : Z) : NcnVaultTicket :=
  mk ncn vault index (SlotToggle.new slot) bump (replicate 263 0).

Definition seeds (ncn vault : Z) : list (list Z) :=
  [bytes_of_string "ncn_vault_ticket"; pubkey_bytes ncn; pubkey_bytes vault].

Definition find_address `{Env} (program_id ncn vault : Z) : Pubkey * Z * list (list Z) :=
  (find_program_address (seeds ncn vault) program_id, seeds ncn vault).

Definition load `{Env} (program_id : Pubkey) (account ncn vault : AccountInfo)
    (expect_writable : bool) (s : Store) : result ProgramError unit :=
  load_program_account NcnVaultTicket program_id account expect_writable s ;?
  check_key account (find_address program_id (key ncn) (key vault)).1.1.

End NcnVaultTicket.
Abbreviation NcnVaultTicket := NcnVaultTicket.NcnVaultTicket.
#[export] Instance NcnVaultTicket_lawful : LawfulPod NcnVaultTicket.layout.
Proof. solve_lawful. Qed.

(** ** [ncn_vault_slasher_ticket.rs] *)
Module NcnVaultSlasherTicket.

Record NcnVaultSlasherTicket := mk {
  ncn : Pubkey;
  vault : Pubkey;
  slasher : Pubkey;
  max_slashable_per_epoch : Z;
  index : Z;
  state : SlotToggle;
  bump : Z;
  reserved : list Z;
}.

#[global] Instance eta_NcnVaultSlasherTicket : Eta NcnVaultSlasherTicket := fun v =>
  mk (ncn v) (vault v) (slasher v) (max_slashable_per_epoch v) (index v) (state v) (bump
    v) (reserved v).

Definition layout : codec NcnVaultSlasherTicket :=
  pod_iso
    (fun '(x1, (x2, (x3, (x4, (x5, (x6, (x7, x8))))))) => mk x1 x2 x3 x4 x5 x6 x7 x8)
    (fun v => (ncn v, (vault v, (slasher v, (max_slashable_per_epoch v, (index v, (state
      v, (bump v, reserved v))))))))
    (pod_pair pod_pubkey (pod_pair pod_pubkey (pod_pair pod_pubkey (pod_pair PodU64
      (pod_pair PodU64 (pod_pair SlotToggle.layout (pod_pair pod_u8 (pod_array 263)))))))).

#[global] Instance NcnVaultSlasherTicket_account : AccountDeserialize NcnVaultSlasherTicket :=
  {| acc_codec := layout; DISCRIMINATOR := 7 |}.

Definition new (ncn vault slasher : Pubkey) (max_slashable_per_epoch index bump slot : Z)
    : NcnVaultSlasherTicket :=
  mk ncn vault slasher max_slashable_per_epoch index (SlotToggle.new slot) bump
    (replicate 263 0).

Definition seeds (ncn vault slasher : Z) : list (list Z) :=
  [bytes_of_string "ncn_slasher_ticket"; pubkey_bytes ncn; pubkey_bytes vault; pubkey_bytes slasher].

Definition find_address `{Env} (program_id ncn vault slasher : Z) : Pubkey * Z * list (list Z) :=
  (find_program_address (seeds ncn vault slasher) program_id, seeds ncn vault slasher).

Definition load `{Env} (program_id : Pubkey) (account ncn vault slasher : AccountInfo)
    (expect_writable : bool) (s : Store) : result ProgramError unit :=
  load_program_account NcnVaultSlasherTicket program_id account expect_writable s ;?
  check_key account (find_address program_id (key ncn) (key vault) (key slasher)).1.1.

End NcnVaultSlasherTicket.
Abbreviation NcnVaultSlasherTicket := NcnVaultSlasherTicket.NcnVaultSlasherTicket.
#[export] Instance NcnVaultSlasherTicket_lawful : LawfulPod NcnVaultSlasherTicket.layout.
Proof. solve_lawful. Qed.
