(* ===== verification/VaultConfig.v ===== *)
(** * The vault program's configuration ([vault_core/src/config.rs]) *)

From stdpp Require Import base numbers list.
From Stdlib Require Import Lia String.
From S2P Require Import Prelude Errors Pod Runtime Program Core.
Local Open Scope Z_scope.

(** [vault_core/src/lib.rs]; an abbreviation so that arithmetic sees the
    number. *)
Abbreviation MAX_BPS := 10000.

(** [u128] product with a rate in basis points, rounded up, narrowed to [u64]:
    the shape of every fee computation of the vault. *)
Definition fee_ceil (amount bps : Z) : option Z :=
  ((fun x => div_ceil x MAX_BPS) <$> checked_mul U128_MAX amount bps) ≫= try_into U64_MAX.

Module Config.

Record Config := mk {
  admin : Pubkey;
  restaking_program : Pubkey;
  epoch_length : Z;
  num_vaults : Z;
  deposit_withdrawal_fee_cap_bps : Z;
  fee_rate_of_change_bps : Z;
  fee_bump_bps : Z;
  program_fee_bps : Z;
  program_fee_wallet : Pubkey;
  fee_admin : Pubkey;
  bump : Z;
  reserved : list Z;
}.

#[global] Instance eta_Config : Eta Config := fun v =>
  mk (admin v) (restaking_program v) (epoch_length v) (num_vaults v)
    (deposit_withdrawal_fee_cap_bps v) (fee_rate_of_change_bps v) (fee_bump_bps v)
    (program_fee_bps v) (program_fee_wallet v) (fee_admin v) (bump v) (reserved v).

Definition layout : codec Config :=
  pod_iso
    (fun '(x1, (x2, (x3, (x4, (x5, (x6, (x7, (x8, (x9, (x10, (x11, x12))))))))))) => mk x1
      x2 x3 x4 x5 x6 x7 x8 x9 x10 x11 x12)
    (fun v => (admin v, (restaking_program v, (epoch_length v, (num_vaults v,
      (deposit_withdrawal_fee_cap_bps v, (fee_rate_of_change_bps v, (fee_bump_bps v,
      (program_fee_bps v, (program_fee_wallet v, (fee_admin v, (bump v, reserved
      v))))))))))))
    (pod_pair pod_pubkey (pod_pair pod_pubkey (pod_pair PodU64 (pod_pair PodU64 (pod_pair
      PodU16 (pod_pair PodU16 (pod_pair PodU16 (pod_pair PodU16 (pod_pair pod_pubkey
      (pod_pair pod_pubkey (pod_pair pod_u8 (pod_array 229)))))))))))).

#[global] Instance Config_account : AccountDeserialize Config :=
  {| acc_codec := layout; DISCRIMINATOR := 1 |}.

Definition DEFAULT_FEES_CAP_BPS : Z := 2000.
Definition DEFAULT_FEE_RATE_OF_CHANGE_BPS : Z := 2500.
Definition DEFAULT_FEE_BUMP_BPS : Z := 10.

Definition new `{Env} (admin restaking_program program_fee_wallet : Pubkey)
    (program_fee_bps bump : Z) : Config :=
  mk admin restaking_program DEFAULT_SLOTS_PER_EPOCH 0 DEFAULT_FEES_CAP_BPS
    DEFAULT_FEE_RATE_OF_CHANGE_BPS DEFAULT_FEE_BUMP_BPS program_fee_bps program_fee_wallet
    admin bump (replicate 229 0).

Definition get_epoch_from_slot (self : Config) (slot : Z) : result VaultError Z :=
  ok_or (checked_div slot (epoch_length self)) VaultError.InvalidEpochLength.

Definition set_program_fee_bps (self : Config) (new_fee_bps : Z) : result ProgramError Config :=
  if new_fee_bps >? MAX_BPS then Err ProgramError.InvalidInstructionData
  else Ok self<|program_fee_bps := new_fee_bps|>.

Definition set_deposit_withdrawal_fee_cap_bps (self : Config) (fee_cap_bps : Z)
    : result VaultError Config :=
  if fee_cap_bps >? MAX_BPS then Err VaultError.VaultFeeCapExceeded
  else Ok self<|deposit_withdrawal_fee_cap_bps := fee_cap_bps|>.

Definition set_fee_rate_of_change_bps (self : Config) (rate : Z) : result VaultError Config :=
  if rate >? MAX_BPS then Err VaultError.VaultFeeCapExceeded
  else Ok self<|fee_rate_of_change_bps := rate|>.

Definition set_fee_bump_bps (self : Config) (bump_bps : Z) : result VaultError Config :=
  if bump_bps >? MAX_BPS then Err VaultError.VaultFeeCapExceeded
  else Ok self<|fee_bump_bps := bump_bps|>.

Definition increment_num_vaults (self : Config) : result VaultError Config :=
  let? n := ok_or (checked_add U64_MAX (num_vaults self) 1) VaultError.VaultOverflow in
  Ok self<|num_vaults := n|>.

Definition calculate_program_fee (program_fee_bps vrt_amount : Z) : result VaultError Z :=
  ok_or (fee_ceil vrt_amount program_fee_bps) VaultError.VaultOverflow.

Definition check_admin (self : Config) (k : Pubkey) : result VaultError unit :=
  if negb (admin self =? k) then Err VaultError.ConfigAdminInvalid else Ok tt.

Definition set_admin (self : Config) (new_admin : Pubkey) : Config :=
  self<|admin := new_admin|><|fee_admin := new_admin|>.

Definition seeds : list (list Z) := [bytes_of_string "config"].

Definition find_address `{Env} (program_id : Pubkey) : Pubkey * Z * list (list Z) :=
  (find_program_address seeds program_id, seeds).

Definition load `{Env} (program_id : Pubkey) (account : AccountInfo) (expect_writable : bool)
    (s : Store) : result ProgramError unit :=
  load_program_account Config program_id account expect_writable s ;?
  check_key account (find_address program_id).1.1.

(** Every rate of a configuration is at most 100%. *)
Definition wf (c : Config) : Prop :=
  is_u64 (epoch_length c) /\ is_u64 (num_vaults c) /\
  0 <= deposit_withdrawal_fee_cap_bps c <= MAX_BPS /\
  0 <= fee_rate_of_change_bps c <= MAX_BPS /\
  0 <= fee_bump_bps c <= MAX_BPS /\ 0 <= program_fee_bps c <= MAX_BPS.

End Config.
Abbreviation Config := Config.Config.

#[export] Instance Config_lawful : LawfulPod Config.layout.
Proof. solve_lawful. Qed.

(** ** Rounding up a fee *)

Lemma fee_ceil_Some amount bps :
  is_u64 amount -> 0 <= bps <= MAX_BPS ->
  fee_ceil amount bps = Some (div_ceil (amount * bps) MAX_BPS).
Proof.
  unfold is_u64, fee_ceil. intros Ha Hb.
  rewrite (proj2 (checked_mul_Some U128_MAX amount bps (amount * bps))) by nia. simpl.
  apply try_into_Some. split; [done|]. apply div_ceil_le; nia.
Qed.

Lemma fee_bounds amount bps :
  0 <= amount -> 0 <= bps <= MAX_BPS -> 0 <= div_ceil (amount * bps) MAX_BPS <= amount.
Proof. intros. split; [apply div_ceil_nonneg; nia|apply div_ceil_le; nia]. Qed.

(** A fee is never less than its exact rate, and less than one unit more. *)
Lemma fee_exact amount bps :
  0 <= amount -> 0 <= bps ->
  amount * bps <= div_ceil (amount * bps) MAX_BPS * MAX_BPS < amount * bps + MAX_BPS.
Proof. intros. pose proof (div_ceil_spec (amount * bps) MAX_BPS ltac:(lia)). lia. Qed.
