(* ===== verification/Vault.v ===== *)
(** * The vault ([vault_core/src/vault.rs])

    The [Vault] account: token accounting (deposits, VRT supply, withdrawals
    in progress, delegated stake), admins, counters and fees, with every
    method of the source.  The theorems on minting, burning, fees and
    delegation are in the files that follow. *)

From stdpp Require Import base numbers list.
From Stdlib Require Import Lia String.
From S2P Require Import Prelude Errors Pod DelegationState SlotToggle Runtime Program Core VaultConfig.
Local Open Scope Z_scope.

Record BurnSummary := mkBurnSummary {
  vault_fee_amount : Z;
  program_fee_amount : Z;
  burn_amount : Z;
  out_amount : Z;
}.

Record MintSummary := mkMintSummary {
  vrt_to_depositor : Z;
  vrt_to_fee_wallet : Z;
}.

Module Vault.

Record Vault := mk {
  base : Pubkey;
  vrt_mint : Pubkey;
  supported_mint : Pubkey;
  vrt_supply : Z;
  tokens_deposited : Z;
  deposit_capacity : Z;
  delegation_state : DelegationState;
  additional_assets_need_unstaking : Z;
  vrt_enqueued_for_cooldown_amount : Z;
  vrt_cooling_down_amount : Z;
  vrt_ready_to_claim_amount : Z;
  admin : Pubkey;
  delegation_admin : Pubkey;
  operator_admin : Pubkey;
  ncn_admin : Pubkey;
  slasher_admin : Pubkey;
  capacity_admin : Pubkey;
  fee_admin : Pubkey;
  delegate_asset_admin : Pubkey;
  fee_wallet : Pubkey;
  mint_burn_admin : Pubkey;
  metadata_admin : Pubkey;
  vault_index : Z;
  ncn_count : Z;
  operator_count : Z;
  slasher_count : Z;
  last_fee_change_slot : Z;
  last_full_state_update_slot : Z;
  deposit_fee_bps : Z;
  withdrawal_fee_bps : Z;
  next_withdrawal_fee_bps : Z;
  reward_fee_bps : Z;
  program_fee_bps : Z;
  bump : Z;
  is_paused_pod : Z;
  last_start_state_update_slot : Z;
  reserved : list Z;
}.

#[global] Instance eta_Vault : Eta Vault := fun v =>
  mk (base v) (vrt_mint v) (supported_mint v) (vrt_supply v) (tokens_deposited v)
    (deposit_capacity v) (delegation_state v) (additional_assets_need_unstaking v)
    (vrt_enqueued_for_cooldown_amount v) (vrt_cooling_down_amount v)
    (vrt_ready_to_claim_amount v) (admin v) (delegation_admin v) (operator_admin v)
    (ncn_admin v) (slasher_admin v) (capacity_admin v) (fee_admin v) (delegate_asset_admin
    v) (fee_wallet v) (mint_burn_admin v) (metadata_admin v) (vault_index v) (ncn_count v)
    (operator_count v) (slasher_count v) (last_fee_change_slot v)
    (last_full_state_update_slot v) (deposit_fee_bps v) (withdrawal_fee_bps v)
    (next_withdrawal_fee_bps v) (reward_fee_bps v) (program_fee_bps v) (bump v)
    (is_paused_pod v) (last_start_state_update_slot v) (reserved v).

Definition layout : codec Vault :=
  pod_iso
    (fun '(x1, (x2, (x3, (x4, (x5, (x6, (x7, (x8, (x9, (x10, (x11, (x12, (x13, (x14, (x15,
      (x16, (x17, (x18, (x19, (x20, (x21, (x22, (x23, (x24, (x25, (x26, (x27, (x28, (x29,
      (x30, (x31, (x32, (x33, (x34, (x35, (x36, x37)))))))))))))))))))))))))))))))))))) =>
      mk x1 x2 x3 x4 x5 x6 x7 x8 x9 x10 x11 x12 x13 x14 x15 x16 x17 x18 x19 x20 x21 x22 x23
      x24 x25 x26 x27 x28 x29 x30 x31 x32 x33 x34 x35 x36 x37)
    (fun v => (base v, (vrt_mint v, (supported_mint v, (vrt_supply v, (tokens_deposited v,
      (deposit_capacity v, (delegation_state v, (additional_assets_need_unstaking v,
      (vrt_enqueued_for_cooldown_amount v, (vrt_cooling_down_amount v,
      (vrt_ready_to_claim_amount v, (admin v, (delegation_admin v, (operator_admin v,
      (ncn_admin v, (slasher_admin v, (capacity_admin v, (fee_admin v, (delegate_asset_admin
      v, (fee_wallet v, (mint_burn_admin v, (metadata_admin v, (vault_index v, (ncn_count v,
      (operator_count v, (slasher_count v, (last_fee_change_slot v,
      (last_full_state_update_slot v, (deposit_fee_bps v, (withdrawal_fee_bps v,
      (next_withdrawal_fee_bps v, (reward_fee_bps v, (program_fee_bps v, (bump v,
      (is_paused_pod v, (last_start_state_update_slot v, reserved
      v)))))))))))))))))))))))))))))))))))))
    (pod_pair pod_pubkey (pod_pair pod_pubkey (pod_pair pod_pubkey (pod_pair PodU64
      (pod_pair PodU64 (pod_pair PodU64 (pod_pair DelegationState.layout (pod_pair PodU64
      (pod_pair PodU64 (pod_pair PodU64 (pod_pair PodU64 (pod_pair pod_pubkey (pod_pair
      pod_pubkey (pod_pair pod_pubkey (pod_pair pod_pubkey (pod_pair pod_pubkey (pod_pair
      pod_pubkey (pod_pair pod_pubkey (pod_pair pod_pubkey (pod_pair pod_pubkey (pod_pair
      pod_pubkey (pod_pair pod_pubkey (pod_pair PodU64 (pod_pair PodU64 (pod_pair PodU64
      (pod_pair PodU64 (pod_pair PodU64 (pod_pair PodU64 (pod_pair PodU16 (pod_pair PodU16
      (pod_pair PodU16 (pod_pair PodU16 (pod_pair PodU16 (pod_pair pod_u8 (pod_pair PodBool
      (pod_pair PodU64 (pod_array 251))))))))))))))))))))))))))))))))))))).

#[global] Instance Vault_account : AccountDeserialize Vault :=
  {| acc_codec := layout; DISCRIMINATOR := 2 |}.

Definition MAX_REWARD_DELTA_BPS : Z := 50.
Definition MIN_WITHDRAWAL_SLIPPAGE_BPS : Z := 50.
Definition DEFAULT_INITIALIZATION_TOKEN_AMOUNT : Z := 10000.
Definition RESERVED_SPACE_LEN : nat := 251.

Definition new (vrt_mint supported_mint admin : Pubkey) (vault_index : Z) (base : Pubkey)
    (deposit_fee_bps withdrawal_fee_bps reward_fee_bps program_fee_bps_from_config bump
     current_slot : Z) : result VaultError Vault :=
  if deposit_fee_bps >? MAX_BPS then Err VaultError.VaultFeeCapExceeded
  else if withdrawal_fee_bps >? MAX_BPS then Err VaultError.VaultFeeCapExceeded
  else if reward_fee_bps >? MAX_BPS then Err VaultError.VaultFeeCapExceeded
  else Ok {|
    base := base;
    vrt_mint := vrt_mint;
    supported_mint := supported_mint;
    admin := admin;
    delegation_admin := admin;
    operator_admin := admin;
    ncn_admin := admin;
    slasher_admin := admin;
    capacity_admin := admin;
    fee_admin := admin;
    delegate_asset_admin := admin;
    fee_wallet := admin;
    metadata_admin := admin;
    mint_burn_admin := Pubkey_default;
    deposit_capacity := U64_MAX;
    vault_index := vault_index;
    vrt_supply := 0;
    tokens_deposited := 0;
    vrt_enqueued_for_cooldown_amount := 0;
    vrt_cooling_down_amount := 0;
    vrt_ready_to_claim_amount := 0;
    last_fee_change_slot := current_slot;
    last_full_state_update_slot := current_slot;
    last_start_state_update_slot := current_slot;
    deposit_fee_bps := deposit_fee_bps;
    withdrawal_fee_bps := withdrawal_fee_bps;
    next_withdrawal_fee_bps := withdrawal_fee_bps;
    reward_fee_bps := reward_fee_bps;
    program_fee_bps := program_fee_bps_from_config;
    ncn_count := 0;
    operator_count := 0;
    slasher_count := 0;
    bump := bump;
    delegation_state := DelegationState.default;
    additional_assets_need_unstaking := 0;
    is_paused_pod := from_bool false;
    reserved := replicate RESERVED_SPACE_LEN 0;
  |}.

(** ** Counters and setters *)

Definition set_last_fee_change_slot (self : Vault) (slot : Z) : Vault :=
  self<|last_fee_change_slot := slot|>.

Definition increment_tokens_deposited (self : Vault) (amount : Z) : result VaultError Vault :=
  let? n := ok_or (checked_add U64_MAX (tokens_deposited self) amount)
      VaultError.VaultOverflow in
  Ok self<|tokens_deposited := n|>.

Definition decrement_tokens_deposited (self : Vault) (amount : Z) : result VaultError Vault :=
  let? n := ok_or (checked_sub (tokens_deposited self) amount) VaultError.VaultUnderflow in
  Ok self<|tokens_deposited := n|>.

Definition increment_slasher_count (self : Vault) : result VaultError Vault :=
  let? n := ok_or (checked_add U64_MAX (slasher_count self) 1) VaultError.SlasherOverflow in
  Ok self<|slasher_count := n|>.

Definition increment_ncn_count (self : Vault) : result VaultError Vault :=
  let? n := ok_or (checked_add U64_MAX (ncn_count self) 1) VaultError.NcnOverflow in
  Ok self<|ncn_count := n|>.

Definition increment_operator_count (self : Vault) : result VaultError Vault :=
  let? n := ok_or (checked_add U64_MAX (operator_count self) 1) VaultError.OperatorOverflow in
  Ok self<|operator_count := n|>.

Definition set_program_fee_bps (self : Vault) (bps : Z) : result ProgramError Vault :=
  if bps >? MAX_BPS then Err ProgramError.InvalidInstructionData
  else Ok self<|program_fee_bps := bps|>.

Definition set_capacity (self : Vault) (capacity : Z) : Vault :=
  self<|deposit_capacity := capacity|>.

Definition set_vrt_cooling_down_amount (self : Vault) (amount : Z) : Vault :=
  self<|vrt_cooling_down_amount := amount|>.

Definition increment_vrt_supply (self : Vault) (amount : Z) : result VaultError Vault :=
  let? n := ok_or (checked_add U64_MAX (vrt_supply self) amount) VaultError.VaultOverflow in
  Ok self<|vrt_supply := n|>.

Definition decrement_vrt_supply (self : Vault) (amount : Z) : result VaultError Vault :=
  let? n := ok_or (checked_sub (vrt_supply self) amount) VaultError.VaultUnderflow in
  Ok self<|vrt_supply := n|>.

Definition set_last_full_state_update_slot (self : Vault) (slot : Z) : Vault :=
  self<|last_full_state_update_slot := slot|>.

Definition set_last_start_state_update_slot (self : Vault) (slot : Z) : Vault :=
  self<|last_start_state_update_slot := slot|>.

Definition decrement_vrt_ready_to_claim_amount (self : Vault) (amount : Z)
    : result VaultError Vault :=
  let? n := ok_or (checked_sub (vrt_ready_to_claim_amount self) amount)
      VaultError.VaultUnderflow in
  Ok self<|vrt_ready_to_claim_amount := n|>.

Definition increment_vrt_ready_to_claim_amount (self : Vault) (amount : Z)
    : result VaultError Vault :=
  let? n := ok_or (checked_add U64_MAX (vrt_ready_to_claim_amount self) amount)
      VaultError.VaultOverflow in
  Ok self<|vrt_ready_to_claim_amount := n|>.

Definition increment_vrt_enqueued_for_cooldown_amount (self : Vault) (amount : Z)
    : result VaultError Vault :=
  let? n := ok_or (checked_add U64_MAX (vrt_enqueued_for_cooldown_amount self) amount)
      VaultError.VaultOverflow in
  Ok self<|vrt_enqueued_for_cooldown_amount := n|>.

Definition set_vrt_enqueued_for_cooldown_amount (self : Vault) (amount : Z) : Vault :=
  self<|vrt_enqueued_for_cooldown_amount := amount|>.

Definition set_tokens_deposited (self : Vault) (n : Z) : Vault :=
  self<|tokens_deposited := n|>.

Definition set_vrt_supply (self : Vault) (n : Z) : Vault := self<|vrt_supply := n|>.

Definition set_additional_assets_need_unstaking (self : Vault) (n : Z) : Vault :=
  self<|additional_assets_need_unstaking := n|>.

Definition decrement_additional_assets_need_unstaking (self : Vault) (amount : Z)
    : result VaultError Vault :=
  let? n := ok_or (checked_sub (additional_assets_need_unstaking self) amount)
      VaultError.VaultUnderflow in
  Ok self<|additional_assets_need_unstaking := n|>.

Definition is_paused (self : Vault) : bool := bool_from (is_paused_pod self).

Definition set_is_paused (self : Vault) (b : bool) : Vault :=
  self<|is_paused_pod := from_bool b|>.

Definition initialize_vault_override_deposit_fee_bps (self : Vault) (bps : Z)
    (base_info : AccountInfo) : result ProgramError Vault :=
  if negb (is_signer base_info) then Err ProgramError.MissingRequiredSignature
  else if bps >? MAX_BPS then VErr VaultError.VaultFeeCapExceeded
  else Ok self<|deposit_fee_bps := bps|>.

(** ** Checks *)

Definition check_is_paused (self : Vault) : result VaultError unit :=
  if is_paused self then Err VaultError.VaultIsPaused else Ok tt.

Definition check_vrt_mint (self : Vault) (k : Pubkey) : result ProgramError unit :=
  if negb (vrt_mint self =? k) then Err ProgramError.InvalidAccountData else Ok tt.

Definition check_admin (self : Vault) (k : Pubkey) : result ProgramError unit :=
  if negb (admin self =? k) then VErr VaultError.VaultAdminInvalid else Ok tt.

Definition check_delegation_admin (self : Vault) (k : Pubkey) : result VaultError unit :=
  if negb (delegation_admin self =? k) then Err VaultError.VaultDelegationAdminInvalid else Ok tt.

Definition check_operator_admin (self : Vault) (k : Pubkey) : result VaultError unit :=
  if negb (operator_admin self =? k) then Err VaultError.VaultOperatorAdminInvalid else Ok tt.

Definition check_ncn_admin (self : Vault) (k : Pubkey) : result VaultError unit :=
  if negb (ncn_admin self =? k) then Err VaultError.VaultNcnAdminInvalid else Ok tt.

Definition check_slasher_admin (self : Vault) (k : Pubkey) : result VaultError unit :=
  if negb (slasher_admin self =? k) then Err VaultError.VaultSlasherAdminInvalid else Ok tt.

Definition check_capacity_admin (self : Vault) (k : Pubkey) : result VaultError unit :=
  if negb (capacity_admin self =? k) then Err VaultError.VaultCapacityAdminInvalid else Ok tt.

Definition check_fee_admin (self : Vault) (k : Pubkey) : result VaultError unit :=
  if negb (fee_admin self =? k) then Err VaultError.VaultFeeAdminInvalid else Ok tt.

Definition check_delegate_asset_admin (self : Vault) (k : Pubkey) : result VaultError unit :=
  if negb (delegate_asset_admin self =? k) then Err VaultError.VaultDelegateAssetAdminInvalid
  else Ok tt.

(** One replacement of [update_secondary_admin]. *)
Definition replace_admin (old_admin new_admin current : Pubkey) : Pubkey :=
  if current =? old_admin then new_admin else current.

Definition update_secondary_admin (self : Vault) (old_admin new_admin : Pubkey) : Vault :=
  let r := replace_admin old_admin new_admin in
  self<|delegation_admin := r (delegation_admin self)|>
      <|operator_admin := r (operator_admin self)|>
      <|ncn_admin := r (ncn_admin self)|>
      <|slasher_admin := r (slasher_admin self)|>
      <|capacity_admin := r (capacity_admin self)|>
      <|fee_wallet := r (fee_wallet self)|>
      <|mint_burn_admin := r (mint_burn_admin self)|>
      <|delegate_asset_admin := r (delegate_asset_admin self)|>
      <|fee_admin := r (fee_admin self)|>
      <|metadata_admin := r (metadata_admin self)|>.

Definition is_update_needed (self : Vault) (slot epoch_length : Z) : result ProgramError bool :=
  let? last_updated_epoch := get_epoch (last_full_state_update_slot self) epoch_length in
  let? current_epoch := get_epoch slot epoch_length in
  Ok (last_updated_epoch <? current_epoch).

Definition check_update_state_ok (self : Vault) (slot epoch_length : Z)
    : result ProgramError unit :=
  let? needed := is_update_needed self slot epoch_length in
  if (needed : bool) then VErr VaultError.VaultUpdateNeeded else Ok tt.

Definition check_mint_burn_admin (self : Vault) (mint_burn_admin_info : option AccountInfo)
    : result VaultError unit :=
  if negb (mint_burn_admin self =? Pubkey_default) then
    match mint_burn_admin_info with
    | Some burn_signer =>
        map_err (fun _ => VaultError.VaultMintBurnAdminInvalid) (load_signer burn_signer false) ;?
        if negb (key burn_signer =? mint_burn_admin self)
        then Err VaultError.VaultMintBurnAdminInvalid
        else Ok tt
    | None => Err VaultError.VaultMintBurnAdminInvalid
    end
  else Ok tt.

(** ** Fees *)

Definition check_can_modify_fees (self : Vault) (slot epoch_length : Z)
    : result ProgramError unit :=
  let? current_epoch := get_epoch slot epoch_length in
  let? last_fee_change_epoch := get_epoch (last_fee_change_slot self) epoch_length in
  let? next := ok_or (checked_add U64_MAX last_fee_change_epoch 1)
      VaultError.ArithmeticOverflow in
  if current_epoch <=? next then VErr VaultError.VaultFeeChangeTooSoon else Ok tt.

Definition set_withdrawal_fee_bps (self : Vault) (bps : Z) : result VaultError Vault :=
  if bps >? MAX_BPS then Err VaultError.VaultFeeCapExceeded
  else Ok self<|withdrawal_fee_bps := bps|>.

Definition check_fee_change_ok (current_fee_bps new_fee_bps fee_cap_bps fee_bump_bps
    fee_rate_of_change_bps : Z) : result VaultError unit :=
  if (current_fee_bps >? MAX_BPS) || (new_fee_bps >? MAX_BPS) || (fee_cap_bps >? MAX_BPS)
     || (fee_bump_bps >? MAX_BPS) || (fee_rate_of_change_bps >? MAX_BPS)
  then Err VaultError.VaultFeeCapExceeded
  else
    let fee_delta := saturating_sub new_fee_bps current_fee_bps in
    let fee_cap_bps := Z.min fee_cap_bps MAX_BPS in
    if new_fee_bps >? fee_cap_bps then Err VaultError.VaultFeeCapExceeded
    else if fee_delta >? fee_bump_bps then
      let deposit_percentage_increase_bps :=
        default U64_MAX
          (checked_mul U128_MAX fee_delta MAX_BPS ≫= fun product =>
           checked_div product current_fee_bps ≫= try_into U64_MAX) in
      if deposit_percentage_increase_bps >? fee_rate_of_change_bps
      then Err VaultError.VaultFeeBumpTooLarge
      else Ok tt
    else Ok tt.

Definition set_next_withdrawal_fee_bps (self : Vault) (bps deposit_withdrawal_fee_cap_bps
    fee_bump_bps fee_rate_of_change_bps : Z) : result VaultError Vault :=
  if bps >? MAX_BPS then Err VaultError.VaultFeeCapExceeded
  else if bps >? deposit_withdrawal_fee_cap_bps then Err VaultError.VaultFeeCapExceeded
  else
    check_fee_change_ok (withdrawal_fee_bps self) bps deposit_withdrawal_fee_cap_bps
      fee_bump_bps fee_rate_of_change_bps ;?
    Ok self<|next_withdrawal_fee_bps := bps|>.

Definition set_deposit_fee_bps (self : Vault) (bps deposit_withdrawal_fee_cap_bps
    fee_bump_bps fee_rate_of_change_bps : Z) : result VaultError Vault :=
  if bps >? MAX_BPS then Err VaultError.VaultFeeCapExceeded
  else if bps >? deposit_withdrawal_fee_cap_bps then Err VaultError.VaultFeeCapExceeded
  else
    check_fee_change_ok (deposit_fee_bps self) bps deposit_withdrawal_fee_cap_bps
      fee_bump_bps fee_rate_of_change_bps ;?
    Ok self<|deposit_fee_bps := bps|>.

Definition set_reward_fee_bps (self : Vault) (bps : Z) : result VaultError Vault :=
  if bps >? MAX_BPS then Err VaultError.VaultFeeCapExceeded
  else Ok self<|reward_fee_bps := bps|>.

(** ** Minting and burning *)

Definition calculate_st_reward_fee (self : Vault) (new_st_supply : Z) : result VaultError Z :=
  let st_rewards := saturating_sub new_st_supply (tokens_deposited self) in
  if st_rewards =? 0 then Ok 0
  else ok_or (fee_ceil st_rewards (reward_fee_bps self)) VaultError.VaultOverflow.

Definition check_reward_fee_effective_rate (self : Vault) (st_rewards vrt_reward_fee
    max_delta_bps : Z) : result VaultError unit :=
  if max_delta_bps >? MAX_BPS then Err VaultError.VaultFeeCapExceeded
  else if ((st_rewards =? 0) || (reward_fee_bps self =? 0)) && (vrt_reward_fee =? 0) then Ok tt
  else if vrt_reward_fee =? 0 then Err VaultError.VaultRewardFeeIsZero
  else
    let precision_factor := MAX_BPS in
    let? st_vrt_ratio := ok_or
        (checked_mul U128_MAX (tokens_deposited self) precision_factor ≫= fun v =>
         checked_div v (vrt_supply self)) VaultError.VaultOverflow in
    let? rewards_in_vrt := ok_or
        (checked_mul U128_MAX st_rewards precision_factor ≫= fun v =>
         checked_div v st_vrt_ratio) VaultError.VaultOverflow in
    let? effective_rate_bps := ok_or
        (checked_mul U128_MAX vrt_reward_fee MAX_BPS ≫= fun v =>
         checked_div v rewards_in_vrt ≫= try_into U16_MAX) VaultError.VaultOverflow in
    let expected_rate_bps := reward_fee_bps self in
    let? delta := ok_or
        (if effective_rate_bps >? expected_rate_bps
         then checked_sub effective_rate_bps expected_rate_bps
         else checked_sub expected_rate_bps effective_rate_bps) VaultError.VaultOverflow in
    if delta >? max_delta_bps then Err VaultError.VaultRewardFeeDeltaTooLarge else Ok tt.

Definition calculate_vrt_mint_amount (self : Vault) (amount : Z) : result VaultError Z :=
  if tokens_deposited self =? 0 then Ok amount
  else ok_or
    (checked_mul U128_MAX amount (vrt_supply self) ≫= fun x =>
     checked_div x (tokens_deposited self) ≫= try_into U64_MAX) VaultError.VaultOverflow.

Definition calculate_deposit_fee (self : Vault) (vrt_amount : Z) : result VaultError Z :=
  ok_or (fee_ceil vrt_amount (deposit_fee_bps self)) VaultError.VaultOverflow.

Definition calculate_withdrawal_fee (self : Vault) (vrt_amount : Z) : result VaultError Z :=
  ok_or (fee_ceil vrt_amount (withdrawal_fee_bps self)) VaultError.VaultOverflow.

Definition mint_with_fee (self : Vault) (amount_in min_amount_out : Z)
    : result VaultError (Vault * MintSummary) :=
  if amount_in =? 0 then Err VaultError.VaultMintZero
  else
    let? vault_token_amount_after_deposit :=
      ok_or (checked_add U64_MAX (tokens_deposited self) amount_in) VaultError.VaultOverflow in
    if vault_token_amount_after_deposit >? deposit_capacity self
    then Err VaultError.VaultCapacityExceeded
    else
      let? vrt_mint_amount := calculate_vrt_mint_amount self amount_in in
      let? vrt_to_fee_wallet := calculate_deposit_fee self vrt_mint_amount in
      let? vrt_to_depositor :=
        ok_or (checked_sub vrt_mint_amount vrt_to_fee_wallet) VaultError.VaultUnderflow in
      if vrt_to_depositor <? min_amount_out then Err VaultError.SlippageError
      else
        let? supply := ok_or (checked_add U64_MAX (vrt_supply self) vrt_mint_amount)
            VaultError.VaultOverflow in
        Ok (self<|vrt_supply := supply|>
                <|tokens_deposited := vault_token_amount_after_deposit|>,
            mkMintSummary vrt_to_depositor vrt_to_fee_wallet).

Definition calculate_burn_summary (self : Vault) (is_staker_program_fee_wallet
    is_staker_vault_fee_wallet : bool) (amount_in : Z) : result VaultError BurnSummary :=
  let? program_fee := Config.calculate_program_fee (program_fee_bps self) amount_in in
  let? vault_fee := calculate_withdrawal_fee self amount_in in
  let? both := ok_or (checked_add U64_MAX program_fee vault_fee) VaultError.VaultOverflow in
  let? vault_fee :=
    (if both >? amount_in
     then ok_or (checked_sub amount_in program_fee) VaultError.VaultUnderflow
     else Ok vault_fee) in
  let program_fee := if is_staker_program_fee_wallet then 0 else program_fee in
  let vault_fee := if is_staker_vault_fee_wallet then 0 else vault_fee in
  let? amount_to_burn := ok_or
      (checked_sub amount_in program_fee ≫= fun x => checked_sub x vault_fee)
      VaultError.VaultUnderflow in
  let? amount_out := ok_or
      (checked_mul U128_MAX amount_to_burn (tokens_deposited self) ≫= fun x =>
       checked_div x (vrt_supply self) ≫= try_into U64_MAX) VaultError.VaultOverflow in
  Ok {| program_fee_amount := program_fee; vault_fee_amount := vault_fee;
        burn_amount := amount_to_burn; out_amount := amount_out |}.

Definition burn_with_fee (self : Vault) (is_staker_program_fee_wallet
    is_staker_vault_fee_wallet : bool) (amount_in : Z)
    : result VaultError (Vault * BurnSummary) :=
  if amount_in =? 0 then Err VaultError.VaultBurnZero
  else if amount_in >? vrt_supply self then Err VaultError.VaultInsufficientFunds
  else
    let? b := calculate_burn_summary self is_staker_program_fee_wallet
        is_staker_vault_fee_wallet amount_in in
    let? security := DelegationState.total_security (delegation_state self) in
    let? max_withdrawable := ok_or (checked_sub (tokens_deposited self) security)
        VaultError.VaultUnderflow in
    if out_amount b >? max_withdrawable then Err VaultError.VaultUnderflow
    else
      let? supply := ok_or (checked_sub (vrt_supply self) (burn_amount b))
          VaultError.VaultUnderflow in
      let? deposited := ok_or (checked_sub (tokens_deposited self) (out_amount b))
          VaultError.VaultUnderflow in
      Ok (self<|vrt_supply := supply|><|tokens_deposited := deposited|>, b).

Definition calculate_supported_assets_requested_for_withdrawal (self : Vault)
    : result VaultError Z :=
  if vrt_supply self =? 0 then Ok 0
  else
    let? vrt_reserve := ok_or
        (checked_add U64_MAX (vrt_enqueued_for_cooldown_amount self)
           (vrt_cooling_down_amount self) ≫= fun x =>
         checked_add U64_MAX x (vrt_ready_to_claim_amount self)) VaultError.VaultOverflow in
    let? b := calculate_burn_summary self false false vrt_reserve in
    Ok (out_amount b).

(** The delegation state after [epoch_diff] epochs, updated twice at most. *)
Definition simulate_updates (epoch_diff : Z) (d : DelegationState) : DelegationState :=
  if epoch_diff =? 0 then d
  else if epoch_diff =? 1 then DelegationState.update d
  else DelegationState.update (DelegationState.update d).

Definition calculate_additional_supported_assets_needed_to_unstake (self : Vault)
    (slot epoch_length : Z) : result ProgramError Z :=
  let? amount_requested_for_withdrawals :=
    calculate_supported_assets_requested_for_withdrawal self in
  let? last_epoch_update := get_epoch (last_full_state_update_slot self) epoch_length in
  let? current_epoch := get_epoch slot epoch_length in
  let? epoch_diff := ok_or (checked_sub current_epoch last_epoch_update)
      VaultError.ArithmeticUnderflow in
  let after := simulate_updates epoch_diff (delegation_state self) in
  let? total_delegated_after_update := DelegationState.total_security after in
  let? undelegated_after_update :=
    ok_or (checked_sub (tokens_deposited self) total_delegated_after_update)
      VaultError.VaultUnderflow in
  let? assets_withdrawing_after_update :=
    ok_or (checked_add U64_MAX (DelegationState.enqueued_for_cooldown_amount after)
             (DelegationState.cooling_down_amount after)) VaultError.VaultOverflow in
  let? available_for_withdrawal :=
    ok_or (checked_add U64_MAX undelegated_after_update assets_withdrawing_after_update)
      VaultError.VaultOverflow in
  Ok (saturating_sub amount_requested_for_withdrawals available_for_withdrawal).

Definition delegate (self : Vault) (amount : Z) : result VaultError Vault :=
  if amount =? 0 then Err VaultError.VaultDelegationZero
  else if (tokens_deposited self =? 0) || (vrt_supply self =? 0)
  then Err VaultError.VaultUnderflow
  else
    let? amount_to_reserve_for_vrts :=
      calculate_supported_assets_requested_for_withdrawal self in
    let? security := DelegationState.total_security (delegation_state self) in
    let? amount_available_for_delegation := ok_or
        (checked_sub (tokens_deposited self) security ≫= fun x =>
         checked_sub x amount_to_reserve_for_vrts) VaultError.VaultUnderflow in
    if amount >? amount_available_for_delegation then Err VaultError.VaultInsufficientFunds
    else
      let? d := DelegationState.delegate (delegation_state self) amount in
      Ok self<|delegation_state := d|>.

(** ** Addresses and loading *)

Definition seeds (base : Pubkey) : list (list Z) := [bytes_of_string "vault"; pubkey_bytes base].

Definition signing_seeds (self : Vault) : list (list Z) := seeds (base self) ++ [[bump self]].

Definition find_address `{Env} (program_id base : Pubkey) : Pubkey * Z * list (list Z) :=
  (find_program_address (seeds base) program_id, seeds base).

Definition load `{Env} (program_id : Pubkey) (account : AccountInfo) (expect_writable : bool)
    (s : Store) : result Fault unit :=
  load_program_account Vault program_id account expect_writable s ;?
  let? vault := try_from_slice_unchecked Vault (data (account_of s account)) in
  let? expected_pubkey := create_program_address (signing_seeds vault) program_id in
  into (check_key account expected_pubkey).

(** ** Invariant *)

(** Amounts are [u64] and fees are at most 100%. *)
Definition wf (v : Vault) : Prop :=
  is_u64 (vrt_supply v) /\ is_u64 (tokens_deposited v) /\ is_u64 (deposit_capacity v) /\
  DelegationState.wf (delegation_state v) /\
  is_u64 (additional_assets_need_unstaking v) /\
  is_u64 (vrt_enqueued_for_cooldown_amount v) /\ is_u64 (vrt_cooling_down_amount v) /\
  is_u64 (vrt_ready_to_claim_amount v) /\
  0 <= deposit_fee_bps v <= MAX_BPS /\ 0 <= withdrawal_fee_bps v <= MAX_BPS /\
  0 <= next_withdrawal_fee_bps v <= MAX_BPS /\ 0 <= reward_fee_bps v <= MAX_BPS /\
  0 <= program_fee_bps v <= MAX_BPS.

End Vault.
Abbreviation Vault := Vault.Vault.

#[export] Instance Vault_lawful : LawfulPod Vault.layout.
Proof. solve_lawful. Qed.
