(* ===== verification/VaultTickets.v ===== *)
(** * Accounts that record a vault's relations
    ([vault_core/src/vault_*.rs], [burn_vault.rs], [loader.rs])

    Delegations to operators, pending withdrawals, the tracker of the epoch
    update, tickets for networks and slashers, with their addresses, loaders
    and methods. *)

From stdpp Require Import base numbers list.
From Stdlib Require Import Lia String.
From S2P Require Import Prelude Errors Pod DelegationState SlotToggle Runtime Program Core.
From S2P Require Import VaultConfig Vault.
Local Open Scope Z_scope.

(** ** [vault_operator_delegation.rs] *)
Module VaultOperatorDelegation.

Record VaultOperatorDelegation := mk {
  vault : Pubkey;
  operator : Pubkey;
  delegation_state : DelegationState;
  last_update_slot : Z;
  index : Z;
  bump : Z;
  reserved : list Z;
}.

#[global] Instance eta_VaultOperatorDelegation : Eta VaultOperatorDelegation := fun v =>
  mk (vault v) (operator v) (delegation_state v) (last_update_slot v) (index v) (bump v)
    (reserved v).

Definition layout : codec VaultOperatorDelegation :=
  pod_iso
    (fun '(x1, (x2, (x3, (x4, (x5, (x6, x7)))))) => mk x1 x2 x3 x4 x5 x6 x7)
    (fun v => (vault v, (operator v, (delegation_state v, (last_update_slot v, (index v,
      (bump v, reserved v)))))))
    (pod_pair pod_pubkey (pod_pair pod_pubkey (pod_pair DelegationState.layout (pod_pair
      PodU64 (pod_pair PodU64 (pod_pair pod_u8 (pod_array 263))))))).

#[global] Instance VaultOperatorDelegation_account : AccountDeserialize VaultOperatorDelegation :=
  {| acc_codec := layout; DISCRIMINATOR := 4 |}.

Definition new (vault operator : Pubkey) (index bump slot : Z) : VaultOperatorDelegation :=
  mk vault operator DelegationState.default slot index bump (replicate 263 0).

Definition check_is_already_updated (self : VaultOperatorDelegation) (slot epoch_length : Z)
    : result ProgramError unit :=
  let? last_update_epoch := get_epoch (last_update_slot self) epoch_length in
  let? current_epoch := get_epoch slot epoch_length in
  if last_update_epoch >=? current_epoch then VErr VaultError.VaultOperatorDelegationIsUpdated
  else Ok tt.

Definition update (self : VaultOperatorDelegation) (slot epoch_length : Z)
    : result ProgramError VaultOperatorDelegation :=
  let? last_update_epoch := get_epoch (last_update_slot self) epoch_length in
  let? current_epoch := get_epoch slot epoch_length in
  let? epoch_diff := ok_or (checked_sub current_epoch last_update_epoch)
      VaultError.ArithmeticUnderflow in
  let d := delegation_state self in
  let d' :=
    if epoch_diff =? 0 then d
    else if epoch_diff =? 1 then DelegationState.update d
    else DelegationState.update (DelegationState.update d) in
  Ok self<|delegation_state := d'|><|last_update_slot := slot|>.

Definition seeds (vault operator : Z) : list (list Z) :=
  [bytes_of_string "vault_operator_delegation"; pubkey_bytes vault; pubkey_bytes operator].

Definition find_address `{Env} (program_id vault operator : Z) : Pubkey * Z * list (list Z) :=
  (find_program_address (seeds vault operator) program_id, seeds vault operator).

Definition load `{Env} (program_id : Pubkey) (account vault operator : AccountInfo)
    (expect_writable : bool) (s : Store) : result ProgramError unit :=
  load_program_account VaultOperatorDelegation program_id account expect_writable s ;?
  check_key account (find_address program_id (key vault) (key operator)).1.1.

End VaultOperatorDelegation.
Abbreviation VaultOperatorDelegation := VaultOperatorDelegation.VaultOperatorDelegation.
#[export] Instance VaultOperatorDelegation_lawful : LawfulPod VaultOperatorDelegation.layout.
Proof. solve_lawful. Qed.

(** ** [vault_staker_withdrawal_ticket.rs] *)
Module VaultStakerWithdrawalTicket.

Record VaultStakerWithdrawalTicket := mk {
  vault : Pubkey;
  staker : Pubkey;
  base : Pubkey;
  vrt_amount : Z;
  slot_unstaked : Z;
  bump : Z;
  reserved : list Z;
}.

#[global] Instance eta_VaultStakerWithdrawalTicket : Eta VaultStakerWithdrawalTicket := fun v =>
  mk (vault v) (staker v) (base v) (vrt_amount v) (slot_unstaked v) (bump v) (reserved v).

Definition layout : codec VaultStakerWithdrawalTicket :=
  pod_iso
    (fun '(x1, (x2, (x3, (x4, (x5, (x6, x7)))))) => mk x1 x2 x3 x4 x5 x6 x7)
    (fun v => (vault v, (staker v, (base v, (vrt_amount v, (slot_unstaked v, (bump v,
      reserved v)))))))
    (pod_pair pod_pubkey (pod_pair pod_pubkey (pod_pair pod_pubkey (pod_pair PodU64
      (pod_pair PodU64 (pod_pair pod_u8 (pod_array 263))))))).

#[global] Instance VaultStakerWithdrawalTicket_account : AccountDeserialize VaultStakerWithdrawalTicket :=
  {| acc_codec := layout; DISCRIMINATOR := 7 |}.

Definition new (vault staker base : Pubkey) (vrt_amount slot_unstaked bump : Z)
    : VaultStakerWithdrawalTicket :=
  mk vault staker base vrt_amount slot_unstaked bump (replicate 263 0).

Definition check_staker (self : VaultStakerWithdrawalTicket) (k : Pubkey)
    : result VaultError unit :=
  if negb (staker self =? k) then Err VaultError.VaultStakerWithdrawalTicketInvalidStaker
  else Ok tt.

Definition is_withdrawable (self : VaultStakerWithdrawalTicket) (slot epoch_length : Z)
    : result ProgramError bool :=
  let? current_epoch := get_epoch slot epoch_length in
  let? epoch_unstaked := get_epoch (slot_unstaked self) epoch_length in
  let? next := ok_or (checked_add U64_MAX epoch_unstaked 1) VaultError.ArithmeticOverflow in
  if current_epoch <=? next then Ok false else Ok true.

Definition seeds (vault base : Z) : list (list Z) :=
  [bytes_of_string "vault_staker_withdrawal_ticket"; pubkey_bytes vault; pubkey_bytes base].

Definition find_address `{Env} (program_id vault base : Z) : Pubkey * Z * list (list Z) :=
  (find_program_address (seeds vault base) program_id, seeds vault base).

Definition signing_seeds (self : VaultStakerWithdrawalTicket) (vault : Pubkey) : list (list Z) :=
  seeds vault (base self) ++ [[bump self]].

Definition load `{Env} (program_id : Pubkey) (account vault_info : AccountInfo)
    (expect_writable : bool) (s : Store) : result Fault unit :=
  load_program_account VaultStakerWithdrawalTicket program_id account expect_writable s ;?
  let? ticket := try_from_slice_unchecked VaultStakerWithdrawalTicket
      (data (account_of s account)) in
  if negb (vault ticket =? key vault_info) then Err (ProgErr ProgramError.InvalidAccountData)
  else
    let? expected_pubkey :=
      create_program_address (signing_seeds ticket (key vault_info)) program_id in
    into (check_key account expected_pubkey).

End VaultStakerWithdrawalTicket.
Abbreviation VaultStakerWithdrawalTicket := VaultStakerWithdrawalTicket.VaultStakerWithdrawalTicket.
#[export] Instance VaultStakerWithdrawalTicket_lawful : LawfulPod VaultStakerWithdrawalTicket.layout.
Proof. solve_lawful. Qed.

(** ** [vault_update_state_tracker.rs] *)
Module VaultUpdateStateTracker.

Record VaultUpdateStateTracker := mk {
  vault : Pubkey;
  ncn_epoch : Z;
  last_updated_index : Z;
  delegation_state : DelegationState;
  withdrawal_allocation_method : Z;
  reserved : list Z;
}.

#[global] Instance eta_VaultUpdateStateTracker : Eta VaultUpdateStateTracker := fun v =>
  mk (vault v) (ncn_epoch v) (last_updated_index v) (delegation_state v)
    (withdrawal_allocation_method v) (reserved v).

Definition layout : codec VaultUpdateStateTracker :=
  pod_iso
    (fun '(x1, (x2, (x3, (x4, (x5, x6))))) => mk x1 x2 x3 x4 x5 x6)
    (fun v => (vault v, (ncn_epoch v, (last_updated_index v, (delegation_state v,
      (withdrawal_allocation_method v, reserved v))))))
    (pod_pair pod_pubkey (pod_pair PodU64 (pod_pair PodU64 (pod_pair
      DelegationState.layout (pod_pair pod_u8 (pod_array 263)))))).

#[global] Instance VaultUpdateStateTracker_account : AccountDeserialize VaultUpdateStateTracker :=
  {| acc_codec := layout; DISCRIMINATOR := 8 |}.

Definition new (vault : Pubkey) (ncn_epoch withdrawal_allocation_method : Z)
    : VaultUpdateStateTracker :=
  mk vault ncn_epoch U64_MAX DelegationState.default withdrawal_allocation_method
    (replicate 263 0).

Definition check_and_update_index (self : VaultUpdateStateTracker) (index num_operators : Z)
    : result VaultError VaultUpdateStateTracker :=
  (if last_updated_index self =? U64_MAX then
     let? start_index := ok_or (checked_rem (ncn_epoch self) num_operators)
         VaultError.DivisionByZero in
     if negb (index =? start_index) then Err VaultError.VaultUpdateIncorrectIndex else Ok tt
   else
     let? next_index := ok_or
         (checked_add U64_MAX (last_updated_index self) 1 ≫= fun i =>
          checked_rem i num_operators) VaultError.ArithmeticOverflow in
     if negb (index =? next_index) then Err VaultError.VaultUpdateIncorrectIndex else Ok tt) ;?
  Ok self<|last_updated_index := index|>.

Definition all_operators_updated (self : VaultUpdateStateTracker) (num_operators : Z)
    : result VaultError bool :=
  if last_updated_index self =? U64_MAX then Ok false
  else
    let? start_index := ok_or (checked_rem (ncn_epoch self) num_operators)
        VaultError.DivisionByZero in
    if start_index =? 0 then
      let? last := ok_or (checked_sub num_operators 1) VaultError.ArithmeticUnderflow in
      Ok (last_updated_index self =? last)
    else
      let? last := ok_or (checked_sub start_index 1) VaultError.ArithmeticUnderflow in
      Ok (last_updated_index self =? last).

Definition seeds (vault ncn_epoch : Z) : list (list Z) :=
  [bytes_of_string "vault_update_state_tracker"; pubkey_bytes vault; u64_bytes ncn_epoch].

Definition find_address `{Env} (program_id vault ncn_epoch : Z) : Pubkey * Z * list (list Z) :=
  (find_program_address (seeds vault ncn_epoch) program_id, seeds vault ncn_epoch).

Definition load `{Env} (program_id : Pubkey) (account vault : AccountInfo) (ncn_epoch : Z)
    (expect_writable : bool) (s : Store) : result ProgramError unit :=
  load_program_account VaultUpdateStateTracker program_id account expect_writable s ;?
  check_key account (find_address program_id (key vault) ncn_epoch).1.1.

End VaultUpdateStateTracker.
Abbreviation VaultUpdateStateTracker := VaultUpdateStateTracker.VaultUpdateStateTracker.
#[export] Instance VaultUpdateStateTracker_lawful : LawfulPod VaultUpdateStateTracker.layout.
Proof. solve_lawful. Qed.

(** ** [vault_ncn_ticket.rs] *)
Module VaultNcnTicket.

Record VaultNcnTicket := mk {
  vault : Pubkey;
  ncn : Pubkey;
  index : Z;
  state : SlotToggle;
  bump : Z;
  reserved : list Z;
}.

#[global] Instance eta_VaultNcnTicket : Eta VaultNcnTicket := fun v =>
  mk (vault v) (ncn v) (index v) (state v) (bump v) (reserved v).

Definition layout : codec VaultNcnTicket :=
  pod_iso
    (fun '(x1, (x2, (x3, (x4, (x5, x6))))) => mk x1 x2 x3 x4 x5 x6)
    (fun v => (vault v, (ncn v, (index v, (state v, (bump v, reserved v))))))
    (pod_pair pod_pubkey (pod_pair pod_pubkey (pod_pair PodU64 (pod_pair SlotToggle.layout
      (pod_pair pod_u8 (pod_array 263)))))).

#[global] Instance VaultNcnTicket_account : AccountDeserialize VaultNcnTicket :=
  {| acc_codec := layout; DISCRIMINATOR := 3 |}.

Definition new (vault ncn : Pubkey) (index bump slot : Z) : VaultNcnTicket :=
  mk vault ncn index (SlotToggle.new slot) bump (replicate 263 0).

Definition seeds (vault ncn : Z) : list (list Z) :=
  [bytes_of_string "vault_ncn_ticket"; pubkey_bytes vault; pubkey_bytes ncn].

Definition find_address `{Env} (program_id vault ncn : Z) : Pubkey * Z * list (list Z) :=
  (find_program_address (seeds vault ncn) program_id, seeds vault ncn).

Definition load `{Env} (program_id : Pubkey) (account vault ncn : AccountInfo)
    (expect_writable : bool) (s : Store) : result ProgramError unit :=
  load_program_account VaultNcnTicket program_id account expect_writable s ;?
  check_key account (find_address program_id (key vault) (key ncn)).1.1.

End VaultNcnTicket.
Abbreviation VaultNcnTicket := VaultNcnTicket.VaultNcnTicket.
#[export] Instance VaultNcnTicket_lawful : LawfulPod VaultNcnTicket.layout.
Proof. solve_lawful. Qed.

(** ** [vault_ncn_slasher_ticket.rs] *)
Module VaultNcnSlasherTicket.

Record VaultNcnSlasherTicket := mk {
  vault : Pubkey;
  ncn : Pubkey;
  slasher : Pubkey;
  max_slashable_per_epoch : Z;
  index : Z;
  state : SlotToggle;
  bump : Z;
  reserved : list Z;
}.

#[global] Instance eta_VaultNcnSlasherTicket : Eta VaultNcnSlasherTicket := fun v =>
  mk (vault v) (ncn v) (slasher v) (max_slashable_per_epoch v) (index v) (state v) (bump
    v) (reserved v).

Definition layout : codec VaultNcnSlasherTicket :=
  pod_iso
    (fun '(x1, (x2, (x3, (x4, (x5, (x6, (x7, x8))))))) => mk x1 x2 x3 x4 x5 x6 x7 x8)
    (fun v => (vault v, (ncn v, (slasher v, (max_slashable_per_epoch v, (index v, (state
      v, (bump v, reserved v))))))))
    (pod_pair pod_pubkey (pod_pair pod_pubkey (pod_pair pod_pubkey (pod_pair PodU64
      (pod_pair PodU64 (pod_pair SlotToggle.layout (pod_pair pod_u8 (pod_array 263)))))))).

#[global] Instance VaultNcnSlasherTicket_account : AccountDeserialize VaultNcnSlasherTicket :=
  {| acc_codec := layout; DISCRIMINATOR := 5 |}.

Definition new (vault ncn slasher : Pubkey) (max_slashable_per_epoch index bump slot : Z)
    : VaultNcnSlasherTicket :=
  mk vault ncn slasher max_slashable_per_epoch index (SlotToggle.new slot) bump
    (replicate 263 0).

Definition seeds (vault ncn slasher : Z) : list (list Z) :=
  [bytes_of_string "vault_slasher_ticket"; pubkey_bytes vault; pubkey_bytes ncn; pubkey_bytes slasher].

Definition find_address `{Env} (program_id vault ncn slasher : Z) : Pubkey * Z * list (list Z) :=
  (find_program_address (seeds vault ncn slasher) program_id, seeds vault ncn slasher).

Definition load `{Env} (program_id : Pubkey) (account vault ncn slasher : AccountInfo)
    (expect_writable : bool) (s : Store) : result ProgramError unit :=
  load_program_account VaultNcnSlasherTicket program_id account expect_writable s ;?
  check_key account (find_address program_id (key vault) (key ncn) (key slasher)).1.1.

End VaultNcnSlasherTicket.
Abbreviation VaultNcnSlasherTicket := VaultNcnSlasherTicket.VaultNcnSlasherTicket.
#[export] Instance VaultNcnSlasherTicket_lawful : LawfulPod VaultNcnSlasherTicket.layout.
Proof. solve_lawful. Qed.

(** ** [vault_ncn_slasher_operator_ticket.rs] *)
Module VaultNcnSlasherOperatorTicket.

Record VaultNcnSlasherOperatorTicket := mk {
  vault : Pubkey;
  ncn : Pubkey;
  slasher : Pubkey;
  operator : Pubkey;
  epoch : Z;
  slashed : Z;
  bump : Z;
  reserved : list Z;
}.

#[global] Instance eta_VaultNcnSlasherOperatorTicket : Eta VaultNcnSlasherOperatorTicket := fun v =>
  mk (vault v) (ncn v) (slasher v) (operator v) (epoch v) (slashed v) (bump v) (reserved
    v).

Definition layout : codec VaultNcnSlasherOperatorTicket :=
  pod_iso
    (fun '(x1, (x2, (x3, (x4, (x5, (x6, (x7, x8))))))) => mk x1 x2 x3 x4 x5 x6 x7 x8)
    (fun v => (vault v, (ncn v, (slasher v, (operator v, (epoch v, (slashed v, (bump v,
      reserved v))))))))
    (pod_pair pod_pubkey (pod_pair pod_pubkey (pod_pair pod_pubkey (pod_pair pod_pubkey
      (pod_pair PodU64 (pod_pair PodU64 (pod_pair pod_u8 (pod_array 263)))))))).

#[global] Instance VaultNcnSlasherOperatorTicket_account : AccountDeserialize VaultNcnSlasherOperatorTicket :=
  {| acc_codec := layout; DISCRIMINATOR := 6 |}.

Definition new (vault ncn slasher operator : Pubkey) (epoch bump : Z)
    : VaultNcnSlasherOperatorTicket :=
  mk vault ncn slasher operator epoch 0 bump (replicate 263 0).

Definition increment_slashed (self : VaultNcnSlasherOperatorTicket) (amount : Z)
    : result VaultError VaultNcnSlasherOperatorTicket :=
  let? n := ok_or (checked_add U64_MAX (slashed self) amount)
      VaultError.VaultMaxSlashedPerOperatorExceeded in
  Ok self<|slashed := n|>.

Definition check_slashing_amount_not_exceeded (self : VaultNcnSlasherOperatorTicket)
    (slash_amount max_slashable_per_epoch : Z) : result ProgramError unit :=
  let? amount_after_slash := ok_or (checked_add U64_MAX (slashed self) slash_amount)
      VaultError.ArithmeticOverflow in
  if amount_after_slash >? max_slashable_per_epoch
  then VErr VaultError.VaultMaxSlashedPerOperatorExceeded else Ok tt.

Definition seeds (vault ncn slasher operator epoch : Z) : list (list Z) :=
  [bytes_of_string "vault_ncn_slasher_operator"; pubkey_bytes vault; pubkey_bytes ncn; pubkey_bytes slasher;
   pubkey_bytes operator; u64_bytes epoch].

Definition find_address `{Env} (program_id vault ncn slasher operator epoch : Z) : Pubkey * Z * list (list Z) :=
  (find_program_address (seeds vault ncn slasher operator epoch) program_id, seeds vault ncn slasher operator epoch).

Definition load `{Env} (program_id : Pubkey) (account vault ncn slasher operator : AccountInfo)
    (ncn_epoch : Z) (expect_writable : bool) (s : Store) : result ProgramError unit :=
  load_program_account VaultNcnSlasherOperatorTicket program_id account expect_writable s ;?
  check_key account
    (find_address program_id (key vault) (key ncn) (key slasher) (key operator) ncn_epoch).1.1.

End VaultNcnSlasherOperatorTicket.
Abbreviation VaultNcnSlasherOperatorTicket := VaultNcnSlasherOperatorTicket.VaultNcnSlasherOperatorTicket.
#[export] Instance VaultNcnSlasherOperatorTicket_lawful : LawfulPod VaultNcnSlasherOperatorTicket.layout.
Proof. solve_lawful. Qed.

(** ** [burn_vault.rs]: an address without data that holds burned shares *)
Module BurnVault.

Definition seeds (base : Z) : list (list Z) :=
  [bytes_of_string "burn_vault"; pubkey_bytes base].

Definition find_address `{Env} (program_id base : Z) : Pubkey * Z * list (list Z) :=
  (find_program_address (seeds base) program_id, seeds base).

Definition load `{Env} (program_id base : Pubkey) (account : AccountInfo)
    (expect_writable : bool) (s : Store) : result ProgramError unit :=
  if negb (owner (account_of s account) =? system_program_id)
  then Err ProgramError.InvalidAccountOwner
  else if expect_writable && negb (is_writable account) then Err ProgramError.InvalidAccountData
  else check_key account (find_address program_id base).1.1.

End BurnVault.

(** ** [loader.rs] *)

Definition load_mpl_metadata_program (info : AccountInfo) : result ProgramError unit :=
  if negb (key info =? mpl_token_metadata_id) then Err ProgramError.IncorrectProgramId else Ok tt.

Definition find_metadata_account `{Env} (mint : Pubkey) : Pubkey * Z :=
  find_program_address
    [bytes_of_string "metadata"; pubkey_bytes mpl_token_metadata_id; pubkey_bytes mint]
    mpl_token_metadata_id.

Definition load_mpl_metadata `{Env} (info : AccountInfo) (vrt_mint : Pubkey)
    : result ProgramError unit :=
  if negb ((find_metadata_account vrt_mint).1 =? key info)
  then Err ProgramError.InvalidAccountData else Ok tt.
