(* ===== verification/VaultShares.v ===== *)
(** * Deposits, withdrawals and the price of a share

    Reference definitions of [Vault::mint_with_fee] and
    [Vault::burn_with_fee] over unbounded integers, the proof that the checked
    code computes them, and the economic guarantees: conservation of shares,
    a share price that no deposit or withdrawal can lower, no profit from a
    round trip, and delegated stake that stays covered. *)

From stdpp Require Import base numbers list.
From Stdlib Require Import Lia.
From S2P Require Import Prelude Errors Pod DelegationState Runtime Program Core VaultConfig Vault.
Import Vault.
Local Open Scope Z_scope.

(** ** Reference definitions *)

(** Shares for a deposit: one for one into an empty vault, else pro rata. *)
Definition minted (v : Vault) (amount : Z) : Z :=
  if tokens_deposited v =? 0 then amount else amount * vrt_supply v / tokens_deposited v.

Definition fee_of (amount bps : Z) : Z := div_ceil (amount * bps) MAX_BPS.

Definition mint_reference (v : Vault) (amount_in min_amount_out : Z)
    : result VaultError (Vault * MintSummary) :=
  let m := minted v amount_in in
  let fee := fee_of m (deposit_fee_bps v) in
  if amount_in =? 0 then Err VaultError.VaultMintZero
  else if U64_MAX <? tokens_deposited v + amount_in then Err VaultError.VaultOverflow
  else if deposit_capacity v <? tokens_deposited v + amount_in
  then Err VaultError.VaultCapacityExceeded
  else if U64_MAX <? m then Err VaultError.VaultOverflow
  else if m - fee <? min_amount_out then Err VaultError.SlippageError
  else if U64_MAX <? vrt_supply v + m then Err VaultError.VaultOverflow
  else Ok (v<|vrt_supply := vrt_supply v + m|>
            <|tokens_deposited := tokens_deposited v + amount_in|>,
           mkMintSummary (m - fee) fee).

(** The fees of a withdrawal: the program's fee is taken first, the vault's
    fee from what is left; a fee wallet does not pay its own fee. *)
Definition program_fee_ref (v : Vault) (own : bool) (amount : Z) : Z :=
  if own then 0 else fee_of amount (program_fee_bps v).
Definition vault_fee_ref (v : Vault) (own : bool) (amount : Z) : Z :=
  if own then 0
  else Z.min (fee_of amount (withdrawal_fee_bps v)) (amount - fee_of amount (program_fee_bps v)).
Definition burned_ref (v : Vault) (own_p own_v : bool) (amount : Z) : Z :=
  amount - program_fee_ref v own_p amount - vault_fee_ref v own_v amount.
Definition out_ref (v : Vault) (own_p own_v : bool) (amount : Z) : Z :=
  burned_ref v own_p own_v amount * tokens_deposited v / vrt_supply v.

Definition burn_summary_ref (v : Vault) (own_p own_v : bool) (amount : Z) : BurnSummary :=
  {| program_fee_amount := program_fee_ref v own_p amount;
     vault_fee_amount := vault_fee_ref v own_v amount;
     burn_amount := burned_ref v own_p own_v amount;
     out_amount := out_ref v own_p own_v amount |}.

Definition burn_reference (v : Vault) (own_p own_v : bool) (amount_in : Z)
    : result VaultError (Vault * BurnSummary) :=
  if amount_in =? 0 then Err VaultError.VaultBurnZero
  else if vrt_supply v <? amount_in then Err VaultError.VaultInsufficientFunds
  else if (U64_MAX <? fee_of amount_in (program_fee_bps v)
                      + fee_of amount_in (withdrawal_fee_bps v))
          || (U64_MAX <? out_ref v own_p own_v amount_in)
  then Err VaultError.VaultOverflow
  else if U64_MAX <? DelegationState.sum (delegation_state v)
  then Err VaultError.VaultSecurityOverflow
  else if tokens_deposited v
            <? DelegationState.sum (delegation_state v) + out_ref v own_p own_v amount_in
  then Err VaultError.VaultUnderflow
  else Ok (v<|vrt_supply := vrt_supply v - burned_ref v own_p own_v amount_in|>
            <|tokens_deposited := tokens_deposited v - out_ref v own_p own_v amount_in|>,
           burn_summary_ref v own_p own_v amount_in).

(** A vault with a 1% deposit fee, a 0.5% withdrawal fee and a 0.1% program
    fee, 3000 tokens behind 2000 shares, 1200 of them delegated. *)
Definition example_vault : Vault :=
  {| base := 1; vrt_mint := 2; supported_mint := 3; vrt_supply := 2000;
     tokens_deposited := 3000; deposit_capacity := 1000000;
     delegation_state := DelegationState.new 1000 150 50;
     additional_assets_need_unstaking := 0; vrt_enqueued_for_cooldown_amount := 100;
     vrt_cooling_down_amount := 50; vrt_ready_to_claim_amount := 10;
     admin := 4; delegation_admin := 4; operator_admin := 4; ncn_admin := 4;
     slasher_admin := 4; capacity_admin := 4; fee_admin := 4; delegate_asset_admin := 4;
     fee_wallet := 5; mint_burn_admin := 0; metadata_admin := 4;
     vault_index := 0; ncn_count := 1; operator_count := 2; slasher_count := 0;
     last_fee_change_slot := 0; last_full_state_update_slot := 1000;
     deposit_fee_bps := 100; withdrawal_fee_bps := 50; next_withdrawal_fee_bps := 50;
     reward_fee_bps := 1000; program_fee_bps := 10; bump := 255; is_paused_pod := 0;
     last_start_state_update_slot := 1000; reserved := replicate RESERVED_SPACE_LEN 0 |}.

(** ** The checked arithmetic computes the reference *)

(** Push a decided checked operation through [qbind]. *)
Ltac step_ok lem := rewrite lem by lia; cbn [qbind].

Lemma ok_or_checked_add {E} (e : E) max a b :
  ok_or (checked_add max a b) e = if max <? a + b then Err e else Ok (a + b).
Proof. unfold checked_add. destruct (Z.leb_spec (a + b) max), (Z.ltb_spec max (a + b)); done || lia. Qed.

Lemma ok_or_checked_sub {E} (e : E) a b :
  ok_or (checked_sub a b) e = if a <? b then Err e else Ok (a - b).
Proof. unfold checked_sub. destruct (Z.leb_spec b a), (Z.ltb_spec a b); done || lia. Qed.

(** A 128-bit product of 64-bit values divided by a non-zero value, narrowed
    to 64 bits. *)
Lemma ok_or_mul_div {E} (e : E) a b c :
  is_u64 a -> is_u64 b -> c <> 0 ->
  ok_or (checked_mul U128_MAX a b ≫= fun x => checked_div x c ≫= try_into U64_MAX) e
  = if U64_MAX <? a * b / c then Err e else Ok (a * b / c).
Proof.
  unfold is_u64. intros Ha Hb Hc.
  rewrite (proj2 (checked_mul_Some U128_MAX a b (a * b))) by nia. simpl.
  rewrite (proj2 (checked_div_Some (a * b) c (a * b / c))) by done. simpl.
  unfold try_into. destruct (Z.leb_spec (a * b / c) U64_MAX), (Z.ltb_spec U64_MAX (a * b / c));
    done || lia.
Qed.

Lemma minted_nonneg v a : wf v -> 0 <= a -> 0 <= minted v a.
Proof.
  unfold wf, is_u64, minted. intros Hwf Ha. destruct (Z.eqb_spec (tokens_deposited v) 0); [lia|].
  apply Z.div_pos; nia.
Qed.

Lemma calculate_vrt_mint_amount_ref v a :
  wf v -> is_u64 a ->
  calculate_vrt_mint_amount v a
  = if U64_MAX <? minted v a then Err VaultError.VaultOverflow else Ok (minted v a).
Proof.
  unfold wf, calculate_vrt_mint_amount, minted. intros Hwf Ha.
  destruct (Z.eqb_spec (tokens_deposited v) 0).
  - unfold is_u64 in Ha. destruct (Z.ltb_spec U64_MAX a); [lia|done].
  - apply ok_or_mul_div; naive_solver.
Qed.

Lemma fee_of_bounds a bps : 0 <= a -> 0 <= bps <= MAX_BPS -> 0 <= fee_of a bps <= a.
Proof. apply fee_bounds. Qed.

Lemma fee_ceil_ref {E} (e : E) a bps :
  is_u64 a -> 0 <= bps <= MAX_BPS -> ok_or (fee_ceil a bps) e = Ok (fee_of a bps).
Proof. intros. by rewrite fee_ceil_Some. Qed.

Lemma mint_ref_eq v amount_in min_out :
  wf v -> is_u64 amount_in -> mint_with_fee v amount_in min_out = mint_reference v amount_in min_out.
Proof.
  intros Hwf Ha. pose proof (minted_nonneg v amount_in Hwf ltac:(unfold is_u64 in Ha; lia)) as Hm.
  unfold mint_with_fee, mint_reference.
  destruct (amount_in =? 0); [done|].
  rewrite ok_or_checked_add. destruct (U64_MAX <? tokens_deposited v + amount_in); [done|].
  cbn [qbind]. rewrite Z.gtb_ltb.
  destruct (deposit_capacity v <? tokens_deposited v + amount_in); [done|].
  rewrite calculate_vrt_mint_amount_ref by done.
  destruct (Z.ltb_spec U64_MAX (minted v amount_in)); [done|]. cbn [qbind].
  unfold wf in Hwf. unfold calculate_deposit_fee. rewrite fee_ceil_ref by (unfold is_u64; lia).
  cbn [qbind]. pose proof (fee_of_bounds (minted v amount_in) (deposit_fee_bps v) Hm ltac:(lia)).
  rewrite ok_or_checked_sub.
  destruct (Z.ltb_spec (minted v amount_in) (fee_of (minted v amount_in) (deposit_fee_bps v)));
    [lia|]. cbn [qbind].
  destruct (_ <? min_out); [done|]. rewrite ok_or_checked_add.
  by destruct (U64_MAX <? vrt_supply v + minted v amount_in).
Qed.

(** The fees of a withdrawal never exceed it. *)
Lemma burned_bounds v own_p own_v amount :
  wf v -> 0 <= amount ->
  0 <= program_fee_ref v own_p amount /\ 0 <= vault_fee_ref v own_v amount /\
  0 <= burned_ref v own_p own_v amount <= amount.
Proof.
  unfold wf, burned_ref, program_fee_ref, vault_fee_ref. intros Hwf Ha.
  pose proof (fee_of_bounds amount (program_fee_bps v) Ha ltac:(lia)).
  pose proof (fee_of_bounds amount (withdrawal_fee_bps v) Ha ltac:(lia)).
  destruct own_p, own_v; lia.
Qed.

Lemma calculate_burn_summary_ref v own_p own_v amount :
  wf v -> is_u64 amount ->
  calculate_burn_summary v own_p own_v amount
  = if (U64_MAX <? fee_of amount (program_fee_bps v) + fee_of amount (withdrawal_fee_bps v))
       || (vrt_supply v =? 0) || (U64_MAX <? out_ref v own_p own_v amount)
    then Err VaultError.VaultOverflow
    else Ok (burn_summary_ref v own_p own_v amount).
Proof.
  intros Hwf Ha.
  assert (0 <= amount) as Ha0 by (unfold is_u64 in Ha; lia).
  pose proof (burned_bounds v own_p own_v amount Hwf Ha0) as (_ & _ & Hb).
  unfold calculate_burn_summary, Config.calculate_program_fee, calculate_withdrawal_fee.
  unfold wf in Hwf. rewrite !fee_ceil_ref by (done || lia). cbn [qbind].
  pose proof (fee_of_bounds amount (program_fee_bps v) Ha0 ltac:(lia)) as Hp.
  pose proof (fee_of_bounds amount (withdrawal_fee_bps v) Ha0 ltac:(lia)) as Hv.
  unfold out_ref, burn_summary_ref, out_ref, burned_ref, program_fee_ref, vault_fee_ref in *.
  set (pf := fee_of amount (program_fee_bps v)) in *.
  set (vf := fee_of amount (withdrawal_fee_bps v)) in *.
  rewrite ok_or_checked_add. destruct (U64_MAX <? pf + vf); [done|]. cbn [qbind orb].
  transitivity (qbind (Ok (E := VaultError) (Z.min vf (amount - pf))) (fun vault_fee : Z =>
    let program_fee := if own_p then 0 else pf in
    let vault_fee := if own_v then 0 else vault_fee in
    let? amount_to_burn := ok_or
      (checked_sub amount program_fee ≫= fun x => checked_sub x vault_fee)
      VaultError.VaultUnderflow in
    let? amount_out := ok_or
      (checked_mul U128_MAX amount_to_burn (tokens_deposited v) ≫= fun x =>
       checked_div x (vrt_supply v) ≫= try_into U64_MAX) VaultError.VaultOverflow in
    Ok (E := VaultError) {| program_fee_amount := program_fee; vault_fee_amount := vault_fee;
        burn_amount := amount_to_burn; out_amount := amount_out |})).
  { rewrite Z.gtb_ltb. destruct (Z.ltb_spec amount (pf + vf)).
    - rewrite ok_or_checked_sub. destruct (Z.ltb_spec amount pf); [lia|].
      by rewrite Z.min_r by lia.
    - by rewrite Z.min_l by lia. }
  cbn [qbind].
  set (p' := if own_p then 0 else pf) in *.
  set (v' := if own_v then 0 else Z.min vf (amount - pf)) in *.
  assert (0 <= p' /\ 0 <= v') by (subst p' v'; destruct own_p, own_v; lia).
  rewrite (proj2 (checked_sub_Some amount p' (amount - p'))) by lia. cbn [mbind option_bind].
  rewrite (proj2 (checked_sub_Some (amount - p') v' (amount - p' - v'))) by lia.
  cbn [ok_or qbind].
  destruct (Z.eqb_spec (vrt_supply v) 0) as [H0|H0].
  - rewrite H0. destruct (checked_mul _ _ _); done.
  - rewrite ok_or_mul_div by (unfold is_u64 in *; lia).
    cbn [orb]. destruct (U64_MAX <? _); done.
Qed.

Lemma total_security_ref d :
  DelegationState.wf d ->
  DelegationState.total_security d
  = if U64_MAX <? DelegationState.sum d then Err VaultError.VaultSecurityOverflow
    else Ok (DelegationState.sum d).
Proof.
  intros Hd. destruct (Z.ltb_spec U64_MAX (DelegationState.sum d)) as [Hlt|Hge].
  - destruct (DelegationState.total_security d) eqn:E.
    + apply total_security_Ok in E; [lia|done].
    + unfold DelegationState.total_security in E. by apply ok_or_Err in E as [_ <-].
  - by apply total_security_Ok.
Qed.

Lemma out_nonneg v own_p own_v a :
  wf v -> 0 <= a -> 0 <= out_ref v own_p own_v a.
Proof.
  intros Hwf Ha. pose proof (burned_bounds v own_p own_v a Hwf Ha) as (_ & _ & ?).
  unfold out_ref, wf, is_u64 in *.
  destruct (Z.eq_dec (vrt_supply v) 0) as [->|]; [by rewrite Zdiv_0_r|].
  apply Z.div_pos; nia.
Qed.

Lemma burn_ref_eq v own_p own_v a :
  wf v -> is_u64 a -> burn_with_fee v own_p own_v a = burn_reference v own_p own_v a.
Proof.
  intros Hwf Ha. unfold burn_with_fee, burn_reference.
  assert (0 <= a) as Ha0 by (unfold is_u64 in Ha; lia).
  pose proof (burned_bounds v own_p own_v a Hwf Ha0) as (_ & _ & Hb).
  pose proof (out_nonneg v own_p own_v a Hwf Ha0) as Ho.
  destruct (Z.eqb_spec a 0); [done|]. rewrite Z.gtb_ltb.
  destruct (Z.ltb_spec (vrt_supply v) a); [done|].
  rewrite calculate_burn_summary_ref by done.
  destruct (Z.eqb_spec (vrt_supply v) 0); [lia|]. rewrite orb_false_r.
  destruct (_ || _); [done|]. cbn [qbind].
  rewrite total_security_ref by apply Hwf.
  destruct (U64_MAX <? DelegationState.sum (delegation_state v)); [done|]. cbn [qbind].
  rewrite ok_or_checked_sub. cbn [out_amount burn_amount burn_summary_ref].
  assert (0 <= DelegationState.sum (delegation_state v)) as Hs0
    by (unfold wf, DelegationState.wf, DelegationState.sum, is_u64 in *; lia).
  destruct (Z.ltb_spec (tokens_deposited v) (DelegationState.sum (delegation_state v))),
    (Z.ltb_spec (tokens_deposited v)
      (DelegationState.sum (delegation_state v) + out_ref v own_p own_v a));
    cbn [qbind]; try done; try lia.
  - rewrite Z.gtb_ltb. destruct (Z.ltb_spec (tokens_deposited v
      - DelegationState.sum (delegation_state v)) (out_ref v own_p own_v a)); [done|lia].
  - rewrite Z.gtb_ltb. destruct (Z.ltb_spec (tokens_deposited v
      - DelegationState.sum (delegation_state v)) (out_ref v own_p own_v a)); [lia|].
    rewrite !ok_or_checked_sub.
    destruct (Z.ltb_spec (vrt_supply v) (burned_ref v own_p own_v a)); [lia|]. cbn [qbind].
    destruct (Z.ltb_spec (tokens_deposited v) (out_ref v own_p own_v a)); [lia|done].
Qed.

(** ** What a successful call did *)

Lemma mint_Ok v a m v' s :
  wf v -> is_u64 a -> mint_with_fee v a m = Ok (v', s) ->
  0 < a /\ tokens_deposited v + a <= deposit_capacity v /\
  tokens_deposited v + a <= U64_MAX /\ vrt_supply v + minted v a <= U64_MAX /\
  m <= vrt_to_depositor s /\
  vrt_to_fee_wallet s = fee_of (minted v a) (deposit_fee_bps v) /\
  vrt_to_depositor s + vrt_to_fee_wallet s = minted v a /\
  v' = v<|vrt_supply := vrt_supply v + minted v a|>
        <|tokens_deposited := tokens_deposited v + a|>.
Proof.
  intros Hwf Ha H. rewrite mint_ref_eq in H by done. unfold mint_reference in H.
  unfold is_u64 in Ha. inv_ok. simpl. split_and!; try lia. done.
Qed.

Lemma burn_Ok v own_p own_v a v' s :
  wf v -> is_u64 a -> burn_with_fee v own_p own_v a = Ok (v', s) ->
  0 < a <= vrt_supply v /\ s = burn_summary_ref v own_p own_v a /\
  out_ref v own_p own_v a + DelegationState.sum (delegation_state v) <= tokens_deposited v /\
  v' = v<|vrt_supply := vrt_supply v - burned_ref v own_p own_v a|>
        <|tokens_deposited := tokens_deposited v - out_ref v own_p own_v a|>.
Proof.
  intros Hwf Ha H. rewrite burn_ref_eq in H by done. unfold burn_reference in H.
  unfold is_u64 in Ha. inv_ok. split_and!; try lia; done.
Qed.

Lemma minted_price v a :
  wf v -> 0 <= a -> tokens_deposited v <> 0 ->
  minted v a * tokens_deposited v <= a * vrt_supply v.
Proof.
  intros Hwf Ha Ht. unfold minted. destruct (Z.eqb_spec (tokens_deposited v) 0); [done|].
  unfold wf, is_u64 in Hwf. pose proof (div_floor_spec (a * vrt_supply v) (tokens_deposited v)).
  lia.
Qed.

Lemma out_price v own_p own_v a :
  wf v -> 0 < vrt_supply v ->
  out_ref v own_p own_v a * vrt_supply v <= burned_ref v own_p own_v a * tokens_deposited v
    < (out_ref v own_p own_v a + 1) * vrt_supply v.
Proof. intros Hwf Hs. apply div_floor_spec. lia. Qed.

Lemma mint_wf v a m v' s :
  wf v -> is_u64 a -> mint_with_fee v a m = Ok (v', s) -> wf v'.
Proof.
  intros Hwf Ha H. pose proof (minted_nonneg v a Hwf ltac:(unfold is_u64 in Ha; lia)).
  apply mint_Ok in H as (? & ? & ? & ? & ? & ? & ? & ->); [|done|done].
  unfold wf, is_u64 in *. simpl. intuition lia.
Qed.

Lemma burn_wf v own_p own_v a v' s :
  wf v -> is_u64 a -> burn_with_fee v own_p own_v a = Ok (v', s) -> wf v'.
Proof.
  intros Hwf Ha H. unfold is_u64 in Ha.
  pose proof (burned_bounds v own_p own_v a Hwf ltac:(lia)) as (_ & _ & Hb).
  pose proof (out_nonneg v own_p own_v a Hwf ltac:(lia)).
  apply burn_Ok in H as (? & _ & Ho & ->); [|done|done].
  unfold wf, is_u64, DelegationState.wf, DelegationState.sum, is_u64 in *. simpl.
  intuition lia.
Qed.

(** ** Price of a share *)

(** [v'] prices a share at least as high as [v]: deposited tokens per share,
    compared by cross-multiplication. *)
Definition price_le (v v' : Vault) : Prop :=
  tokens_deposited v * vrt_supply v' <= tokens_deposited v' * vrt_supply v.

Lemma mint_price v a m v' s :
  wf v -> is_u64 a -> mint_with_fee v a m = Ok (v', s) -> price_le v v'.
Proof.
  intros Hwf Ha H. apply mint_Ok in H as (? & ? & ? & ? & ? & ? & ? & ->); [|done|done].
  unfold price_le; simpl. unfold is_u64 in Ha.
  destruct (Z.eq_dec (tokens_deposited v) 0) as [E|Ht].
  - rewrite E. unfold wf, is_u64 in Hwf. nia.
  - pose proof (minted_price v a Hwf ltac:(lia) Ht). lia.
Qed.

Lemma burn_price v own_p own_v a v' s :
  wf v -> is_u64 a -> burn_with_fee v own_p own_v a = Ok (v', s) -> price_le v v'.
Proof.
  intros Hwf Ha H. apply burn_Ok in H as (? & _ & ? & ->); [|done|done].
  unfold price_le; simpl. pose proof (out_price v own_p own_v a Hwf ltac:(lia)). lia.
Qed.

(** Chaining comparisons needs shares at the middle state. *)
Lemma price_le_trans v1 v2 v3 :
  wf v1 -> wf v2 -> wf v3 -> 0 < vrt_supply v2 ->
  price_le v1 v2 -> price_le v2 v3 -> price_le v1 v3.
Proof. unfold price_le, wf, is_u64. intros. nia. Qed.

(** ** Deposits and withdrawals in any order *)

Inductive ShareOp : Type :=
| Deposit (amount_in min_amount_out : Z)
| Withdraw (own_p own_v : bool) (amount_in : Z).

Definition share_op (v : Vault) (o : ShareOp) : option Vault :=
  match o with
  | Deposit a m =>
      match mint_with_fee v a m with Ok (v', _) => Some v' | Err _ => None end
  | Withdraw own_p own_v a =>
      match burn_with_fee v own_p own_v a with Ok (v', _) => Some v' | Err _ => None end
  end.

Definition op_amount (o : ShareOp) : Z :=
  match o with Deposit a _ | Withdraw _ _ a => a end.

(** States reachable by successful operations, none of which empties the
    share supply. *)
Inductive shares_reach : Vault -> Vault -> Prop :=
| reach_refl v : shares_reach v v
| reach_step v1 v2 v3 o :
    shares_reach v1 v2 -> is_u64 (op_amount o) -> share_op v2 o = Some v3 ->
    0 < vrt_supply v3 -> shares_reach v1 v3.

Lemma share_op_inv v o v' :
  wf v -> is_u64 (op_amount o) -> share_op v o = Some v' ->
  wf v' /\ price_le v v' /\ delegation_state v' = delegation_state v /\
  (DelegationState.sum (delegation_state v) <= tokens_deposited v ->
   DelegationState.sum (delegation_state v') <= tokens_deposited v').
Proof.
  intros Hwf Ho H. destruct o as [a m|own_p own_v a]; simpl in *.
  - destruct (mint_with_fee v a m) as [[v1 s]|] eqn:E; [|done]. injection H as <-.
    split_and!; [by eapply mint_wf|by eapply mint_price| |];
      apply mint_Ok in E as (? & ? & ? & ? & ? & ? & ? & ->); try done; simpl; lia.
  - destruct (burn_with_fee v own_p own_v a) as [[v1 s]|] eqn:E; [|done]. injection H as <-.
    split_and!; [by eapply burn_wf|by eapply burn_price| |];
      apply burn_Ok in E as (? & _ & ? & ->); try done; simpl; lia.
Qed.

Lemma shares_reach_inv v v' :
  wf v -> 0 < vrt_supply v -> shares_reach v v' ->
  wf v' /\ 0 < vrt_supply v' /\ price_le v v' /\
  (DelegationState.sum (delegation_state v) <= tokens_deposited v ->
   DelegationState.sum (delegation_state v') <= tokens_deposited v').
Proof.
  intros Hwf Hs H. induction H as [v|v1 v2 v3 o _ IH Ho Hop Hpos].
  { split_and!; try done. unfold price_le. lia. }
  destruct (IH Hwf Hs) as (Hwf2 & Hs2 & Hp & Hc).
  destruct (share_op_inv _ _ _ Hwf2 Ho Hop) as (Hwf3 & Hp3 & _ & Hc3).
  split_and!; [done|done| |auto]. by eapply (price_le_trans v1 v2 v3).
Qed.

Ltac solve_vault_wf :=
  unfold wf, DelegationState.wf, is_u64; cbn; lia.

Lemma example_vault_wf : wf example_vault.
Proof. solve_vault_wf. Qed.

(** ** Claims *)

(** [mint_with_fee] computes the reference mint.  On every well-formed
    vault and every amount the checked 64- and 128-bit code returns the value,
    or the error, of the definition over unbounded integers: its errors are
    exactly a zero deposit, the deposit capacity, the slippage bound and
    64-bit overflow of deposits, minted shares or supply, in that order;
    the fee subtraction and the 128-bit product never fail. *)
Theorem mint_with_fee_equals_reference v amount_in min_amount_out :
  wf v -> is_u64 amount_in ->
  mint_with_fee v amount_in min_amount_out = mint_reference v amount_in min_amount_out.
Proof. apply mint_ref_eq. Qed.

Lemma mint_with_fee_equals_reference_witness :
  mint_with_fee example_vault 600 390 = mint_reference example_vault 600 390 /\
  is_ok (mint_reference example_vault 600 390) = true /\
  mint_reference example_vault 600 397 = Err VaultError.SlippageError.
Proof.
  split; [apply (mint_with_fee_equals_reference example_vault 600 390);
          [apply example_vault_wf | unfold is_u64; lia]|].
  split; vm_compute; reflexivity.
Defined.

(** A successful deposit conserves shares and does not dilute.  The
    depositor's and the fee wallet's shares are exactly the supply increase,
    the depositor gets at least the minimum asked for, the fee is the deposit
    rate rounded up, the tokens are credited in full, and the price of a
    share does not fall. *)
Theorem mint_conserves_shares v amount_in min_amount_out v' s :
  wf v -> is_u64 amount_in -> mint_with_fee v amount_in min_amount_out = Ok (v', s) ->
  vrt_to_depositor s + vrt_to_fee_wallet s = vrt_supply v' - vrt_supply v /\
  min_amount_out <= vrt_to_depositor s /\
  minted v amount_in * deposit_fee_bps v <= vrt_to_fee_wallet s * MAX_BPS
    < minted v amount_in * deposit_fee_bps v + MAX_BPS /\
  tokens_deposited v' = tokens_deposited v + amount_in /\
  tokens_deposited v' <= deposit_capacity v' /\
  delegation_state v' = delegation_state v /\ wf v' /\ price_le v v'.
Proof.
  intros Hwf Ha H. pose proof (mint_wf _ _ _ _ _ Hwf Ha H). pose proof (mint_price _ _ _ _ _ Hwf Ha H).
  pose proof (minted_nonneg v amount_in Hwf ltac:(unfold is_u64 in Ha; lia)) as Hm.
  pose proof (fee_exact (minted v amount_in) (deposit_fee_bps v) Hm ltac:(unfold wf in Hwf; lia)).
  apply mint_Ok in H as (? & ? & ? & ? & ? & Hf & Hsum & ->); [|done|done].
  unfold fee_of in Hf. rewrite Hf in *. simpl in *. split_and!; try lia; try done.
Qed.

Lemma mint_conserves_shares_witness :
  exists v' s, mint_with_fee example_vault 600 390 = Ok (v', s) /\
    vrt_to_depositor s = 396 /\ vrt_to_fee_wallet s = 4 /\
    vrt_to_depositor s + vrt_to_fee_wallet s = vrt_supply v' - 2000.
Proof.
  destruct (mint_with_fee example_vault 600 390) as [[v' s]|e] eqn:E; [|vm_compute in E; discriminate].
  exists v', s.
  pose proof (mint_conserves_shares example_vault 600 390 v' s example_vault_wf
    ltac:(unfold is_u64; lia) E) as (Hsum & _).
  split; [reflexivity|].
  assert (vrt_to_depositor s = 396 /\ vrt_to_fee_wallet s = 4) as [H1 H2]
    by (vm_compute in E; injection E as <- <-; split; reflexivity).
  split; [exact H1|]. split; [exact H2|]. exact Hsum.
Defined.

(** [burn_with_fee] computes the reference burn.  On every well-formed
    vault and every amount the checked code returns the value, or the error,
    of the definition over unbounded integers: the only failures are a zero
    amount, an amount above the supply, 64-bit overflow, and paying out
    tokens that are delegated; no fee or supply subtraction can fail. *)
Theorem burn_with_fee_equals_reference v own_p own_v amount_in :
  wf v -> is_u64 amount_in ->
  burn_with_fee v own_p own_v amount_in = burn_reference v own_p own_v amount_in.
Proof. apply burn_ref_eq. Qed.

Lemma burn_with_fee_equals_reference_witness :
  burn_with_fee example_vault false false 1000 = burn_reference example_vault false false 1000 /\
  is_ok (burn_reference example_vault false false 1000) = true /\
  burn_reference example_vault true true 1201 = Err VaultError.VaultUnderflow.
Proof.
  split; [apply (burn_with_fee_equals_reference example_vault false false 1000);
          [apply example_vault_wf | unfold is_u64; lia]|].
  split; vm_compute; reflexivity.
Defined.

(** A successful withdrawal splits the redeemed shares exactly and pays
    their pro-rata value rounded down.  The two fees and the burned shares add
    up to the amount redeemed, a fee wallet pays no fee to itself, the payout
    is the floor of the burned shares' part of the deposits, what stays
    deposited covers all delegated stake, and the price of a share does not
    fall. *)
Theorem burn_conserves_shares v own_p own_v amount_in v' s :
  wf v -> is_u64 amount_in -> burn_with_fee v own_p own_v amount_in = Ok (v', s) ->
  program_fee_amount s + vault_fee_amount s + burn_amount s = amount_in /\
  (own_p = true -> program_fee_amount s = 0) /\ (own_v = true -> vault_fee_amount s = 0) /\
  vrt_supply v' = vrt_supply v - burn_amount s /\
  tokens_deposited v' = tokens_deposited v - out_amount s /\
  out_amount s * vrt_supply v <= burn_amount s * tokens_deposited v
    < (out_amount s + 1) * vrt_supply v /\
  DelegationState.sum (delegation_state v') <= tokens_deposited v' /\
  wf v' /\ price_le v v'.
Proof.
  intros Hwf Ha H. pose proof (burn_wf _ _ _ _ _ _ Hwf Ha H).
  pose proof (burn_price _ _ _ _ _ _ Hwf Ha H).
  apply burn_Ok in H as (? & -> & ? & ->); [|done|done].
  pose proof (out_price v own_p own_v amount_in Hwf ltac:(lia)).
  cbn [program_fee_amount vault_fee_amount burn_amount out_amount burn_summary_ref].
  split_and!; try done; try (simpl; lia).
  - unfold burned_ref. lia.
  - by intros ->.
  - by intros ->.
Qed.

Lemma burn_conserves_shares_witness :
  exists v' s, burn_with_fee example_vault false false 1000 = Ok (v', s) /\
    out_amount s = 1491 /\
    program_fee_amount s + vault_fee_amount s + burn_amount s = 1000.
Proof.
  destruct (burn_with_fee example_vault false false 1000) as [[v' s]|e] eqn:E;
    [|vm_compute in E; discriminate].
  exists v', s.
  pose proof (burn_conserves_shares example_vault false false 1000 v' s example_vault_wf
    ltac:(unfold is_u64; lia) E) as (Hsum & _).
  split; [reflexivity|]. split; [vm_compute in E; injection E as <- <-; reflexivity|exact Hsum].
Defined.

Lemma round_trip_price v amount_in min_amount_out v1 s own_p own_v shares v2 b :
  wf v -> is_u64 amount_in ->
  mint_with_fee v amount_in min_amount_out = Ok (v1, s) ->
  0 <= shares <= vrt_to_depositor s + vrt_to_fee_wallet s ->
  burn_with_fee v1 own_p own_v shares = Ok (v2, b) ->
  0 < vrt_supply v -> price_le v v2.
Proof.
  intros Hwf Ha Hmint Hsh Hburn Hpos. pose proof (mint_wf _ _ _ _ _ Hwf Ha Hmint) as Hwf1.
  pose proof (mint_price _ _ _ _ _ Hwf Ha Hmint) as Hp1.
  apply mint_Ok in Hmint as (Ha0 & _ & _ & Hov & _ & _ & Hsum & Hv1); [|done|done].
  pose proof (minted_nonneg v amount_in Hwf ltac:(lia)).
  assert (is_u64 shares) as Hshu by (unfold wf, is_u64 in *; lia).
  apply (price_le_trans v v1 v2); [done|done|by eapply burn_wf| |done|by eapply burn_price].
  subst v1. cbn. lia.
Qed.

(** C5: depositing and redeeming at once makes no profit.  Whoever deposits
    and then redeems any part of the shares minted for that deposit receives
    at most what was deposited, whatever the fees, even when the redeemer is
    exempt from both; and if there were shares before, a share is afterwards
    worth at least as many tokens as before the deposit. *)
Theorem round_trip_no_profit v amount_in min_amount_out v1 s own_p own_v shares v2 b :
  wf v -> is_u64 amount_in ->
  mint_with_fee v amount_in min_amount_out = Ok (v1, s) ->
  0 <= shares <= vrt_to_depositor s + vrt_to_fee_wallet s ->
  burn_with_fee v1 own_p own_v shares = Ok (v2, b) ->
  out_amount b <= amount_in /\ (0 < vrt_supply v -> price_le v v2).
Proof.
  intros Hwf Ha Hmint Hsh Hburn. split; [|by apply (round_trip_price v amount_in min_amount_out v1 s own_p own_v shares v2 b)].
  pose proof (mint_wf _ _ _ _ _ Hwf Ha Hmint) as Hwf1.
  apply mint_Ok in Hmint as (Ha0 & _ & _ & Hov & _ & _ & Hsum & Hv1); [|done|done].
  pose proof (minted_nonneg v amount_in Hwf ltac:(lia)).
  assert (is_u64 shares) as Hshu by (unfold wf, is_u64 in *; lia).
  apply burn_Ok in Hburn as (? & -> & _ & _); [|done|done].
  cbn [out_amount burn_summary_ref].
  pose proof (burned_bounds v1 own_p own_v shares Hwf1 ltac:(lia)) as (_ & _ & Hb).
  pose proof (out_price v1 own_p own_v shares Hwf1 ltac:(lia)) as Hout.
  rewrite Hv1 in Hout at 2 4 5. subst v1. cbn in Hout.
  set (o := out_ref _ own_p own_v shares) in *. set (br := burned_ref _ own_p own_v shares) in *.
  unfold wf, is_u64 in Hwf.
  assert (minted v amount_in * tokens_deposited v <= amount_in * vrt_supply v).
  { destruct (Z.eq_dec (tokens_deposited v) 0) as [->|]; [nia|].
    apply minted_price; unfold wf, is_u64; tauto || lia. }
  nia.
Qed.

Lemma round_trip_no_profit_witness :
  exists v1 s v2 b, mint_with_fee example_vault 600 390 = Ok (v1, s) /\
    burn_with_fee v1 true true 396 = Ok (v2, b) /\ out_amount b <= 600 /\ price_le example_vault v2.
Proof.
  destruct (mint_with_fee example_vault 600 390) as [[v1 s]|e] eqn:E; [|vm_compute in E; discriminate].
  destruct (burn_with_fee v1 true true 396) as [[v2 b]|e] eqn:E2;
    [|vm_compute in E; injection E as <- <-; vm_compute in E2; discriminate].
  exists v1, s, v2, b. split; [reflexivity|]. split; [exact E2|].
  destruct (round_trip_no_profit example_vault 600 390 v1 s true true 396 v2 b example_vault_wf) as [H1 H2];
    [unfold is_u64; lia | exact E | | exact E2 |].
  - vm_compute in E. injection E as <- <-. cbn. lia.
  - split; [exact H1|]. apply H2. cbn. lia.
Defined.

(** C4: no history of deposits and withdrawals lowers the price of a share.
    From any well-formed vault with shares, after every sequence of successful
    deposits and withdrawals that leaves shares in circulation, the vault is
    well-formed, a share is worth at least as many tokens as before, and
    stake that was covered by deposits is still covered. *)
Theorem share_price_never_falls v v' :
  wf v -> 0 < vrt_supply v -> shares_reach v v' ->
  wf v' /\ price_le v v' /\
  (DelegationState.sum (delegation_state v) <= tokens_deposited v ->
   DelegationState.sum (delegation_state v') <= tokens_deposited v').
Proof. intros Hwf Hs H. destruct (shares_reach_inv v v' Hwf Hs H) as (? & _ & ? & ?). done. Qed.

Lemma share_price_never_falls_witness :
  exists v', share_op example_vault (Deposit 600 390) = Some v' /\ price_le example_vault v'.
Proof.
  destruct (share_op example_vault (Deposit 600 390)) as [v'|] eqn:E; [|vm_compute in E; discriminate].
  exists v'. split; [reflexivity|].
  apply (share_price_never_falls example_vault v' example_vault_wf ltac:(cbn; lia)).
  eapply (reach_step _ example_vault v' (Deposit 600 390));
    [constructor | unfold is_u64; cbn; lia | exact E |].
  vm_compute in E. injection E as <-. cbn. lia.
Defined.
