(* ===== verification/VaultInstruction.v ===== *)
(** * Instructions of the vault program ([vault_sdk/src/instruction.rs]) *)

From stdpp Require Import base numbers list.
From S2P Require Import Prelude Errors.
Local Open Scope Z_scope.

Inductive ConfigAdminRole : Type :=
| ConfigFeeAdmin.

Inductive VaultAdminRole : Type :=
| DelegationAdmin
| OperatorAdmin
| NcnAdmin
| SlasherAdmin
| CapacityAdmin
| FeeWallet
| MintBurnAdmin
| DelegateAssetAdmin
| FeeAdmin
| MetadataAdmin.

Inductive WithdrawalAllocationMethod : Type :=
| Greedy.

(** [withdrawal_allocation_method as u8] and [TryFrom<u8>]. *)
Definition withdrawal_allocation_method_u8 (m : WithdrawalAllocationMethod) : Z :=
  match m with Greedy => 0 end.

Definition withdrawal_allocation_method_try_from (value : Z)
    : result ProgramError WithdrawalAllocationMethod :=
  if value =? 0 then Ok Greedy else Err ProgramError.InvalidArgument.

(** Strings are byte strings. *)
Inductive VaultInstruction : Type :=
| InitializeConfig (program_fee_bps : Z)
| InitializeVault (deposit_fee_bps withdrawal_fee_bps reward_fee_bps decimals
    initialize_token_amount : Z)
| InitializeVaultWithMint
| InitializeVaultOperatorDelegation
| InitializeVaultNcnTicket
| InitializeVaultNcnSlasherOperatorTicket
| InitializeVaultNcnSlasherTicket
| WarmupVaultNcnTicket
| CooldownVaultNcnTicket
| WarmupVaultNcnSlasherTicket
| CooldownVaultNcnSlasherTicket
| MintTo (amount_in min_amount_out : Z)
| EnqueueWithdrawal (amount : Z)
| ChangeWithdrawalTicketOwner
| BurnWithdrawalTicket
| SetDepositCapacity (amount : Z)
| SetFees (deposit_fee_bps withdrawal_fee_bps reward_fee_bps : option Z)
| SetProgramFee (new_fee_bps : Z)
| SetProgramFeeWallet
| SetIsPaused (is_paused : bool)
| DelegateTokenAccount
| RevokeDelegateTokenAccount
| SetAdmin
| SetSecondaryAdmin (role : VaultAdminRole)
| AddDelegation (amount : Z)
| CooldownDelegation (amount : Z)
| UpdateVaultBalance
| InitializeVaultUpdateStateTracker (method : WithdrawalAllocationMethod)
| CrankVaultUpdateStateTracker
| CloseVaultUpdateStateTracker (ncn_epoch : Z)
| CreateTokenMetadata (name symbol uri : list Z)
| UpdateTokenMetadata (name symbol uri : list Z)
| SetConfigAdmin
| SetConfigSecondaryAdmin (role : ConfigAdminRole).
