(* ===== verification/VaultAdmin.v ===== *)
(** * Administration handlers of the vault program
    ([vault_program/src]: [initialize_config.rs], [set_*.rs],
    [delegate_token_account.rs], [revoke_delegate_token_account.rs],
    [create_token_metadata.rs], [update_token_metadata.rs]) *)

From stdpp Require Import base numbers list gmap.
From Stdlib Require Import Lia.
From S2P Require Import Prelude Errors Pod DelegationState SlotToggle Runtime SystemProgram.
From S2P Require Import Program Core VaultConfig Vault VaultTickets VaultInstruction.
Local Open Scope Z_scope.

Section VaultAdmin.
Context {env : Env}.

Definition process_initialize_config (program_id : Pubkey) (accounts : list AccountInfo)
    (program_fee_bps : Z) : M unit :=
  match accounts with
  | [config; admin; restaking_program; program_fee_wallet; system_program] =>
      ask (load_system_account config true) ;!
      lift (load_signer admin true) ;!
      lift (load_system_program system_program) ;!
      let '(config_pubkey, config_bump, config_seeds) := Config.find_address program_id in
      if negb (config_pubkey =? key config) then throw ProgramError.InvalidAccountData
      else if program_fee_bps >? MAX_BPS then throw ProgramError.InvalidArgument
      else
        create_program_account admin config system_program program_id
          (config_seeds ++ [[config_bump]])
          (Config.new (key admin) (key restaking_program) (key program_fee_wallet)
             program_fee_bps config_bump)
  | _ => throw ProgramError.NotEnoughAccountKeys
  end.

Definition process_set_admin (program_id : Pubkey) (accounts : list AccountInfo) : M unit :=
  match accounts with
  | [config; vault_info; old_admin; new_admin] =>
      ask (Config.load program_id config false) ;!
      ask (Vault.load program_id vault_info true) ;!
      let! vault := read Vault vault_info in
      lift (load_signer old_admin false) ;!
      lift (load_signer new_admin false) ;!
      lift (Vault.check_admin vault (key old_admin)) ;!
      let vault := vault<|Vault.admin := key new_admin|> in
      write vault_info (Vault.update_secondary_admin vault (key old_admin) (key new_admin))
  | _ => throw ProgramError.NotEnoughAccountKeys
  end.

Definition process_set_deposit_capacity (program_id : Pubkey) (accounts : list AccountInfo)
    (capacity : Z) : M unit :=
  match accounts with
  | [config; vault_info; vault_capacity_admin] =>
      ask (Config.load program_id config false) ;!
      ask (Vault.load program_id vault_info true) ;!
      let! vault := read Vault vault_info in
      lift (load_signer vault_capacity_admin false) ;!
      lift (Vault.check_capacity_admin vault (key vault_capacity_admin)) ;!
      write vault_info (Vault.set_capacity vault capacity)
  | _ => throw ProgramError.NotEnoughAccountKeys
  end.

Definition process_set_config_admin (program_id : Pubkey) (accounts : list AccountInfo)
    : M unit :=
  match accounts with
  | [config_info; old_admin; new_admin] =>
      ask (Config.load program_id config_info true) ;!
      let! config := read Config config_info in
      lift (load_signer old_admin false) ;!
      if negb (Config.admin config =? key old_admin)
      then throw_vault VaultError.ConfigAdminInvalid
      else write config_info (Config.set_admin config (key new_admin))
  | _ => throw ProgramError.NotEnoughAccountKeys
  end.

Definition process_set_config_secondary_admin (program_id : Pubkey)
    (accounts : list AccountInfo) (role : ConfigAdminRole) : M unit :=
  match accounts with
  | [config_info; admin; new_admin] =>
      ask (Config.load program_id config_info true) ;!
      let! config := read Config config_info in
      lift (load_signer admin false) ;!
      lift (Config.check_admin config (key admin)) ;!
      match role with
      | ConfigFeeAdmin => write config_info config<|Config.fee_admin := key new_admin|>
      end
  | _ => throw ProgramError.NotEnoughAccountKeys
  end.

(** [if let Some(bps) = fee { vault.setter(bps)?; }]. *)
Definition set_opt (fee : option Z) (setter : Vault -> Z -> result VaultError Vault)
    (vault : Vault) : result VaultError Vault :=
  match fee with
  | Some bps => setter vault bps
  | None => Ok vault
  end.

Definition process_set_fees (program_id : Pubkey) (accounts : list AccountInfo)
    (deposit_fee_bps withdrawal_fee_bps reward_fee_bps : option Z) : M unit :=
  match accounts with
  | [config_info; vault_info; vault_fee_admin] =>
      ask (Config.load program_id config_info false) ;!
      let! config := read Config config_info in
      ask (Vault.load program_id vault_info true) ;!
      let! vault := read Vault vault_info in
      lift (load_signer vault_fee_admin false) ;!
      lift (Vault.check_fee_admin vault (key vault_fee_admin)) ;!
      let! slot := get_slot in
      lift (Vault.check_can_modify_fees vault slot (Config.epoch_length config)) ;!
      match deposit_fee_bps, withdrawal_fee_bps, reward_fee_bps with
      | None, None, None => throw ProgramError.InvalidInstructionData
      | _, _, _ =>
          let cap := Config.deposit_withdrawal_fee_cap_bps config in
          let bump := Config.fee_bump_bps config in
          let rate := Config.fee_rate_of_change_bps config in
          let! vault := lift (set_opt deposit_fee_bps
              (fun v bps => Vault.set_deposit_fee_bps v bps cap bump rate) vault) in
          let! vault := lift (set_opt withdrawal_fee_bps
              (fun v bps => Vault.set_next_withdrawal_fee_bps v bps cap bump rate) vault) in
          let! vault := lift (set_opt reward_fee_bps Vault.set_reward_fee_bps vault) in
          write vault_info (Vault.set_last_fee_change_slot vault slot)
      end
  | _ => throw ProgramError.NotEnoughAccountKeys
  end.

Definition process_set_is_paused (program_id : Pubkey) (accounts : list AccountInfo)
    (is_paused : bool) : M unit :=
  match accounts with
  | [config; vault_info; admin] =>
      ask (Config.load program_id config false) ;!
      ask (Vault.load program_id vault_info true) ;!
      let! vault := read Vault vault_info in
      lift (load_signer admin false) ;!
      lift (Vault.check_admin vault (key admin)) ;!
      write vault_info (Vault.set_is_paused vault is_paused)
  | _ => throw ProgramError.NotEnoughAccountKeys
  end.

Definition process_set_program_fee (program_id : Pubkey) (accounts : list AccountInfo)
    (new_fee_bps : Z) : M unit :=
  match accounts with
  | [config_info; config_admin] =>
      ask (Config.load program_id config_info true) ;!
      let! config := read Config config_info in
      lift (load_signer config_admin false) ;!
      if negb (key config_admin =? Config.admin config)
      then throw_vault VaultError.ConfigAdminInvalid
      else
        let! config := lift (Config.set_program_fee_bps config new_fee_bps) in
        write config_info config
  | _ => throw ProgramError.NotEnoughAccountKeys
  end.

Definition process_set_program_fee_wallet (program_id : Pubkey) (accounts : list AccountInfo)
    : M unit :=
  match accounts with
  | [config_info; config_fee_admin; new_fee_wallet] =>
      ask (Config.load program_id config_info true) ;!
      let! config := read Config config_info in
      lift (load_signer config_fee_admin false) ;!
      if negb (key config_fee_admin =? Config.fee_admin config)
      then throw_vault VaultError.ConfigFeeAdminInvalid
      else write config_info config<|Config.program_fee_wallet := key new_fee_wallet|>
  | _ => throw ProgramError.NotEnoughAccountKeys
  end.

(** The [match role] of [process_set_secondary_admin]. *)
Definition set_role (vault : Vault) (role : VaultAdminRole) (k : Pubkey) : Vault :=
  match role with
  | DelegationAdmin => vault<|Vault.delegation_admin := k|>
  | OperatorAdmin => vault<|Vault.operator_admin := k|>
  | NcnAdmin => vault<|Vault.ncn_admin := k|>
  | SlasherAdmin => vault<|Vault.slasher_admin := k|>
  | CapacityAdmin => vault<|Vault.capacity_admin := k|>
  | FeeWallet => vault<|Vault.fee_wallet := k|>
  | MintBurnAdmin => vault<|Vault.mint_burn_admin := k|>
  | DelegateAssetAdmin => vault<|Vault.delegate_asset_admin := k|>
  | FeeAdmin => vault<|Vault.fee_admin := k|>
  | MetadataAdmin => vault<|Vault.metadata_admin := k|>
  end.

Definition process_set_secondary_admin (program_id : Pubkey) (accounts : list AccountInfo)
    (role : VaultAdminRole) : M unit :=
  match accounts with
  | [config; vault_info; admin; new_admin] =>
      ask (Config.load program_id config false) ;!
      ask (Vault.load program_id vault_info true) ;!
      let! vault := read Vault vault_info in
      lift (load_signer admin false) ;!
      lift (Vault.check_admin vault (key admin)) ;!
      write vault_info (set_role vault role (key new_admin))
  | _ => throw ProgramError.NotEnoughAccountKeys
  end.

(** [if token_mint.owner.ne(token_account.owner)]. *)
Definition check_same_owner (token_mint token_account : AccountInfo) (s : Store)
    : result ProgramError unit :=
  if negb (owner (account_of s token_mint) =? owner (account_of s token_account))
  then Err ProgramError.InvalidAccountData else Ok tt.

Definition process_delegate_token_account (program_id : Pubkey) (accounts : list AccountInfo)
    : M unit :=
  match accounts with
  | [config; vault_info; delegate_asset_admin; token_mint; token_account; delegate;
     token_program_info] =>
      ask (Config.load program_id config false) ;!
      ask (Vault.load program_id vault_info false) ;!
      lift (load_signer delegate_asset_admin false) ;!
      ask (load_token_mint token_mint) ;!
      ask (load_token_account token_account (key vault_info) (key token_mint)
             token_program_info) ;!
      lift (load_token_program token_program_info) ;!
      ask (check_same_owner token_mint token_account) ;!
      let! vault := read Vault vault_info in
      if Vault.supported_mint vault =? key token_mint then throw ProgramError.InvalidAccountData
      else
        lift (Vault.check_delegate_asset_admin vault (key delegate_asset_admin)) ;!
        invoke_signed
          (token_approve (key token_program_info) (key token_account) (key delegate)
             (key vault_info) U64_MAX)
          [token_program_info; token_account; delegate; vault_info]
          [Vault.signing_seeds vault]
  | _ => throw ProgramError.NotEnoughAccountKeys
  end.

Definition process_revoke_delegate_token_account (program_id : Pubkey)
    (accounts : list AccountInfo) : M unit :=
  match accounts with
  | [config; vault_info; delegate_asset_admin; token_mint; token_account;
     token_program_info] =>
      ask (Config.load program_id config false) ;!
      ask (Vault.load program_id vault_info false) ;!
      lift (load_signer delegate_asset_admin false) ;!
      ask (load_token_mint token_mint) ;!
      ask (load_token_account token_account (key vault_info) (key token_mint)
             token_program_info) ;!
      lift (load_token_program token_program_info) ;!
      ask (check_same_owner token_mint token_account) ;!
      let! vault := read Vault vault_info in
      if Vault.supported_mint vault =? key token_mint then throw ProgramError.InvalidAccountData
      else
        lift (Vault.check_delegate_asset_admin vault (key delegate_asset_admin)) ;!
        invoke_signed
          (token_revoke (key token_program_info) (key token_account) (key vault_info))
          [token_program_info; token_account; vault_info]
          [Vault.signing_seeds vault]
  | _ => throw ProgramError.NotEnoughAccountKeys
  end.

Definition process_create_token_metadata (program_id : Pubkey) (accounts : list AccountInfo)
    (name symbol uri : list Z) : M unit :=
  match accounts with
  | [vault_info; admin; vrt_mint; payer; metadata; mpl_token_metadata_program;
     system_program] =>
      ask (Vault.load program_id vault_info false) ;!
      let! vault := read Vault vault_info in
      lift (load_signer admin false) ;!
      ask (load_token_mint vrt_mint) ;!
      lift (load_signer payer true) ;!
      ask (load_system_account metadata true) ;!
      lift (load_mpl_metadata_program mpl_token_metadata_program) ;!
      lift (load_system_program system_program) ;!
      lift (Vault.check_admin vault (key admin)) ;!
      lift (Vault.check_vrt_mint vault (key vrt_mint)) ;!
      if negb ((find_metadata_account (key vrt_mint)).1 =? key metadata)
      then throw ProgramError.InvalidAccountData
      else
        invoke_signed
          (create_metadata_accounts_v3 (key mpl_token_metadata_program) (key metadata)
             (key vrt_mint) (key vault_info) (key payer) (key vault_info) name symbol uri)
          [metadata; vrt_mint; vault_info; payer; vault_info; system_program]
          [Vault.signing_seeds vault]
  | _ => throw ProgramError.NotEnoughAccountKeys
  end.

Definition process_update_token_metadata (program_id : Pubkey) (accounts : list AccountInfo)
    (name symbol uri : list Z) : M unit :=
  match accounts with
  | [vault_info; admin; vrt_mint; metadata; mpl_token_metadata_program] =>
      ask (Vault.load program_id vault_info false) ;!
      let! vault := read Vault vault_info in
      lift (load_signer admin false) ;!
      ask (load_token_mint vrt_mint) ;!
      lift (load_mpl_metadata metadata (key vrt_mint)) ;!
      lift (load_mpl_metadata_program mpl_token_metadata_program) ;!
      lift (Vault.check_admin vault (key admin)) ;!
      lift (Vault.check_vrt_mint vault (key vrt_mint)) ;!
      invoke_signed
        (update_metadata_accounts_v2 (key mpl_token_metadata_program) (key metadata)
           (key vault_info) name symbol uri)
        [metadata; vault_info]
        [Vault.signing_seeds vault]
  | _ => throw ProgramError.NotEnoughAccountKeys
  end.

End VaultAdmin.
