(* ===== verification/VaultTicketHandlers.v ===== *)
(** * Handlers for the relations of a vault
    ([vault_program/src]: [initialize_vault_ncn_ticket.rs],
    [initialize_vault_operator_delegation.rs],
    [initialize_vault_ncn_slasher_ticket.rs],
    [initialize_vault_ncn_slasher_operator_ticket.rs], [warmup_*.rs],
    [cooldown_vault_ncn_*.rs]) *)

From stdpp Require Import base numbers list gmap.
From Stdlib Require Import Lia.
From S2P Require Import Prelude Errors Pod DelegationState SlotToggle Runtime SystemProgram.
From S2P Require Import Program Core RestakingCore VaultConfig Vault VaultTickets.
Local Open Scope Z_scope.

Section VaultTicketHandlers.
Context {env : Env}.

Definition process_initialize_vault_ncn_ticket (program_id : Pubkey)
    (accounts : list AccountInfo) : M unit :=
  match accounts with
  | [config_info; vault_info; ncn; ncn_vault_ticket; vault_ncn_ticket; vault_ncn_admin; payer;
     system_program] =>
      ask (Config.load program_id config_info false) ;!
      let! config := read Config config_info in
      ask (Vault.load program_id vault_info true) ;!
      let! vault := read Vault vault_info in
      ask (Ncn.load (Config.restaking_program config) ncn false) ;!
      ask (NcnVaultTicket.load (Config.restaking_program config) ncn_vault_ticket ncn vault_info
             false) ;!
      ask (load_system_account vault_ncn_ticket false) ;!
      lift (load_signer vault_ncn_admin false) ;!
      lift (load_signer payer true) ;!
      lift (load_system_program system_program) ;!
      let '(pubkey, bump, seeds) :=
        VaultNcnTicket.find_address program_id (key vault_info) (key ncn) in
      if negb (pubkey =? key vault_ncn_ticket) then throw ProgramError.InvalidAccountData
      else
        let! slot := get_slot in
        lift (Vault.check_ncn_admin vault (key vault_ncn_admin)) ;!
        lift (Vault.check_update_state_ok vault slot (Config.epoch_length config)) ;!
        lift (Vault.check_is_paused vault) ;!
        create_program_account payer vault_ncn_ticket system_program program_id
          (seeds ++ [[bump]])
          (VaultNcnTicket.new (key vault_info) (key ncn) (Vault.ncn_count vault) bump slot) ;!
        let! vault := lift (Vault.increment_ncn_count vault) in
        write vault_info vault
  | _ => throw ProgramError.NotEnoughAccountKeys
  end.

Definition process_initialize_vault_operator_delegation (program_id : Pubkey)
    (accounts : list AccountInfo) : M unit :=
  match accounts with
  | [config_info; vault_info; operator; operator_vault_ticket; vault_operator_delegation;
     vault_operator_admin; payer; system_program] =>
      ask (Config.load program_id config_info false) ;!
      let! config := read Config config_info in
      ask (Vault.load program_id vault_info true) ;!
      let! vault := read Vault vault_info in
      ask (Operator.load (Config.restaking_program config) operator false) ;!
      ask (OperatorVaultTicket.load (Config.restaking_program config) operator_vault_ticket
             operator vault_info false) ;!
      ask (load_system_account vault_operator_delegation true) ;!
      lift (load_signer vault_operator_admin false) ;!
      lift (load_signer payer true) ;!
      lift (load_system_program system_program) ;!
      let '(pubkey, bump, seeds) :=
        VaultOperatorDelegation.find_address program_id (key vault_info) (key operator) in
      if negb (pubkey =? key vault_operator_delegation) then throw ProgramError.InvalidAccountData
      else
        let! slot := get_slot in
        lift (Vault.check_operator_admin vault (key vault_operator_admin)) ;!
        lift (Vault.check_update_state_ok vault slot (Config.epoch_length config)) ;!
        lift (Vault.check_is_paused vault) ;!
        create_program_account payer vault_operator_delegation system_program program_id
          (seeds ++ [[bump]])
          (VaultOperatorDelegation.new (key vault_info) (key operator)
             (Vault.operator_count vault) bump slot) ;!
        let! vault := lift (Vault.increment_operator_count vault) in
        write vault_info vault
  | _ => throw ProgramError.NotEnoughAccountKeys
  end.

Definition process_initialize_vault_ncn_slasher_ticket (program_id : Pubkey)
    (accounts : list AccountInfo) : M unit :=
  match accounts with
  | [config_info; vault_info; ncn; slasher; ncn_slasher_ticket; vault_ncn_slasher_ticket;
     vault_slasher_admin; payer; system_program] =>
      ask (Config.load program_id config_info false) ;!
      let! config := read Config config_info in
      ask (Vault.load program_id vault_info false) ;!
      let! vault := read Vault vault_info in
      ask (Ncn.load (Config.restaking_program config) ncn false) ;!
      ask (NcnVaultSlasherTicket.load (Config.restaking_program config) ncn_slasher_ticket ncn
             vault_info slasher false) ;!
      ask (load_system_account vault_ncn_slasher_ticket true) ;!
      lift (load_signer vault_slasher_admin false) ;!
      lift (load_signer payer true) ;!
      lift (load_system_program system_program) ;!
      lift (Vault.check_is_paused vault) ;!
      let '(pubkey, bump, seeds) :=
        VaultNcnSlasherTicket.find_address program_id (key vault_info) (key ncn) (key slasher) in
      if negb (pubkey =? key vault_ncn_slasher_ticket) then throw ProgramError.InvalidAccountData
      else
        let! slot := get_slot in
        lift (Vault.check_slasher_admin vault (key vault_slasher_admin)) ;!
        lift (Vault.check_update_state_ok vault slot (Config.epoch_length config)) ;!
        create_account payer vault_ncn_slasher_ticket system_program program_id
          (account_size VaultNcnSlasherTicket) (seeds ++ [[bump]]) ;!
        let! ncn_vault_slasher_ticket := read NcnVaultSlasherTicket ncn_slasher_ticket in
        write_new vault_ncn_slasher_ticket
          (VaultNcnSlasherTicket.new (key vault_info) (key ncn) (key slasher)
             (NcnVaultSlasherTicket.max_slashable_per_epoch ncn_vault_slasher_ticket)
             (Vault.slasher_count vault) bump slot) ;!
        let! vault := lift (Vault.increment_slasher_count vault) in
        write vault_info vault
  | _ => throw ProgramError.NotEnoughAccountKeys
  end.

Definition process_initialize_vault_ncn_slasher_operator_ticket (program_id : Pubkey)
    (accounts : list AccountInfo) : M unit :=
  match accounts with
  | [config_info; vault_info; ncn; slasher; operator; vault_ncn_slasher_ticket;
     vault_ncn_slasher_operator_ticket; payer; system_program] =>
      ask (Config.load program_id config_info false) ;!
      let! config := read Config config_info in
      ask (Vault.load program_id vault_info false) ;!
      let! vault := read Vault vault_info in
      ask (Ncn.load (Config.restaking_program config) ncn false) ;!
      ask (Operator.load (Config.restaking_program config) operator false) ;!
      ask (VaultNcnSlasherTicket.load program_id vault_ncn_slasher_ticket vault_info ncn slasher
             false) ;!
      ask (load_system_account vault_ncn_slasher_operator_ticket true) ;!
      lift (load_signer payer false) ;!
      lift (load_system_program system_program) ;!
      let! slot := get_slot in
      let! ncn_epoch := lift (get_epoch slot (Config.epoch_length config)) in
      let '(pubkey, bump, seeds) :=
        VaultNcnSlasherOperatorTicket.find_address program_id (key vault_info) (key ncn)
          (key slasher) (key operator) ncn_epoch in
      if negb (key vault_ncn_slasher_operator_ticket =? pubkey)
      then throw ProgramError.InvalidAccountData
      else
        lift (Vault.check_update_state_ok vault slot (Config.epoch_length config)) ;!
        lift (Vault.check_is_paused vault) ;!
        create_program_account payer vault_ncn_slasher_operator_ticket system_program program_id
          (seeds ++ [[bump]])
          (VaultNcnSlasherOperatorTicket.new (key vault_info) (key ncn) (key slasher)
             (key operator) ncn_epoch bump)
  | _ => throw ProgramError.NotEnoughAccountKeys
  end.

Definition process_warmup_vault_ncn_ticket (program_id : Pubkey) (accounts : list AccountInfo)
    : M unit :=
  match accounts with
  | [config_info; vault_info; ncn; vault_ncn_ticket; vault_ncn_admin] =>
      ask (Config.load program_id config_info false) ;!
      ask (Vault.load program_id vault_info false) ;!
      let! config := read Config config_info in
      ask (Ncn.load (Config.restaking_program config) ncn false) ;!
      ask (VaultNcnTicket.load program_id vault_ncn_ticket vault_info ncn true) ;!
      lift (load_signer vault_ncn_admin false) ;!
      let! vault := read Vault vault_info in
      if negb (Vault.ncn_admin vault =? key vault_ncn_admin)
      then throw_vault VaultError.VaultNcnAdminInvalid
      else
        let! slot := get_slot in
        lift (Vault.check_update_state_ok vault slot (Config.epoch_length config)) ;!
        lift (Vault.check_is_paused vault) ;!
        let! ticket := read VaultNcnTicket vault_ncn_ticket in
        let! toggle := lift (activate_or (VaultNcnTicket.state ticket) slot
            (Config.epoch_length config) VaultError.VaultNcnTicketFailedWarmup) in
        write vault_ncn_ticket ticket<|VaultNcnTicket.state := toggle|>
  | _ => throw ProgramError.NotEnoughAccountKeys
  end.

Definition process_cooldown_vault_ncn_ticket (program_id : Pubkey) (accounts : list AccountInfo)
    : M unit :=
  match accounts with
  | [config_info; vault_info; ncn; vault_ncn_ticket; vault_ncn_admin] =>
      ask (Config.load program_id config_info false) ;!
      let! config := read Config config_info in
      ask (Vault.load program_id vault_info false) ;!
      let! vault := read Vault vault_info in
      ask (Ncn.load (Config.restaking_program config) ncn false) ;!
      ask (VaultNcnTicket.load program_id vault_ncn_ticket vault_info ncn true) ;!
      let! ticket := read VaultNcnTicket vault_ncn_ticket in
      lift (load_signer vault_ncn_admin false) ;!
      lift (Vault.check_ncn_admin vault (key vault_ncn_admin)) ;!
      let! slot := get_slot in
      lift (Vault.check_update_state_ok vault slot (Config.epoch_length config)) ;!
      lift (Vault.check_is_paused vault) ;!
      let! toggle := lift (deactivate_or (VaultNcnTicket.state ticket) slot
          (Config.epoch_length config) VaultError.VaultNcnTicketFailedCooldown) in
      write vault_ncn_ticket ticket<|VaultNcnTicket.state := toggle|>
  | _ => throw ProgramError.NotEnoughAccountKeys
  end.

Definition process_warmup_vault_ncn_slasher_ticket (program_id : Pubkey)
    (accounts : list AccountInfo) : M unit :=
  match accounts with
  | [config_info; vault_info; ncn; slasher; vault_ncn_slasher_ticket; vault_slasher_admin] =>
      ask (Config.load program_id config_info false) ;!
      let! config := read Config config_info in
      ask (Vault.load program_id vault_info false) ;!
      let! vault := read Vault vault_info in
      ask (Ncn.load (Config.restaking_program config) ncn false) ;!
      ask (VaultNcnSlasherTicket.load program_id vault_ncn_slasher_ticket vault_info ncn slasher
             false) ;!
      let! ticket := read VaultNcnSlasherTicket vault_ncn_slasher_ticket in
      lift (load_signer vault_slasher_admin false) ;!
      lift (Vault.check_slasher_admin vault (key vault_slasher_admin)) ;!
      let! slot := get_slot in
      lift (Vault.check_update_state_ok vault slot (Config.epoch_length config)) ;!
      lift (Vault.check_is_paused vault) ;!
      let! toggle := lift (activate_or (VaultNcnSlasherTicket.state ticket) slot
          (Config.epoch_length config) VaultError.VaultNcnSlasherTicketFailedWarmup) in
      write vault_ncn_slasher_ticket ticket<|VaultNcnSlasherTicket.state := toggle|>
  | _ => throw ProgramError.NotEnoughAccountKeys
  end.

Definition process_cooldown_vault_ncn_slasher_ticket (program_id : Pubkey)
    (accounts : list AccountInfo) : M unit :=
  match accounts with
  | [config_info; vault_info; ncn; slasher; vault_ncn_slasher_ticket; vault_slasher_admin] =>
      ask (Config.load program_id config_info false) ;!
      let! config := read Config config_info in
      ask (Vault.load program_id vault_info false) ;!
      let! vault := read Vault vault_info in
      ask (Ncn.load (Config.restaking_program config) ncn false) ;!
      ask (VaultNcnSlasherTicket.load program_id vault_ncn_slasher_ticket vault_info ncn slasher
             true) ;!
      let! ticket := read VaultNcnSlasherTicket vault_ncn_slasher_ticket in
      lift (load_signer vault_slasher_admin false) ;!
      lift (Vault.check_slasher_admin vault (key vault_slasher_admin)) ;!
      let! slot := get_slot in
      lift (Vault.check_update_state_ok vault slot (Config.epoch_length config)) ;!
      lift (Vault.check_is_paused vault) ;!
      let! toggle := lift (deactivate_or (VaultNcnSlasherTicket.state ticket) slot
          (Config.epoch_length config) VaultError.VaultNcnSlasherTicketFailedCooldown) in
      write vault_ncn_slasher_ticket ticket<|VaultNcnSlasherTicket.state := toggle|>
  | _ => throw ProgramError.NotEnoughAccountKeys
  end.

End VaultTicketHandlers.
