(* ===== verification/VaultShareHandlers.v ===== *)
(** * Handlers that move shares and tokens
    ([vault_program/src]: [initialize_vault.rs], [mint_to.rs],
    [enqueue_withdrawal.rs], [change_withdrawal_ticket_owner.rs],
    [burn_withdrawal_ticket.rs], [update_vault_balance.rs],
    [initialize_vault_with_mint.rs])

    A handler that keeps a mutable reference to the vault across a
    cross-program call writes the vault before the call: the reference is into
    the program's memory, where the write is visible at once. *)

From stdpp Require Import base numbers list gmap.
From Stdlib Require Import Lia.
From S2P Require Import Prelude Errors Pod DelegationState SlotToggle Runtime SystemProgram.
From S2P Require Import Program Core VaultConfig Vault VaultTickets.
Local Open Scope Z_scope.


(** The first deposit of a new vault: one share per token, no deposit fee. *)
Definition initial_mint (vault : Vault) (base : AccountInfo)
    (deposit_fee_bps initialize_token_amount : Z) : result ProgramError Vault :=
  let? vault := Vault.initialize_vault_override_deposit_fee_bps vault 0 base in
  let? (vault, mint_summary) :=
    Vault.mint_with_fee vault initialize_token_amount initialize_token_amount in
  if negb (vrt_to_depositor mint_summary =? initialize_token_amount)
     || negb (vrt_to_fee_wallet mint_summary =? 0)
  then VErr VaultError.VaultInitialAmountFailed
  else Vault.initialize_vault_override_deposit_fee_bps vault deposit_fee_bps base.

(** Steps 1 to 5 of [process_update_vault_balance]: the new vault and the
    shares minted to the fee wallet. *)
Definition update_balance (vault : Vault) (new_st_balance : Z) : result VaultError (Vault * Z) :=
  let st_rewards := saturating_sub new_st_balance (Vault.tokens_deposited vault) in
  let? st_reward_fee := Vault.calculate_st_reward_fee vault new_st_balance in
  let? st_balance_after_fees := ok_or (checked_sub new_st_balance st_reward_fee)
      VaultError.ArithmeticUnderflow in
  let vault := Vault.set_tokens_deposited vault st_balance_after_fees in
  let? vrt_reward_fee := Vault.calculate_vrt_mint_amount vault st_reward_fee in
  let vault := Vault.set_tokens_deposited vault new_st_balance in
  let? vault := Vault.increment_vrt_supply vault vrt_reward_fee in
  Vault.check_reward_fee_effective_rate vault st_rewards vrt_reward_fee
    Vault.MAX_REWARD_DELTA_BPS ;?
  Ok (vault, vrt_reward_fee).

(** The amounts of [process_burn_withdrawal_ticket]: the new vault and the
    burn summary, with what was sent to the ticket's account on top of the
    ticket added to the program fee. *)
Definition burn_ticket (vault : Vault) (is_staker_program_fee_wallet
    is_staker_vault_fee_wallet : bool) (amount_in ticket_vrt_amount : Z)
    : result VaultError (Vault * BurnSummary) :=
  let? (vault, summary) := Vault.burn_with_fee vault is_staker_program_fee_wallet
      is_staker_vault_fee_wallet amount_in in
  let? extra_vrt_in_account := ok_or (checked_sub ticket_vrt_amount amount_in)
      VaultError.ArithmeticUnderflow in
  let? program_fee_amount :=
    ok_or (checked_add U64_MAX (program_fee_amount summary) extra_vrt_in_account)
      VaultError.ArithmeticOverflow in
  let? vault := Vault.decrement_vrt_ready_to_claim_amount vault amount_in in
  Ok (vault, mkBurnSummary (vault_fee_amount summary) program_fee_amount (burn_amount summary)
               (out_amount summary)).

Section VaultShareHandlers.
Context {env : Env}.

Definition process_initialize_vault (program_id : Pubkey) (accounts : list AccountInfo)
    (deposit_fee_bps withdrawal_fee_bps reward_fee_bps decimals initialize_token_amount : Z)
    : M unit :=
  match accounts with
  | [config_info; vault; vrt_mint; st_mint; admin_st_token_account; vault_st_token_account;
     burn_vault; burn_vault_vrt_token_account; admin; base; system_program; token_program;
     associated_token_program] =>
      ask (Config.load program_id config_info true) ;!
      let! config := read Config config_info in
      ask (load_system_account vault true) ;!
      ask (load_system_account vrt_mint true) ;!
      lift (load_signer vrt_mint true) ;!
      ask (load_token_mint st_mint) ;!
      ask (load_token_account admin_st_token_account (key admin) (key st_mint) token_program) ;!
      ask (load_token_account vault_st_token_account (key vault) (key st_mint) token_program) ;!
      ask (BurnVault.load program_id (key base) burn_vault false) ;!
      ask (load_system_account burn_vault_vrt_token_account true) ;!
      lift (load_signer admin true) ;!
      lift (load_signer base false) ;!
      lift (load_system_program system_program) ;!
      lift (load_token_program token_program) ;!
      lift (load_associated_token_account_program associated_token_program) ;!
      if initialize_token_amount =? 0 then throw_vault VaultError.VaultInitialAmountFailed
      else
      let '(vault_pubkey, vault_bump, vault_seeds) := Vault.find_address program_id (key base) in
      if negb (key vault =? vault_pubkey) then throw ProgramError.InvalidAccountData
      else if (deposit_fee_bps >? Config.deposit_withdrawal_fee_cap_bps config)
           || (withdrawal_fee_bps >? Config.deposit_withdrawal_fee_cap_bps config)
           || (reward_fee_bps >? MAX_BPS)
      then throw_vault VaultError.VaultFeeCapExceeded
      else
      invoke (system_create_account (key admin) (key vrt_mint) (minimum_balance Mint_packed_len)
                Mint_packed_len (key token_program)) [admin; vrt_mint; system_program] ;!
      invoke (token_initialize_mint2 spl_token_id (key vrt_mint) (key vault) None decimals)
        [vrt_mint] ;!
      let! slot := get_slot in
      create_account admin vault system_program program_id (account_size Vault)
        (vault_seeds ++ [[vault_bump]]) ;!
      let! vault_account := lift (Vault.new (key vrt_mint) (key st_mint) (key admin)
          (Config.num_vaults config) (key base) deposit_fee_bps withdrawal_fee_bps reward_fee_bps
          (Config.program_fee_bps config) vault_bump slot) in
      write_new vault vault_account ;!
      let! vault_account :=
        lift (initial_mint vault_account base deposit_fee_bps initialize_token_amount) in
      write vault vault_account ;!
      invoke (token_transfer (key token_program) (key admin_st_token_account)
                (key vault_st_token_account) (key admin) initialize_token_amount)
        [admin_st_token_account; vault_st_token_account; admin] ;!
      invoke (create_associated_token_account (key admin) (key burn_vault) (key vrt_mint)
                spl_token_id)
        [admin; burn_vault_vrt_token_account; burn_vault; vrt_mint; system_program;
         token_program; associated_token_program] ;!
      invoke_signed (token_mint_to (key token_program) (key vrt_mint)
                       (key burn_vault_vrt_token_account) (key vault) initialize_token_amount)
        [vrt_mint; burn_vault_vrt_token_account; vault] [Vault.signing_seeds vault_account] ;!
      let! config := read Config config_info in
      let! config := lift (Config.increment_num_vaults config) in
      write config_info config
  | _ => throw ProgramError.NotEnoughAccountKeys
  end.

Definition process_mint (program_id : Pubkey) (accounts : list AccountInfo)
    (amount_in min_amount_out : Z) : M unit :=
  let! (required_accounts, optional_accounts) := split_at 9 accounts in
  match required_accounts with
  | [config_info; vault_info; vrt_mint; depositor; depositor_token_account; vault_token_account;
     depositor_vrt_token_account; vault_fee_token_account; token_program] =>
      ask (Config.load program_id config_info false) ;!
      let! config := read Config config_info in
      ask (Vault.load program_id vault_info true) ;!
      let! vault := read Vault vault_info in
      ask (load_token_mint vrt_mint) ;!
      lift (load_signer depositor false) ;!
      ask (load_associated_token_account depositor_token_account (key depositor)
             (Vault.supported_mint vault)) ;!
      ask (load_associated_token_account vault_token_account (key vault_info)
             (Vault.supported_mint vault)) ;!
      ask (load_associated_token_account depositor_vrt_token_account (key depositor)
             (key vrt_mint)) ;!
      ask (load_associated_token_account vault_fee_token_account (Vault.fee_wallet vault)
             (key vrt_mint)) ;!
      lift (load_token_program token_program) ;!
      lift (Vault.check_mint_burn_admin vault (head optional_accounts)) ;!
      lift (Vault.check_vrt_mint vault (key vrt_mint)) ;!
      let! slot := get_slot in
      lift (Vault.check_update_state_ok vault slot (Config.epoch_length config)) ;!
      lift (Vault.check_is_paused vault) ;!
      if key depositor =? key vault_info then throw_vault VaultError.InvalidDepositor
      else if key depositor_token_account =? key vault_token_account
      then throw_vault VaultError.InvalidDepositTokenAccount
      else
      let! (vault, summary) := lift (Vault.mint_with_fee vault amount_in min_amount_out) in
      write vault_info vault ;!
      if vrt_to_depositor summary =? 0 then throw_vault VaultError.VrtOutCannotBeZero
      else
      invoke (token_transfer spl_token_id (key depositor_token_account) (key vault_token_account)
                (key depositor) amount_in)
        [depositor_token_account; vault_token_account; depositor] ;!
      invoke_signed (token_mint_to spl_token_id (key vrt_mint) (key depositor_vrt_token_account)
                       (key vault_info) (vrt_to_depositor summary))
        [vrt_mint; depositor_vrt_token_account; vault_info] [Vault.signing_seeds vault] ;!
      invoke_signed (token_mint_to spl_token_id (key vrt_mint) (key vault_fee_token_account)
                       (key vault_info) (vrt_to_fee_wallet summary))
        [vrt_mint; vault_fee_token_account; vault_info] [Vault.signing_seeds vault]
  | _ => throw ProgramError.NotEnoughAccountKeys
  end.

Definition process_enqueue_withdrawal (program_id : Pubkey) (accounts : list AccountInfo)
    (vrt_amount : Z) : M unit :=
  let! (required_accounts, optional_accounts) := split_at 9 accounts in
  match required_accounts with
  | [config_info; vault_info; vault_staker_withdrawal_ticket;
     vault_staker_withdrawal_ticket_token_account; staker; staker_vrt_token_account; base;
     token_program; system_program] =>
      ask (Config.load program_id config_info false) ;!
      let! config := read Config config_info in
      ask (Vault.load program_id vault_info true) ;!
      let! vault := read Vault vault_info in
      ask (load_system_account vault_staker_withdrawal_ticket true) ;!
      ask (load_associated_token_account vault_staker_withdrawal_ticket_token_account
             (key vault_staker_withdrawal_ticket) (Vault.vrt_mint vault)) ;!
      lift (load_signer staker false) ;!
      ask (load_associated_token_account staker_vrt_token_account (key staker)
             (Vault.vrt_mint vault)) ;!
      lift (load_token_program token_program) ;!
      lift (load_signer base false) ;!
      lift (load_system_program system_program) ;!
      lift (Vault.check_mint_burn_admin vault (head optional_accounts)) ;!
      let! slot := get_slot in
      lift (Vault.check_update_state_ok vault slot (Config.epoch_length config)) ;!
      lift (Vault.check_is_paused vault) ;!
      if vrt_amount =? 0 then throw_vault VaultError.VaultEnqueueWithdrawalAmountZero
      else
      let '(pubkey, bump, seeds) :=
        VaultStakerWithdrawalTicket.find_address program_id (key vault_info) (key base) in
      if negb (key vault_staker_withdrawal_ticket =? pubkey)
      then throw ProgramError.InvalidAccountData
      else
      create_program_account staker vault_staker_withdrawal_ticket system_program program_id
        (seeds ++ [[bump]])
        (VaultStakerWithdrawalTicket.new (key vault_info) (key staker) (key base) vrt_amount slot
           bump) ;!
      let! vault := lift (Vault.increment_vrt_enqueued_for_cooldown_amount vault vrt_amount) in
      write vault_info vault ;!
      invoke (token_transfer spl_token_id (key staker_vrt_token_account)
                (key vault_staker_withdrawal_ticket_token_account) (key staker) vrt_amount)
        [staker_vrt_token_account; vault_staker_withdrawal_ticket_token_account; staker]
  | _ => throw ProgramError.NotEnoughAccountKeys
  end.

Definition process_change_withdrawal_ticket_owner (program_id : Pubkey)
    (accounts : list AccountInfo) : M unit :=
  match accounts with
  | [config_info; vault_info; vault_staker_withdrawal_ticket; old_owner; new_owner] =>
      ask (Config.load program_id config_info false) ;!
      ask (Vault.load program_id vault_info false) ;!
      let! vault := read Vault vault_info in
      ask (VaultStakerWithdrawalTicket.load program_id vault_staker_withdrawal_ticket vault_info
             true) ;!
      let! ticket := read VaultStakerWithdrawalTicket vault_staker_withdrawal_ticket in
      lift (load_signer old_owner false) ;!
      lift (Vault.check_is_paused vault) ;!
      lift (VaultStakerWithdrawalTicket.check_staker ticket (key old_owner)) ;!
      write vault_staker_withdrawal_ticket
        ticket<|VaultStakerWithdrawalTicket.staker := key new_owner|>
  | _ => throw ProgramError.NotEnoughAccountKeys
  end.

Definition process_burn_withdrawal_ticket (program_id : Pubkey) (accounts : list AccountInfo)
    : M unit :=
  let! (required_accounts, optional_accounts) := split_at 12 accounts in
  match required_accounts with
  | [config_info; vault_info; vault_token_account; vrt_mint; staker; staker_token_account;
     ticket_info; ticket_token_account; vault_fee_token_account; program_fee_token_account;
     token_program; system_program] =>
      ask (Config.load program_id config_info false) ;!
      let! config := read Config config_info in
      ask (Vault.load program_id vault_info true) ;!
      let! vault := read Vault vault_info in
      ask (load_associated_token_account vault_token_account (key vault_info)
             (Vault.supported_mint vault)) ;!
      ask (load_token_mint vrt_mint) ;!
      ask (load_associated_token_account staker_token_account (key staker)
             (Vault.supported_mint vault)) ;!
      ask (VaultStakerWithdrawalTicket.load program_id ticket_info vault_info true) ;!
      let! ticket := read VaultStakerWithdrawalTicket ticket_info in
      ask (load_associated_token_account ticket_token_account (key ticket_info)
             (Vault.vrt_mint vault)) ;!
      let! ticket_vrt_account :=
        ask (fun s => token_2022_base_unpack (data (account_of s ticket_token_account))) in
      ask (load_associated_token_account vault_fee_token_account (Vault.fee_wallet vault)
             (Vault.vrt_mint vault)) ;!
      ask (load_associated_token_account program_fee_token_account
             (Config.program_fee_wallet config) (Vault.vrt_mint vault)) ;!
      lift (load_token_program token_program) ;!
      lift (load_system_program system_program) ;!
      lift (Vault.check_mint_burn_admin vault (head optional_accounts)) ;!
      lift (Vault.check_vrt_mint vault (key vrt_mint)) ;!
      let! slot := get_slot in
      lift (Vault.check_update_state_ok vault slot (Config.epoch_length config)) ;!
      lift (Vault.check_is_paused vault) ;!
      lift (VaultStakerWithdrawalTicket.check_staker ticket (key staker)) ;!
      let! withdrawable :=
        lift (VaultStakerWithdrawalTicket.is_withdrawable ticket slot
                (Config.epoch_length config)) in
      if negb withdrawable
      then throw_vault VaultError.VaultStakerWithdrawalTicketNotWithdrawable
      else
      let! (vault, summary) := lift (burn_ticket vault
          (Config.program_fee_wallet config =? key staker)
          (Vault.fee_wallet vault =? key staker)
          (VaultStakerWithdrawalTicket.vrt_amount ticket) (ta_amount ticket_vrt_account)) in
      write vault_info vault ;!
      let ticket_seeds := VaultStakerWithdrawalTicket.signing_seeds ticket (key vault_info) in
      invoke_signed (token_transfer spl_token_id (key ticket_token_account)
                       (key vault_fee_token_account) (key ticket_info) (vault_fee_amount summary))
        [ticket_token_account; vault_fee_token_account; ticket_info] [ticket_seeds] ;!
      invoke_signed (token_transfer spl_token_id (key ticket_token_account)
                       (key program_fee_token_account) (key ticket_info)
                       (program_fee_amount summary))
        [ticket_token_account; program_fee_token_account; ticket_info] [ticket_seeds] ;!
      invoke_signed (token_burn spl_token_id (key ticket_token_account) (key vrt_mint)
                       (key ticket_info) (burn_amount summary))
        [ticket_token_account; vrt_mint; ticket_info] [ticket_seeds] ;!
      invoke_signed (token_close_account spl_token_id (key ticket_token_account) (key staker)
                       (key ticket_info))
        [ticket_token_account; staker; ticket_info] [ticket_seeds] ;!
      close_program_account program_id ticket_info staker ;!
      invoke_signed (token_transfer spl_token_id (key vault_token_account)
                       (key staker_token_account) (key vault_info) (out_amount summary))
        [vault_token_account; staker_token_account; vault_info] [Vault.signing_seeds vault]
  | _ => throw ProgramError.NotEnoughAccountKeys
  end.

Definition process_update_vault_balance (program_id : Pubkey) (accounts : list AccountInfo)
    : M unit :=
  match accounts with
  | [config_info; vault_info; vault_token_account; vrt_mint; vault_fee_token_account;
     token_program] =>
      ask (Config.load program_id config_info false) ;!
      ask (Vault.load program_id vault_info true) ;!
      let! config := read Config config_info in
      let! vault := read Vault vault_info in
      ask (load_token_mint vrt_mint) ;!
      ask (load_associated_token_account vault_fee_token_account (Vault.fee_wallet vault)
             (key vrt_mint)) ;!
      ask (load_associated_token_account vault_token_account (key vault_info)
             (Vault.supported_mint vault)) ;!
      lift (load_token_program token_program) ;!
      let! slot := get_slot in
      lift (Vault.check_update_state_ok vault slot (Config.epoch_length config)) ;!
      lift (Vault.check_vrt_mint vault (key vrt_mint)) ;!
      lift (Vault.check_is_paused vault) ;!
      let! token_account :=
        ask (fun s => token_account_unpack (data (account_of s vault_token_account))) in
      let! (vault, vrt_reward_fee) := lift (update_balance vault (ta_amount token_account)) in
      write vault_info vault ;!
      if vrt_reward_fee >? 0 then
        invoke_signed (token_mint_to spl_token_id (key vrt_mint) (key vault_fee_token_account)
                         (key vault_info) vrt_reward_fee)
          [vrt_mint; vault_fee_token_account; vault_info] [Vault.signing_seeds vault]
      else mret' tt
  | _ => throw ProgramError.NotEnoughAccountKeys
  end.

Definition process_initialize_vault_with_mint (_program_id : Pubkey)
    (_accounts : list AccountInfo) : M unit := mret' tt.

End VaultShareHandlers.
