(* ===== verification/VaultUpdateHandlers.v ===== *)
(** * Delegation and the per-epoch update cycle
    ([vault_program/src]: [add_delegation.rs], [cooldown_delegation.rs],
    [initialize_vault_update_state_tracker.rs],
    [crank_vault_update_state_tracker.rs], [close_update_state_tracker.rs])

    [begin_update], [crank_operator] and [finish_update] are the parts of the
    three handlers of the cycle that compute on the deserialized accounts. *)

From stdpp Require Import base numbers list gmap.
From Stdlib Require Import Lia.
From S2P Require Import Prelude Errors Pod DelegationState SlotToggle Runtime SystemProgram.
From S2P Require Import Program Core RestakingCore VaultConfig Vault VaultTickets.
From S2P Require Import VaultInstruction.
Local Open Scope Z_scope.

(** The last update was started and not completed. *)
Definition needs_to_recover (vault : Vault) (epoch_length : Z) : result CoreError bool :=
  let? last_start_state_update_epoch :=
    get_epoch (Vault.last_start_state_update_slot vault) epoch_length in
  let? last_full_state_update_epoch :=
    get_epoch (Vault.last_full_state_update_slot vault) epoch_length in
  Ok (negb (last_full_state_update_epoch =? last_start_state_update_epoch)).

Definition begin_update (config : Config) (vault : Vault) (slot : Z)
    : result ProgramError Vault :=
  let epoch_length := Config.epoch_length config in
  let? recover := needs_to_recover vault epoch_length in
  let? (vault, additional_assets_need_unstaking) :=
    (if recover then Ok (vault, Vault.additional_assets_need_unstaking vault)
     else
       let? vault :=
         Vault.set_withdrawal_fee_bps vault (Vault.next_withdrawal_fee_bps vault) in
       let? vault := Vault.set_program_fee_bps vault (Config.program_fee_bps config) in
       let? n := Vault.calculate_additional_supported_assets_needed_to_unstake vault slot
           epoch_length in
       Ok (vault, n)) in
  let vault :=
    Vault.set_additional_assets_need_unstaking vault additional_assets_need_unstaking in
  Ok (Vault.set_last_start_state_update_slot vault slot).

(** An operator that was updated after the vault's last full update has given
    its share already. *)
Definition partially_updated (vault : Vault) (vod : VaultOperatorDelegation) (epoch_length : Z)
    : result CoreError bool :=
  let? last_full_state_update_epoch :=
    get_epoch (Vault.last_full_state_update_slot vault) epoch_length in
  let? operator_last_updated_epoch :=
    get_epoch (VaultOperatorDelegation.last_update_slot vod) epoch_length in
  Ok (last_full_state_update_epoch <? operator_last_updated_epoch).

(** The greedy allocation: the operator cools down what the vault still
    needs, up to its stake. *)
Definition greedy_cooldown (has_been_partially_updated : bool) (vault : Vault)
    (vod : VaultOperatorDelegation) : result VaultError (Vault * VaultOperatorDelegation) :=
  let staked :=
    DelegationState.staked_amount (VaultOperatorDelegation.delegation_state vod) in
  if negb has_been_partially_updated
     && (Vault.additional_assets_need_unstaking vault >? 0)
     && (staked >? 0)
  then
    let max_cooldown := Z.min staked (Vault.additional_assets_need_unstaking vault) in
    let? d := DelegationState.cooldown (VaultOperatorDelegation.delegation_state vod)
        max_cooldown in
    let? vault := Vault.decrement_additional_assets_need_unstaking vault max_cooldown in
    Ok (vault, vod<|VaultOperatorDelegation.delegation_state := d|>)
  else Ok (vault, vod).

Definition crank_operator (has_been_partially_updated : bool) (slot epoch_length : Z)
    (vault : Vault) (vod : VaultOperatorDelegation) (tracker : VaultUpdateStateTracker)
    : result ProgramError (Vault * VaultOperatorDelegation * VaultUpdateStateTracker) :=
  VaultOperatorDelegation.check_is_already_updated vod slot epoch_length ;?
  let? tracker := VaultUpdateStateTracker.check_and_update_index tracker
      (VaultOperatorDelegation.index vod) (Vault.operator_count vault) in
  let? (vault, vod) :=
    (let? method := withdrawal_allocation_method_try_from
         (VaultUpdateStateTracker.withdrawal_allocation_method tracker) in
     match method with
     | Greedy => into (greedy_cooldown has_been_partially_updated vault vod)
     end) in
  let? vod := VaultOperatorDelegation.update vod slot epoch_length in
  let? d := DelegationState.accumulate (VaultUpdateStateTracker.delegation_state tracker)
      (VaultOperatorDelegation.delegation_state vod) in
  Ok (vault, vod, tracker<|VaultUpdateStateTracker.delegation_state := d|>).

(** One round of the loop that shifts the share amounts. *)
Definition shift_vrt (vault : Vault) : result VaultError Vault :=
  let? vault :=
    Vault.increment_vrt_ready_to_claim_amount vault (Vault.vrt_cooling_down_amount vault) in
  let vault :=
    Vault.set_vrt_cooling_down_amount vault (Vault.vrt_enqueued_for_cooldown_amount vault) in
  Ok (Vault.set_vrt_enqueued_for_cooldown_amount vault 0).

Fixpoint shift_vrt_loop (n : nat) (vault : Vault) : result VaultError Vault :=
  match n with
  | O => Ok vault
  | S n => let? vault := shift_vrt vault in shift_vrt_loop n vault
  end.

Definition finish_update (vault : Vault) (tracker : VaultUpdateStateTracker)
    (ncn_epoch slot epoch_length : Z) : result ProgramError Vault :=
  let? current_ncn_epoch := get_epoch slot epoch_length in
  let? last_updated_epoch := get_epoch (Vault.last_full_state_update_slot vault) epoch_length in
  if negb (ncn_epoch =? current_ncn_epoch) then Ok vault
  else
    let? finished :=
      (if Vault.operator_count vault >? 0
       then VaultUpdateStateTracker.all_operators_updated tracker (Vault.operator_count vault)
       else Ok true) in
    if negb finished then VErr VaultError.VaultUpdateStateNotFinishedUpdating
    else if Vault.additional_assets_need_unstaking vault >? 0
    then VErr VaultError.NonZeroAdditionalAssetsNeededForWithdrawalAtEndOfUpdate
    else
      let vault := vault<|Vault.delegation_state :=
                            VaultUpdateStateTracker.delegation_state tracker|> in
      let vault := Vault.set_last_full_state_update_slot vault slot in
      let? epoch_diff := ok_or (checked_sub current_ncn_epoch last_updated_epoch)
          VaultError.VaultUnderflow in
      into (shift_vrt_loop (Z.to_nat (Z.min epoch_diff 2)) vault).

Section VaultUpdateHandlers.
Context {env : Env}.

Definition process_add_delegation (program_id : Pubkey) (accounts : list AccountInfo)
    (amount : Z) : M unit :=
  match accounts with
  | [config_info; vault_info; operator; vault_operator_delegation; vault_delegation_admin] =>
      let! slot := get_slot in
      ask (Config.load program_id config_info false) ;!
      let! config := read Config config_info in
      ask (Vault.load program_id vault_info true) ;!
      let! vault := read Vault vault_info in
      ask (Operator.load (Config.restaking_program config) operator false) ;!
      ask (VaultOperatorDelegation.load program_id vault_operator_delegation vault_info operator
             true) ;!
      let! vod := read VaultOperatorDelegation vault_operator_delegation in
      lift (load_signer vault_delegation_admin false) ;!
      lift (Vault.check_delegation_admin vault (key vault_delegation_admin)) ;!
      lift (Vault.check_update_state_ok vault slot (Config.epoch_length config)) ;!
      lift (Vault.check_is_paused vault) ;!
      let! vault := lift (Vault.delegate vault amount) in
      write vault_info vault ;!
      let! d := lift (DelegationState.delegate (VaultOperatorDelegation.delegation_state vod)
          amount) in
      write vault_operator_delegation vod<|VaultOperatorDelegation.delegation_state := d|>
  | _ => throw ProgramError.NotEnoughAccountKeys
  end.

Definition process_cooldown_delegation (program_id : Pubkey) (accounts : list AccountInfo)
    (amount : Z) : M unit :=
  match accounts with
  | [config_info; vault_info; operator; vault_operator_delegation; vault_delegation_admin] =>
      ask (Config.load program_id config_info false) ;!
      ask (Vault.load program_id vault_info true) ;!
      let! vault := read Vault vault_info in
      let! config := read Config config_info in
      ask (Operator.load (Config.restaking_program config) operator false) ;!
      ask (VaultOperatorDelegation.load program_id vault_operator_delegation vault_info operator
             true) ;!
      let! vod := read VaultOperatorDelegation vault_operator_delegation in
      lift (load_signer vault_delegation_admin false) ;!
      lift (Vault.check_delegation_admin vault (key vault_delegation_admin)) ;!
      let! slot := get_slot in
      lift (Vault.check_update_state_ok vault slot (Config.epoch_length config)) ;!
      lift (Vault.check_is_paused vault) ;!
      let! d := lift (DelegationState.cooldown (VaultOperatorDelegation.delegation_state vod)
          amount) in
      write vault_operator_delegation vod<|VaultOperatorDelegation.delegation_state := d|> ;!
      let! dv := lift (DelegationState.cooldown (Vault.delegation_state vault) amount) in
      write vault_info vault<|Vault.delegation_state := dv|>
  | _ => throw ProgramError.NotEnoughAccountKeys
  end.

Definition process_initialize_vault_update_state_tracker (program_id : Pubkey)
    (accounts : list AccountInfo) (withdrawal_allocation_method : WithdrawalAllocationMethod)
    : M unit :=
  match accounts with
  | [config_info; vault_info; vault_update_state_tracker; payer; system_program] =>
      ask (Config.load program_id config_info false) ;!
      let! config := read Config config_info in
      ask (Vault.load program_id vault_info true) ;!
      let! vault := read Vault vault_info in
      ask (load_system_account vault_update_state_tracker true) ;!
      lift (load_signer payer true) ;!
      lift (load_system_program system_program) ;!
      let! slot := get_slot in
      let! ncn_epoch := lift (get_epoch slot (Config.epoch_length config)) in
      let '(pubkey, bump, seeds) :=
        VaultUpdateStateTracker.find_address program_id (key vault_info) ncn_epoch in
      if negb (pubkey =? key vault_update_state_tracker)
      then throw ProgramError.InvalidAccountData
      else if is_ok (Vault.check_update_state_ok vault slot (Config.epoch_length config))
      then throw_vault VaultError.VaultIsUpdated
      else
        lift (Vault.check_is_paused vault) ;!
        create_account payer vault_update_state_tracker system_program program_id
          (account_size VaultUpdateStateTracker) (seeds ++ [[bump]]) ;!
        let! vault := lift (begin_update config vault slot) in
        write vault_info vault ;!
        write_new vault_update_state_tracker
          (VaultUpdateStateTracker.new (key vault_info) ncn_epoch
             (withdrawal_allocation_method_u8 withdrawal_allocation_method))
  | _ => throw ProgramError.NotEnoughAccountKeys
  end.

Definition process_crank_vault_update_state_tracker (program_id : Pubkey)
    (accounts : list AccountInfo) : M unit :=
  match accounts with
  | [config_info; vault_info; operator; vault_operator_delegation; vault_update_state_tracker] =>
      let! slot := get_slot in
      ask (Config.load program_id config_info false) ;!
      let! config := read Config config_info in
      ask (Vault.load program_id vault_info true) ;!
      let! vault := read Vault vault_info in
      ask (Operator.load (Config.restaking_program config) operator false) ;!
      ask (VaultOperatorDelegation.load program_id vault_operator_delegation vault_info operator
             true) ;!
      let! vod := read VaultOperatorDelegation vault_operator_delegation in
      let epoch_length := Config.epoch_length config in
      let! ncn_epoch := lift (get_epoch slot epoch_length) in
      let! has_been_partially_updated := lift (partially_updated vault vod epoch_length) in
      ask (VaultUpdateStateTracker.load program_id vault_update_state_tracker vault_info
             ncn_epoch true) ;!
      let! tracker := read VaultUpdateStateTracker vault_update_state_tracker in
      lift (Vault.check_is_paused vault) ;!
      let! (vault, vod, tracker) :=
        lift (crank_operator has_been_partially_updated slot epoch_length vault vod tracker) in
      write vault_info vault ;!
      write vault_operator_delegation vod ;!
      write vault_update_state_tracker tracker
  | _ => throw ProgramError.NotEnoughAccountKeys
  end.

Definition process_close_vault_update_state_tracker (program_id : Pubkey)
    (accounts : list AccountInfo) (ncn_epoch : Z) : M unit :=
  match accounts with
  | [config_info; vault_info; vault_update_state_tracker_info; payer] =>
      let! slot := get_slot in
      ask (Config.load program_id config_info false) ;!
      let! config := read Config config_info in
      ask (Vault.load program_id vault_info true) ;!
      let! vault := read Vault vault_info in
      ask (VaultUpdateStateTracker.load program_id vault_update_state_tracker_info vault_info
             ncn_epoch true) ;!
      let! tracker := read VaultUpdateStateTracker vault_update_state_tracker_info in
      lift (load_signer payer true) ;!
      lift (Vault.check_is_paused vault) ;!
      let! vault :=
        lift (finish_update vault tracker ncn_epoch slot (Config.epoch_length config)) in
      write vault_info vault ;!
      close_program_account program_id vault_update_state_tracker_info payer
  | _ => throw ProgramError.NotEnoughAccountKeys
  end.

End VaultUpdateHandlers.
