(* ===== verification/VaultProgram.v ===== *)
(** * The vault program's entry point ([vault_program/src/lib.rs]) *)

From stdpp Require Import base numbers list gmap.
From Stdlib Require Import Lia.
From S2P Require Import Prelude Errors Pod DelegationState SlotToggle Runtime SystemProgram.
From S2P Require Import Program Core RestakingCore VaultConfig Vault VaultTickets.
From S2P Require Import VaultInstruction VaultAdmin VaultTicketHandlers VaultShareHandlers.
From S2P Require Import VaultUpdateHandlers.
Local Open Scope Z_scope.

Section VaultProgram.
Context {env : Env}.

Definition dispatch (program_id : Pubkey) (accounts : list AccountInfo)
    (instruction : VaultInstruction) : M unit :=
  match instruction with
  | InitializeConfig program_fee_bps =>
      process_initialize_config program_id accounts program_fee_bps
  | InitializeVault deposit_fee_bps withdrawal_fee_bps reward_fee_bps decimals
      initialize_token_amount =>
      process_initialize_vault program_id accounts deposit_fee_bps withdrawal_fee_bps
        reward_fee_bps decimals initialize_token_amount
  | InitializeVaultWithMint => process_initialize_vault_with_mint program_id accounts
  | InitializeVaultNcnTicket => process_initialize_vault_ncn_ticket program_id accounts
  | InitializeVaultOperatorDelegation =>
      process_initialize_vault_operator_delegation program_id accounts
  | InitializeVaultNcnSlasherTicket =>
      process_initialize_vault_ncn_slasher_ticket program_id accounts
  | InitializeVaultNcnSlasherOperatorTicket =>
      process_initialize_vault_ncn_slasher_operator_ticket program_id accounts
  | SetSecondaryAdmin role => process_set_secondary_admin program_id accounts role
  | SetAdmin => process_set_admin program_id accounts
  | SetDepositCapacity amount => process_set_deposit_capacity program_id accounts amount
  | DelegateTokenAccount => process_delegate_token_account program_id accounts
  | RevokeDelegateTokenAccount => process_revoke_delegate_token_account program_id accounts
  | SetFees deposit_fee_bps withdrawal_fee_bps reward_fee_bps =>
      process_set_fees program_id accounts deposit_fee_bps withdrawal_fee_bps reward_fee_bps
  | SetProgramFee new_fee_bps => process_set_program_fee program_id accounts new_fee_bps
  | SetProgramFeeWallet => process_set_program_fee_wallet program_id accounts
  | SetIsPaused is_paused => process_set_is_paused program_id accounts is_paused
  | MintTo amount_in min_amount_out => process_mint program_id accounts amount_in min_amount_out
  | EnqueueWithdrawal amount => process_enqueue_withdrawal program_id accounts amount
  | ChangeWithdrawalTicketOwner => process_change_withdrawal_ticket_owner program_id accounts
  | BurnWithdrawalTicket => process_burn_withdrawal_ticket program_id accounts
  | WarmupVaultNcnTicket => process_warmup_vault_ncn_ticket program_id accounts
  | CooldownVaultNcnTicket => process_cooldown_vault_ncn_ticket program_id accounts
  | WarmupVaultNcnSlasherTicket => process_warmup_vault_ncn_slasher_ticket program_id accounts
  | CooldownVaultNcnSlasherTicket =>
      process_cooldown_vault_ncn_slasher_ticket program_id accounts
  | AddDelegation amount => process_add_delegation program_id accounts amount
  | CooldownDelegation amount => process_cooldown_delegation program_id accounts amount
  | UpdateVaultBalance => process_update_vault_balance program_id accounts
  | InitializeVaultUpdateStateTracker method =>
      process_initialize_vault_update_state_tracker program_id accounts method
  | CrankVaultUpdateStateTracker => process_crank_vault_update_state_tracker program_id accounts
  | CloseVaultUpdateStateTracker ncn_epoch =>
      process_close_vault_update_state_tracker program_id accounts ncn_epoch
  | CreateTokenMetadata name symbol uri =>
      process_create_token_metadata program_id accounts name symbol uri
  | UpdateTokenMetadata name symbol uri =>
      process_update_token_metadata program_id accounts name symbol uri
  | SetConfigAdmin => process_set_config_admin program_id accounts
  | SetConfigSecondaryAdmin role => process_set_config_secondary_admin program_id accounts role
  end.

(** [try_from_slice] is the decoder that [borsh] derives for
    [VaultInstruction]. *)
Definition process_instruction (try_from_slice : list Z -> result ProgramError VaultInstruction)
    (program_id : Pubkey) (accounts : list AccountInfo) (instruction_data : list Z) : M unit :=
  if negb (program_id =? VAULT_PROGRAM_ID) then throw ProgramError.IncorrectProgramId
  else
    let! instruction := lift (try_from_slice instruction_data) in
    dispatch program_id accounts instruction.

End VaultProgram.
