(* ===== verification/VaultFees.v ===== *)
(** * Fee schedules, rewards and the first deposit

    When and by how much a vault's fees may change, what the fee on staking
    rewards costs the holders, and the deposit that opens a vault. *)

From stdpp Require Import base numbers list.
From Stdlib Require Import Lia.
From S2P Require Import Prelude Errors Pod DelegationState SlotToggle Runtime Program Core.
From S2P Require Import VaultConfig Vault VaultShares VaultTickets VaultShareHandlers.
Import Vault.
Local Open Scope Z_scope.

(** ** Reference definitions *)

(** A fee may rise by the bump, or by the given rate of what it is now. *)
Definition fee_change_reference (cur new cap bump rate : Z) : result VaultError unit :=
  if forallb (fun x => x <=? MAX_BPS) [cur; new; cap; bump; rate] && (new <=? cap) then
    if (new <=? cur + bump) || ((0 <? cur) && (MAX_BPS * (new - cur) <? (rate + 1) * cur))
    then Ok tt
    else Err VaultError.VaultFeeBumpTooLarge
  else Err VaultError.VaultFeeCapExceeded.

(** ** Lemmas *)

Lemma increase_bps_le cur new rate :
  0 <= cur <= MAX_BPS -> cur <= new <= MAX_BPS -> 0 <= rate <= MAX_BPS ->
  (default U64_MAX (checked_mul U128_MAX (new - cur) MAX_BPS ≫= fun product =>
     checked_div product cur ≫= try_into U64_MAX) >? rate)
  = negb ((0 <? cur) && (MAX_BPS * (new - cur) <? (rate + 1) * cur)).
Proof.
  intros Hc Hn Hr.
  rewrite (proj2 (checked_mul_Some U128_MAX _ _ ((new - cur) * MAX_BPS))) by lia. simpl.
  destruct (Z.eq_dec cur 0) as [->|Hc0].
  - simpl. destruct (Z.gtb_spec U64_MAX rate); [done|lia].
  - rewrite (proj2 (checked_div_Some _ cur ((new - cur) * MAX_BPS / cur))) by done. simpl.
    pose proof (div_floor_spec ((new - cur) * MAX_BPS) cur ltac:(lia)) as Hd.
    assert (0 <= (new - cur) * MAX_BPS / cur <= MAX_BPS * MAX_BPS) as Hb.
    { split; [apply Z.div_pos; lia|]. apply Z.div_le_upper_bound; nia. }
    rewrite (proj2 (try_into_Some U64_MAX _ ((new - cur) * MAX_BPS / cur))) by lia. simpl.
    destruct (Z.ltb_spec 0 cur); [|lia]. simpl.
    destruct (Z.gtb_spec ((new - cur) * MAX_BPS / cur) rate),
      (Z.ltb_spec (MAX_BPS * (new - cur)) ((rate + 1) * cur)); simpl; try done; nia.
Qed.

Lemma calculate_st_reward_fee_ref v b :
  wf v -> is_u64 b ->
  calculate_st_reward_fee v b
  = Ok (fee_of (saturating_sub b (tokens_deposited v)) (reward_fee_bps v)).
Proof.
  unfold wf, calculate_st_reward_fee. intros Hwf Hb.
  destruct (Z.eqb_spec (saturating_sub b (tokens_deposited v)) 0) as [->|Hn].
  - unfold fee_of. by rewrite Z.mul_0_l, div_ceil_0 by lia.
  - apply fee_ceil_ref; unfold is_u64, saturating_sub in *; lia.
Qed.

(** What a successful balance update computed. *)
Lemma update_balance_Ok v b v' f :
  wf v -> is_u64 b -> update_balance v b = Ok (v', f) ->
  let F := fee_of (saturating_sub b (tokens_deposited v)) (reward_fee_bps v) in
  0 <= F <= saturating_sub b (tokens_deposited v) /\
  f = minted (v<|tokens_deposited := b - F|>) F /\
  v' = v<|tokens_deposited := b|><|vrt_supply := vrt_supply v + f|> /\
  vrt_supply v + f <= U64_MAX /\
  check_reward_fee_effective_rate v' (saturating_sub b (tokens_deposited v)) f
    MAX_REWARD_DELTA_BPS = Ok tt.
Proof.
  intros Hwf Hb H. unfold update_balance in H.
  rewrite calculate_st_reward_fee_ref in H by done. cbn [qbind] in H.
  set (F := fee_of _ _) in *. cbn zeta.
  assert (0 <= F <= saturating_sub b (tokens_deposited v)) as HF.
  { apply fee_of_bounds; unfold wf, is_u64, saturating_sub in *; lia. }
  assert (F <= b) by (unfold wf, is_u64, saturating_sub in *; lia).
  rewrite ok_or_checked_sub in H. destruct (Z.ltb_spec b F); [lia|]. cbn [qbind] in H.
  rewrite calculate_vrt_mint_amount_ref in H.
  - unfold increment_vrt_supply, set_tokens_deposited in H. cbn in H. inv_ok.
    split_and!; try done; try lia.
  - unfold wf, is_u64 in *. cbn. intuition lia.
  - unfold is_u64 in *. lia.
Qed.

Lemma update_balance_wf v b v' f :
  wf v -> is_u64 b -> update_balance v b = Ok (v', f) -> 0 <= f /\ wf v'.
Proof.
  intros Hwf Hb H. apply update_balance_Ok in H as (HF & Hf & -> & Hmax & _); [|done|done].
  unfold saturating_sub in *. assert (0 <= f) as Hf0.
  { rewrite Hf. apply minted_nonneg; [|lia]. unfold wf, is_u64 in *. cbn. intuition lia. }
  split; [done|]. unfold wf, is_u64 in *. cbn. intuition lia.
Qed.

(** The fee's shares are worth at most the fee, and existing shares keep
    their value. *)
Lemma reward_minted_price v b F :
  wf v -> 0 <= F -> tokens_deposited v <= b - F ->
  let f := minted (v<|tokens_deposited := b - F|>) F in
  0 <= f /\ f * b <= F * (vrt_supply v + f) /\
  tokens_deposited v * (vrt_supply v + f) <= b * vrt_supply v.
Proof.
  intros Hwf HF Hle. unfold minted. cbn. unfold wf, is_u64 in Hwf.
  destruct (Z.eqb_spec (b - F) 0) as [E|Hn].
  - assert (tokens_deposited v = 0) as -> by lia. nia.
  - pose proof (div_floor_spec (F * vrt_supply v) (b - F) ltac:(lia)) as Hd.
    pose proof (Z.div_pos (F * vrt_supply v) (b - F) ltac:(nia) ltac:(lia)).
    set (f := F * vrt_supply v / (b - F)) in *. split_and!; [done|nia|].
    assert (f * tokens_deposited v <= F * vrt_supply v) by nia. nia.
Qed.

(** ** Claims *)

(** A fee change is accepted exactly within the cap and the speed limit.
    On 16-bit inputs [check_fee_change_ok] decides the reference: every rate
    at most 100%, the new fee at most the cap, and a rise of at most the bump
    or, from a non-zero fee, of at most the allowed share of the current fee;
    no rise from zero above the bump is possible, and no other error is. *)
Theorem fee_change_equals_reference cur new cap bump rate :
  is_u16 cur -> is_u16 new -> is_u16 cap -> is_u16 bump -> is_u16 rate ->
  check_fee_change_ok cur new cap bump rate = fee_change_reference cur new cap bump rate.
Proof.
  unfold is_u16, check_fee_change_ok, fee_change_reference, forallb, saturating_sub.
  intros Hc Hn Hk Hb Hr.
  destruct (Z.gtb_spec cur MAX_BPS), (Z.leb_spec cur MAX_BPS); try lia; [done|].
  destruct (Z.gtb_spec new MAX_BPS), (Z.leb_spec new MAX_BPS); try lia; [done|].
  destruct (Z.gtb_spec cap MAX_BPS), (Z.leb_spec cap MAX_BPS); try lia; [done|].
  destruct (Z.gtb_spec bump MAX_BPS), (Z.leb_spec bump MAX_BPS); try lia; [done|].
  destruct (Z.gtb_spec rate MAX_BPS), (Z.leb_spec rate MAX_BPS); try lia; [done|]. simpl.
  rewrite Z.min_l by lia.
  destruct (Z.gtb_spec new cap), (Z.leb_spec new cap); try lia; [done|].
  destruct (Z.leb_spec new (cur + bump)) as [Hle|Hgt]; simpl.
  - destruct (Z.gtb_spec (Z.max 0 (new - cur)) bump); [lia|done].
  - rewrite Z.max_r by lia. destruct (Z.gtb_spec (new - cur) bump); [|lia].
    rewrite increase_bps_le by lia. by destruct ((0 <? cur) && _).
Qed.

Lemma fee_change_equals_reference_witness :
  check_fee_change_ok 100 125 2000 10 2500 = fee_change_reference 100 125 2000 10 2500 /\
  fee_change_reference 100 125 2000 10 2500 = Ok tt /\
  fee_change_reference 100 126 2000 10 2500 = Err VaultError.VaultFeeBumpTooLarge /\
  fee_change_reference 0 11 2000 10 2500 = Err VaultError.VaultFeeBumpTooLarge.
Proof.
  split; [apply (fee_change_equals_reference 100 125 2000 10 2500); unfold is_u16; lia|].
  split_and!; vm_compute; reflexivity.
Defined.

(** Fee changes leave depositors a full epoch of notice.  After a change
    at slot [s1] another is accepted at a later slot exactly when an epoch
    that starts after [s1] has ended, and refused as too soon otherwise; at
    least one epoch length lies between two changes. *)
Theorem fee_changes_are_spaced v el s1 s2 :
  1 < el -> is_u64 s1 -> s1 <= s2 ->
  check_can_modify_fees (set_last_fee_change_slot v s1) s2 el
  = (if (s1 / el + 2) * el <=? s2 then Ok tt else VErr VaultError.VaultFeeChangeTooSoon) /\
  (check_can_modify_fees (set_last_fee_change_slot v s1) s2 el = Ok tt -> el < s2 - s1).
Proof.
  unfold is_u64. intros Hel Hs Hle. unfold check_can_modify_fees, set_last_fee_change_slot.
  rewrite !get_epoch_Ok by lia. cbn [qbind].
  pose proof (div_floor_spec s1 el ltac:(lia)) as H1.
  pose proof (div_floor_spec s2 el ltac:(lia)) as H2.
  simpl. rewrite ok_or_checked_add.
  destruct (Z.ltb_spec U64_MAX (s1 / el + 1)); cbn [qbind]; [nia|].
  destruct (Z.leb_spec (s2 / el) (s1 / el + 1)), (Z.leb_spec ((s1 / el + 2) * el) s2);
    split; try done; nia.
Qed.

Lemma fee_changes_are_spaced_witness :
  check_can_modify_fees (set_last_fee_change_slot example_vault 1001) 3000 1000 = Ok tt /\
  check_can_modify_fees (set_last_fee_change_slot example_vault 1001) 2999 1000
  = VErr VaultError.VaultFeeChangeTooSoon /\
  1000 < 3000 - 1001.
Proof.
  destruct (fee_changes_are_spaced example_vault 1000 1001 3000 ltac:(lia)
              ltac:(unfold is_u64; lia) ltac:(lia)) as [E H].
  split_and!; [exact E|vm_compute; reflexivity|exact (H E)].
Defined.

(** Taking the reward fee is fair to the holders.  A successful balance
    update records the new token balance; it mints nothing when there are no
    rewards; otherwise the minted shares are worth at most the reward fee at
    the new price, the fee is at most the rewards, and a share is worth at
    least as much as before.  Nothing else of the vault changes. *)
Theorem reward_fee_is_fair v b v' f :
  wf v -> is_u64 b -> update_balance v b = Ok (v', f) ->
  v' = v<|tokens_deposited := b|><|vrt_supply := vrt_supply v + f|> /\ wf v' /\
  (b <= tokens_deposited v -> f = 0) /\
  (tokens_deposited v <= b ->
   let fee := fee_of (b - tokens_deposited v) (reward_fee_bps v) in
   0 <= fee <= b - tokens_deposited v /\ f * b <= fee * vrt_supply v' /\ price_le v v') /\
  (tokens_deposited v < b -> 0 < reward_fee_bps v -> 0 < f).
Proof.
  intros Hwf Hb H. destruct (update_balance_wf _ _ _ _ Hwf Hb H) as [Hf0 Hwf'].
  apply update_balance_Ok in H as (HF & Hf & Hv' & Hmax & Hr); [|done|done].
  unfold saturating_sub in *. split; [done|]. split; [done|]. split_and!.
  - intros Hle. rewrite Hf, Z.max_l by lia. unfold fee_of.
    rewrite Z.mul_0_l, div_ceil_0 by lia. unfold minted. by case_match.
  - intros Hle. rewrite !Z.max_r in * by lia. cbn zeta. split; [done|].
    destruct (reward_minted_price v b _ Hwf (proj1 HF) ltac:(lia)) as (_ & H1 & H2).
    rewrite <- Hf in H1, H2. subst v'. unfold price_le. cbn. lia.
  - intros Hlt Hrate. unfold check_reward_fee_effective_rate in Hr.
    rewrite Z.max_r in Hr by lia. replace (reward_fee_bps v') with (reward_fee_bps v) in Hr
      by (subst v'; done).
    destruct (Z.eqb_spec (b - tokens_deposited v) 0); [lia|].
    destruct (Z.eqb_spec (reward_fee_bps v) 0); [lia|].
    destruct (Z.eqb_spec f 0); [done|lia].
Qed.

Lemma reward_fee_is_fair_witness :
  exists v' f, update_balance example_vault 6000 = Ok (v', f) /\ price_le example_vault v' /\
    0 < f.
Proof.
  destruct (update_balance example_vault 6000) as [[v' f]|] eqn:E; [|vm_compute in E; done].
  exists v', f.
  destruct (reward_fee_is_fair example_vault 6000 v' f example_vault_wf
              ltac:(unfold is_u64; lia) E) as (_ & _ & _ & H1 & H2).
  split; [done|]. split; [apply H1; cbn; lia|apply H2; cbn; lia].
Defined.

(** A vault opens one for one.  On a new vault the first deposit of any
    non-zero amount, with the base as signer, mints exactly that many shares
    to the depositor, charges no fee, and leaves the deposit fee as asked. *)
Theorem first_deposit_is_one_to_one vrt_mint st_mint admin index base_info dep wd rew prog bump
    slot v amount :
  Vault.new vrt_mint st_mint admin index (key base_info) dep wd rew prog bump slot = Ok v ->
  is_signer base_info = true -> 0 <= dep -> 0 < amount <= U64_MAX ->
  initial_mint v base_info dep amount
  = Ok v<|vrt_supply := amount|><|tokens_deposited := amount|> /\
  deposit_fee_bps v = dep /\ vrt_supply v = 0 /\ tokens_deposited v = 0.
Proof.
  intros Hnew Hsig Hdep Ha. unfold Vault.new in Hnew. inv_ok.
  unfold initial_mint, initialize_vault_override_deposit_fee_bps. rewrite Hsig. simpl.
  unfold mint_with_fee, calculate_vrt_mint_amount, calculate_deposit_fee. simpl.
  destruct (Z.eqb_spec amount 0); [lia|]. rewrite ok_or_checked_add.
  destruct (Z.ltb_spec U64_MAX (0 + amount)); [lia|]. cbn [qbind].
  destruct (Z.gtb_spec (0 + amount) U64_MAX); [lia|]. simpl.
  rewrite fee_ceil_ref by (unfold is_u64; lia). unfold fee_of. rewrite Z.mul_0_r, div_ceil_0 by lia. simpl.
  rewrite ok_or_checked_sub. destruct (Z.ltb_spec amount 0); [lia|]. simpl.
  destruct (Z.ltb_spec (amount - 0) amount); [lia|]. simpl.
  destruct (Z.eqb_spec (amount - 0) amount); [|lia]. simpl.
  destruct (Z.gtb_spec dep MAX_BPS); [lia|]. by rewrite !Z.add_0_l.
Qed.

Lemma first_deposit_is_one_to_one_witness :
  exists v, Vault.new 2 3 4 0 1 100 50 1000 10 255 7 = Ok v /\
    initial_mint v (mkInfo 1 true false) 100 10000
    = Ok v<|vrt_supply := 10000|><|tokens_deposited := 10000|>.
Proof.
  destruct (Vault.new 2 3 4 0 1 100 50 1000 10 255 7) as [v|] eqn:E; [|vm_compute in E; done].
  exists v. split; [done|].
  apply (first_deposit_is_one_to_one 2 3 4 0 (mkInfo 1 true false) 100 50 1000 10 255 7 v 10000 E);
    [reflexivity|lia|lia].
Defined.
