(* ===== verification/RestakingProgram.v ===== *)
(** * The restaking program ([restaking_program/src])

    Networks (NCNs) and operators: their creation, admins and fees, and the
    tickets by which networks, operators, vaults and slashers opt in to and
    out of each other.  One definition per handler, dispatched as in
    [lib.rs]. *)

From stdpp Require Import base numbers list gmap.
From Stdlib Require Import Lia.
From S2P Require Import Prelude Errors Pod DelegationState SlotToggle Runtime SystemProgram.
From S2P Require Import Program Core RestakingCore VaultConfig Vault VaultTickets VaultAdmin.
Local Open Scope Z_scope.

(** ** Instructions ([restaking_sdk/src/instruction.rs]) *)

Inductive NcnAdminRole : Type :=
| NcnOperatorAdmin
| NcnVaultAdmin
| NcnSlasherAdmin
| NcnDelegateAdmin
| NcnMetadataAdmin
| NcnWeightTableAdmin
| NcnNcnProgramAdmin.

Inductive OperatorAdminRole : Type :=
| OperatorNcnAdmin
| OperatorVaultAdmin
| OperatorVoterAdmin
| OperatorDelegateAdmin
| OperatorMetadataAdmin.

Inductive RestakingInstruction : Type :=
| InitializeRestakingConfig
| InitializeNcn
| InitializeOperator (operator_fee_bps : Z)
| InitializeNcnVaultSlasherTicket (max_slashable_per_epoch : Z)
| InitializeNcnVaultTicket
| InitializeOperatorVaultTicket
| InitializeNcnOperatorState
| WarmupNcnVaultTicket
| CooldownNcnVaultTicket
| NcnWarmupOperator
| NcnCooldownOperator
| OperatorWarmupNcn
| OperatorCooldownNcn
| WarmupNcnVaultSlasherTicket
| CooldownNcnVaultSlasherTicket
| WarmupOperatorVaultTicket
| CooldownOperatorVaultTicket
| NcnSetAdmin
| NcnSetSecondaryAdmin (role : NcnAdminRole)
| OperatorSetAdmin
| OperatorSetSecondaryAdmin (role : OperatorAdminRole)
| OperatorSetFee (new_fee_bps : Z)
| NcnDelegateTokenAccount
| OperatorDelegateTokenAccount
| SetRestakingConfigAdmin.

(** ** Handlers *)

Section RestakingHandlers.
Context {env : Env}.

Definition process_initialize_restaking_config (program_id : Pubkey)
    (accounts : list AccountInfo) : M unit :=
  match accounts with
  | [config; admin; vault_program; system_program] =>
      ask (load_system_account config true) ;!
      lift (load_signer admin true) ;!
      lift (load_system_program system_program) ;!
      let '(config_pubkey, config_bump, config_seeds) :=
        RestakingConfig.find_address program_id in
      if negb (key config =? config_pubkey) then throw ProgramError.InvalidAccountData
      else
        create_program_account admin config system_program program_id
          (config_seeds ++ [[config_bump]])
          (RestakingConfig.new (key admin) (key vault_program) config_bump)
  | _ => throw ProgramError.NotEnoughAccountKeys
  end.

Definition process_initialize_ncn (program_id : Pubkey) (accounts : list AccountInfo) : M unit :=
  match accounts with
  | [config_info; ncn; admin; base; system_program] =>
      ask (RestakingConfig.load program_id config_info true) ;!
      ask (load_system_account ncn true) ;!
      lift (load_signer admin true) ;!
      lift (load_signer base false) ;!
      lift (load_system_program system_program) ;!
      let '(ncn_pubkey, ncn_bump, ncn_seeds) := Ncn.find_address program_id (key base) in
      if negb (key ncn =? ncn_pubkey) then throw ProgramError.InvalidAccountData
      else
        create_account admin ncn system_program program_id (account_size Ncn)
          (ncn_seeds ++ [[ncn_bump]]) ;!
        let! config := read RestakingConfig config_info in
        write_new ncn (Ncn.new (key base) (key admin) (RestakingConfig.ncn_count config)
                         ncn_bump) ;!
        let! config := lift (RestakingConfig.increment_ncn_count config) in
        write config_info config
  | _ => throw ProgramError.NotEnoughAccountKeys
  end.

Definition process_initialize_operator (program_id : Pubkey) (accounts : list AccountInfo)
    (operator_fee_bps : Z) : M unit :=
  match accounts with
  | [config_info; operator; admin; base; system_program] =>
      ask (RestakingConfig.load program_id config_info true) ;!
      ask (load_system_account operator true) ;!
      lift (load_signer admin true) ;!
      lift (load_signer base false) ;!
      lift (load_system_program system_program) ;!
      let '(operator_pubkey, operator_bump, operator_seeds) :=
        Operator.find_address program_id (key base) in
      if negb (key operator =? operator_pubkey) then throw ProgramError.InvalidAccountData
      else if operator_fee_bps >? MAX_FEE_BPS
      then throw_restaking RestakingError.OperatorFeeCapExceeded
      else
        create_account admin operator system_program program_id (account_size Operator)
          (operator_seeds ++ [[operator_bump]]) ;!
        let! config := read RestakingConfig config_info in
        write_new operator (Operator.new (key base) (key admin)
                              (RestakingConfig.operator_count config) operator_fee_bps
                              operator_bump) ;!
        let! config := lift (RestakingConfig.increment_operator_count config) in
        write config_info config
  | _ => throw ProgramError.NotEnoughAccountKeys
  end.

Definition process_initialize_ncn_operator_state (program_id : Pubkey)
    (accounts : list AccountInfo) : M unit :=
  match accounts with
  | [config; ncn_info; operator_info; ncn_operator_state; ncn_operator_admin; payer;
     system_program] =>
      ask (RestakingConfig.load program_id config false) ;!
      ask (Ncn.load program_id ncn_info true) ;!
      ask (Operator.load program_id operator_info true) ;!
      ask (load_system_account ncn_operator_state true) ;!
      lift (load_signer ncn_operator_admin false) ;!
      lift (load_signer payer true) ;!
      lift (load_system_program system_program) ;!
      let '(pubkey, bump, seeds) :=
        NcnOperatorState.find_address program_id (key ncn_info) (key operator_info) in
      if negb (pubkey =? key ncn_operator_state) then throw ProgramError.InvalidAccountData
      else
        let! ncn := read Ncn ncn_info in
        if negb (Ncn.operator_admin ncn =? key ncn_operator_admin)
        then throw_restaking RestakingError.NcnOperatorAdminInvalid
        else
        let! slot := get_slot in
        create_program_account payer ncn_operator_state system_program program_id
          (seeds ++ [[bump]])
          (NcnOperatorState.new (key ncn_info) (key operator_info) (Ncn.operator_count ncn) bump
             slot) ;!
        let! operator := read Operator operator_info in
        let! ncn := lift (Ncn.increment_operator_count ncn) in
        write ncn_info ncn ;!
        let! operator := lift (Operator.increment_ncn_count operator) in
        write operator_info operator
  | _ => throw ProgramError.NotEnoughAccountKeys
  end.

Definition process_initialize_ncn_vault_slasher_ticket (program_id : Pubkey)
    (accounts : list AccountInfo) (max_slashable_per_epoch : Z) : M unit :=
  match accounts with
  | [config_info; ncn_info; vault; slasher; ncn_vault_ticket; ncn_vault_slasher_ticket;
     ncn_slasher_admin; payer; system_program] =>
      ask (RestakingConfig.load program_id config_info false) ;!
      ask (Ncn.load program_id ncn_info true) ;!
      let! config := read RestakingConfig config_info in
      ask (Vault.load (RestakingConfig.vault_program config) vault false) ;!
      ask (NcnVaultTicket.load program_id ncn_vault_ticket ncn_info vault false) ;!
      ask (load_system_account ncn_vault_slasher_ticket true) ;!
      lift (load_signer ncn_slasher_admin false) ;!
      lift (load_signer payer true) ;!
      lift (load_system_program system_program) ;!
      let '(pubkey, bump, seeds) :=
        NcnVaultSlasherTicket.find_address program_id (key ncn_info) (key vault) (key slasher) in
      if negb (key ncn_vault_slasher_ticket =? pubkey) then throw ProgramError.InvalidAccountData
      else
        let! ncn := read Ncn ncn_info in
        if negb (Ncn.slasher_admin ncn =? key ncn_slasher_admin)
        then throw_restaking RestakingError.NcnSlasherAdminInvalid
        else
        let! slot := get_slot in
        create_program_account payer ncn_vault_slasher_ticket system_program program_id
          (seeds ++ [[bump]])
          (NcnVaultSlasherTicket.new (key ncn_info) (key vault) (key slasher)
             max_slashable_per_epoch (Ncn.slasher_count ncn) bump slot) ;!
        let! ncn := lift (Ncn.increment_slasher_count ncn) in
        write ncn_info ncn
  | _ => throw ProgramError.NotEnoughAccountKeys
  end.

Definition process_initialize_ncn_vault_ticket (program_id : Pubkey)
    (accounts : list AccountInfo) : M unit :=
  match accounts with
  | [config_info; ncn_info; vault; ncn_vault_ticket; ncn_vault_admin; payer; system_program] =>
      ask (RestakingConfig.load program_id config_info false) ;!
      ask (Ncn.load program_id ncn_info true) ;!
      let! config := read RestakingConfig config_info in
      ask (Vault.load (RestakingConfig.vault_program config) vault false) ;!
      ask (load_system_account ncn_vault_ticket true) ;!
      lift (load_signer ncn_vault_admin false) ;!
      lift (load_signer payer true) ;!
      lift (load_system_program system_program) ;!
      let '(pubkey, bump, seeds) :=
        NcnVaultTicket.find_address program_id (key ncn_info) (key vault) in
      if negb (pubkey =? key ncn_vault_ticket) then throw ProgramError.InvalidAccountData
      else
        let! ncn := read Ncn ncn_info in
        if negb (Ncn.vault_admin ncn =? key ncn_vault_admin)
        then throw_restaking RestakingError.NcnVaultAdminInvalid
        else
        let! slot := get_slot in
        create_program_account payer ncn_vault_ticket system_program program_id
          (seeds ++ [[bump]])
          (NcnVaultTicket.new (key ncn_info) (key vault) (Ncn.vault_count ncn) bump slot) ;!
        let! ncn := lift (Ncn.increment_vault_count ncn) in
        write ncn_info ncn
  | _ => throw ProgramError.NotEnoughAccountKeys
  end.

Definition process_initialize_operator_vault_ticket (program_id : Pubkey)
    (accounts : list AccountInfo) : M unit :=
  match accounts with
  | [config_info; operator_info; vault; operator_vault_ticket; operator_vault_admin; payer;
     system_program] =>
      ask (RestakingConfig.load program_id config_info false) ;!
      ask (Operator.load program_id operator_info true) ;!
      let! config := read RestakingConfig config_info in
      ask (Vault.load (RestakingConfig.vault_program config) vault false) ;!
      ask (load_system_account operator_vault_ticket true) ;!
      lift (load_signer operator_vault_admin false) ;!
      lift (load_signer payer true) ;!
      lift (load_system_program system_program) ;!
      let '(pubkey, bump, seeds) :=
        OperatorVaultTicket.find_address program_id (key operator_info) (key vault) in
      if negb (key operator_vault_ticket =? pubkey) then throw ProgramError.InvalidArgument
      else
        let! operator := read Operator operator_info in
        if negb (Operator.vault_admin operator =? key operator_vault_admin)
        then throw ProgramError.InvalidAccountData
        else
        let! slot := get_slot in
        create_program_account payer operator_vault_ticket system_program program_id
          (seeds ++ [[bump]])
          (OperatorVaultTicket.new (key operator_info) (key vault)
             (Operator.vault_count operator) bump slot) ;!
        let! operator := lift (Operator.increment_vault_count operator) in
        write operator_info operator
  | _ => throw ProgramError.NotEnoughAccountKeys
  end.

(** *** Opting in and out: the toggles of a relation *)

Definition process_ncn_cooldown_operator (program_id : Pubkey) (accounts : list AccountInfo)
    : M unit :=
  match accounts with
  | [config_info; ncn_info; operator; ncn_operator_state; ncn_operator_admin] =>
      ask (RestakingConfig.load program_id config_info false) ;!
      ask (Ncn.load program_id ncn_info false) ;!
      ask (Operator.load program_id operator false) ;!
      ask (NcnOperatorState.load program_id ncn_operator_state ncn_info operator true) ;!
      lift (load_signer ncn_operator_admin false) ;!
      let! ncn := read Ncn ncn_info in
      if negb (Ncn.operator_admin ncn =? key ncn_operator_admin)
      then throw_restaking RestakingError.NcnOperatorAdminInvalid
      else
        let! config := read RestakingConfig config_info in
        let! state := read NcnOperatorState ncn_operator_state in
        let! slot := get_slot in
        let! toggle := lift (deactivate_or (NcnOperatorState.ncn_opt_in_state state) slot
            (RestakingConfig.epoch_length config) RestakingError.NcnCooldownOperatorFailed) in
        write ncn_operator_state state<|NcnOperatorState.ncn_opt_in_state := toggle|>
  | _ => throw ProgramError.NotEnoughAccountKeys
  end.

Definition process_ncn_warmup_operator (program_id : Pubkey) (accounts : list AccountInfo)
    : M unit :=
  match accounts with
  | [config_info; ncn_info; operator; ncn_operator_state; ncn_operator_admin] =>
      ask (RestakingConfig.load program_id config_info false) ;!
      ask (Ncn.load program_id ncn_info false) ;!
      ask (Operator.load program_id operator false) ;!
      ask (NcnOperatorState.load program_id ncn_operator_state ncn_info operator true) ;!
      lift (load_signer ncn_operator_admin false) ;!
      let! ncn := read Ncn ncn_info in
      if negb (Ncn.operator_admin ncn =? key ncn_operator_admin)
      then throw_restaking RestakingError.NcnOperatorAdminInvalid
      else
        let! config := read RestakingConfig config_info in
        let! state := read NcnOperatorState ncn_operator_state in
        let! slot := get_slot in
        let! toggle := lift (activate_or (NcnOperatorState.ncn_opt_in_state state) slot
            (RestakingConfig.epoch_length config) RestakingError.NcnWarmupOperatorFailed) in
        write ncn_operator_state state<|NcnOperatorState.ncn_opt_in_state := toggle|>
  | _ => throw ProgramError.NotEnoughAccountKeys
  end.

Definition process_operator_cooldown_ncn (program_id : Pubkey) (accounts : list AccountInfo)
    : M unit :=
  match accounts with
  | [config_info; ncn; operator_info; ncn_operator_state; operator_ncn_admin] =>
      ask (RestakingConfig.load program_id config_info false) ;!
      ask (Operator.load program_id operator_info false) ;!
      ask (Ncn.load program_id ncn false) ;!
      ask (NcnOperatorState.load program_id ncn_operator_state ncn operator_info true) ;!
      lift (load_signer operator_ncn_admin false) ;!
      let! operator := read Operator operator_info in
      if negb (Operator.ncn_admin operator =? key operator_ncn_admin)
      then throw_restaking RestakingError.OperatorNcnAdminInvalid
      else
        let! config := read RestakingConfig config_info in
        let! state := read NcnOperatorState ncn_operator_state in
        let! slot := get_slot in
        let! toggle := lift (deactivate_or (NcnOperatorState.operator_opt_in_state state) slot
            (RestakingConfig.epoch_length config) RestakingError.OperatorCooldownNcnFailed) in
        write ncn_operator_state state<|NcnOperatorState.operator_opt_in_state := toggle|>
  | _ => throw ProgramError.NotEnoughAccountKeys
  end.

Definition process_operator_warmup_ncn (program_id : Pubkey) (accounts : list AccountInfo)
    : M unit :=
  match accounts with
  | [config_info; ncn; operator_info; ncn_operator_state; operator_ncn_admin] =>
      ask (RestakingConfig.load program_id config_info false) ;!
      ask (Operator.load program_id operator_info false) ;!
      ask (Ncn.load program_id ncn false) ;!
      ask (NcnOperatorState.load program_id ncn_operator_state ncn operator_info true) ;!
      lift (load_signer operator_ncn_admin false) ;!
      let! operator := read Operator operator_info in
      if negb (Operator.ncn_admin operator =? key operator_ncn_admin)
      then throw_restaking RestakingError.OperatorNcnAdminInvalid
      else
        let! config := read RestakingConfig config_info in
        let! state := read NcnOperatorState ncn_operator_state in
        let! slot := get_slot in
        let! toggle := lift (activate_or (NcnOperatorState.operator_opt_in_state state) slot
            (RestakingConfig.epoch_length config) RestakingError.OperatorWarmupNcnFailed) in
        write ncn_operator_state state<|NcnOperatorState.operator_opt_in_state := toggle|>
  | _ => throw ProgramError.NotEnoughAccountKeys
  end.

Definition process_warmup_ncn_vault_slasher_ticket (program_id : Pubkey)
    (accounts : list AccountInfo) : M unit :=
  match accounts with
  | [config_info; ncn_info; vault; slasher; ncn_vault_ticket; ncn_vault_slasher_ticket; admin] =>
      ask (RestakingConfig.load program_id config_info false) ;!
      ask (Ncn.load program_id ncn_info false) ;!
      let! config := read RestakingConfig config_info in
      ask (Vault.load (RestakingConfig.vault_program config) vault false) ;!
      ask (NcnVaultTicket.load program_id ncn_vault_ticket ncn_info vault false) ;!
      ask (NcnVaultSlasherTicket.load program_id ncn_vault_slasher_ticket ncn_info vault slasher
             true) ;!
      lift (load_signer admin false) ;!
      let! ncn := read Ncn ncn_info in
      if negb (Ncn.slasher_admin ncn =? key admin)
      then throw_restaking RestakingError.NcnSlasherAdminInvalid
      else
        let! ticket := read NcnVaultSlasherTicket ncn_vault_slasher_ticket in
        let! slot := get_slot in
        let! toggle := lift (activate_or (NcnVaultSlasherTicket.state ticket) slot
            (RestakingConfig.epoch_length config)
            RestakingError.NcnVaultSlasherTicketFailedWarmup) in
        write ncn_vault_slasher_ticket ticket<|NcnVaultSlasherTicket.state := toggle|>
  | _ => throw ProgramError.NotEnoughAccountKeys
  end.

Definition process_cooldown_ncn_vault_slasher_ticket (program_id : Pubkey)
    (accounts : list AccountInfo) : M unit :=
  match accounts with
  | [config_info; ncn_info; vault; slasher; ncn_vault_slasher_ticket; ncn_slasher_admin] =>
      ask (RestakingConfig.load program_id config_info false) ;!
      ask (Ncn.load program_id ncn_info false) ;!
      let! config := read RestakingConfig config_info in
      ask (Vault.load (RestakingConfig.vault_program config) vault false) ;!
      ask (NcnVaultSlasherTicket.load program_id ncn_vault_slasher_ticket ncn_info vault slasher
             true) ;!
      lift (load_signer ncn_slasher_admin false) ;!
      let! ncn := read Ncn ncn_info in
      if negb (Ncn.slasher_admin ncn =? key ncn_slasher_admin)
      then throw_restaking RestakingError.NcnSlasherAdminInvalid
      else
        let! ticket := read NcnVaultSlasherTicket ncn_vault_slasher_ticket in
        let! slot := get_slot in
        let! toggle := lift (deactivate_or (NcnVaultSlasherTicket.state ticket) slot
            (RestakingConfig.epoch_length config)
            RestakingError.NcnVaultSlasherTicketFailedCooldown) in
        write ncn_vault_slasher_ticket ticket<|NcnVaultSlasherTicket.state := toggle|>
  | _ => throw ProgramError.NotEnoughAccountKeys
  end.

Definition process_warmup_ncn_vault_ticket (program_id : Pubkey) (accounts : list AccountInfo)
    : M unit :=
  match accounts with
  | [config_info; ncn_info; vault; ncn_vault_ticket; ncn_vault_admin] =>
      ask (RestakingConfig.load program_id config_info false) ;!
      ask (Ncn.load program_id ncn_info false) ;!
      let! config := read RestakingConfig config_info in
      ask (Vault.load (RestakingConfig.vault_program config) vault false) ;!
      ask (NcnVaultTicket.load program_id ncn_vault_ticket ncn_info vault true) ;!
      lift (load_signer ncn_vault_admin false) ;!
      let! ncn := read Ncn ncn_info in
      if negb (Ncn.vault_admin ncn =? key ncn_vault_admin)
      then throw_restaking RestakingError.NcnVaultAdminInvalid
      else
        let! ticket := read NcnVaultTicket ncn_vault_ticket in
        let! slot := get_slot in
        let! toggle := lift (activate_or (NcnVaultTicket.state ticket) slot
            (RestakingConfig.epoch_length config) RestakingError.NcnVaultTicketFailedWarmup) in
        write ncn_vault_ticket ticket<|NcnVaultTicket.state := toggle|>
  | _ => throw ProgramError.NotEnoughAccountKeys
  end.

Definition process_cooldown_ncn_vault_ticket (program_id : Pubkey) (accounts : list AccountInfo)
    : M unit :=
  match accounts with
  | [config_info; ncn_info; vault; ncn_vault_ticket; ncn_vault_admin] =>
      ask (RestakingConfig.load program_id config_info false) ;!
      ask (Ncn.load program_id ncn_info false) ;!
      ask (NcnVaultTicket.load program_id ncn_vault_ticket ncn_info vault true) ;!
      lift (load_signer ncn_vault_admin false) ;!
      let! ncn := read Ncn ncn_info in
      if negb (Ncn.vault_admin ncn =? key ncn_vault_admin)
      then throw_restaking RestakingError.NcnVaultAdminInvalid
      else
        let! config := read RestakingConfig config_info in
        let! ticket := read NcnVaultTicket ncn_vault_ticket in
        let! slot := get_slot in
        let! toggle := lift (deactivate_or (NcnVaultTicket.state ticket) slot
            (RestakingConfig.epoch_length config) RestakingError.NcnVaultTicketFailedCooldown) in
        write ncn_vault_ticket ticket<|NcnVaultTicket.state := toggle|>
  | _ => throw ProgramError.NotEnoughAccountKeys
  end.

Definition process_warmup_operator_vault_ticket (program_id : Pubkey)
    (accounts : list AccountInfo) : M unit :=
  match accounts with
  | [config_info; operator_info; vault; operator_vault_ticket; operator_vault_admin] =>
      ask (RestakingConfig.load program_id config_info false) ;!
      ask (Operator.load program_id operator_info false) ;!
      let! config := read RestakingConfig config_info in
      ask (Vault.load (RestakingConfig.vault_program config) vault false) ;!
      ask (OperatorVaultTicket.load program_id operator_vault_ticket operator_info vault true) ;!
      lift (load_signer operator_vault_admin false) ;!
      let! operator := read Operator operator_info in
      if negb (Operator.vault_admin operator =? key operator_vault_admin)
      then throw_restaking RestakingError.OperatorVaultAdminInvalid
      else
        let! ticket := read OperatorVaultTicket operator_vault_ticket in
        let! slot := get_slot in
        let! toggle := lift (activate_or (OperatorVaultTicket.state ticket) slot
            (RestakingConfig.epoch_length config)
            RestakingError.OperatorVaultTicketFailedWarmup) in
        write operator_vault_ticket ticket<|OperatorVaultTicket.state := toggle|>
  | _ => throw ProgramError.NotEnoughAccountKeys
  end.

Definition process_cooldown_operator_vault_ticket (program_id : Pubkey)
    (accounts : list AccountInfo) : M unit :=
  match accounts with
  | [config_info; operator_info; vault; operator_vault_ticket; operator_vault_admin] =>
      ask (RestakingConfig.load program_id config_info false) ;!
      ask (Operator.load program_id operator_info false) ;!
      let! config := read RestakingConfig config_info in
      ask (Vault.load (RestakingConfig.vault_program config) vault false) ;!
      ask (OperatorVaultTicket.load program_id operator_vault_ticket operator_info vault true) ;!
      lift (load_signer operator_vault_admin false) ;!
      let! operator := read Operator operator_info in
      if negb (Operator.vault_admin operator =? key operator_vault_admin)
      then throw_restaking RestakingError.OperatorVaultAdminInvalid
      else
        let! ticket := read OperatorVaultTicket operator_vault_ticket in
        let! slot := get_slot in
        let! toggle := lift (deactivate_or (OperatorVaultTicket.state ticket) slot
            (RestakingConfig.epoch_length config)
            RestakingError.OperatorVaultTicketFailedCooldown) in
        write operator_vault_ticket ticket<|OperatorVaultTicket.state := toggle|>
  | _ => throw ProgramError.NotEnoughAccountKeys
  end.

(** *** Admins, fees and token accounts *)

Definition process_ncn_set_admin (program_id : Pubkey) (accounts : list AccountInfo) : M unit :=
  match accounts with
  | [ncn_info; old_admin; new_admin] =>
      ask (Ncn.load program_id ncn_info true) ;!
      lift (load_signer old_admin false) ;!
      lift (load_signer new_admin false) ;!
      let! ncn := read Ncn ncn_info in
      if negb (Ncn.admin ncn =? key old_admin)
      then throw_restaking RestakingError.NcnAdminInvalid
      else
        write ncn_info (Ncn.update_secondary_admin ncn<|Ncn.admin := key new_admin|>
                          (key old_admin) (key new_admin))
  | _ => throw ProgramError.NotEnoughAccountKeys
  end.

Definition set_ncn_role (ncn : Ncn) (role : NcnAdminRole) (k : Pubkey) : Ncn :=
  match role with
  | NcnOperatorAdmin => ncn<|Ncn.operator_admin := k|>
  | NcnVaultAdmin => ncn<|Ncn.vault_admin := k|>
  | NcnSlasherAdmin => ncn<|Ncn.slasher_admin := k|>
  | NcnDelegateAdmin => ncn<|Ncn.delegate_admin := k|>
  | NcnMetadataAdmin => ncn<|Ncn.metadata_admin := k|>
  | NcnWeightTableAdmin => ncn<|Ncn.weight_table_admin := k|>
  | NcnNcnProgramAdmin => ncn<|Ncn.ncn_program_admin := k|>
  end.

Definition process_ncn_set_secondary_admin (program_id : Pubkey) (accounts : list AccountInfo)
    (role : NcnAdminRole) : M unit :=
  match accounts with
  | [ncn_info; admin; new_admin] =>
      ask (Ncn.load program_id ncn_info true) ;!
      lift (load_signer admin false) ;!
      let! ncn := read Ncn ncn_info in
      if negb (Ncn.admin ncn =? key admin)
      then throw_restaking RestakingError.NcnAdminInvalid
      else write ncn_info (set_ncn_role ncn role (key new_admin))
  | _ => throw ProgramError.NotEnoughAccountKeys
  end.

Definition process_set_node_operator_admin (program_id : Pubkey) (accounts : list AccountInfo)
    : M unit :=
  match accounts with
  | [operator_info; old_admin; new_admin] =>
      ask (Operator.load program_id operator_info true) ;!
      lift (load_signer old_admin false) ;!
      lift (load_signer new_admin false) ;!
      let! operator := read Operator operator_info in
      lift (Operator.check_admin operator (key old_admin)) ;!
      write operator_info (Operator.update_secondary_admin
                             operator<|Operator.admin := key new_admin|>
                             (key old_admin) (key new_admin))
  | _ => throw ProgramError.NotEnoughAccountKeys
  end.

Definition set_operator_role (operator : Operator) (role : OperatorAdminRole) (k : Pubkey)
    : Operator :=
  match role with
  | OperatorNcnAdmin => operator<|Operator.ncn_admin := k|>
  | OperatorVaultAdmin => operator<|Operator.vault_admin := k|>
  | OperatorVoterAdmin => operator<|Operator.voter := k|>
  | OperatorDelegateAdmin => operator<|Operator.delegate_admin := k|>
  | OperatorMetadataAdmin => operator<|Operator.metadata_admin := k|>
  end.

Definition process_set_operator_secondary_admin (program_id : Pubkey)
    (accounts : list AccountInfo) (role : OperatorAdminRole) : M unit :=
  match accounts with
  | [operator_info; admin; new_admin] =>
      ask (Operator.load program_id operator_info true) ;!
      lift (load_signer admin false) ;!
      let! operator := read Operator operator_info in
      if negb (Operator.admin operator =? key admin)
      then throw_restaking RestakingError.OperatorAdminInvalid
      else write operator_info (set_operator_role operator role (key new_admin))
  | _ => throw ProgramError.NotEnoughAccountKeys
  end.

Definition process_operator_set_fee (program_id : Pubkey) (accounts : list AccountInfo)
    (new_fee_bps : Z) : M unit :=
  match accounts with
  | [_config; operator_account; admin] =>
      ask (Operator.load program_id operator_account true) ;!
      lift (load_signer admin false) ;!
      let! operator := read Operator operator_account in
      lift (Operator.check_admin operator (key admin)) ;!
      if new_fee_bps >? MAX_FEE_BPS
      then throw_restaking RestakingError.OperatorFeeCapExceeded
      else write operator_account operator<|Operator.operator_fee_bps := new_fee_bps|>
  | _ => throw ProgramError.NotEnoughAccountKeys
  end.

Definition process_ncn_delegate_token_account (program_id : Pubkey)
    (accounts : list AccountInfo) : M unit :=
  match accounts with
  | [ncn_info; delegate_admin; token_mint; token_account; delegate; token_program_info] =>
      ask (Ncn.load program_id ncn_info false) ;!
      lift (load_signer delegate_admin false) ;!
      ask (load_token_mint token_mint) ;!
      ask (load_token_account token_account (key ncn_info) (key token_mint)
             token_program_info) ;!
      lift (load_token_program token_program_info) ;!
      ask (check_same_owner token_mint token_account) ;!
      let! ncn := read Ncn ncn_info in
      lift (Ncn.check_delegate_admin ncn (key delegate_admin)) ;!
      invoke_signed
        (token_approve (key token_program_info) (key token_account) (key delegate)
           (key ncn_info) U64_MAX)
        [token_program_info; token_account; delegate; ncn_info]
        [Ncn.seeds (Ncn.base ncn) ++ [[Ncn.bump ncn]]]
  | _ => throw ProgramError.NotEnoughAccountKeys
  end.

Definition process_operator_delegate_token_account (program_id : Pubkey)
    (accounts : list AccountInfo) : M unit :=
  match accounts with
  | [operator_info; delegate_admin; token_mint; token_account; delegate; token_program_info] =>
      ask (Operator.load program_id operator_info false) ;!
      lift (load_signer delegate_admin false) ;!
      ask (load_token_mint token_mint) ;!
      ask (load_token_account token_account (key operator_info) (key token_mint)
             token_program_info) ;!
      lift (load_token_program token_program_info) ;!
      ask (check_same_owner token_mint token_account) ;!
      let! operator := read Operator operator_info in
      lift (Operator.check_delegate_admin operator (key delegate_admin)) ;!
      invoke_signed
        (token_approve (key token_program_info) (key token_account) (key delegate)
           (key operator_info) U64_MAX)
        [token_program_info; token_account; delegate; operator_info]
        [Operator.seeds (Operator.base operator) ++ [[Operator.bump operator]]]
  | _ => throw ProgramError.NotEnoughAccountKeys
  end.

Definition process_set_restaking_config_admin (program_id : Pubkey)
    (accounts : list AccountInfo) : M unit :=
  match accounts with
  | [config_info; old_admin; new_admin] =>
      ask (RestakingConfig.load program_id config_info true) ;!
      let! config := read RestakingConfig config_info in
      lift (load_signer old_admin false) ;!
      if negb (RestakingConfig.admin config =? key old_admin)
      then throw_restaking RestakingError.ConfigAdminInvalid
      else write config_info (RestakingConfig.set_admin config (key new_admin))
  | _ => throw ProgramError.NotEnoughAccountKeys
  end.

(** ** Entry point ([lib.rs]) *)

Definition restaking_dispatch (program_id : Pubkey) (accounts : list AccountInfo)
    (instruction : RestakingInstruction) : M unit :=
  match instruction with
  | InitializeRestakingConfig => process_initialize_restaking_config program_id accounts
  | InitializeNcn => process_initialize_ncn program_id accounts
  | InitializeOperator operator_fee_bps =>
      process_initialize_operator program_id accounts operator_fee_bps
  | InitializeNcnVaultTicket => process_initialize_ncn_vault_ticket program_id accounts
  | InitializeNcnOperatorState => process_initialize_ncn_operator_state program_id accounts
  | InitializeNcnVaultSlasherTicket max_slashable_per_epoch =>
      process_initialize_ncn_vault_slasher_ticket program_id accounts max_slashable_per_epoch
  | InitializeOperatorVaultTicket =>
      process_initialize_operator_vault_ticket program_id accounts
  | WarmupNcnVaultTicket => process_warmup_ncn_vault_ticket program_id accounts
  | CooldownNcnVaultTicket => process_cooldown_ncn_vault_ticket program_id accounts
  | NcnWarmupOperator => process_ncn_warmup_operator program_id accounts
  | NcnCooldownOperator => process_ncn_cooldown_operator program_id accounts
  | WarmupNcnVaultSlasherTicket =>
      process_warmup_ncn_vault_slasher_ticket program_id accounts
  | CooldownNcnVaultSlasherTicket =>
      process_cooldown_ncn_vault_slasher_ticket program_id accounts
  | WarmupOperatorVaultTicket => process_warmup_operator_vault_ticket program_id accounts
  | CooldownOperatorVaultTicket => process_cooldown_operator_vault_ticket program_id accounts
  | OperatorWarmupNcn => process_operator_warmup_ncn program_id accounts
  | OperatorCooldownNcn => process_operator_cooldown_ncn program_id accounts
  | NcnSetAdmin => process_ncn_set_admin program_id accounts
  | NcnSetSecondaryAdmin role => process_ncn_set_secondary_admin program_id accounts role
  | OperatorSetAdmin => process_set_node_operator_admin program_id accounts
  | OperatorSetSecondaryAdmin role =>
      process_set_operator_secondary_admin program_id accounts role
  | OperatorSetFee new_fee_bps => process_operator_set_fee program_id accounts new_fee_bps
  | NcnDelegateTokenAccount => process_ncn_delegate_token_account program_id accounts
  | OperatorDelegateTokenAccount => process_operator_delegate_token_account program_id accounts
  | SetRestakingConfigAdmin => process_set_restaking_config_admin program_id accounts
  end.

(** [try_from_slice] is the Borsh decoder of the instruction. *)
Definition process_restaking_instruction
    (try_from_slice : list Z -> result ProgramError RestakingInstruction)
    (program_id : Pubkey) (accounts : list AccountInfo) (instruction_data : list Z) : M unit :=
  if negb (program_id =? RESTAKING_PROGRAM_ID) then throw ProgramError.IncorrectProgramId
  else
    let! instruction := lift (try_from_slice instruction_data) in
    restaking_dispatch program_id accounts instruction.

End RestakingHandlers.
