(* ===== verification/UpdateCycle.v ===== *)
(** * The update cycle of an epoch

    A vault starts an epoch with [begin_update], every operator is cranked
    once, in an order that depends on the epoch, and [finish_update] takes
    over the accumulated delegation state.  The cycle is a step relation on
    the vault, the tracker and the operators' delegations; the theorems say
    that the tracker admits exactly one visit per operator, that the cycle
    can always be completed, that the vault's state is then the sum of its
    operators' states, and that the withdrawals requested are covered by
    tokens that are not staked. *)

From stdpp Require Import base numbers list relations.
From Stdlib Require Import Lia.
From S2P Require Import Prelude Errors Pod DelegationState SlotToggle Runtime Program Core.
From S2P Require Import VaultConfig Vault VaultTickets VaultShares VaultInstruction.
From S2P Require Import VaultUpdateHandlers.
Local Open Scope Z_scope.

(** ** The cycle as a step relation *)

Record Cycle := mkCycle {
  cv : Vault;
  ct : VaultUpdateStateTracker;
  cops : list VaultOperatorDelegation;
}.

(** One [CrankVaultUpdateStateTracker] instruction in epoch [e]; operator [i]
    is the delegation with index [i]. *)
Inductive crank_step (el e : Z) (c : Cycle) : Cycle -> Prop :=
| crank_step_intro i slot o p v' o' t' :
    slot / el = e ->
    cops c !! i = Some o ->
    partially_updated (cv c) o el = Ok p ->
    crank_operator p slot el (cv c) o (ct c) = Ok (v', o', t') ->
    crank_step el e c (mkCycle v' t' (<[i := o']> (cops c))).

(** The operator's stake and its other buckets. *)
Definition ods (o : VaultOperatorDelegation) : DelegationState :=
  VaultOperatorDelegation.delegation_state o.

Definition updated_in (el e : Z) (o : VaultOperatorDelegation) : bool :=
  VaultOperatorDelegation.last_update_slot o / el =? e.

(** Not yet updated since the vault's last full update. *)
Definition pending (el : Z) (v : Vault) (o : VaultOperatorDelegation) : bool :=
  negb (Vault.last_full_state_update_slot v / el
          <? VaultOperatorDelegation.last_update_slot o / el).

Definition pending_stake (el : Z) (c : Cycle) : Z :=
  zsum (fun o => if pending el (cv c) o then DelegationState.staked_amount (ods o) else 0)
    (cops c).

Definition updated_sum (el e : Z) (f : DelegationState -> Z) (c : Cycle) : Z :=
  zsum (fun o => if updated_in el e o then f (ods o) else 0) (cops c).

(** The state of a vault whose tracker for epoch [e] was just created: no
    operator has been updated in the epoch, and what is still to be unstaked
    is staked with operators that have not given their share. *)
Record cycle_start (el e : Z) (c : Cycle) : Prop := {
  cs_el : 0 < el;
  cs_epoch : 0 <= e;
  cs_wf : Vault.wf (cv c);
  cs_count : Vault.operator_count (cv c) = Z.of_nat (length (cops c));
  cs_count_pos : 0 < Vault.operator_count (cv c) <= U64_MAX;
  cs_full : Vault.last_full_state_update_slot (cv c) / el < e;
  cs_tracker : exists k, ct c = VaultUpdateStateTracker.new k e 0;
  cs_ops i o : cops c !! i = Some o ->
    VaultOperatorDelegation.index o = Z.of_nat i /\ DelegationState.wf (ods o) /\
    VaultOperatorDelegation.last_update_slot o / el < e;
  cs_total : zsum (fun o => DelegationState.sum (ods o)) (cops c) <= U64_MAX;
  cs_assets : Vault.additional_assets_need_unstaking (cv c) <= pending_stake el c;
}.

(** The invariant after [k] steps. *)
Record cycle_inv (el e : Z) (c0 : Cycle) (k : Z) (c : Cycle) : Prop := {
  ci_vault : cv c = (cv c0)<|Vault.additional_assets_need_unstaking :=
                               Vault.additional_assets_need_unstaking (cv c)|>;
  ci_nonneg : 0 <= Vault.additional_assets_need_unstaking (cv c) <= U64_MAX;
  ci_length : length (cops c) = length (cops c0);
  ci_ops i o : cops c !! i = Some o ->
    VaultOperatorDelegation.index o = Z.of_nat i /\ DelegationState.wf (ods o) /\
    VaultOperatorDelegation.last_update_slot o / el <= e;
  ci_visited i o : cops c !! i = Some o ->
    updated_in el e o = ((Z.of_nat i - e) mod Vault.operator_count (cv c0) <? k);
  ci_steps : k = zsum (fun o => if updated_in el e o then 1 else 0) (cops c);
  ci_method : VaultUpdateStateTracker.withdrawal_allocation_method (ct c) = 0;
  ci_epoch : VaultUpdateStateTracker.ncn_epoch (ct c) = e;
  ci_index : VaultUpdateStateTracker.last_updated_index (ct c)
    = if k =? 0 then U64_MAX else (e + k - 1) mod Vault.operator_count (cv c0);
  ci_wf : DelegationState.wf (VaultUpdateStateTracker.delegation_state (ct c));
  ci_staked : DelegationState.staked_amount (VaultUpdateStateTracker.delegation_state (ct c))
    = updated_sum el e DelegationState.staked_amount c;
  ci_enqueued : DelegationState.enqueued_for_cooldown_amount
      (VaultUpdateStateTracker.delegation_state (ct c))
    = updated_sum el e DelegationState.enqueued_for_cooldown_amount c;
  ci_cooling : DelegationState.cooling_down_amount
      (VaultUpdateStateTracker.delegation_state (ct c))
    = updated_sum el e DelegationState.cooling_down_amount c;
  ci_total : zsum (fun o => DelegationState.sum (ods o)) (cops c) <= U64_MAX;
  ci_sum_le : zsum (fun o => DelegationState.sum (ods o)) (cops c)
    <= zsum (fun o => DelegationState.sum (ods o)) (cops c0);
  ci_assets : Vault.additional_assets_need_unstaking (cv c) <= pending_stake el c;
  ci_balance :
    zsum (fun o => DelegationState.staked_amount (ods o)) (cops c)
      - Vault.additional_assets_need_unstaking (cv c)
    = zsum (fun o => DelegationState.staked_amount (ods o)) (cops c0)
      - Vault.additional_assets_need_unstaking (cv c0);
}.

(** ** The operator's update *)

Lemma simulate_updates_iter n d :
  0 <= n -> Vault.simulate_updates n d = Nat.iter (Z.to_nat n) DelegationState.update d.
Proof.
  intros Hn. unfold Vault.simulate_updates.
  destruct (Z.eqb_spec n 0) as [->|H0]; [done|]. destruct (Z.eqb_spec n 1) as [->|H1]; [done|].
  replace (Z.to_nat n) with (2 + Z.to_nat (n - 2))%nat by lia.
  by rewrite update_fixpoint.
Qed.

Lemma iter_update_wf n d :
  DelegationState.wf d ->
  DelegationState.wf (Nat.iter n DelegationState.update d) /\
  DelegationState.staked_amount (Nat.iter n DelegationState.update d)
    = DelegationState.staked_amount d /\
  DelegationState.sum (Nat.iter n DelegationState.update d) <= DelegationState.sum d.
Proof.
  intros Hd. induction n as [|n (IH1 & IH2 & IH3)]; [done|]. simpl.
  pose proof (update_sum (Nat.iter n DelegationState.update d)).
  pose proof (update_wf _ IH1). unfold DelegationState.wf, is_u64 in *.
  split_and!; try lia.
Qed.

Lemma operator_update_Ok o slot el :
  0 < el -> VaultOperatorDelegation.last_update_slot o / el <= slot / el ->
  VaultOperatorDelegation.update o slot el
  = Ok o<|VaultOperatorDelegation.delegation_state :=
            Nat.iter (Z.to_nat (slot / el - VaultOperatorDelegation.last_update_slot o / el))
              DelegationState.update (ods o)|>
        <|VaultOperatorDelegation.last_update_slot := slot|>.
Proof.
  intros Hel Hle. unfold VaultOperatorDelegation.update. rewrite !get_epoch_Ok by done.
  cbn [qbind]. rewrite ok_or_checked_sub.
  destruct (Z.ltb_spec (slot / el) (VaultOperatorDelegation.last_update_slot o / el)); [lia|].
  cbn [qbind]. rewrite <- simulate_updates_iter by lia. done.
Qed.

(** ** The greedy allocation *)

Definition cooled (d : DelegationState) (amount : Z) : DelegationState :=
  d<|DelegationState.staked_amount := DelegationState.staked_amount d - amount|>
   <|DelegationState.enqueued_for_cooldown_amount :=
       DelegationState.enqueued_for_cooldown_amount d + amount|>.

(** What an operator gives. *)
Definition share_of (p : bool) (v : Vault) (o : VaultOperatorDelegation) : Z :=
  if p then 0
  else Z.min (DelegationState.staked_amount (ods o)) (Vault.additional_assets_need_unstaking v).

Lemma share_bounds p v o :
  Vault.wf v -> DelegationState.wf (ods o) ->
  0 <= share_of p v o <= DelegationState.staked_amount (ods o) /\
  share_of p v o <= Vault.additional_assets_need_unstaking v.
Proof. unfold Vault.wf, DelegationState.wf, is_u64, share_of. intros. destruct p; lia. Qed.

Lemma cooled_wf d n :
  DelegationState.wf d -> 0 <= n <= DelegationState.staked_amount d ->
  DelegationState.sum d <= U64_MAX ->
  DelegationState.wf (cooled d n) /\ DelegationState.sum (cooled d n) = DelegationState.sum d.
Proof. unfold DelegationState.wf, DelegationState.sum, is_u64. simpl. intros. lia. Qed.

Lemma greedy_cooldown_eq p v o :
  Vault.wf v -> DelegationState.wf (ods o) -> DelegationState.sum (ods o) <= U64_MAX ->
  greedy_cooldown p v o
  = Ok (v<|Vault.additional_assets_need_unstaking :=
             Vault.additional_assets_need_unstaking v - share_of p v o|>,
        o<|VaultOperatorDelegation.delegation_state := cooled (ods o) (share_of p v o)|>).
Proof.
  intros Hv Ho Hs. pose proof (share_bounds p v o Hv Ho) as Hb.
  unfold greedy_cooldown. fold (ods o).
  assert (share_of p v o = 0 -> Ok (E := VaultError) (v, o)
    = Ok (v<|Vault.additional_assets_need_unstaking :=
             Vault.additional_assets_need_unstaking v - share_of p v o|>,
        o<|VaultOperatorDelegation.delegation_state := cooled (ods o) (share_of p v o)|>)) as Hz.
  { intros ->. unfold cooled. rewrite !Z.sub_0_r, Z.add_0_r. destruct v, o as [? ? [] ? ? ? ?].
    done. }
  unfold Vault.wf, DelegationState.wf, DelegationState.sum, is_u64, share_of in *.
  destruct p; [by apply Hz|]. simpl.
  destruct (Z.gtb_spec (Vault.additional_assets_need_unstaking v) 0); [|apply Hz; lia].
  destruct (Z.gtb_spec (DelegationState.staked_amount (ods o)) 0); [|apply Hz; lia]. simpl.
  set (c := Z.min _ _) in *. unfold DelegationState.cooldown.
  destruct (Z.eqb_spec c 0); [lia|]. rewrite ok_or_checked_sub, ok_or_checked_add.
  rewrite (proj2 (Z.ltb_ge _ _)) by lia. cbn [qbind].
  rewrite (proj2 (Z.ltb_ge _ _)) by lia. cbn [qbind].
  unfold Vault.decrement_additional_assets_need_unstaking. rewrite ok_or_checked_sub.
  rewrite (proj2 (Z.ltb_ge _ _)) by lia. done.
Qed.

(** ** One crank *)

(** The operator after its crank. *)
Definition cranked (el slot : Z) (p : bool) (v : Vault) (o : VaultOperatorDelegation)
    : VaultOperatorDelegation :=
  o<|VaultOperatorDelegation.delegation_state :=
       Nat.iter (Z.to_nat (slot / el - VaultOperatorDelegation.last_update_slot o / el))
         DelegationState.update (cooled (ods o) (share_of p v o))|>
   <|VaultOperatorDelegation.last_update_slot := slot|>.

Lemma cranked_facts el slot p v o :
  Vault.wf v -> DelegationState.wf (ods o) -> DelegationState.sum (ods o) <= U64_MAX ->
  let o' := cranked el slot p v o in
  DelegationState.wf (ods o') /\
  DelegationState.staked_amount (ods o')
    = DelegationState.staked_amount (ods o) - share_of p v o /\
  DelegationState.sum (ods o') <= DelegationState.sum (ods o) /\
  VaultOperatorDelegation.index o' = VaultOperatorDelegation.index o /\
  VaultOperatorDelegation.last_update_slot o' = slot.
Proof.
  intros Hv Ho Hs. pose proof (share_bounds p v o Hv Ho) as Hb. simpl.
  destruct (cooled_wf (ods o) (share_of p v o) Ho ltac:(lia) Hs) as [Hw Hsum].
  destruct (iter_update_wf (Z.to_nat (slot / el - VaultOperatorDelegation.last_update_slot o / el))
              _ Hw) as (H1 & H2 & H3).
  unfold ods at 1 3 5 in |- *. simpl. rewrite Hsum in H3. done.
Qed.

Lemma crank_operator_eq p slot el v o t :
  0 < el -> Vault.wf v -> DelegationState.wf (ods o) -> DelegationState.sum (ods o) <= U64_MAX ->
  VaultUpdateStateTracker.withdrawal_allocation_method t = 0 ->
  VaultOperatorDelegation.last_update_slot o / el < slot / el ->
  crank_operator p slot el v o t
  = let? t := VaultUpdateStateTracker.check_and_update_index t (VaultOperatorDelegation.index o)
        (Vault.operator_count v) in
    let? d := DelegationState.accumulate (VaultUpdateStateTracker.delegation_state t)
        (ods (cranked el slot p v o)) in
    Ok (v<|Vault.additional_assets_need_unstaking :=
             Vault.additional_assets_need_unstaking v - share_of p v o|>,
        cranked el slot p v o, t<|VaultUpdateStateTracker.delegation_state := d|>).
Proof.
  intros Hel Hv Ho Hs Hm Hlt. unfold crank_operator, VaultOperatorDelegation.check_is_already_updated.
  rewrite !get_epoch_Ok by done. cbn [qbind].
  destruct (Z.geb_spec (VaultOperatorDelegation.last_update_slot o / el) (slot / el)); [lia|].
  cbn [qbind].
  destruct (VaultUpdateStateTracker.check_and_update_index t _ _) as [t1|] eqn:Et; [|done].
  cbn [qbind].
  assert (VaultUpdateStateTracker.withdrawal_allocation_method t1 = 0) as ->.
  { unfold VaultUpdateStateTracker.check_and_update_index in Et. inv_ok; done. }
  cbn [qbind withdrawal_allocation_method_try_from Z.eqb].
  rewrite greedy_cooldown_eq by done. unfold into. cbn [map_err qbind].
  rewrite operator_update_Ok by (simpl; lia). done.
Qed.

Lemma crank_already_updated p slot el v o t :
  0 < el -> slot / el <= VaultOperatorDelegation.last_update_slot o / el ->
  crank_operator p slot el v o t = VErr VaultError.VaultOperatorDelegationIsUpdated.
Proof.
  intros Hel Hle. unfold crank_operator, VaultOperatorDelegation.check_is_already_updated.
  rewrite !get_epoch_Ok by done. cbn [qbind].
  destruct (Z.geb_spec (VaultOperatorDelegation.last_update_slot o / el) (slot / el)); [done|lia].
Qed.

(** ** The tracker *)

Lemma mod_two_rounds x n : 0 < n -> 0 <= x < 2 * n -> x mod n = if x <? n then x else x - n.
Proof.
  intros Hn Hx. destruct (Z.ltb_spec x n); [apply Z.mod_small; lia|].
  rewrite <- (Z.mod_small (x - n) n) by lia. rewrite <- (Z.mod_add (x - n) 1 n) by lia.
  f_equal. lia.
Qed.

(** The operators visited after [k + 1] cranks are those visited after [k]
    and the one that was due. *)
Lemma visited_next e k j n :
  0 < n -> 0 <= j < n -> 0 <= k ->
  ((j - e) mod n <? k + 1) = ((j - e) mod n <? k) || (j =? (e + k) mod n).
Proof.
  intros Hn Hj Hk. destruct (Z.eqb_spec j ((e + k) mod n)) as [->|Hne].
  - rewrite Zminus_mod_idemp_l. replace (e + k - e) with k by lia. rewrite orb_true_r.
    apply Z.ltb_lt. pose proof (Z.mod_le k n Hk Hn). lia.
  - rewrite orb_false_r. destruct (Z.ltb_spec ((j - e) mod n) k); [apply Z.ltb_lt; lia|].
    apply Z.ltb_ge. destruct (Z.eq_dec ((j - e) mod n) k) as [E|]; [|lia].
    exfalso. apply Hne. rewrite <- E, Z.add_mod_idemp_r by lia.
    replace (e + (j - e)) with j by lia. by rewrite Z.mod_small.
Qed.

(** The position of the tracker after [k] visits in epoch [e]. *)
Definition tracker_at (e k n : Z) (t : VaultUpdateStateTracker) : Prop :=
  VaultUpdateStateTracker.ncn_epoch t = e /\
  VaultUpdateStateTracker.last_updated_index t
  = if k =? 0 then U64_MAX else (e + k - 1) mod n.

Lemma tracker_check e k n t index :
  0 < n <= U64_MAX -> 0 <= k -> tracker_at e k n t ->
  VaultUpdateStateTracker.check_and_update_index t index n
  = if index =? (e + k) mod n
    then Ok t<|VaultUpdateStateTracker.last_updated_index := index|>
    else Err VaultError.VaultUpdateIncorrectIndex.
Proof.
  intros Hn Hk [He Hi]. unfold VaultUpdateStateTracker.check_and_update_index. rewrite He, Hi.
  destruct (Z.eqb_spec k 0) as [->|Hk0].
  - rewrite Z.eqb_refl, Z.add_0_r. unfold checked_rem.
    destruct (Z.eqb_spec n 0); [lia|]. simpl. by destruct (index =? e mod n).
  - pose proof (Z.mod_pos_bound (e + k - 1) n ltac:(lia)) as Hb.
    destruct (Z.eqb_spec ((e + k - 1) mod n) U64_MAX); [lia|].
    unfold checked_add. rewrite (proj2 (Z.leb_le _ _)) by lia. simpl. unfold checked_rem.
    destruct (Z.eqb_spec n 0); [lia|]. simpl.
    rewrite Z.add_mod_idemp_l by lia. replace (e + k - 1 + 1) with (e + k) by lia.
    by destruct (index =? (e + k) mod n).
Qed.

Lemma tracker_done e k n t :
  0 < n <= U64_MAX -> 0 <= e -> 0 <= k <= n -> tracker_at e k n t ->
  VaultUpdateStateTracker.all_operators_updated t n = Ok (k =? n).
Proof.
  intros Hn He0 Hk [He Hi]. unfold VaultUpdateStateTracker.all_operators_updated.
  rewrite He, Hi. destruct (Z.eqb_spec k 0) as [->|Hk0].
  { rewrite Z.eqb_refl. destruct (Z.eqb_spec 0 n); [lia|done]. }
  pose proof (Z.mod_pos_bound (e + k - 1) n ltac:(lia)) as Hb.
  destruct (Z.eqb_spec ((e + k - 1) mod n) U64_MAX); [lia|].
  unfold checked_rem. destruct (Z.eqb_spec n 0); [lia|]. cbn [ok_or qbind].
  pose proof (Z.mod_pos_bound e n ltac:(lia)) as Hs.
  assert ((e + k - 1) mod n = (e mod n + k - 1) mod n) as ->.
  { replace (e + k - 1) with (e + (k - 1)) by lia.
    replace (e mod n + k - 1) with (e mod n + (k - 1)) by lia. by rewrite Z.add_mod_idemp_l by lia. }
  rewrite (mod_two_rounds (e mod n + k - 1) n) by lia.
  destruct (Z.eqb_spec (e mod n) 0) as [E|E].
  - rewrite ok_or_checked_sub, (proj2 (Z.ltb_ge _ _)) by lia. cbn [qbind]. f_equal. rewrite E.
    destruct (Z.ltb_spec (0 + k - 1) n), (Z.eqb_spec k n); try lia; apply Z.eqb_eq || apply Z.eqb_neq; lia.
  - rewrite ok_or_checked_sub, (proj2 (Z.ltb_ge _ _)) by lia. cbn [qbind]. f_equal.
    destruct (Z.ltb_spec (e mod n + k - 1) n), (Z.eqb_spec k n); try lia;
      apply Z.eqb_eq || apply Z.eqb_neq; lia.
Qed.

(** ** The invariant *)

Lemma cycle_start_inv el e c : cycle_start el e c -> cycle_inv el e c 0 c.
Proof.
  intros [Hel He Hwf Hn Hpos Hfull [key Ht] Hops Htot Ha].
  assert (forall (g : VaultOperatorDelegation -> Z),
    zsum (fun o => if updated_in el e o then g o else 0) (cops c) = 0) as Hz.
  { intros g. rewrite (zsum_ext _ (fun _ => 0)); [by rewrite zsum_const|].
    apply Forall_lookup. intros i o Ho. apply Hops in Ho as (_ & _ & Hl). unfold updated_in.
    destruct (Z.eqb_spec (VaultOperatorDelegation.last_update_slot o / el) e); [lia|done]. }
  constructor; unfold updated_sum; rewrite ?Hz, ?Ht; try done.
  - by destruct (cv c).
  - unfold Vault.wf, is_u64 in Hwf. lia.
  - intros i o Ho. destruct (Hops i o Ho) as (? & ? & ?). split_and!; try done. lia.
  - intros i o Ho. destruct (Hops i o Ho) as (_ & _ & Hl). unfold updated_in.
    pose proof (Z.mod_pos_bound (Z.of_nat i - e) (Vault.operator_count (cv c)) ltac:(lia)).
    by rewrite (proj2 (Z.eqb_neq _ _)), (proj2 (Z.ltb_ge _ _)) by lia.
Qed.

Lemma cycle_inv_wf el e c0 k c : cycle_start el e c0 -> cycle_inv el e c0 k c -> Vault.wf (cv c).
Proof.
  intros Hs Hi. pose proof (cs_wf _ _ _ Hs) as Hwf. pose proof (ci_nonneg _ _ _ _ _ Hi) as Hn.
  rewrite (ci_vault _ _ _ _ _ Hi). unfold Vault.wf, is_u64 in *. simpl. intuition lia.
Qed.

Lemma operator_sum_nonneg el e c0 k c :
  cycle_inv el e c0 k c -> Forall (fun o => 0 <= DelegationState.sum (ods o)) (cops c).
Proof.
  intros Hi. apply Forall_lookup. intros i o Ho.
  destruct (ci_ops _ _ _ _ _ Hi _ _ Ho) as (_ & Hw & _).
  unfold DelegationState.wf, DelegationState.sum, is_u64 in *. lia.
Qed.

Lemma updated_sum_insert el e (g : VaultOperatorDelegation -> Z) l i o o' :
  l !! i = Some o -> updated_in el e o = false -> updated_in el e o' = true ->
  zsum (fun o => if updated_in el e o then g o else 0) (<[i := o']> l)
  = zsum (fun o => if updated_in el e o then g o else 0) l + g o'.
Proof. intros Hl H1 H2. rewrite (zsum_insert _ _ _ _ _ Hl), H1, H2. lia. Qed.

(** What a step did: the operator that was due, its crank, and the
    accumulated state. *)
Lemma crank_step_inv el e c0 k c c' :
  cycle_start el e c0 -> cycle_inv el e c0 k c -> crank_step el e c c' ->
  exists i slot o p d,
    slot / el = e /\ cops c !! i = Some o /\
    VaultOperatorDelegation.last_update_slot o / el < e /\
    Z.of_nat i = (e + k) mod Vault.operator_count (cv c0) /\
    p = negb (pending el (cv c) o) /\
    DelegationState.accumulate (VaultUpdateStateTracker.delegation_state (ct c))
      (ods (cranked el slot p (cv c) o)) = Ok d /\
    c' = mkCycle
      ((cv c)<|Vault.additional_assets_need_unstaking :=
                 Vault.additional_assets_need_unstaking (cv c) - share_of p (cv c) o|>)
      ((ct c)<|VaultUpdateStateTracker.last_updated_index := Z.of_nat i|>
             <|VaultUpdateStateTracker.delegation_state := d|>)
      (<[i := cranked el slot p (cv c) o]> (cops c)).
Proof.
  intros Hs Hi Hstep. pose proof (cycle_inv_wf _ _ _ _ _ Hs Hi) as Hwf.
  destruct Hs as [Hel He _ Hn Hpos _ _ _ _ _].
  destruct Hstep as [i slot o p v' o' t' Hslot Ho Hp Hcrank].
  destruct (ci_ops _ _ _ _ _ Hi _ _ Ho) as (Hidx & Hwo & Hle).
  pose proof (zsum_lookup_le _ _ _ _ (operator_sum_nonneg _ _ _ _ _ Hi) Ho) as Hsum.
  pose proof (ci_total _ _ _ _ _ Hi) as Htot. simpl in Hsum.
  unfold partially_updated in Hp. rewrite !get_epoch_Ok in Hp by done. cbn [qbind] in Hp.
  assert (p = negb (pending el (cv c) o)) as Hpp.
  { unfold pending. rewrite negb_involutive. by injection Hp. }
  destruct (Z.lt_ge_cases (VaultOperatorDelegation.last_update_slot o / el) e) as [Hlt|Hge].
  2: { rewrite crank_already_updated in Hcrank by (done || lia). done. }
  rewrite crank_operator_eq in Hcrank
    by (done || lia || apply (ci_method _ _ _ _ _ Hi)).
  assert (Vault.operator_count (cv c) = Vault.operator_count (cv c0)) as Hcount
    by (by rewrite (ci_vault _ _ _ _ _ Hi)).
  pose proof (ci_steps _ _ _ _ _ Hi) as Hk.
  destruct (zsum_indicator (updated_in el e) (cops c)) as [Hkb _].
  rewrite Hcount, (tracker_check e k) in Hcrank
    by first [done | lia | split; [apply (ci_epoch _ _ _ _ _ Hi)|apply (ci_index _ _ _ _ _ Hi)]].
  destruct (Z.eqb_spec (VaultOperatorDelegation.index o)
              ((e + k) mod Vault.operator_count (cv c0))) as [Hi'|]; [|done].
  cbn [qbind] in Hcrank.
  destruct (DelegationState.accumulate _ _) as [d|] eqn:Ed; [|done]. cbn [qbind] in Hcrank.
  injection Hcrank as <- <- <-. exists i, slot, o, p, d. rewrite Hidx in *. split_and!; done.
Qed.

(** The tracker's sums stay within 64 bits. *)
Lemma updated_sum_le el e c0 k c f :
  cycle_inv el e c0 k c ->
  (forall d, DelegationState.wf d -> 0 <= f d <= DelegationState.sum d) ->
  0 <= updated_sum el e f c <= U64_MAX.
Proof.
  intros Hi Hf. pose proof (ci_total _ _ _ _ _ Hi) as Ht. unfold updated_sum.
  assert (Forall (fun o => 0 <= (if updated_in el e o then f (ods o) else 0)
                            <= DelegationState.sum (ods o)) (cops c)) as HF.
  { apply Forall_lookup. intros i o Ho. destruct (ci_ops _ _ _ _ _ Hi _ _ Ho) as (_ & Hw & _).
    pose proof (Hf _ Hw). destruct (updated_in el e o); lia. }
  split; [apply zsum_nonneg|etrans; [apply zsum_le|exact Ht]];
    eapply Forall_impl; try exact HF; simpl; lia.
Qed.

Lemma pending_lookup el e c0 k c i o :
  cycle_inv el e c0 k c -> cops c !! i = Some o ->
  (if pending el (cv c) o then DelegationState.staked_amount (ods o) else 0)
  <= pending_stake el c.
Proof.
  intros Hi Ho. unfold pending_stake.
  apply (zsum_lookup_le (fun o => if pending el (cv c) o
    then DelegationState.staked_amount (ods o) else 0) _ i); [|done].
  apply Forall_lookup. intros j oj Hj. destruct (ci_ops _ _ _ _ _ Hi _ _ Hj) as (_ & Hw & _).
  unfold DelegationState.wf, is_u64 in Hw. destruct (pending el (cv c) oj); lia.
Qed.

Lemma crank_step_preserves el e c0 k c c' :
  cycle_start el e c0 -> cycle_inv el e c0 k c -> crank_step el e c c' ->
  cycle_inv el e c0 (k + 1) c'.
Proof.
  intros Hs Hi Hstep. pose proof (cycle_inv_wf _ _ _ _ _ Hs Hi) as Hwf.
  destruct (crank_step_inv _ _ _ _ _ _ Hs Hi Hstep)
    as (i & slot & o & p & d & Hslot & Ho & Hlt & Hidx & Hp & Hd & ->).
  destruct (ci_ops _ _ _ _ _ Hi _ _ Ho) as (Hio & Hwo & _).
  pose proof (zsum_lookup_le _ _ _ _ (operator_sum_nonneg _ _ _ _ _ Hi) Ho) as Hsum.
  simpl in Hsum. pose proof (ci_total _ _ _ _ _ Hi) as Htot.
  destruct (cranked_facts el slot p (cv c) o Hwf Hwo ltac:(lia)) as (Hw' & Hst & Hsm & Hi' & Hl').
  pose proof (share_bounds p (cv c) o Hwf Hwo) as Hb.
  set (o' := cranked el slot p (cv c) o) in *.
  assert (updated_in el e o = false) as Hu by (apply Z.eqb_neq; lia).
  assert (updated_in el e o' = true) as Hu' by (apply Z.eqb_eq; rewrite Hl'; done).
  apply accumulate_Ok in Hd as (Hwd & _ & _ & Hd1 & Hd2 & Hd3); [|apply (ci_wf _ _ _ _ _ Hi)|done].
  pose proof (cs_full _ _ _ Hs) as Hfull.
  assert (Vault.last_full_state_update_slot (cv c) = Vault.last_full_state_update_slot (cv c0))
    as Hlf by (by rewrite (ci_vault _ _ _ _ _ Hi)).
  assert (pending el (cv c) o' = false) as Hpend.
  { unfold pending. rewrite Hl', Hslot, Hlf. by rewrite (proj2 (Z.ltb_lt _ _)). }
  destruct (zsum_indicator (updated_in el e) (cops c)) as [Hkb _].
  pose proof (ci_steps _ _ _ _ _ Hi) as Hk.
  constructor; simpl.
  - rewrite (ci_vault _ _ _ _ _ Hi). done.
  - pose proof (ci_nonneg _ _ _ _ _ Hi). lia.
  - rewrite length_insert. apply (ci_length _ _ _ _ _ Hi).
  - intros j oj Hj. apply list_lookup_insert_Some in Hj as [(<- & <- & _)|[_ Hj]].
    + rewrite Hi', Hl'. split_and!; [done|done|lia].
    + apply (ci_ops _ _ _ _ _ Hi _ _ Hj).
  - intros j oj Hj. rewrite (cs_count _ _ _ Hs), <- (ci_length _ _ _ _ _ Hi) in *.
    assert (j < length (cops c))%nat as Hjl.
    { apply lookup_lt_Some in Hj. by rewrite length_insert in Hj. }
    pose proof (visited_next e k (Z.of_nat j) (Z.of_nat (length (cops c))) ltac:(lia) ltac:(lia))
      as Hv.
    apply list_lookup_insert_Some in Hj as [(<- & <- & _)|[Hne Hj]].
    + rewrite Hu', Hv, Hidx, Z.eqb_refl by lia. by rewrite orb_true_r.
    + rewrite (ci_visited _ _ _ _ _ Hi _ _ Hj), Hv by lia.
      rewrite (cs_count _ _ _ Hs), <- (ci_length _ _ _ _ _ Hi), <- Hidx.
      rewrite (proj2 (Z.eqb_neq (Z.of_nat j) (Z.of_nat i))) by lia. by rewrite orb_false_r.
  - rewrite (updated_sum_insert el e (fun _ => 1) _ _ _ _ Ho Hu Hu'). lia.
  - apply (ci_method _ _ _ _ _ Hi).
  - apply (ci_epoch _ _ _ _ _ Hi).
  - destruct (Z.eqb_spec (k + 1) 0); [lia|]. rewrite Hidx. f_equal. lia.
  - done.
  - rewrite Hd1, (ci_staked _ _ _ _ _ Hi). symmetry.
    apply (updated_sum_insert el e (fun o => DelegationState.staked_amount (ods o)) _ _ _ _ Ho Hu Hu').
  - rewrite Hd2, (ci_enqueued _ _ _ _ _ Hi). symmetry.
    apply (updated_sum_insert el e (fun o => DelegationState.enqueued_for_cooldown_amount (ods o))
             _ _ _ _ Ho Hu Hu').
  - rewrite Hd3, (ci_cooling _ _ _ _ _ Hi). symmetry.
    apply (updated_sum_insert el e (fun o => DelegationState.cooling_down_amount (ods o))
             _ _ _ _ Ho Hu Hu').
  - rewrite (zsum_insert _ _ _ _ _ Ho). lia.
  - rewrite (zsum_insert _ _ _ _ _ Ho). pose proof (ci_sum_le _ _ _ _ _ Hi). lia.
  - pose proof (ci_assets _ _ _ _ _ Hi) as Ha. unfold pending_stake in *. cbn [cv cops].
    pose proof (pending_lookup _ _ _ _ _ _ _ Hi Ho) as Hpl. unfold pending_stake in Hpl.
    rewrite (zsum_insert _ _ _ _ _ Ho).
    change (pending el (_<|_ := _|>)) with (pending el (cv c)). rewrite Hpend.
    unfold share_of in *. rewrite Hp in *. destruct (pending el (cv c) o); simpl in *; lia.
  - rewrite (zsum_insert _ _ _ _ _ Ho), Hst. pose proof (ci_balance _ _ _ _ _ Hi). lia.
Qed.

Lemma crank_steps_inv el e c0 k c :
  cycle_start el e c0 -> nsteps (crank_step el e) k c0 c -> cycle_inv el e c0 (Z.of_nat k) c.
Proof.
  intros Hs Hn. revert c Hn. induction k as [|k IH]; intros c Hn.
  - inversion Hn; subst. by apply cycle_start_inv.
  - apply nsteps_inv_r in Hn as (c1 & Hn & Hstep).
    replace (Z.of_nat (S k)) with (Z.of_nat k + 1) by lia.
    eapply crank_step_preserves; eauto.
Qed.

Lemma cycle_inv_tracker_at el e c0 k c :
  cycle_inv el e c0 k c -> tracker_at e k (Vault.operator_count (cv c0)) (ct c).
Proof. intros Hi. split; [apply (ci_epoch _ _ _ _ _ Hi)|apply (ci_index _ _ _ _ _ Hi)]. Qed.

Lemma cycle_inv_bound el e c0 k c :
  cycle_start el e c0 -> cycle_inv el e c0 k c -> 0 <= k <= Vault.operator_count (cv c0).
Proof.
  intros Hs Hi. destruct (zsum_indicator (updated_in el e) (cops c)) as [Hb _].
  rewrite (cs_count _ _ _ Hs), <- (ci_length _ _ _ _ _ Hi), (ci_steps _ _ _ _ _ Hi). done.
Qed.

Lemma cycle_inv_full el e c0 c :
  cycle_start el e c0 -> cycle_inv el e c0 (Vault.operator_count (cv c0)) c ->
  Forall (fun o => updated_in el e o = true) (cops c).
Proof.
  intros Hs Hi. apply zsum_indicator. rewrite <- (ci_steps _ _ _ _ _ Hi), (ci_length _ _ _ _ _ Hi).
  apply (cs_count _ _ _ Hs).
Qed.

(** At the end the sums range over all operators and nothing is left to
    unstake. *)
Lemma cycle_inv_end el e c0 c :
  cycle_start el e c0 -> cycle_inv el e c0 (Vault.operator_count (cv c0)) c ->
  (forall f, updated_sum el e f c = zsum (fun o => f (ods o)) (cops c)) /\
  Vault.additional_assets_need_unstaking (cv c) = 0.
Proof.
  intros Hs Hi. pose proof (cycle_inv_full _ _ _ _ Hs Hi) as Hall. split.
  - intros f. apply zsum_ext. eapply Forall_impl; [exact Hall|]. by intros o ->.
  - pose proof (ci_assets _ _ _ _ _ Hi) as Ha. pose proof (ci_nonneg _ _ _ _ _ Hi) as Hn.
    enough (pending_stake el c = 0) by lia. unfold pending_stake.
    rewrite (zsum_ext _ (fun _ => 0)); [by rewrite zsum_const|].
    eapply Forall_impl; [exact Hall|]. intros o Hu. apply Z.eqb_eq in Hu. unfold pending.
    rewrite (ci_vault _ _ _ _ _ Hi). simpl. rewrite Hu.
    pose proof (cs_full _ _ _ Hs). by rewrite (proj2 (Z.ltb_lt _ _)).
Qed.

(** The accumulated sums leave room for an operator that is still due. *)
Lemma updated_sum_room el e c0 k c i o o' f :
  cycle_inv el e c0 k c -> cops c !! i = Some o -> updated_in el e o = false ->
  DelegationState.wf (ods o') -> DelegationState.sum (ods o') <= DelegationState.sum (ods o) ->
  (forall d, DelegationState.wf d -> 0 <= f d <= DelegationState.sum d) ->
  updated_sum el e f c + f (ods o') <= U64_MAX.
Proof.
  intros Hi Ho Hu Hw' Hsm Hf. pose proof (ci_total _ _ _ _ _ Hi) as Htot.
  assert (updated_sum el e f c + f (ods o')
          <= zsum (fun o => DelegationState.sum (ods o)) (<[i := o']> (cops c))) as H1.
  { trans (zsum (fun o => if updated_in el e o then f (ods o) else 0) (cops c)
           - (if updated_in el e o then f (ods o) else 0) + f (ods o')).
    { rewrite Hu. unfold updated_sum. lia. }
    revert i Ho. assert (Forall (fun o => DelegationState.wf (ods o)) (cops c)) as Hall.
    { apply Forall_lookup. intros j oj Hj. apply (ci_ops _ _ _ _ _ Hi _ _ Hj). }
    clear -Hall Hf Hw'. induction Hall as [|x l Hx Hl IH]; intros [|i] Ho; simplify_eq/=.
    - pose proof (Hf _ Hw'). pose proof (zsum_le (fun o => if updated_in el e o then f (ods o) else 0)
        (fun o => DelegationState.sum (ods o)) l) as Hle.
      enough (zsum (fun o => if updated_in el e o then f (ods o) else 0) l
              <= zsum (fun o => DelegationState.sum (ods o)) l) by lia.
      apply Hle. eapply Forall_impl; [exact Hl|]. intros y Hy. pose proof (Hf _ Hy).
      destruct (updated_in el e y); lia.
    - specialize (IH _ Ho). pose proof (Hf _ Hx). destruct (updated_in el e x); lia. }
  rewrite (zsum_insert _ _ _ _ _ Ho) in H1. lia.
Qed.

Lemma parts_le_sum d :
  DelegationState.wf d ->
  0 <= DelegationState.staked_amount d <= DelegationState.sum d /\
  0 <= DelegationState.enqueued_for_cooldown_amount d <= DelegationState.sum d /\
  0 <= DelegationState.cooling_down_amount d <= DelegationState.sum d.
Proof. unfold DelegationState.wf, DelegationState.sum, is_u64. lia. Qed.

(** The crank of the operator that is due succeeds. *)
Lemma crank_due_Ok el e c0 k c i o slot :
  cycle_start el e c0 -> cycle_inv el e c0 k c -> slot / el = e ->
  cops c !! i = Some o -> updated_in el e o = false ->
  Z.of_nat i = (e + k) mod Vault.operator_count (cv c0) ->
  exists v' o' t', crank_operator (negb (pending el (cv c) o)) slot el (cv c) o (ct c)
                   = Ok (v', o', t').
Proof.
  intros Hs Hi Hslot Ho Hu Hidx. pose proof (cycle_inv_wf _ _ _ _ _ Hs Hi) as Hwf.
  pose proof (cycle_inv_bound _ _ _ _ _ Hs Hi) as Hk.
  destruct (ci_ops _ _ _ _ _ Hi _ _ Ho) as (Hio & Hwo & Hle).
  pose proof (proj1 (Z.eqb_neq _ _) Hu) as Hu'.
  pose proof (zsum_lookup_le _ _ _ _ (operator_sum_nonneg _ _ _ _ _ Hi) Ho) as Hsum.
  pose proof (ci_total _ _ _ _ _ Hi) as Htot. simpl in Hsum.
  rewrite crank_operator_eq
    by first [done | lia | apply (cs_el _ _ _ Hs) | apply (ci_method _ _ _ _ _ Hi)].
  replace (Vault.operator_count (cv c)) with (Vault.operator_count (cv c0))
    by (by rewrite (ci_vault _ _ _ _ _ Hi)).
  rewrite (tracker_check e k)
    by first [apply (cs_count_pos _ _ _ Hs) | lia | by eapply cycle_inv_tracker_at].
  rewrite Hio, Hidx, Z.eqb_refl. cbn [qbind VaultUpdateStateTracker.delegation_state].
  set (p := negb (pending el (cv c) o)).
  destruct (cranked_facts el slot p (cv c) o Hwf Hwo ltac:(lia)) as (Hw' & _ & Hsm & _ & _).
  set (o' := cranked el slot p (cv c) o) in *. clearbody o'.
  unfold DelegationState.accumulate. simpl.
  rewrite (ci_staked _ _ _ _ _ Hi), (ci_enqueued _ _ _ _ _ Hi), (ci_cooling _ _ _ _ _ Hi).
  rewrite !ok_or_checked_add.
  rewrite !(proj2 (Z.ltb_ge _ _))
    by (eapply updated_sum_room; eauto; intros d Hd; apply (parts_le_sum d Hd)).
  simpl. eauto.
Qed.

(** ** Shares on their way out *)

Definition vrt_reserve (v : Vault) : Z :=
  Vault.vrt_enqueued_for_cooldown_amount v + Vault.vrt_cooling_down_amount v
  + Vault.vrt_ready_to_claim_amount v.

(** One epoch: cooling shares become claimable, enqueued shares cool down. *)
Definition shifted (v : Vault) : Vault :=
  v<|Vault.vrt_ready_to_claim_amount :=
       Vault.vrt_ready_to_claim_amount v + Vault.vrt_cooling_down_amount v|>
   <|Vault.vrt_cooling_down_amount := Vault.vrt_enqueued_for_cooldown_amount v|>
   <|Vault.vrt_enqueued_for_cooldown_amount := 0|>.

Lemma shifted_wf v :
  Vault.wf v -> vrt_reserve v <= U64_MAX ->
  Vault.wf (shifted v) /\ vrt_reserve (shifted v) = vrt_reserve v.
Proof. unfold Vault.wf, vrt_reserve, is_u64. simpl. intros. split; [intuition lia|lia]. Qed.

Lemma shift_vrt_loop_eq n v :
  Vault.wf v -> vrt_reserve v <= U64_MAX ->
  shift_vrt_loop n v = Ok (Nat.iter n shifted v) /\
  Vault.wf (Nat.iter n shifted v) /\ vrt_reserve (Nat.iter n shifted v) = vrt_reserve v.
Proof.
  revert v. induction n as [|n IH]; intros v Hwf Hr; [done|].
  destruct (shifted_wf v Hwf Hr) as [Hwf' Hr']. rewrite Nat.iter_succ_r. simpl.
  unfold shift_vrt, Vault.increment_vrt_ready_to_claim_amount. rewrite ok_or_checked_add.
  rewrite (proj2 (Z.ltb_ge _ _)) by (unfold vrt_reserve, Vault.wf, is_u64 in *; lia).
  cbn [qbind]. rewrite <- Hr'. apply IH; [done|lia].
Qed.

Lemma shifted_twice n v :
  Nat.iter (2 + n) shifted v
  = v<|Vault.vrt_ready_to_claim_amount := vrt_reserve v|>
     <|Vault.vrt_cooling_down_amount := 0|><|Vault.vrt_enqueued_for_cooldown_amount := 0|>.
Proof.
  destruct v. induction n as [|n IH].
  - cbv -[Z.add]. f_equal. lia.
  - change (2 + S n)%nat with (S (2 + n)). rewrite Nat.iter_succ, IH.
    cbv -[Z.add]. f_equal; lia.
Qed.

Lemma shifted_min d v :
  1 <= d -> Nat.iter (Z.to_nat (Z.min d 2)) shifted v = Nat.iter (Z.to_nat d) shifted v.
Proof.
  intros Hd. destruct (Z.eq_dec d 1) as [->|]; [done|].
  replace (Z.to_nat (Z.min d 2)) with (2 + 0)%nat by lia.
  replace (Z.to_nat d) with (2 + Z.to_nat (d - 2))%nat by lia. by rewrite !shifted_twice.
Qed.

(** ** The start of an update *)

Lemma requested_bounds v req :
  Vault.wf v -> vrt_reserve v <= Vault.vrt_supply v ->
  Vault.calculate_supported_assets_requested_for_withdrawal v = Ok req ->
  0 <= req <= Vault.tokens_deposited v.
Proof.
  intros Hwf Hr H. unfold Vault.calculate_supported_assets_requested_for_withdrawal in H.
  destruct (Z.eqb_spec (Vault.vrt_supply v) 0) as [|Hs].
  { injection H as <-. unfold Vault.wf, is_u64 in Hwf. lia. }
  inv_ok. unfold vrt_reserve in Hr.
  set (n := Vault.vrt_enqueued_for_cooldown_amount v + Vault.vrt_cooling_down_amount v
            + Vault.vrt_ready_to_claim_amount v) in *.
  assert (is_u64 n) as Hn by (unfold Vault.wf, is_u64 in *; subst n; lia).
  rewrite calculate_burn_summary_ref in * by done. inv_ok. simpl.
  pose proof (burned_bounds v false false n Hwf ltac:(unfold is_u64 in Hn; lia)) as (_ & _ & Hb).
  unfold out_ref, Vault.wf, is_u64 in *. split; [apply Z.div_pos; nia|].
  apply Z.div_le_upper_bound; nia.
Qed.

Lemma additional_assets_Ok v slot el n :
  Vault.wf v -> 0 < el ->
  Vault.calculate_additional_supported_assets_needed_to_unstake v slot el = Ok n ->
  exists req, Vault.calculate_supported_assets_requested_for_withdrawal v = Ok req /\
    Vault.last_full_state_update_slot v / el <= slot / el /\
    n = Z.max 0 (req - (Vault.tokens_deposited v
                        - DelegationState.staked_amount (Vault.delegation_state v))).
Proof.
  intros Hwf Hel H. unfold Vault.calculate_additional_supported_assets_needed_to_unstake in H.
  rewrite !get_epoch_Ok in H by done. inv_ok. exists r. split; [done|].
  rewrite simulate_updates_iter in * by lia.
  destruct (iter_update_wf (Z.to_nat (slot / el - Vault.last_full_state_update_slot v / el))
              (Vault.delegation_state v)) as (Hw & Hst & _).
  { by destruct Hwf as (_ & _ & _ & Hd & _). }
  apply total_security_Ok in Hr1 as [-> _]; [|done].
  unfold saturating_sub, DelegationState.sum in *. split; lia.
Qed.

(** What a fresh update (the last one was completed) computes. *)
Lemma begin_update_Ok config v slot v1 :
  Vault.wf v -> 0 < Config.epoch_length config -> 0 <= Config.program_fee_bps config ->
  Vault.last_full_state_update_slot v / Config.epoch_length config
  = Vault.last_start_state_update_slot v / Config.epoch_length config ->
  begin_update config v slot = Ok v1 ->
  exists req,
    Vault.calculate_supported_assets_requested_for_withdrawal v1 = Ok req /\
    let n := Z.max 0 (req - (Vault.tokens_deposited v
                             - DelegationState.staked_amount (Vault.delegation_state v))) in
    v1 = v<|Vault.withdrawal_fee_bps := Vault.next_withdrawal_fee_bps v|>
          <|Vault.program_fee_bps := Config.program_fee_bps config|>
          <|Vault.additional_assets_need_unstaking := n|>
          <|Vault.last_start_state_update_slot := slot|> /\
    (vrt_reserve v <= Vault.vrt_supply v ->
     DelegationState.staked_amount (Vault.delegation_state v) <= Vault.tokens_deposited v ->
     Vault.wf v1 /\ n <= DelegationState.staked_amount (Vault.delegation_state v)).
Proof.
  intros Hwf Hel Hpf Hfresh H. unfold begin_update, needs_to_recover in H.
  rewrite !get_epoch_Ok in H by done. cbn [qbind] in H. rewrite Hfresh, Z.eqb_refl in H.
  cbn [negb qbind] in H. unfold Vault.set_withdrawal_fee_bps, Vault.set_program_fee_bps in H.
  inv_ok. set (w := _<|Vault.program_fee_bps := _|>) in *.
  assert (Vault.wf w) as Hw by (unfold Vault.wf, is_u64 in *; cbn; intuition lia).
  match goal with Hn : Vault.calculate_additional_supported_assets_needed_to_unstake _ _ _ = Ok _
    |- _ => apply additional_assets_Ok in Hn as (req & Hreq & _ & ->); [|done|done] end.
  exists req. split; [exact Hreq|]. split; [done|]. intros Hr Hst.
  pose proof (requested_bounds w req Hw Hr Hreq) as Hb. cbn in Hb.
  unfold Vault.wf, DelegationState.wf, is_u64 in *; cbn. split; [intuition lia|lia].
Qed.

(** ** The end of an update *)

Lemma finish_update_eq el e c0 k c slot :
  cycle_start el e c0 -> cycle_inv el e c0 k c -> slot / el = e ->
  vrt_reserve (cv c0) <= U64_MAX ->
  finish_update (cv c) (ct c) e slot el
  = if k =? Vault.operator_count (cv c0)
    then Ok (Nat.iter (Z.to_nat (e - Vault.last_full_state_update_slot (cv c0) / el)) shifted
           ((cv c0)<|Vault.additional_assets_need_unstaking := 0|>
                   <|Vault.delegation_state := VaultUpdateStateTracker.delegation_state (ct c)|>
                   <|Vault.last_full_state_update_slot := slot|>))
    else VErr VaultError.VaultUpdateStateNotFinishedUpdating.
Proof.
  intros Hs Hi Hslot Hr. pose proof (cs_el _ _ _ Hs) as Hel. pose proof (cs_full _ _ _ Hs) as Hfull.
  pose proof (cs_count_pos _ _ _ Hs) as Hpos. pose proof (cycle_inv_bound _ _ _ _ _ Hs Hi) as Hk.
  pose proof (cs_wf _ _ _ Hs) as Hwf. pose proof (ci_vault _ _ _ _ _ Hi) as Hv.
  set (a := Vault.additional_assets_need_unstaking (cv c)) in *. unfold finish_update.
  rewrite !get_epoch_Ok by done. cbn [qbind]. rewrite Hslot, Z.eqb_refl. cbn [negb].
  rewrite Hv. cbn [Vault.operator_count].
  change (Vault.operator_count (_<|_ := _|>)) with (Vault.operator_count (cv c0)).
  destruct (Z.gtb_spec (Vault.operator_count (cv c0)) 0); [|lia].
  rewrite (tracker_done e k) by first [lia | apply (cs_epoch _ _ _ Hs) | by eapply cycle_inv_tracker_at].
  cbn [qbind]. destruct (Z.eqb_spec k (Vault.operator_count (cv c0))) as [->|]; [|done]. cbn [negb].
  destruct (cycle_inv_end _ _ _ _ Hs Hi) as [_ Ha]. fold a in Ha. rewrite Ha.
  change (Vault.additional_assets_need_unstaking (_<|_ := 0|>)) with 0. cbn [Z.gtb Z.compare].
  change (Vault.last_full_state_update_slot (_<|_ := 0|>))
    with (Vault.last_full_state_update_slot (cv c0)).
  rewrite ok_or_checked_sub, (proj2 (Z.ltb_ge _ _)) by lia. cbn [qbind].
  set (w := Vault.set_last_full_state_update_slot _ slot).
  assert (Vault.wf w /\ vrt_reserve w <= U64_MAX) as [Hw Hwr].
  { pose proof (ci_wf _ _ _ _ _ Hi). unfold vrt_reserve, Vault.wf, is_u64 in *; cbn.
    intuition lia. }
  unfold into. rewrite (proj1 (shift_vrt_loop_eq _ _ Hw Hwr)). cbn [map_err].
  by rewrite shifted_min by lia.
Qed.

(** A tracker of another epoch is only removed. *)
Lemma finish_other_epoch v t e slot el :
  0 < el -> slot / el <> e -> finish_update v t e slot el = Ok v.
Proof.
  intros Hel Hslot. unfold finish_update. rewrite !get_epoch_Ok by done. cbn [qbind].
  rewrite (proj2 (Z.eqb_neq _ _)) by congruence. done.
Qed.

Lemma iter_shifted_fields n v :
  let v' := Nat.iter n shifted v in
  Vault.delegation_state v' = Vault.delegation_state v /\
  Vault.additional_assets_need_unstaking v' = Vault.additional_assets_need_unstaking v /\
  Vault.last_full_state_update_slot v' = Vault.last_full_state_update_slot v /\
  Vault.last_start_state_update_slot v' = Vault.last_start_state_update_slot v /\
  Vault.operator_count v' = Vault.operator_count v /\
  Vault.vrt_supply v' = Vault.vrt_supply v /\
  Vault.tokens_deposited v' = Vault.tokens_deposited v.
Proof. induction n as [|n IH]; [done|]. rewrite Nat.iter_succ. exact IH. Qed.

(** ** The books of a vault *)

(** A vault that is up to date: its delegation state is the sum of its
    operators' states and covered by its deposits, every share on its way out
    exists, no operator was updated after the vault, and nothing is left to
    unstake. *)
Record books (el : Z) (v : Vault) (ops : list VaultOperatorDelegation) : Prop := {
  bk_el : 0 < el;
  bk_wf : Vault.wf v;
  bk_count : Vault.operator_count v = Z.of_nat (length ops);
  bk_count_pos : 0 < Vault.operator_count v <= U64_MAX;
  bk_ops i o : ops !! i = Some o ->
    VaultOperatorDelegation.index o = Z.of_nat i /\ DelegationState.wf (ods o) /\
    VaultOperatorDelegation.last_update_slot o / el
    <= Vault.last_full_state_update_slot v / el;
  bk_staked : DelegationState.staked_amount (Vault.delegation_state v)
    = zsum (fun o => DelegationState.staked_amount (ods o)) ops;
  bk_enqueued : DelegationState.enqueued_for_cooldown_amount (Vault.delegation_state v)
    = zsum (fun o => DelegationState.enqueued_for_cooldown_amount (ods o)) ops;
  bk_cooling : DelegationState.cooling_down_amount (Vault.delegation_state v)
    = zsum (fun o => DelegationState.cooling_down_amount (ods o)) ops;
  bk_covered : DelegationState.sum (Vault.delegation_state v) <= Vault.tokens_deposited v;
  bk_reserve : vrt_reserve v <= Vault.vrt_supply v;
  bk_started : Vault.last_full_state_update_slot v / el
    = Vault.last_start_state_update_slot v / el;
  bk_done : Vault.additional_assets_need_unstaking v = 0;
}.

Lemma books_sum el v ops :
  books el v ops ->
  zsum (fun o => DelegationState.sum (ods o)) ops = DelegationState.sum (Vault.delegation_state v).
Proof.
  intros Hb. unfold DelegationState.sum.
  rewrite (bk_staked _ _ _ Hb), (bk_enqueued _ _ _ Hb), (bk_cooling _ _ _ Hb), <- !zsum_add. done.
Qed.

(** A fresh update of a vault with its books in order starts a cycle. *)
Lemma books_cycle_start config v ops slot v1 k :
  let el := Config.epoch_length config in
  books el v ops -> 0 <= Config.program_fee_bps config -> 0 <= slot ->
  Vault.last_full_state_update_slot v / el < slot / el ->
  begin_update config v slot = Ok v1 ->
  cycle_start el (slot / el) (mkCycle v1 (VaultUpdateStateTracker.new k (slot / el) 0) ops).
Proof.
  intros el Hb Hpf Hslot Hlt Hbegin. pose proof (books_sum _ _ _ Hb) as Hsum.
  destruct Hb as [Hel Hwf Hn Hpos Hops Hst Hen Hco Hcov Hres Hstart _].
  destruct (begin_update_Ok config v slot v1 Hwf Hel Hpf Hstart Hbegin) as (req & _ & -> & Hx).
  pose proof Hwf as (_ & Hdep & _ & Hds & _).
  pose proof (parts_le_sum _ Hds) as Hparts. destruct Hx as [Hwf1 Hle]; [done|lia|].
  constructor; cbn [cv ct cops]; try done.
  - by apply Z.div_pos.
  - by exists k.
  - intros i o Ho. destruct (Hops i o Ho) as (? & ? & Hl). split_and!; try done. fold el in Hl. lia.
  - rewrite Hsum. unfold is_u64 in Hdep. lia.
  - etrans; [exact Hle|]. rewrite Hst. unfold pending_stake. cbn [cv cops].
    apply Z.eq_le_incl, zsum_ext, Forall_lookup. intros i o Ho.
    destruct (Hops i o Ho) as (_ & _ & Hl). unfold pending. simpl.
    by rewrite (proj2 (Z.ltb_ge _ _)).
Qed.

(** Closing the tracker after the last crank puts the books in order. *)
Lemma finish_books el e c0 c slot :
  cycle_start el e c0 -> cycle_inv el e c0 (Vault.operator_count (cv c0)) c ->
  slot / el = e -> Vault.last_start_state_update_slot (cv c0) / el = e ->
  vrt_reserve (cv c0) <= Vault.vrt_supply (cv c0) ->
  zsum (fun o => DelegationState.sum (ods o)) (cops c0) <= Vault.tokens_deposited (cv c0) ->
  exists v', finish_update (cv c) (ct c) e slot el = Ok v' /\ books el v' (cops c) /\
    Vault.last_full_state_update_slot v' = slot /\
    Vault.tokens_deposited v' = Vault.tokens_deposited (cv c0) /\
    Vault.vrt_supply v' = Vault.vrt_supply (cv c0) /\ vrt_reserve v' = vrt_reserve (cv c0) /\
    DelegationState.staked_amount (Vault.delegation_state v')
    = zsum (fun o => DelegationState.staked_amount (ods o)) (cops c0)
      - Vault.additional_assets_need_unstaking (cv c0).
Proof.
  intros Hs Hi Hslot Hstart Hres Hcov. pose proof (cs_wf _ _ _ Hs) as Hwf.
  assert (vrt_reserve (cv c0) <= U64_MAX) as Hr by (unfold Vault.wf, is_u64 in Hwf; lia).
  rewrite (finish_update_eq _ _ _ _ _ slot Hs Hi Hslot Hr), Z.eqb_refl.
  set (w := (cv c0)<|Vault.additional_assets_need_unstaking := 0|>
              <|Vault.delegation_state := VaultUpdateStateTracker.delegation_state (ct c)|>
              <|Vault.last_full_state_update_slot := slot|>).
  assert (Vault.wf w) as Hw.
  { pose proof (ci_wf _ _ _ _ _ Hi). unfold Vault.wf, is_u64 in *; cbn. intuition lia. }
  destruct (shift_vrt_loop_eq (Z.to_nat (e - Vault.last_full_state_update_slot (cv c0) / el)) w Hw Hr)
    as (_ & Hwf' & Hres').
  pose proof (iter_shifted_fields (Z.to_nat (e - Vault.last_full_state_update_slot (cv c0) / el)) w)
    as (Hds & Ha & Hlf & Hls & Hc & Hsu & Hd).
  set (v' := Nat.iter _ shifted w) in *. clearbody v'. simpl in Hds, Ha, Hlf, Hls, Hc, Hsu, Hd.
  change (vrt_reserve w) with (vrt_reserve (cv c0)) in Hres'.
  destruct (cycle_inv_end _ _ _ _ Hs Hi) as [Hsums HA].
  pose proof (ci_staked _ _ _ _ _ Hi) as H1. pose proof (ci_enqueued _ _ _ _ _ Hi) as H2.
  pose proof (ci_cooling _ _ _ _ _ Hi) as H3. rewrite Hsums in H1, H2, H3.
  exists v'. split; [done|]. rewrite Hlf, Hd, Hsu, Hres'. split_and!; try done.
  - constructor; rewrite ?Hds, ?Hc, ?Hlf, ?Hls, ?Hd, ?Hsu, ?Hres'; try done.
    + apply (cs_el _ _ _ Hs).
    + rewrite (ci_length _ _ _ _ _ Hi). apply (cs_count _ _ _ Hs).
    + apply (cs_count_pos _ _ _ Hs).
    + intros i o Ho. rewrite Hslot. apply (ci_ops _ _ _ _ _ Hi _ _ Ho).
    + etrans; [|exact Hcov]. etrans; [|apply (ci_sum_le _ _ _ _ _ Hi)]. apply Z.eq_le_incl.
      unfold DelegationState.sum. by rewrite H1, H2, H3, <- !zsum_add.
    + by rewrite Hslot, Hstart.
  - rewrite Hds, H1. pose proof (ci_balance _ _ _ _ _ Hi). lia.
Qed.

(** ** An example: two operators, a vault that is almost fully staked *)

Definition example_operator (i staked enqueued cooling : Z) : VaultOperatorDelegation :=
  VaultOperatorDelegation.mk 77 (100 + i) (DelegationState.new staked enqueued cooling) 1500 i 255
    (replicate 263 0).

Definition example_operators : list VaultOperatorDelegation :=
  [example_operator 0 1500 10 10; example_operator 1 1400 10 0].

Definition example_config : Config :=
  Config.mk 4 9 1000 1 2000 2500 10 10 6 4 255 (replicate 229 0).

Definition example_update_vault : Vault :=
  example_vault<|Vault.delegation_state := DelegationState.new 2900 20 10|>.

Lemma example_update_vault_wf : Vault.wf example_update_vault.
Proof. solve_vault_wf. Qed.

(** [crank_step] as a function. *)
Definition crank_at (el slot : Z) (i : nat) (c : Cycle) : option Cycle :=
  match cops c !! i with
  | Some o =>
      match partially_updated (cv c) o el with
      | Ok p =>
          match crank_operator p slot el (cv c) o (ct c) with
          | Ok (v', o', t') => Some (mkCycle v' t' (<[i := o']> (cops c)))
          | Err _ => None
          end
      | Err _ => None
      end
  | None => None
  end.

Lemma crank_at_step el slot i c c' :
  crank_at el slot i c = Some c' -> crank_step el (slot / el) c c'.
Proof.
  unfold crank_at. intros H. destruct (cops c !! i) as [o|] eqn:Ho; [|done].
  destruct (partially_updated (cv c) o el) as [p|] eqn:Hp; [|done].
  destruct (crank_operator p slot el (cv c) o (ct c)) as [[[v' o'] t']|] eqn:Hc; [|done].
  injection H as <-. by eapply crank_step_intro.
Qed.

Definition example_begun : Vault := Eval vm_compute in
  match begin_update example_config example_update_vault 2000 with
  | Ok v => v
  | Err _ => example_update_vault
  end.
Definition example_cycle : Cycle := Eval vm_compute in
  mkCycle example_begun (VaultUpdateStateTracker.new 77 2 0) example_operators.
Definition example_middle : Cycle := Eval vm_compute in
  default example_cycle (crank_at 1000 2300 0 example_cycle).
Definition example_end : Cycle := Eval vm_compute in
  default example_cycle (crank_at 1000 2600 1 example_middle).

Lemma example_cycle_start : cycle_start 1000 2 example_cycle.
Proof.
  constructor.
  - lia.
  - lia.
  - solve_vault_wf.
  - vm_compute. reflexivity.
  - cbn. lia.
  - vm_compute. reflexivity.
  - exists 77. vm_compute. reflexivity.
  - intros [|[|i]] o Ho; vm_compute in Ho; simplify_eq;
      (split; [reflexivity|split; [|reflexivity]]);
      unfold DelegationState.wf, is_u64; cbn; lia.
  - vm_compute. congruence.
  - vm_compute. congruence.
Qed.

(** A vault with room for more delegation. *)
Definition example_light_operators : list VaultOperatorDelegation :=
  [example_operator 0 1500 10 10; example_operator 1 1000 10 0].
Definition example_light_vault : Vault :=
  example_vault<|Vault.delegation_state := DelegationState.new 2500 20 10|>.

Ltac solve_example_books :=
  constructor;
  [lia | solve_vault_wf | reflexivity | cbn; lia
  |intros [|[|i]] o Ho; vm_compute in Ho; simplify_eq; (split; [reflexivity|]);
      (split; [|vm_compute; congruence]); unfold DelegationState.wf, is_u64; cbn; lia
  |vm_compute; reflexivity | vm_compute; reflexivity | vm_compute; reflexivity
  |vm_compute; congruence | vm_compute; congruence
  |vm_compute; reflexivity | vm_compute; reflexivity].

Lemma example_books : books 1000 example_update_vault example_operators.
Proof. solve_example_books. Qed.

Lemma example_light_books : books 1000 example_light_vault example_light_operators.
Proof. solve_example_books. Qed.

Lemma example_steps : nsteps (crank_step 1000 2) 2 example_cycle example_end.
Proof.
  apply (nsteps_l _ _ _ example_middle).
  { apply (crank_at_step 1000 2300 0 example_cycle example_middle). vm_compute. reflexivity. }
  apply (nsteps_l _ _ _ example_end); [|apply nsteps_O].
  apply (crank_at_step 1000 2600 1 example_middle example_end). vm_compute. reflexivity.
Qed.

(** ** Claims *)

(** Bringing an operator up to date replays every epoch that passed.
    The code looks at the number of epochs since the operator's last update
    and updates at most twice; the result is the per-epoch update applied
    once for each of them, and the slot is recorded. *)
Theorem operator_update_replays_epochs o slot el :
  0 < el -> VaultOperatorDelegation.last_update_slot o <= slot ->
  VaultOperatorDelegation.update o slot el
  = Ok o<|VaultOperatorDelegation.delegation_state :=
            Nat.iter (Z.to_nat (slot / el - VaultOperatorDelegation.last_update_slot o / el))
              DelegationState.update (VaultOperatorDelegation.delegation_state o)|>
        <|VaultOperatorDelegation.last_update_slot := slot|>.
Proof. intros Hel Hle. apply operator_update_Ok; [done|]. by apply epoch_mono. Qed.

Lemma operator_update_replays_epochs_witness :
  exists o', VaultOperatorDelegation.update (example_operator 0 1500 10 20) 9500 1000 = Ok o' /\
    VaultOperatorDelegation.delegation_state o' = DelegationState.new 1500 0 0.
Proof.
  rewrite (operator_update_replays_epochs (example_operator 0 1500 10 20) 9500 1000)
    by (cbn; lia).
  eexists. split; [reflexivity|]. vm_compute. reflexivity.
Defined.

(** C7: an epoch's tracker admits every operator exactly once.  From a fresh
    tracker at most as many cranks succeed as there are operators; after [k]
    of them exactly the [k] operators that follow the epoch's first one are
    updated; the tracker reports completion exactly after all of them, and
    then no operator can be cranked again.  As long as the epoch lasts, closing
    the tracker succeeds exactly after all of them (the queued shares being a
    number of 64 bits), and is refused as unfinished before; in any other epoch
    closing leaves the vault as it is. *)
Theorem each_operator_exactly_once el e c0 k c :
  cycle_start el e c0 -> nsteps (crank_step el e) k c0 c ->
  let n := Vault.operator_count (cv c0) in
  Z.of_nat k <= n /\
  VaultUpdateStateTracker.all_operators_updated (ct c) n = Ok (Z.of_nat k =? n) /\
  (forall i o, cops c !! i = Some o ->
     updated_in el e o = ((Z.of_nat i - e) mod n <? Z.of_nat k)) /\
  (Z.of_nat k = n ->
   Forall (fun o => updated_in el e o = true) (cops c) /\ forall c', ~ crank_step el e c c') /\
  (forall slot, slot / el = e -> vrt_reserve (cv c0) <= U64_MAX ->
   if Z.of_nat k =? n then exists v', finish_update (cv c) (ct c) e slot el = Ok v'
   else finish_update (cv c) (ct c) e slot el = VErr VaultError.VaultUpdateStateNotFinishedUpdating) /\
  (forall slot, slot / el <> e -> finish_update (cv c) (ct c) e slot el = Ok (cv c)).
Proof.
  intros Hs Hn n. pose proof (crank_steps_inv _ _ _ _ _ Hs Hn) as Hi.
  pose proof (cycle_inv_bound _ _ _ _ _ Hs Hi) as Hb. fold n in Hb.
  split_and!; [lia| |apply (ci_visited _ _ _ _ _ Hi)| | |].
  - apply (tracker_done e); [apply (cs_count_pos _ _ _ Hs)|apply (cs_epoch _ _ _ Hs)|done|].
    by eapply cycle_inv_tracker_at.
  - intros Hk. rewrite Hk in Hi. pose proof (cycle_inv_full _ _ _ _ Hs Hi) as Hall.
    split; [done|]. intros c' Hstep.
    destruct (crank_step_inv _ _ _ _ _ _ Hs Hi Hstep) as (i & _ & o & _ & _ & _ & Ho & Hlt & _).
    pose proof (proj1 (Forall_lookup _ _) Hall i o Ho) as Hu. apply Z.eqb_eq in Hu. lia.
  - intros slot Hslot Hr. rewrite (finish_update_eq _ _ _ _ _ slot Hs Hi Hslot Hr). fold n.
    destruct (Z.of_nat k =? n); [by eexists|done].
  - intros slot Hslot. apply finish_other_epoch; [apply (cs_el _ _ _ Hs)|done].
Qed.

Lemma each_operator_exactly_once_witness :
  VaultUpdateStateTracker.all_operators_updated (ct example_end) 2 = Ok true /\
  (forall c', ~ crank_step 1000 2 example_end c') /\
  (exists v', finish_update (cv example_end) (ct example_end) 2 2700 1000 = Ok v') /\
  finish_update (cv example_end) (ct example_end) 2 3000 1000 = Ok (cv example_end).
Proof.
  destruct (each_operator_exactly_once 1000 2 example_cycle 2 example_end example_cycle_start
              example_steps) as (_ & H1 & _ & H2 & H3 & H4).
  split; [exact H1|]. split; [apply H2; vm_compute; reflexivity|]. split.
  - apply (H3 2700); [vm_compute; reflexivity|vm_compute; discriminate].
  - apply H4. vm_compute. discriminate.
Defined.

Lemma one_operator_due el e c0 k c slot :
  cycle_start el e c0 -> nsteps (crank_step el e) k c0 c ->
  Z.of_nat k < Vault.operator_count (cv c0) -> slot / el = e ->
  exists i, Z.of_nat i = (e + Z.of_nat k) mod Vault.operator_count (cv c0) /\
    (exists c', crank_at el slot i c = Some c') /\
    (forall j o p, j <> i -> cops c !! j = Some o ->
       crank_operator p slot el (cv c) o (ct c)
       = if updated_in el e o then VErr VaultError.VaultOperatorDelegationIsUpdated
         else VErr VaultError.VaultUpdateIncorrectIndex).
Proof.
  intros Hs Hn Hk Hslot. pose proof (crank_steps_inv _ _ _ _ _ Hs Hn) as Hi.
  pose proof (cycle_inv_wf _ _ _ _ _ Hs Hi) as Hwf. pose proof (cs_el _ _ _ Hs) as Hel.
  pose proof (cs_count_pos _ _ _ Hs) as Hpos. set (n := Vault.operator_count (cv c0)) in *.
  pose proof (Z.mod_pos_bound (e + Z.of_nat k) n ltac:(lia)) as Hb.
  exists (Z.to_nat ((e + Z.of_nat k) mod n)). rewrite Z2Nat.id by lia. split; [done|].
  assert (Vault.operator_count (cv c) = n) as Hcount by (by rewrite (ci_vault _ _ _ _ _ Hi)).
  split.
  - destruct (lookup_lt_is_Some_2 (cops c) (Z.to_nat ((e + Z.of_nat k) mod n))) as [o Ho].
    { rewrite (ci_length _ _ _ _ _ Hi). pose proof (cs_count _ _ _ Hs) as Hlen. fold n in Hlen. lia. }
    assert (updated_in el e o = false) as Hu.
    { rewrite (ci_visited _ _ _ _ _ Hi _ _ Ho). fold n. rewrite Z2Nat.id by lia.
      rewrite Zminus_mod_idemp_l. replace (e + Z.of_nat k - e) with (Z.of_nat k) by lia.
      rewrite Z.mod_small by lia. apply Z.ltb_irrefl. }
    destruct (crank_due_Ok _ _ _ _ _ _ _ slot Hs Hi Hslot Ho Hu) as (v' & o' & t' & Hc).
    { fold n. by rewrite Z2Nat.id by lia. }
    unfold crank_at. rewrite Ho. unfold partially_updated. rewrite !get_epoch_Ok by done.
    cbn [qbind]. unfold pending in Hc. rewrite negb_involutive in Hc. rewrite Hc. eauto.
  - intros j o p Hj Ho. destruct (ci_ops _ _ _ _ _ Hi _ _ Ho) as (Hio & Hwo & Hle).
    destruct (updated_in el e o) eqn:Hu.
    + apply Z.eqb_eq in Hu. apply crank_already_updated; lia.
    + apply Z.eqb_neq in Hu.
      pose proof (zsum_lookup_le _ _ _ _ (operator_sum_nonneg _ _ _ _ _ Hi) Ho) as Hsum.
      pose proof (ci_total _ _ _ _ _ Hi) as Htot. simpl in Hsum.
      rewrite crank_operator_eq by first [done | lia | apply (ci_method _ _ _ _ _ Hi)].
      rewrite Hcount, (tracker_check e (Z.of_nat k))
        by first [lia | by eapply cycle_inv_tracker_at].
      rewrite Hio, (proj2 (Z.eqb_neq _ _)) by lia. done.
Qed.

(** C6: the update of an epoch never gets stuck.  At every slot of the epoch:
    until all operators are updated there is exactly one operator whose crank
    succeeds, the next one in the epoch's order; for every other one it is
    refused because of its index or because it is up to date.  Once all are
    updated the tracker can be closed, if the queued shares are a number of 64
    bits. *)
Theorem update_cycle_never_stuck el e c0 k c slot :
  cycle_start el e c0 -> nsteps (crank_step el e) k c0 c -> slot / el = e ->
  let n := Vault.operator_count (cv c0) in
  (Z.of_nat k < n ->
   exists i, Z.of_nat i = (e + Z.of_nat k) mod n /\
     (exists c', crank_at el slot i c = Some c') /\
     (forall j o p, j <> i -> cops c !! j = Some o ->
        crank_operator p slot el (cv c) o (ct c)
        = if updated_in el e o then VErr VaultError.VaultOperatorDelegationIsUpdated
          else VErr VaultError.VaultUpdateIncorrectIndex)) /\
  (Z.of_nat k = n -> vrt_reserve (cv c0) <= U64_MAX ->
   exists v', finish_update (cv c) (ct c) e slot el = Ok v').
Proof.
  intros Hs Hn Hslot n. split; [intros Hk; by apply (one_operator_due el e c0 k c slot)|].
  intros Hk Hr. pose proof (crank_steps_inv _ _ _ _ _ Hs Hn) as Hi.
  rewrite (finish_update_eq _ _ _ _ _ slot Hs Hi Hslot Hr), Hk. fold n. rewrite Z.eqb_refl. by eexists.
Qed.

Lemma update_cycle_never_stuck_witness :
  (exists i, Z.of_nat i = (2 + 1) mod 2 /\ exists c', crank_at 1000 2999 i example_middle = Some c') /\
  exists v', finish_update (cv example_end) (ct example_end) 2 2999 1000 = Ok v'.
Proof.
  assert (nsteps (crank_step 1000 2) 1 example_cycle example_middle) as Hn.
  { apply (nsteps_l _ _ _ example_middle); [|apply nsteps_O].
    apply (crank_at_step 1000 2300 0 example_cycle example_middle). vm_compute. reflexivity. }
  destruct (update_cycle_never_stuck 1000 2 example_cycle 1 example_middle 2999
              example_cycle_start Hn) as [H _]; [vm_compute; reflexivity|].
  destruct (update_cycle_never_stuck 1000 2 example_cycle 2 example_end 2999
              example_cycle_start example_steps) as [_ H']; [vm_compute; reflexivity|].
  split.
  - destruct H as (i & H1 & H2 & _); [vm_compute; reflexivity|]. exists i. split; [exact H1|exact H2].
  - apply H'; [vm_compute; reflexivity|vm_compute; discriminate].
Defined.

Lemma cycle_books config v ops slot0 v1 tracker_vault k c slot :
  let el := Config.epoch_length config in
  let e := slot0 / el in
  books el v ops -> 0 <= Config.program_fee_bps config -> 0 <= slot0 ->
  Vault.last_full_state_update_slot v / el < e ->
  begin_update config v slot0 = Ok v1 ->
  nsteps (crank_step el e) k (mkCycle v1 (VaultUpdateStateTracker.new tracker_vault e 0) ops) c ->
  Z.of_nat k = Vault.operator_count v -> slot / el = e ->
  exists v' req,
    finish_update (cv c) (ct c) e slot el = Ok v' /\ books el v' (cops c) /\
    Vault.last_full_state_update_slot v' = slot /\
    Vault.tokens_deposited v' = Vault.tokens_deposited v /\
    Vault.vrt_supply v' = Vault.vrt_supply v /\ vrt_reserve v' = vrt_reserve v /\
    Vault.calculate_supported_assets_requested_for_withdrawal v1 = Ok req /\
    req <= Vault.tokens_deposited v'
           - DelegationState.staked_amount (Vault.delegation_state v').
Proof.
  intros el e Hb Hpf Hs0 Hlt Hbegin Hn Hk Hslot.
  pose proof (books_cycle_start config v ops slot0 v1 tracker_vault Hb Hpf Hs0 Hlt Hbegin) as Hs.
  fold el e in Hs. pose proof (crank_steps_inv _ _ _ _ _ Hs Hn) as Hi.
  destruct (begin_update_Ok config v slot0 v1 (bk_wf _ _ _ Hb) (bk_el _ _ _ Hb) Hpf
              (bk_started _ _ _ Hb) Hbegin) as (req & Hreq & Hv1 & _).
  pose proof (books_sum _ _ _ Hb) as Hsum. pose proof (bk_covered _ _ _ Hb) as Hcov.
  pose proof (bk_reserve _ _ _ Hb) as Hres. pose proof (bk_staked _ _ _ Hb) as Hst.
  replace (Z.of_nat k) with (Vault.operator_count v1) in Hi by (rewrite Hk; by subst v1).
  destruct (finish_books _ _ _ _ slot Hs Hi Hslot) as (v' & Hf & Hb' & Hlf & Hd & Hsu & Hr & Hs').
  - by subst v1.
  - by subst v1.
  - subst v1. cbn [cv cops]. simpl. lia.
  - exists v', req. rewrite Hd, Hs'. subst v1. cbn [cv cops] in *. simpl in Hd, Hsu, Hr |- *.
    split_and!; try done. rewrite <- Hst. lia.
Qed.

(** C1: an update of an epoch ends with the vault's books in order.  Take a
    vault whose delegation state is the sum of its operators' states, start
    its update in a later epoch, and crank all operators.  Closing the tracker
    then succeeds; the vault's delegation state is again, bucket by bucket,
    the sum of its operators' states, nothing is left to unstake, no share in
    the withdrawal queue is lost, and the tokens that are not staked cover
    every withdrawal that was requested when the update began. *)
Theorem update_cycle_covers_withdrawals config v ops slot0 v1 tracker_vault k c slot :
  let el := Config.epoch_length config in
  let e := slot0 / el in
  books el v ops -> 0 <= Config.program_fee_bps config -> 0 <= slot0 ->
  Vault.last_full_state_update_slot v / el < e ->
  begin_update config v slot0 = Ok v1 ->
  nsteps (crank_step el e) k (mkCycle v1 (VaultUpdateStateTracker.new tracker_vault e 0) ops) c ->
  Z.of_nat k = Vault.operator_count v -> slot / el = e ->
  exists v' req,
    finish_update (cv c) (ct c) e slot el = Ok v' /\ books el v' (cops c) /\
    Vault.last_full_state_update_slot v' = slot /\
    Vault.tokens_deposited v' = Vault.tokens_deposited v /\
    Vault.vrt_supply v' = Vault.vrt_supply v /\ vrt_reserve v' = vrt_reserve v /\
    Vault.calculate_supported_assets_requested_for_withdrawal v1 = Ok req /\
    req <= Vault.tokens_deposited v'
           - DelegationState.staked_amount (Vault.delegation_state v').
Proof. apply cycle_books. Qed.

Lemma update_cycle_covers_withdrawals_witness :
  exists v' req,
    finish_update (cv example_end) (ct example_end) 2 2700 1000 = Ok v' /\
    Vault.calculate_supported_assets_requested_for_withdrawal example_begun = Ok req /\
    0 < Vault.additional_assets_need_unstaking example_begun /\
    req <= Vault.tokens_deposited v'
           - DelegationState.staked_amount (Vault.delegation_state v').
Proof.
  destruct (update_cycle_covers_withdrawals example_config example_update_vault example_operators
              2000 example_begun 77 2 example_end 2700) as (v' & req & H1 & _ & _ & _ & _ & _ & H2 & H3).
  - exact example_books.
  - cbn. lia.
  - lia.
  - vm_compute. reflexivity.
  - vm_compute. reflexivity.
  - exact example_steps.
  - vm_compute. reflexivity.
  - vm_compute. reflexivity.
  - exists v', req. split; [exact H1|]. split; [exact H2|]. split; [vm_compute; reflexivity|exact H3].
Defined.

(** Closing a tracker moves the withdrawal queue by the epochs that
    passed.  Shares move from enqueued to cooling to claimable, one stage per
    epoch; the code's at most two rounds do what one round for each epoch
    would, cannot overflow, and lose no share. *)
Theorem vrt_queue_advances_per_epoch v epochs :
  Vault.wf v -> vrt_reserve v <= U64_MAX -> 1 <= epochs ->
  exists v', shift_vrt_loop (Z.to_nat (Z.min epochs 2)) v = Ok v' /\
    shift_vrt_loop (Z.to_nat epochs) v = Ok v' /\ vrt_reserve v' = vrt_reserve v /\
    Vault.vrt_enqueued_for_cooldown_amount v' = 0 /\
    (epochs = 1 -> Vault.vrt_ready_to_claim_amount v'
                   = Vault.vrt_ready_to_claim_amount v + Vault.vrt_cooling_down_amount v) /\
    (2 <= epochs -> Vault.vrt_ready_to_claim_amount v' = vrt_reserve v).
Proof.
  intros Hwf Hr He. exists (Nat.iter (Z.to_nat epochs) shifted v).
  destruct (shift_vrt_loop_eq (Z.to_nat (Z.min epochs 2)) v Hwf Hr) as (H1 & _).
  destruct (shift_vrt_loop_eq (Z.to_nat epochs) v Hwf Hr) as (H2 & _ & H3).
  rewrite shifted_min in H1 by done. split_and!; try done.
  - replace (Z.to_nat epochs) with (S (Z.to_nat (epochs - 1))) by lia. done.
  - by intros ->.
  - intros H. replace (Z.to_nat epochs) with (2 + Z.to_nat (epochs - 2))%nat by lia.
    by rewrite shifted_twice.
Qed.

Lemma vrt_queue_advances_per_epoch_witness :
  exists v', shift_vrt_loop (Z.to_nat (Z.min 5 2)) example_vault = Ok v' /\
    vrt_reserve v' = 160 /\ Vault.vrt_ready_to_claim_amount v' = 160.
Proof.
  destruct (vrt_queue_advances_per_epoch example_vault 5 example_vault_wf)
    as (v' & H1 & _ & H2 & _ & _ & H3); [vm_compute; congruence|lia|].
  exists v'. split; [exact H1|]. split; [rewrite H2; reflexivity|]. rewrite H3 by lia. reflexivity.
Defined.

(** ** Delegation between updates *)

(** Replacing an operator's state and the vault's by states that differ in
    the same way keeps the books. *)
Lemma books_insert el v ops i o d d' :
  books el v ops -> ops !! i = Some o -> DelegationState.wf d -> DelegationState.wf d' ->
  DelegationState.staked_amount d' - DelegationState.staked_amount (ods o)
  = DelegationState.staked_amount d - DelegationState.staked_amount (Vault.delegation_state v) ->
  DelegationState.enqueued_for_cooldown_amount d'
    - DelegationState.enqueued_for_cooldown_amount (ods o)
  = DelegationState.enqueued_for_cooldown_amount d
    - DelegationState.enqueued_for_cooldown_amount (Vault.delegation_state v) ->
  DelegationState.cooling_down_amount d' - DelegationState.cooling_down_amount (ods o)
  = DelegationState.cooling_down_amount d
    - DelegationState.cooling_down_amount (Vault.delegation_state v) ->
  DelegationState.sum d <= Vault.tokens_deposited v ->
  books el (v<|Vault.delegation_state := d|>)
    (<[i := o<|VaultOperatorDelegation.delegation_state := d'|>]> ops).
Proof.
  intros Hb Ho Hd Hd' H1 H2 H3 Hsum.
  destruct Hb as [Hel Hwf Hn Hpos Hops Hst Hen Hco _ Hres Hstart Hdone].
  constructor; simpl; try done.
  - unfold Vault.wf in *. cbn. tauto.
  - by rewrite length_insert.
  - intros j oj Hj. apply list_lookup_insert_Some in Hj as [(<- & <- & _)|[_ Hj]]; [|by apply Hops].
    destruct (Hops i o Ho) as (? & _ & ?). done.
  - rewrite (zsum_insert _ _ _ _ _ Ho), <- Hst. unfold ods at 2. simpl. lia.
  - rewrite (zsum_insert _ _ _ _ _ Ho), <- Hen. unfold ods at 2. simpl. lia.
  - rewrite (zsum_insert _ _ _ _ _ Ho), <- Hco. unfold ods at 2. simpl. lia.
Qed.

Lemma delegate_books el v ops i o amount v' d' :
  books el v ops -> ops !! i = Some o -> is_u64 amount ->
  Vault.delegate v amount = Ok v' ->
  DelegationState.delegate (VaultOperatorDelegation.delegation_state o) amount = Ok d' ->
  books el v' (<[i := o<|VaultOperatorDelegation.delegation_state := d'|>]> ops) /\
  exists req, Vault.calculate_supported_assets_requested_for_withdrawal v' = Ok req /\
    DelegationState.sum (Vault.delegation_state v') + req <= Vault.tokens_deposited v'.
Proof.
  intros Hb Ho Ha Hv Hd. destruct (bk_ops _ _ _ Hb _ _ Ho) as (_ & Hwo & _).
  pose proof (bk_wf _ _ _ Hb) as (_ & _ & _ & Hwv & _).
  apply delegate_Ok in Hd as (Hwd' & _ & _ & Hd); [|done|done].
  unfold Vault.delegate in Hv. inv_ok.
  match goal with Hr : Vault.calculate_supported_assets_requested_for_withdrawal v = Ok ?r |- _ =>
    pose proof (requested_bounds v r (bk_wf _ _ _ Hb) (bk_reserve _ _ _ Hb) Hr) end.
  match goal with Ht : DelegationState.total_security _ = Ok _ |- _ =>
    apply total_security_Ok in Ht as [-> _]; [|done] end.
  match goal with Hx : DelegationState.delegate (Vault.delegation_state v) amount = Ok _ |- _ =>
    apply delegate_Ok in Hx as (Hwd & Hsum & _ & Hx); [|done|done] end.
  split.
  - apply books_insert; try done; subst; unfold ods in *; simpl in *; lia.
  - eexists. split; [eassumption|]. simpl. lia.
Qed.

(** A delegation keeps the books and the reserve for withdrawals.  When
    both state changes of [AddDelegation] succeed the vault's delegation state
    is still the sum of its operators' states, and all that is delegated plus
    the tokens owed to the withdrawal queue is at most what is deposited. *)
Theorem delegation_keeps_books_and_reserve el v ops i o amount v' d' :
  books el v ops -> ops !! i = Some o -> is_u64 amount ->
  Vault.delegate v amount = Ok v' ->
  DelegationState.delegate (VaultOperatorDelegation.delegation_state o) amount = Ok d' ->
  books el v' (<[i := o<|VaultOperatorDelegation.delegation_state := d'|>]> ops) /\
  exists req, Vault.calculate_supported_assets_requested_for_withdrawal v' = Ok req /\
    DelegationState.sum (Vault.delegation_state v') + req <= Vault.tokens_deposited v'.
Proof. apply delegate_books. Qed.

Lemma delegation_keeps_books_and_reserve_witness :
  exists v' d', Vault.delegate example_light_vault 100 = Ok v' /\
    books 1000 v' (<[1%nat := (example_operator 1 1000 10 0)
      <|VaultOperatorDelegation.delegation_state := d'|>]> example_light_operators).
Proof.
  destruct (Vault.delegate example_light_vault 100) as [v'|] eqn:E1; [|vm_compute in E1; done].
  destruct (DelegationState.delegate (VaultOperatorDelegation.delegation_state
    (example_operator 1 1000 10 0)) 100) as [d'|] eqn:E2; [|vm_compute in E2; done].
  exists v', d'. split; [reflexivity|].
  apply (delegation_keeps_books_and_reserve 1000 example_light_vault example_light_operators 1
    (example_operator 1 1000 10 0) 100 v' d' example_light_books);
    [reflexivity|unfold is_u64; lia|exact E1|exact E2].
Defined.

(** Cooling down a delegation keeps the books.  When the operator's state
    can cool down the amount, so can the vault's, and the vault's delegation
    state stays the sum of its operators' states; the total security does not
    change. *)
Theorem cooldown_keeps_books el v ops i o amount d' :
  books el v ops -> ops !! i = Some o -> is_u64 amount ->
  DelegationState.cooldown (VaultOperatorDelegation.delegation_state o) amount = Ok d' ->
  exists d, DelegationState.cooldown (Vault.delegation_state v) amount = Ok d /\
    DelegationState.sum d = DelegationState.sum (Vault.delegation_state v) /\
    books el (v<|Vault.delegation_state := d|>)
      (<[i := o<|VaultOperatorDelegation.delegation_state := d'|>]> ops).
Proof.
  intros Hb Ho Ha Hd. destruct (bk_ops _ _ _ Hb _ _ Ho) as (_ & Hwo & _).
  pose proof (bk_wf _ _ _ Hb) as (_ & Hdep & _ & Hwv & _).
  pose proof (bk_covered _ _ _ Hb) as Hcov. pose proof (bk_staked _ _ _ Hb) as Hst.
  apply cooldown_Ok in Hd as (Hwd' & _ & Hle & Hd); [|done|done]. fold (ods o) in *.
  assert (DelegationState.staked_amount (ods o)
          <= DelegationState.staked_amount (Vault.delegation_state v)) as Hso.
  { rewrite Hst. apply (zsum_lookup_le (fun o => DelegationState.staked_amount (ods o)) _ i);
      [|done]. apply Forall_lookup. intros j oj Hj.
    destruct (bk_ops _ _ _ Hb _ _ Hj) as (_ & Hwj & _). apply (parts_le_sum _ Hwj). }
  assert (exists d, DelegationState.cooldown (Vault.delegation_state v) amount = Ok d) as [d Hx].
  { unfold DelegationState.cooldown, DelegationState.sum, DelegationState.wf, is_u64 in *.
    rewrite (proj2 (Z.eqb_neq _ _)) by lia. rewrite ok_or_checked_sub, ok_or_checked_add.
    rewrite (proj2 (Z.ltb_ge _ _)) by lia. cbn [qbind].
    rewrite (proj2 (Z.ltb_ge _ _)) by lia. by eexists. }
  exists d. split; [done|]. apply cooldown_Ok in Hx as (Hwd & Hsum & _ & Hx); [|done|done].
  split; [done|]. apply books_insert; try done; subst; simpl in *; lia.
Qed.

Lemma cooldown_keeps_books_witness :
  exists d d', DelegationState.cooldown (Vault.delegation_state example_update_vault) 300 = Ok d /\
    books 1000 (example_update_vault<|Vault.delegation_state := d|>)
      (<[0%nat := (example_operator 0 1500 10 10)
         <|VaultOperatorDelegation.delegation_state := d'|>]> example_operators).
Proof.
  destruct (DelegationState.cooldown (VaultOperatorDelegation.delegation_state
    (example_operator 0 1500 10 10)) 300) as [d'|] eqn:E; [|vm_compute in E; done].
  destruct (cooldown_keeps_books 1000 example_update_vault example_operators 0
    (example_operator 0 1500 10 10) 300 d' example_books eq_refl ltac:(unfold is_u64; lia) E)
    as (d & H1 & _ & H2).
  exists d, d'. split; [exact H1|exact H2].
Defined.
