(* ===== verification/Isolation.v ===== *)
(** * What a running program can change

    The guarantees of the runtime model: through any sequence of writes and
    cross-program calls an instruction changes only accounts it was given as
    writable, and changes data or owner only of accounts owned by a program
    that runs.  The handlers of the vault program are closed under the rules
    of [Behaved], so the guarantees hold for the program as a whole. *)

From stdpp Require Import base numbers list gmap.
From Stdlib Require Import Lia.
From S2P Require Import Prelude Errors Pod Runtime SystemProgram Program Core.
Local Open Scope Z_scope.

(** ** Permitted changes of the transaction *)

(** No account of [infos] with this key is writable. *)
Definition readonly (infos : list AccountInfo) (k : Pubkey) : Prop :=
  Forall (fun i => key i = k -> is_writable i = false) infos.

(** [t'] is [t] up to changes that programs [progs] may make when they are
    given [infos]. *)
Definition permitted (progs : list Pubkey) (infos : list AccountInfo) (t t' : Tx) : Prop :=
  forall k,
    (readonly infos k -> acct (accounts t') k = acct (accounts t) k) /\
    (owner (acct (accounts t) k) ∉ progs ->
     data (acct (accounts t') k) = data (acct (accounts t) k) /\
     owner (acct (accounts t') k) = owner (acct (accounts t) k)).

Lemma permitted_refl ps l t : permitted ps l t t.
Proof. done. Qed.

Lemma permitted_trans ps l t1 t2 t3 :
  permitted ps l t1 t2 -> permitted ps l t2 t3 -> permitted ps l t1 t3.
Proof.
  intros H12 H23 k. destruct (H12 k) as [A1 B1], (H23 k) as [A2 B2]. split.
  - intros Hr. by rewrite A2, A1.
  - intros Ho. destruct (B1 Ho) as [Hd1 Ho1]. rewrite <- Ho1 in Ho. destruct (B2 Ho) as [Hd2 Ho2].
    split; congruence.
Qed.

(** More programs and fewer read-only accounts permit more. *)
Lemma permitted_weaken ps ps' l l' t t' :
  (forall p, p ∈ ps -> p ∈ ps') -> (forall k, readonly l' k -> readonly l k) ->
  permitted ps l t t' -> permitted ps' l' t t'.
Proof. intros Hp Hl H k. destruct (H k) as [A B]. split; auto. Qed.

(** A change of one writable account that keeps data and owner or that its
    owner makes. *)
Lemma permitted_one ps l i t t' :
  i ∈ l -> is_writable i = true -> only_changes (key i) t t' ->
  (owner (BorrowedAccount.get i t) ∈ ps \/
   data (BorrowedAccount.get i t') = data (BorrowedAccount.get i t) /\
   owner (BorrowedAccount.get i t') = owner (BorrowedAccount.get i t)) ->
  permitted ps l t t'.
Proof.
  intros Hi Hw Hc Ho k. destruct (Z.eq_dec k (key i)) as [->|Hk]; [|by rewrite Hc].
  unfold BorrowedAccount.get in Ho. split.
  - intros Hr. pose proof (proj1 (Forall_forall _ _) Hr i Hi eq_refl). congruence.
  - intros Hn. by destruct Ho as [|[]].
Qed.

Section Setters.
Context (prog : Pubkey) (ps : list Pubkey) (l : list AccountInfo) (i : AccountInfo).
Context (Hprog : prog ∈ ps) (Hi : i ∈ l).

Lemma set_lamports_permitted n t t' :
  BorrowedAccount.set_lamports prog i n t = Ok t' -> permitted ps l t t'.
Proof.
  intros H. apply set_lamports_Ok in H as (Hw & _ & Hg & Hc & _).
  eapply permitted_one; eauto. right. by rewrite Hg.
Qed.

Lemma set_data_length_permitted n t t' :
  BorrowedAccount.set_data_length prog i n t = Ok t' -> permitted ps l t t'.
Proof.
  intros H. apply set_data_length_Ok in H as (Hw & Ho & _ & Hc & _).
  eapply permitted_one; eauto. left. by rewrite Ho.
Qed.

Lemma set_owner_permitted pk t t' :
  BorrowedAccount.set_owner prog i pk t = Ok t' -> permitted ps l t t'.
Proof.
  intros H. apply set_owner_Ok in H as (Hw & Ho & _ & _ & Hc & _).
  eapply permitted_one; eauto. left. by rewrite Ho.
Qed.

Lemma set_data_from_slice_permitted bs t t' :
  BorrowedAccount.set_data_from_slice prog i bs t = Ok t' -> permitted ps l t t'.
Proof.
  intros H. apply set_data_from_slice_Ok in H as (Hw & Ho & _ & Hc & _).
  eapply permitted_one; eauto. left. by rewrite Ho.
Qed.

Lemma commit_lamports_permitted a t t' :
  commit_lamports prog i a t = Ok t' -> permitted ps l t t'.
Proof.
  unfold commit_lamports. intros H. case_match; [inv_ok; apply permitted_refl|].
  by eapply set_lamports_permitted.
Qed.

Lemma commit_data_permitted a t t' : commit_data prog i a t = Ok t' -> permitted ps l t t'.
Proof.
  unfold commit_data. intros H. case_match; [by eapply set_data_from_slice_permitted|].
  case_match; [|done]. inv_ok. apply permitted_refl.
Qed.

Lemma commit_owner_permitted a t t' : commit_owner prog i a t = Ok t' -> permitted ps l t t'.
Proof.
  unfold commit_owner. intros H. case_match; [inv_ok; apply permitted_refl|].
  by eapply set_owner_permitted.
Qed.

Lemma update_callee_account_permitted a t t' :
  update_callee_account prog i a t = Ok t' -> permitted ps l t t'.
Proof.
  unfold update_callee_account. intros H. inv_ok.
  eapply permitted_trans; [by eapply commit_lamports_permitted|].
  eapply permitted_trans; [by eapply commit_data_permitted|by eapply commit_owner_permitted].
Qed.

Lemma deserialize_account_permitted pre a t t' :
  deserialize_account prog i pre a t = Ok t' -> permitted ps l t t'.
Proof.
  unfold deserialize_account. intros H. inv_ok.
  eapply permitted_trans; [by eapply commit_lamports_permitted|].
  eapply permitted_trans; [by eapply commit_data_permitted|by eapply commit_owner_permitted].
Qed.

End Setters.

(** ** After a commit the account is as the program left it *)

Lemma commit_lamports_Ok prog i a t t' :
  commit_lamports prog i a t = Ok t' ->
  BorrowedAccount.get i t' = (BorrowedAccount.get i t)<|lamports := lamports a|> /\
  only_changes (key i) t t'.
Proof.
  unfold commit_lamports. intros H.
  destruct (Z.eqb_spec (lamports (BorrowedAccount.get i t)) (lamports a)) as [<-|]; inv_ok.
  - split; [|apply only_changes_refl]. by destruct (BorrowedAccount.get i t').
  - apply set_lamports_Ok in H as (_ & _ & ? & ? & _). done.
Qed.

Lemma commit_data_Ok prog i a t t' :
  commit_data prog i a t = Ok t' ->
  BorrowedAccount.get i t' = (BorrowedAccount.get i t)<|data := data a|> /\
  only_changes (key i) t t'.
Proof.
  unfold commit_data. intros H. case_match.
  - apply set_data_from_slice_Ok in H as (_ & _ & ? & ? & _). done.
  - case_match; [|done]. inv_ok. split; [|apply only_changes_refl].
    destruct (BorrowedAccount.get i t'); simpl in *. by subst.
Qed.

Lemma commit_owner_Ok prog i a t t' :
  commit_owner prog i a t = Ok t' ->
  BorrowedAccount.get i t' = (BorrowedAccount.get i t)<|owner := owner a|> /\
  only_changes (key i) t t'.
Proof.
  unfold commit_owner. intros H.
  destruct (Z.eqb_spec (owner (BorrowedAccount.get i t)) (owner a)) as [<-|]; inv_ok.
  - split; [|apply only_changes_refl]. by destruct (BorrowedAccount.get i t').
  - apply set_owner_Ok in H as (_ & _ & _ & ? & ? & _). done.
Qed.

(** [a] as far as a program controls it. *)
Definition same_contents (a b : Account) : Prop :=
  lamports a = lamports b /\ data a = data b /\ owner a = owner b.

Lemma commits_Ok prog i a t t1 t2 t3 :
  commit_lamports prog i a t = Ok t1 -> commit_data prog i a t1 = Ok t2 ->
  commit_owner prog i a t2 = Ok t3 ->
  same_contents (acct (accounts t3) (key i)) a /\ only_changes (key i) t t3 /\
  executable (acct (accounts t3) (key i)) = executable (acct (accounts t) (key i)).
Proof.
  intros H1 H2 H3. apply commit_lamports_Ok in H1 as [G1 C1].
  apply commit_data_Ok in H2 as [G2 C2]. apply commit_owner_Ok in H3 as [G3 C3].
  unfold BorrowedAccount.get in *. rewrite G3, G2, G1. split; [done|]. split; [|done].
  eapply only_changes_trans; [done|]. by eapply only_changes_trans.
Qed.

Lemma update_callee_account_Ok prog i a t t' :
  update_callee_account prog i a t = Ok t' ->
  same_contents (acct (accounts t') (key i)) a /\ only_changes (key i) t t' /\
  executable (acct (accounts t') (key i)) = executable (acct (accounts t) (key i)).
Proof. unfold update_callee_account. intros H. inv_ok. by eapply commits_Ok. Qed.

Lemma deserialize_account_Ok prog i pre a t t' :
  deserialize_account prog i pre a t = Ok t' ->
  same_contents (acct (accounts t') (key i)) a /\ only_changes (key i) t t' /\
  executable (acct (accounts t') (key i)) = executable (acct (accounts t) (key i)).
Proof. unfold deserialize_account. intros H. inv_ok. by eapply commits_Ok. Qed.

(** ** The system program *)

Section System.
Context (ps : list Pubkey) (l : list AccountInfo) (Hps : system_program_id ∈ ps).

Lemma allocate_permitted i addr space signers t t' :
  i ∈ l -> SystemProgram.allocate i addr space signers t = Ok t' -> permitted ps l t t'.
Proof.
  intros Hi H. unfold SystemProgram.allocate in H. inv_ok.
  by eapply set_data_length_permitted.
Qed.

Lemma assign_permitted i addr o signers t t' :
  i ∈ l -> SystemProgram.assign i addr o signers t = Ok t' -> permitted ps l t t'.
Proof.
  intros Hi H. unfold SystemProgram.assign in H.
  case_match; [inv_ok; apply permitted_refl|]. inv_ok. by eapply set_owner_permitted.
Qed.

Lemma transfer_permitted from to n t t' :
  from ∈ l -> to ∈ l -> SystemProgram.transfer from to n t = Ok t' -> permitted ps l t t'.
Proof.
  intros Hf Ht H. unfold SystemProgram.transfer, SystemProgram.transfer_verified,
    BorrowedAccount.checked_sub_lamports, BorrowedAccount.checked_add_lamports in H. inv_ok.
  eapply permitted_trans; [eapply (set_lamports_permitted _ ps l from)
    |eapply (set_lamports_permitted _ ps l to)]; done.
Qed.

Lemma create_account_permitted from to addr n space o signers t t' :
  from ∈ l -> to ∈ l ->
  SystemProgram.create_account from to addr n space o signers t = Ok t' -> permitted ps l t t'.
Proof.
  intros Hf Ht H. unfold SystemProgram.create_account, SystemProgram.allocate_and_assign in H.
  inv_ok. eapply permitted_trans; [|exact (transfer_permitted _ _ _ _ _ Hf Ht H)].
  eapply permitted_trans; [exact (allocate_permitted _ _ _ _ _ _ Ht Hr0)|].
  exact (assign_permitted _ _ _ _ _ _ Ht Hr).
Qed.

End System.

Lemma system_permitted ps l ix t t' :
  system_program_id ∈ ps ->
  SystemProgram.process_instruction ix l t = Ok t' -> permitted ps l t t'.
Proof.
  intros Hps H. unfold SystemProgram.process_instruction in H.
  destruct ix; try done; destruct l as [|a [|b l]]; try done; simpl in *;
    first [eapply create_account_permitted in H | eapply transfer_permitted in H
          |eapply allocate_permitted in H | eapply assign_permitted in H];
    try exact H; set_solver.
Qed.

(** ** Calls *)

Lemma find_info_Some l k c : find_info l k = Some c -> c ∈ l /\ key c = k.
Proof.
  unfold find_info. intros H. apply find_some in H as [Hin Hk]. apply Z.eqb_eq in Hk.
  split; [by apply list_elem_of_In|done].
Qed.

Lemma fold_ok_inv {A B E} (P : B -> B -> Prop) (f : A -> B -> result E B) l b b' :
  (forall x, P x x) -> (forall x y z, P x y -> P y z -> P x z) ->
  (forall x b b', x ∈ l -> f x b = Ok b' -> P b b') ->
  fold_ok f l b = Ok b' -> P b b'.
Proof.
  intros Hrefl Htrans. revert b. induction l as [|x l IH]; simpl; intros b Hf H; inv_ok; [done|].
  eapply Htrans; [apply (Hf x); [set_solver|done]|]. apply IH; [|done].
  intros y c c' Hy. apply Hf. set_solver.
Qed.

Lemma distinct_infos_subseteq seen l i : i ∈ distinct_infos seen l -> i ∈ l.
Proof.
  revert seen. induction l as [|j l IH]; intros seen; simpl; [done|].
  case_bool_decide; [|rewrite elem_of_cons]; rewrite ?elem_of_cons; naive_solver.
Qed.

Section Calls.
Context {env : Env} {laws : EnvLaws env}.

(** A callee gets no writable account that the caller does not have. *)
Lemma prepare_readonly caller ix signers callee k :
  prepare_next_instruction caller ix signers = Ok callee ->
  readonly caller k -> readonly callee k.
Proof.
  unfold prepare_next_instruction. intros H Hr. inv_ok.
  destruct (find_info caller (ix_program ix)); [|done]. inv_ok.
  match goal with Ha : all_ok _ _ = Ok ?r |- _ => try destruct r; apply all_ok_Forall in Ha;
    unfold readonly; eapply Forall_impl; [exact Ha|] end.
  intros i Hc <-. unfold check_privilege in Hc.
  destruct (find_info caller (key i)) as [c|] eqn:Ef; [|done].
  apply find_info_Some in Ef as [Hin Hk].
  pose proof (proj1 (Forall_forall _ _) Hr c Hin Hk) as Hw. rewrite Hw in Hc.
  destruct (is_writable i); [done|reflexivity].
Qed.

(** The programs that can change an account: those that are called, and with
    them the one that runs. *)
Definition callees : list Pubkey := system_program_id :: external_programs.
Definition running (prog : Pubkey) : list Pubkey := prog :: callees.

Lemma process_callee_permitted ix callee t t' :
  process_callee ix callee t = Ok t' -> permitted callees callee t t'.
Proof.
  unfold process_callee. intros H. case_match.
  - eapply system_permitted; [set_solver|done].
  - intros k. split; [intros Hr; by eapply external_readonly|].
    intros Ho. eapply external_foreign; [done|]. set_solver.
Qed.

Lemma translate_permitted w infos callee t t' :
  fold_ok (translate_account w infos) callee t = Ok t' ->
  permitted (running (this_program w)) (Program.infos w) t t'.
Proof.
  apply fold_ok_inv; [apply permitted_refl|apply permitted_trans|].
  intros i t1 t2 _ H. unfold translate_account in H.
  destruct (find_info (Program.infos w) (key i)) as [c|] eqn:Ef; [|done].
  apply find_info_Some in Ef as [Hin _].
  destruct (executable _); [inv_ok; apply permitted_refl|]. inv_ok.
  eapply update_callee_account_permitted; [| |done]; [set_solver|done].
Qed.

Lemma exit_permitted w t :
  exit_program w = Ok t -> permitted (running (this_program w)) (Program.infos w) (tx w) t.
Proof.
  unfold exit_program. intros H. inv_ok. revert Hr.
  apply fold_ok_inv; [apply permitted_refl|apply permitted_trans|].
  intros i t1 t2 Hi H. apply distinct_infos_subseteq in Hi.
  eapply deserialize_account_permitted; [| |done]; [set_solver|done].
Qed.

(** What the program sees at [k] has been brought into [t]. *)
Definition committed (w : World) (k : Pubkey) (t : Tx) : Prop :=
  executable (acct (accounts t) k) = false ->
  same_contents (acct (accounts t) k) (acct (view w) k).

Lemma translate_account_committed w infos i t t' k :
  translate_account w infos i t = Ok t' ->
  (k = key i -> committed w k t') /\ (committed w k t -> committed w k t').
Proof.
  intros H. unfold translate_account in H.
  destruct (find_info (Program.infos w) (key i)) as [c|] eqn:Ef; [|done].
  apply find_info_Some in Ef as [_ Hk].
  destruct (executable (acct (accounts t) (key i))) eqn:Ex; inv_ok.
  - split; [|done]. intros ->. unfold committed. congruence.
  - apply update_callee_account_Ok in H as (Hs & Hoc & He). rewrite Hk in *.
    unfold committed. split; [by intros ->|]. intros Hcom.
    destruct (Z.eq_dec k (key i)) as [->|Hne]; [done|]. by rewrite Hoc.
Qed.

Lemma translate_committed w infos l t t' i :
  fold_ok (translate_account w infos) l t = Ok t' -> i ∈ l -> committed w (key i) t'.
Proof.
  revert t. assert (forall l t k, committed w k t ->
    fold_ok (translate_account w infos) l t = Ok t' -> committed w k t') as Hkeep.
  { intros l0 t k. revert t. induction l0 as [|j l0 IH]; simpl; intros t Hc H; inv_ok; [done|].
    eapply IH; [|done].
    by apply (proj2 (translate_account_committed _ _ _ _ _ k Hr)). }
  induction l as [|j l IH]; simpl; intros t H Hi; [by apply not_elem_of_nil in Hi|]. inv_ok.
  apply elem_of_cons in Hi as [->|Hi]; [|by eapply IH].
  eapply Hkeep; [|done]. by apply (proj1 (translate_account_committed _ _ _ _ _ (key j) Hr)).
Qed.

(** After a call the program's memory is as before, or shows the callee's
    result on a writable account. *)
Lemma update_caller_inv before t w l s s' k :
  fold_ok (update_caller_account before t w) l s = Ok s' ->
  acct s' k = acct s k \/
  acct s' k = acct (accounts t) k /\
  exists i, i ∈ l /\ key i = k /\ is_writable i = true /\ executable (acct before k) = false.
Proof.
  revert s. induction l as [|i l IH]; simpl; intros s H; inv_ok; [by left|].
  match goal with Hu : update_caller_account _ _ _ _ _ = Ok _ |- _ => rename Hu into Hstep end.
  destruct (IH _ H) as [Heq|(Heq & j & Hj & Hrest)].
  - rewrite Heq. unfold update_caller_account in Hstep.
    destruct (negb (is_writable i) || _) eqn:Hw; [injection Hstep as <-; by left|].
    destruct (_ && _); [done|]. injection Hstep as <-.
    destruct (Z.eq_dec k (key i)) as [->|Hne]; [|rewrite acct_insert_ne by done; by left].
    right. rewrite acct_insert. split; [done|]. exists i.
    apply orb_false_iff in Hw as [Hw He]. apply negb_false_iff in Hw. split_and!; try done. set_solver.
  - right. split; [done|]. exists j. split; [set_solver|done].
Qed.

(** What the program keeps across a call. *)
Lemma cpi_Ok w ix account_infos signers w' :
  cpi w ix account_infos signers = Ok w' ->
  infos w' = infos w /\ this_program w' = this_program w /\ entry w' = entry w /\
  clock_slot w' = clock_slot w /\ cpis w' = cpis w ++ [ix] /\
  permitted (running (this_program w)) (infos w) (tx w) (tx w') /\
  (forall k, readonly (infos w) k -> acct (view w') k = acct (view w) k) /\
  (forall k, owner (acct (view w) k) ∉ callees ->
     data (acct (view w') k) = data (acct (view w) k) /\
     owner (acct (view w') k) = owner (acct (view w) k)).
Proof.
  unfold cpi. intros H. inv_ok.
  match goal with Hp : prepare_next_instruction _ _ _ = Ok ?c |- _ =>
    rename Hp into Hprep, c into callee end.
  match goal with Ht : fold_ok (translate_account _ _) _ _ = Ok ?t |- _ =>
    rename Ht into Htr, t into t1 end.
  match goal with Hc : process_callee _ _ _ = Ok ?t |- _ => rename Hc into Hcall, t into t2 end.
  match goal with Hv : fold_ok (update_caller_account _ _ _) _ _ = Ok _ |- _ => rename Hv into Hupd end.
  apply process_callee_permitted in Hcall.
  pose proof (fun k => prepare_readonly _ _ _ _ k Hprep) as Hro.
  simpl. split_and!; try done.
  - eapply permitted_trans; [by eapply translate_permitted|].
    eapply permitted_weaken; [| |exact Hcall]; [set_solver|]. by intros k Hk; apply Hro.
  - intros k Hk. destruct (update_caller_inv _ _ _ _ _ _ k Hupd) as [?|(_ & i & Hi & Hki & Hw & _)];
      [done|]. apply distinct_infos_subseteq in Hi.
    assert (readonly callee k) as Hr by (by apply Hro).
    pose proof (proj1 (Forall_forall _ _) Hr i Hi Hki). congruence.
  - intros k Hk. destruct (update_caller_inv _ _ _ _ _ _ k Hupd)
      as [->|(Heq & i & Hi & Hki & _ & He)]; [done|]. rewrite Heq.
    pose proof (translate_committed _ _ _ _ _ _ Htr Hi) as Hcom. rewrite Hki in Hcom.
    destruct (Hcom He) as (_ & Hd & Ho). rewrite <- Hd, <- Ho. apply Hcall. by rewrite Ho.
Qed.

(** ** Handlers *)

(** A handler changes the transaction only by calls, within its permissions. *)
Class Behaved {A} (m : M A) : Prop :=
  behaved w a w' : m w = Ok (a, w') ->
    infos w' = infos w /\ this_program w' = this_program w /\ entry w' = entry w /\
    clock_slot w' = clock_slot w /\
    permitted (running (this_program w)) (infos w) (tx w) (tx w').

#[export] Instance behaved_ret {A} (a : A) : Behaved (mret' a).
Proof. intros w b w' H. injection H as <- <-. by split_and!. Qed.

#[export] Instance behaved_bind {A B} (m : M A) (k : A -> M B) :
  Behaved m -> (forall a, Behaved (k a)) -> Behaved (mbind' m k).
Proof.
  intros Hm Hk w b w2 H. unfold mbind' in H. destruct (m w) as [[a w1]|] eqn:E; [|done].
  destruct (Hm _ _ _ E) as (Hi & Hp & He & Hs & Ht).
  destruct (Hk a _ _ _ H) as (Hi2 & Hp2 & He2 & Hs2 & Ht2). rewrite Hi, Hp, He, Hs in *.
  split_and!; try done. by eapply permitted_trans.
Qed.

#[export] Instance behaved_lift {E A} `{FromErr E Fault} (r : result E A) : Behaved (lift r).
Proof.
  intros w a w' Hl. unfold lift in Hl. destruct r; [|done]. injection Hl as <- <-.
  by split_and!.
Qed.

#[export] Instance behaved_ask {E A} `{FromErr E Fault} (r : Store -> result E A) :
  Behaved (ask r).
Proof. intros w a w' Ha. exact (behaved_lift (r (view w)) w a w' Ha). Qed.

#[export] Instance behaved_fault {A} e : Behaved (fault (A := A) e).
Proof. intros w a w' H. done. Qed.

#[export] Instance behaved_throw {A} e : Behaved (throw (A := A) e).
Proof. intros w a w' H. done. Qed.

#[export] Instance behaved_throw_vault {A} e : Behaved (throw_vault (A := A) e).
Proof. intros w a w' H. done. Qed.

#[export] Instance behaved_throw_restaking {A} e : Behaved (throw_restaking (A := A) e).
Proof. intros w a w' H. done. Qed.

#[export] Instance behaved_modify k f : Behaved (modify_account k f).
Proof.
  intros w a w' H. injection H as <- <-. by split_and!.
Qed.

#[export] Instance behaved_read A `{!AccountDeserialize A} i : Behaved (read A i).
Proof. unfold read. apply _. Qed.

#[export] Instance behaved_write {A} `{!AccountDeserialize A} i (a : A) : Behaved (write i a).
Proof. unfold write. apply _. Qed.

#[export] Instance behaved_write_new {A} `{!AccountDeserialize A} i (a : A) :
  Behaved (write_new i a).
Proof. unfold write_new. apply behaved_bind; [apply _|]. intros [|b d]; apply _. Qed.

#[export] Instance behaved_get_slot : Behaved get_slot.
Proof.
  intros w a w' H. injection H as <- <-. by split_and!.
Qed.

#[export] Instance behaved_if {A} (b : bool) (m1 m2 : M A) :
  Behaved m1 -> Behaved m2 -> Behaved (if b then m1 else m2).
Proof. by destruct b. Qed.

#[export] Instance behaved_split_at n l : Behaved (split_at n l).
Proof. unfold split_at. apply _. Qed.

Lemma invoke_signed_Ok ix account_infos seeds w w' u :
  invoke_signed ix account_infos seeds w = Ok (u, w') ->
  exists signers, cpi w ix account_infos signers = Ok w'.
Proof.
  unfold invoke_signed. intros H. inv_ok. eauto.
Qed.

#[export] Instance behaved_invoke_signed ix account_infos seeds :
  Behaved (invoke_signed ix account_infos seeds).
Proof.
  intros w u w' H. apply invoke_signed_Ok in H as [signers H].
  apply cpi_Ok in H as (? & ? & ? & ? & _ & ? & _). done.
Qed.

#[export] Instance behaved_invoke ix account_infos : Behaved (invoke ix account_infos).
Proof. unfold invoke. apply _. Qed.

#[export] Instance behaved_create_account payer new sys o space seeds :
  Behaved (create_account payer new sys o space seeds).
Proof. unfold create_account. apply _. Qed.

#[export] Instance behaved_realloc_info i n : Behaved (AccountInfo_realloc i n).
Proof.
  intros w a w' H. unfold AccountInfo_realloc in H.
  destruct (_ =? _).
  { injection H as <- <-. by split_and!. }
  destruct (_ >? _); [done|]. by eapply behaved_modify.
Qed.

#[export] Instance behaved_create_program_account {A} `{!AccountDeserialize A} payer new sys p
    seeds (a : A) : Behaved (create_program_account payer new sys p seeds a).
Proof. unfold create_program_account. apply _. Qed.

#[export] Instance behaved_close p a d : Behaved (close_program_account p a d).
Proof. unfold close_program_account. apply _. Qed.

#[export] Instance behaved_realloc i n payer : Behaved (realloc i n payer).
Proof. unfold realloc. apply _. Qed.

(** A handler run to its end, including the final commit. *)
Lemma run_permitted handler prog accs slot t t' trace :
  Behaved handler ->
  run_instruction handler prog accs slot t = Ok (t', trace) ->
  permitted (running prog) accs t t'.
Proof.
  intros Hb H. unfold run_instruction in H.
  destruct (handler (enter prog accs slot t)) as [[u w]|] eqn:E; [|done]. cbn [qbind] in H.
  destruct (Hb _ _ _ E) as (Hi & Hp & _ & _ & Ht). simpl in Hi, Hp, Ht.
  destruct (exit_program w) as [t1|] eqn:Ex; [|done]. cbn [qbind] in H. injection H as <- <-.
  apply exit_permitted in Ex. rewrite Hi, Hp in Ex. by eapply permitted_trans.
Qed.

End Calls.

(** Handlers are compositions of the above under matches on their accounts. *)
Ltac solve_behaved :=
  repeat match goal with
  | |- forall _, _ => intro
  | |- Behaved (mbind' _ _) => apply behaved_bind
  | |- Behaved (if _ then _ else _) => apply behaved_if
  | |- Behaved (match ?x with _ => _ end) => destruct x
  | |- Behaved _ => apply _
  end.
