(* ===== verification/Effects.v ===== *)
(** * What a run leaves behind

    Rules to follow one account and the sequence of calls through a handler
    up to the final commit. *)

From stdpp Require Import base numbers list gmap.
From Stdlib Require Import Lia.
From S2P Require Import Prelude Errors Pod Runtime SystemProgram Program Core Isolation.
Local Open Scope Z_scope.

(** ** Inversion of a successful run *)

Lemma mbind_Ok {A B} (m : M A) (k : A -> M B) w b w2 :
  mbind' m k w = Ok (b, w2) -> exists a w1, m w = Ok (a, w1) /\ k a w1 = Ok (b, w2).
Proof. unfold mbind'. destruct (m w) as [[a w1]|]; [eauto|done]. Qed.

Lemma lift_Ok {E A} `{FromErr E Fault} (r : result E A) w a w' :
  lift r w = Ok (a, w') -> r = Ok a /\ w' = w.
Proof. unfold lift. destruct r; [|done]. by intros [= <- <-]. Qed.

Lemma ask_Ok {E A} `{FromErr E Fault} (r : Store -> result E A) w a w' :
  ask r w = Ok (a, w') -> r (view w) = Ok a /\ w' = w.
Proof. apply lift_Ok. Qed.

Lemma read_Ok A `{!AccountDeserialize A} i w a w' :
  read A i w = Ok (a, w') ->
  try_from_slice_unchecked A (data (account_of (view w) i)) = Ok a /\ w' = w.
Proof. apply ask_Ok. Qed.

Lemma get_slot_Ok w s w' : get_slot w = Ok (s, w') -> s = clock_slot w /\ w' = w.
Proof. unfold get_slot. by intros [= <- <-]. Qed.

Lemma if_Ok {A} (b : bool) (m1 m2 : M A) w r :
  (if b then m1 else m2) w = Ok r -> (b = true /\ m1 w = Ok r) \/ (b = false /\ m2 w = Ok r).
Proof. destruct b; auto. Qed.

Lemma split_at_Ok n accs w x w' :
  split_at n accs w = Ok (x, w') -> x = (take n accs, drop n accs) /\ w' = w.
Proof. unfold split_at. case_match; [done|]. by intros [= <- <-]. Qed.

(** Take a run apart, binding by binding; calls and writes stay as they are. *)
Ltac run_inv_bind R :=
  lazymatch type of R with
  | split_at _ _ _ = _ => apply split_at_Ok in R as [-> ->]
  | lift _ _ = _ => apply lift_Ok in R as [R ->]
  | ask _ _ = _ => apply ask_Ok in R as [R ->]
  | read _ _ _ = _ => apply read_Ok in R as [R ->]
  | get_slot _ = _ => apply get_slot_Ok in R as [-> ->]
  | _ => idtac
  end.
Ltac run_inv H :=
  repeat (cbv beta in H;
  lazymatch type of H with
  | mbind' _ _ _ = Ok _ =>
      let R := fresh "R" in
      apply mbind_Ok in H as (? & ? & R & H); run_inv_bind R
  | (if ?b then _ else _) _ = Ok _ =>
      let C := fresh "C" in destruct b eqn:C; [try discriminate H|try discriminate H]
  | (let '_ := ?x in _) _ = Ok _ => destruct x
  | throw _ _ = Ok _ => discriminate H
  | throw_vault _ _ = Ok _ => discriminate H
  | throw_restaking _ _ = Ok _ => discriminate H
  end).

(** ** Opening a handler *)

Ltac destruct_accounts accs H := repeat (destruct accs as [|? accs]; try discriminate H).

Lemma lookup_required_eq {A} (l : list A) n r i :
  r = take n l -> (i < n)%nat -> l !! i = r !! i.
Proof. intros -> Hi. by rewrite lookup_take_lt. Qed.

Ltac solve_lookup :=
  first [reflexivity
        |match goal with E : _ = take _ _ |- _ => rewrite (lookup_required_eq _ _ _ _ E) by lia end;
         reflexivity].

Ltac open_handler accs H :=
  lazymatch type of H with
  | mbind' (split_at ?n accs) _ _ = _ =>
      let R := fresh "R" in
      let E := fresh "E" in
      apply mbind_Ok in H as (? & ? & R & H); apply split_at_Ok in R as [-> ->];
      cbv beta iota in H; remember (take n accs) as required eqn:E; destruct_accounts required H
  | _ => destruct_accounts accs H
  end; run_inv H.

(** Key comparisons behind the checks of the roles. *)
Lemma guard_eq {E} (a b : Z) (e : E) u :
  (if negb (a =? b) then Err e else Ok tt) = Ok u -> a = b.
Proof. destruct (Z.eqb_spec a b); [done|discriminate]. Qed.

(** The account at [pos] belongs to the program and holds an [A] that names
    the signer at [spos]. *)
Definition named_signer (A : Type) `{!AccountDeserialize A} (program_id : Pubkey)
    (accs : list AccountInfo) (s : Store) (pos spos : nat) (role : A -> Pubkey) : Prop :=
  exists i j a, accs !! pos = Some i /\ accs !! spos = Some j /\
    owner (account_of s i) = program_id /\
    try_from_slice_unchecked A (data (account_of s i)) = Ok a /\
    is_signer j = true /\ key j = role a.

Lemma load_program_account_owner A `{!AccountDeserialize A} program_id i b s u :
  load_program_account A program_id i b s = Ok u -> owner (account_of s i) = program_id.
Proof. unfold load_program_account. intros H. inv_ok. done. Qed.

(** A loaded account carries the discriminator of its type. *)
Lemma load_program_account_typed A `{!AccountDeserialize A} program_id i b s u :
  load_program_account A program_id i b s = Ok u ->
  head (data (account_of s i)) = Some (DISCRIMINATOR (A := A)).
Proof.
  unfold load_program_account. destruct (_ =? program_id); [|done].
  destruct (data (account_of s i)) as [|c d]; [done|]. simpl. destruct (b && _); [done|].
  by destruct (Z.eqb_spec c (DISCRIMINATOR (A := A))) as [->|].
Qed.

Lemma load_system_account_owner `{Env} i b s u :
  load_system_account i b s = Ok u -> owner (account_of s i) = system_program_id.
Proof. unfold load_system_account. intros Hl. inv_ok. done. Qed.

Lemma load_signer_Ok i b u : load_signer i b = Ok u -> is_signer i = true.
Proof. unfold load_signer. intros H. inv_ok. done. Qed.

(** The accounts behind the required ones. *)
Lemma required_app {A} n (r l : list A) : r = take n l -> l = r ++ drop n l.
Proof. intros ->. by rewrite take_drop. Qed.

(** ** Accounts along a run *)

(** The program sees data [d] of owner [p] at [k]. *)
Definition holds (w : World) (k p : Pubkey) (d : list Z) : Prop :=
  owner (acct (view w) k) = p /\ data (acct (view w) k) = d.

(** [w'] is a later state of the run that [w] belongs to, with [new] calls
    made in between. *)
Definition later (w w' : World) (new : list Instruction) : Prop :=
  infos w' = infos w /\ this_program w' = this_program w /\ entry w' = entry w /\
  clock_slot w' = clock_slot w /\ cpis w' = cpis w ++ new.

Lemma later_refl w : later w w [].
Proof. unfold later. by rewrite app_nil_r. Qed.

Lemma later_trans w1 w2 w3 l1 l2 : later w1 w2 l1 -> later w2 w3 l2 -> later w1 w3 (l1 ++ l2).
Proof.
  intros (? & ? & ? & ? & E1) (? & ? & ? & ? & E2). unfold later.
  rewrite E2, E1, app_assoc. split_and!; congruence.
Qed.

Section Effects.
Context {env : Env} {laws : EnvLaws env}.

Lemma write_effect {A} `{!AccountDeserialize A} i (a : A) w u w' :
  write i a w = Ok (u, w') ->
  later w w' [] /\
  (forall k p d, holds w k p d ->
     holds w' k p (if decide (k = key i) then write_back d a else d)).
Proof.
  unfold write, modify_account. intros H. injection H as <- <-. split.
  { unfold later. simpl. by rewrite app_nil_r. }
  intros k p d [Ho Hd]. unfold holds. simpl. destruct (decide (k = key i)) as [->|Hne].
  - rewrite acct_insert. simpl. by rewrite Hd.
  - by rewrite acct_insert_ne.
Qed.

Lemma write_new_effect {A} `{!AccountDeserialize A} i (a : A) w u w' :
  write_new i a w = Ok (u, w') ->
  later w w' [] /\
  (forall k p d, holds w k p d ->
     holds w' k p (if decide (k = key i) then write_back (DISCRIMINATOR (A := A) :: tail d) a else d)).
Proof.
  unfold write_new, mbind', ask, lift, modify_account. intros H.
  destruct (data (account_of (view w) i)) as [|b rest] eqn:Ed; [done|].
  destruct (try_from_slice_unchecked A (DISCRIMINATOR :: rest)); [|done]. injection H as <- <-.
  split. { unfold later. simpl. by rewrite app_nil_r. }
  intros k p d [Ho Hd]. unfold holds. simpl. destruct (decide (k = key i)) as [->|Hne].
  - rewrite acct_insert. simpl. unfold account_of in Ed. rewrite Ed in Hd. by subst.
  - by rewrite acct_insert_ne.
Qed.

Lemma write_holds {A} `{!AccountDeserialize A} i (a : A) w u w' p d :
  write i a w = Ok (u, w') -> holds w (key i) p d -> holds w' (key i) p (write_back d a).
Proof.
  intros H Hh. apply write_effect in H as [_ H]. specialize (H _ _ _ Hh).
  by rewrite decide_True in H.
Qed.

Lemma write_other {A} `{!AccountDeserialize A} i j (a : A) w u w' p d :
  write j a w = Ok (u, w') -> key i <> key j -> holds w (key i) p d -> holds w' (key i) p d.
Proof.
  intros H Hne Hh. apply write_effect in H as [_ H]. specialize (H _ _ _ Hh).
  by rewrite decide_False in H.
Qed.

(** A call is recorded and leaves alone what no called program owns. *)
Lemma invoke_effect ix account_infos seeds w u w' :
  invoke_signed ix account_infos seeds w = Ok (u, w') ->
  later w w' [ix] /\ (forall k p d, holds w k p d -> p ∉ callees -> holds w' k p d).
Proof.
  intros H. apply invoke_signed_Ok in H as [signers H].
  apply cpi_Ok in H as (? & ? & ? & ? & ? & _ & _ & Hown). split; [done|].
  intros k p d [<- <-] Hp. split; by apply Hown.
Qed.

(** A call leaves alone the accounts it does not name. *)
Lemma invoke_unnamed ix account_infos seeds w u w' k :
  invoke_signed ix account_infos seeds w = Ok (u, w') -> k ∉ map key (ix_accounts ix) ->
  acct (view w') k = acct (view w) k.
Proof.
  intros H Hk. apply invoke_signed_Ok in H as [signers H]. unfold cpi in H.
  apply qbind_Ok in H as (callee & Hp & H). apply qbind_Ok in H as (t1 & _ & H).
  apply qbind_Ok in H as (_ & _ & H). apply qbind_Ok in H as (t2 & _ & H).
  apply qbind_Ok in H as (_ & _ & H). apply qbind_Ok in H as (v & Hv & H). injection H as <-.
  simpl. destruct (update_caller_inv _ _ _ _ _ _ k Hv) as [?|(_ & i & Hi & <- & _)]; [done|].
  exfalso. apply Hk. apply distinct_infos_subseteq in Hi. unfold prepare_next_instruction in Hp.
  apply qbind_Ok in Hp as (_ & _ & Hp). destruct (find_info _ _); [|done]. injection Hp as <-.
  apply list_elem_of_fmap in Hi as (m & -> & Hm). apply list_elem_of_fmap. exists m. done.
Qed.

(** Creating an account leaves the other accounts of the program alone. *)
Lemma create_account_keeps payer new sys o space seeds w u w' k p d :
  create_account payer new sys o space seeds w = Ok (u, w') -> p ∉ callees ->
  holds w k p d -> holds w' k p d.
Proof.
  unfold create_account, invoke. intros H Hp Hh. run_inv H.
  - apply invoke_effect in H as [_ K]. by apply K.
  - apply invoke_effect in R1 as [_ K1]. apply invoke_effect in H as [_ K2]. apply K2, Hp.
    apply K1, Hp. apply if_Ok in R0 as [[_ R0]|[_ R0]]; [|by injection R0 as <- <-].
    apply invoke_effect in R0 as [_ K0]. by apply K0.
Qed.

Lemma create_program_account_keeps {A} `{!AccountDeserialize A} payer new sys program_id seeds
    (a : A) w u w' k p d :
  create_program_account payer new sys program_id seeds a w = Ok (u, w') -> p ∉ callees ->
  k <> key new -> holds w k p d -> holds w' k p d.
Proof.
  unfold create_program_account. intros H Hp Hk Hh. run_inv H.
  pose proof (create_account_keeps _ _ _ _ _ _ _ _ _ _ _ _ R Hp Hh) as Hh1.
  apply write_new_effect in H as [_ H]. specialize (H _ _ _ Hh1). by rewrite decide_False in H.
Qed.

Lemma modify_effect k f w u w' :
  modify_account k f w = Ok (u, w') ->
  later w w' [] /\ acct (view w') k = f (acct (view w) k) /\
  (forall k', k' <> k -> acct (view w') k' = acct (view w) k').
Proof.
  unfold modify_account. intros H. injection H as <- <-. split_and!.
  - unfold later. simpl. by rewrite app_nil_r.
  - simpl. apply acct_insert.
  - intros k' Hne. simpl. by apply acct_insert_ne.
Qed.

Lemma realloc_zero_effect i w u w' :
  AccountInfo_realloc i 0 w = Ok (u, w') ->
  later w w' [] /\ acct (view w') (key i) = (acct (view w) (key i))<|data := []|> /\
  (forall k', k' <> key i -> acct (view w') k' = acct (view w) k').
Proof.
  unfold AccountInfo_realloc. intros H.
  destruct (Z.eqb_spec 0 (zlen (data (account_of (view w) i)))) as [E|].
  - injection H as <- <-. split; [apply later_refl|]. split; [|done].
    unfold account_of, zlen in E. destruct (acct (view w) (key i)) as [? [|] ? ?]; [done|].
    simpl in E. lia.
  - destruct (_ >? _); [done|]. apply modify_effect in H as (HL & HE & HO).
    split_and!; [done| |done]. rewrite HE. unfold BorrowedAccount.resize, zlen.
    by replace (Z.to_nat (0 - Z.of_nat (length (data (account_of (view w) i))))) with 0%nat by lia.
Qed.

(** Closing an account empties it, gives it to the system program and moves
    its lamports. *)
Lemma close_effect p a d w u w' :
  close_program_account p a d w = Ok (u, w') ->
  owner (account_of (view w) a) = p /\ later w w' [] /\
  holds w' (key a) system_program_id [] /\ lamports (acct (view w') (key a)) = 0 /\
  (key d <> key a -> lamports (acct (view w') (key d))
                     = lamports (acct (view w) (key d)) + lamports (acct (view w) (key a))) /\
  (forall k q b, k <> key a -> holds w k q b -> holds w' k q b).
Proof.
  unfold close_program_account, mbind', ask, lift. intros H.
  destruct (Z.eqb_spec (owner (account_of (view w) a)) p) as [Ho|]; [|done]. simpl in H.
  destruct (checked_add U64_MAX _ _) as [total|] eqn:Et; [|done]. simpl in H.
  apply checked_add_Some in Et as [-> _].
  destruct (AccountInfo_realloc a 0 _) as [[u4 w4]|] eqn:E4; [|done]. injection H as <- <-.
  apply realloc_zero_effect in E4 as (L4 & A4 & O4). split; [done|]. split; [exact L4|].
  unfold holds. rewrite A4. simpl. rewrite !acct_insert. split_and!; try done.
  - intros Hne. rewrite O4 by done. simpl. rewrite !acct_insert_ne, acct_insert by done. done.
  - intros k q b Hk Hh. rewrite O4 by done. simpl. rewrite !acct_insert_ne by done.
    destruct (Z.eq_dec k (key d)) as [->|]; [by rewrite acct_insert|].
    by rewrite acct_insert_ne.
Qed.

(** ** The final commit *)

Lemma distinct_infos_covers seen l i :
  i ∈ l -> key i ∈ seen \/ exists j, j ∈ distinct_infos seen l /\ key j = key i.
Proof.
  revert seen. induction l as [|j l IH]; intros seen Hi; [by apply not_elem_of_nil in Hi|]. simpl.
  apply elem_of_cons in Hi as [->|Hi].
  - case_bool_decide; [by left|]. right. exists j. split; [set_solver|done].
  - case_bool_decide as Hs; [by apply IH|].
    destruct (IH (key j :: seen) Hi) as [Hin|(j' & Hj' & Hk)].
    + apply elem_of_cons in Hin as [Hk|Hin]; [|by left]. right. exists j. split; [set_solver|done].
    + right. exists j'. split; [set_solver|done].
Qed.

Definition kept (w : World) (k : Pubkey) (t : Tx) : Prop :=
  same_contents (acct (accounts t) k) (acct (view w) k).

Lemma commit_keeps w i pre t t' k :
  deserialize_account (this_program w) i pre (acct (view w) (key i)) t = Ok t' ->
  (k = key i -> kept w k t') /\ (kept w k t -> kept w k t').
Proof.
  intros H. apply deserialize_account_Ok in H as (Hs & Hc & _). unfold kept.
  split; [by intros ->|]. intros Hk. destruct (Z.eq_dec k (key i)) as [->|Hne]; [done|].
  by rewrite Hc.
Qed.

Lemma exit_effect w t i :
  exit_program w = Ok t -> i ∈ infos w ->
  same_contents (acct (accounts t) (key i)) (acct (view w) (key i)).
Proof.
  unfold exit_program. intros H Hi. apply qbind_Ok in H as (t1 & H & Hb).
  apply qbind_Ok in Hb as (_ & _ & Hb). injection Hb as ->.
  destruct (distinct_infos_covers [] (infos w) i Hi) as [Hn|(j & Hj & <-)];
    [by apply not_elem_of_nil in Hn|].
  change (kept w (key j) t).
  assert (forall l t1 k, kept w k t1 -> fold_ok (fun i t =>
      deserialize_account (this_program w) i (zlen (data (acct (entry w) (key i))))
        (acct (view w) (key i)) t) l t1 = Ok t -> kept w k t) as Hkeep.
  { intros l t0 k. revert t0. induction l as [|x l IH]; simpl; intros t0 Hk Hf.
    - by injection Hf as <-.
    - apply qbind_Ok in Hf as (t2 & Hx & Hf). eapply IH; [|done].
      by apply (proj2 (commit_keeps _ _ _ _ _ k Hx)). }
  revert H. generalize (tx w). induction (distinct_infos [] (infos w)) as [|x l IH];
    simpl; intros t0 Hf; [by apply not_elem_of_nil in Hj|].
  apply qbind_Ok in Hf as (t2 & Hx & Hf). apply elem_of_cons in Hj as [->|Hj]; [|by eapply IH].
  eapply Hkeep; [|done]. by apply (proj1 (commit_keeps _ _ _ _ _ (key x) Hx)).
Qed.

(** A run: the handler's final state is committed for every account it was
    given. *)
Lemma run_effect handler prog accs slot t t' trace :
  Behaved handler ->
  run_instruction handler prog accs slot t = Ok (t', trace) ->
  exists w, handler (enter prog accs slot t) = Ok (tt, w) /\ trace = cpis w /\
    forall i p d, i ∈ accs -> holds w (key i) p d ->
      owner (acct (accounts t') (key i)) = p /\ data (acct (accounts t') (key i)) = d /\
      lamports (acct (accounts t') (key i)) = lamports (acct (view w) (key i)).
Proof.
  intros Hb H. unfold run_instruction in H.
  destruct (handler (enter prog accs slot t)) as [[[] w]|] eqn:E; [|done]. cbn [qbind] in H.
  destruct (Hb _ _ _ E) as (Hi & _). simpl in Hi.
  destruct (exit_program w) as [t1|] eqn:Ex; [|done]. cbn [qbind] in H. injection H as <- <-.
  exists w. split_and!; [done|done|]. intros i p d Hin [<- <-].
  destruct (exit_effect w t1 i Ex) as (Hl & Hd & Ho); [by rewrite Hi|]. done.
Qed.

End Effects.

(** Accounts of different types have different keys. *)
Lemma parsed_ne {A B} `{!AccountDeserialize A, !AccountDeserialize B} s i j a b :
  try_from_slice_unchecked A (data (account_of s i)) = Ok a ->
  try_from_slice_unchecked B (data (account_of s j)) = Ok b ->
  DISCRIMINATOR (A := A) <> DISCRIMINATOR (A := B) -> key i <> key j.
Proof.
  intros Ha Hb Hd E. unfold account_of in *. rewrite E in Ha.
  unfold try_from_slice_unchecked in *. destruct (data (acct s (key j))) as [|c d]; [done|].
  destruct (Z.eqb_spec c (DISCRIMINATOR (A := A))) as [->|]; [|done].
  destruct (Z.eqb_spec (DISCRIMINATOR (A := A)) (DISCRIMINATOR (A := B))); done.
Qed.

Lemma owned_ne s i j : owner (account_of s i) <> owner (account_of s j) -> key i <> key j.
Proof. intros H E. apply H. unfold account_of. by rewrite E. Qed.

(** ** What the committed accounts store *)

(** [k] is an account of program [p] that stores [a]. *)
Definition stores {A} `{!AccountDeserialize A} (t : Tx) (k p : Pubkey) (a : A) : Prop :=
  owner (acct (accounts t) k) = p /\ bytes_wf (data (acct (accounts t) k)) /\
  try_from_slice_unchecked A (data (acct (accounts t) k)) = Ok a.

Section Stores.
Context {A : Type} `{!AccountDeserialize A} `{!LawfulPod (acc_codec (A := A))}.

Lemma stores_pod_wf t k p (a : A) : stores t k p a -> pod_wf acc_codec a.
Proof. intros (_ & Hb & H). by eapply try_from_slice_wf. Qed.

Lemma stores_write_back t t' k p (a a' : A) :
  stores t k p a -> pod_wf acc_codec a' -> owner (acct (accounts t') k) = p ->
  data (acct (accounts t') k) = write_back (data (acct (accounts t) k)) a' ->
  stores t' k p a'.
Proof.
  intros (_ & Hb & H) Hwf Ho Hd. split_and!; [done| |].
  - rewrite Hd. unfold write_back. apply bytes_wf_app. split; [by apply bytes_wf_take|].
    by apply to_bytes_wf.
  - rewrite Hd. by eapply try_from_write_back.
Qed.
End Stores.
