(* ===== verification/Testbed.v ===== *)
(** * A concrete environment

    An instance of [Env] in which every definition of the development can be
    evaluated: addresses are derived by a polynomial hash, the programs that
    are not in the repository accept every instruction and change nothing.
    It satisfies [EnvLaws], so the theorems that assume them apply. *)

From stdpp Require Import base numbers list gmap.
From Stdlib Require Import Lia.
From S2P Require Import Prelude Errors Pod DelegationState SlotToggle Runtime SystemProgram.
From S2P Require Import Program Core RestakingCore VaultConfig Vault VaultShares VaultTickets.
Local Open Scope Z_scope.

(** A hash of seeds and program into 64 bits, away from the fixed keys. *)
Definition test_derive (seeds : list (list Z)) (program : Pubkey) : Pubkey :=
  1000000 + foldl (fun h b => (h * 257 + b + 1) mod 18446744073709551557) (program + 7)
              (concat (map (fun s => Z.of_nat (length s) :: s) seeds)).

Definition test_client_accounts (ix : Instruction) : list AccountInfo :=
  match ix with
  | system_create_account from to _ _ _ => [mkInfo from true true; mkInfo to true true]
  | system_transfer from to _ => [mkInfo from true true; mkInfo to false true]
  | system_allocate k _ | system_assign k _ => [mkInfo k true true]
  | token_transfer _ source destination authority _ =>
      [mkInfo source false true; mkInfo destination false true; mkInfo authority true false]
  | token_mint_to _ mint account owner _ =>
      [mkInfo mint false true; mkInfo account false true; mkInfo owner true false]
  | token_burn _ account mint authority _ =>
      [mkInfo account false true; mkInfo mint false true; mkInfo authority true false]
  | token_close_account _ account destination owner =>
      [mkInfo account false true; mkInfo destination false true; mkInfo owner true false]
  | token_approve _ source delegate owner _ =>
      [mkInfo source false true; mkInfo delegate false false; mkInfo owner true false]
  | token_revoke _ source owner => [mkInfo source false true; mkInfo owner true false]
  | token_initialize_mint2 _ mint _ _ _ => [mkInfo mint false true]
  | create_associated_token_account funding wallet mint token_program =>
      [mkInfo funding true true; mkInfo (test_derive [[wallet]; [mint]] 12) false true;
       mkInfo wallet false false; mkInfo mint false false;
       mkInfo system_program_id false false; mkInfo token_program false false]
  | _ => []
  end.

Definition test_client_program (ix : Instruction) : Pubkey :=
  match ix with
  | system_create_account _ _ _ _ _ | system_transfer _ _ _ | system_allocate _ _
  | system_assign _ _ => system_program_id
  | create_associated_token_account _ _ _ _ => 12
  | _ => 10
  end.

(** Token data of the test environment: mint, owner and amount in three cells. *)
Definition test_token_unpack (d : list Z) : result ProgramError TokenAccount :=
  match d with
  | mint :: owner :: amount :: _ => Ok (mkTokenAccount mint owner amount)
  | _ => Err ProgramError.InvalidAccountData
  end.

#[export] Instance test_env : Env := {
  find_program_address seeds program := (test_derive (seeds ++ [[255]]) program, 255);
  create_program_address seeds program := Ok (test_derive seeds program);
  get_associated_token_address wallet mint := test_derive [[wallet]; [mint]] 12;
  spl_token_id := 10;
  spl_token_2022_id := 11;
  spl_associated_token_account_id := 12;
  VAULT_PROGRAM_ID := 20;
  RESTAKING_PROGRAM_ID := 21;
  minimum_balance space := 128 + space;
  DEFAULT_SLOTS_PER_EPOCH := 432000;
  token_2022_account_unpack := test_token_unpack;
  token_2022_mint_unpack d := Ok (mkTokenMint 0 9 None None);
  token_account_unpack := test_token_unpack;
  token_mint_unpack d := Ok (mkTokenMint 0 9 None None);
  token_2022_base_unpack := test_token_unpack;
  Mint_packed_len := 82;
  client_ix_accounts := test_client_accounts;
  client_ix_program := test_client_program;
  ix_build _ := Ok tt;
  external_process _ _ t := Ok t;
  external_programs := [10; 11; 12; mpl_token_metadata_id];
}.

#[export] Instance test_env_laws : EnvLaws test_env.
Proof.
  constructor; try reflexivity.
  - by intros [].
  - intros ix callee t t' k H _. by injection H as <-.
  - intros ix callee t t' k H _. by injection H as <-.
Qed.

(** ** A store with a configuration and a vault *)

(** The data of a program account holding [a]. *)
Definition account_bytes {A} `{!AccountDeserialize A} (a : A) : list Z :=
  write_back (DISCRIMINATOR (A := A) :: replicate (account_len A - 1) 0) a.

Definition program_account {A} `{!AccountDeserialize A} (program : Pubkey) (a : A) : Account :=
  mkAccount 1000000 (account_bytes a) program false.

Definition test_config : Config :=
  Config.mk 4 21 1000 1 2000 2500 10 10 6 4 255 (replicate 229 0).
Definition test_config_key : Pubkey := (Config.find_address 20).1.1.
Definition test_vault : Vault :=
  example_vault<|Vault.last_full_state_update_slot := 1500|>.
Definition test_vault_key : Pubkey := (Vault.find_address 20 1).1.1.

Definition test_operator : Operator := Operator.new 30 4 0 100 255.
Definition test_operator_key : Pubkey := (Operator.find_address 21 30).1.1.
Definition test_delegation : VaultOperatorDelegation :=
  (VaultOperatorDelegation.new test_vault_key test_operator_key 0 255 1500)
    <|VaultOperatorDelegation.delegation_state := DelegationState.new 1000 150 50|>.
Definition test_delegation_key : Pubkey :=
  (VaultOperatorDelegation.find_address 20 test_vault_key test_operator_key).1.1.

(** The store around a given vault. *)
Definition store_with (vault : Vault) : Store :=
  <[test_config_key := program_account 20 test_config]>
  (<[test_vault_key := program_account 20 vault]>
  (<[test_operator_key := program_account 21 test_operator]>
  (<[test_delegation_key := program_account 20 test_delegation]> ∅))).
Definition test_store : Store := store_with test_vault.
Definition tx_with (vault : Vault) : Tx := mkTx (store_with vault) 0 0.
Definition test_tx : Tx := tx_with test_vault.

Definition config_info : AccountInfo := mkInfo test_config_key false false.
Definition vault_info : AccountInfo := mkInfo test_vault_key false true.
Definition operator_info : AccountInfo := mkInfo test_operator_key false false.
Definition delegation_info : AccountInfo := mkInfo test_delegation_key false true.
Definition admin_info : AccountInfo := mkInfo 4 true false.
