(* ===== verification/VaultIsolation.v ===== *)
(** * The vault program as a whole: isolation *)

From stdpp Require Import base numbers list gmap.
From Stdlib Require Import Lia.
From S2P Require Import Prelude Errors Pod DelegationState SlotToggle Runtime SystemProgram.
From S2P Require Import Program Core Isolation RestakingCore VaultConfig Vault VaultTickets.
From S2P Require Import VaultInstruction VaultAdmin VaultTicketHandlers VaultShareHandlers.
From S2P Require Import VaultUpdateHandlers VaultProgram Testbed.
Local Open Scope Z_scope.

Ltac unfold_handlers :=
  unfold process_add_delegation, process_burn_withdrawal_ticket,
    process_change_withdrawal_ticket_owner, process_close_vault_update_state_tracker,
    process_cooldown_delegation, process_cooldown_vault_ncn_slasher_ticket,
    process_cooldown_vault_ncn_ticket, process_crank_vault_update_state_tracker,
    process_create_token_metadata, process_delegate_token_account,
    process_enqueue_withdrawal, process_initialize_config,
    process_initialize_vault, process_initialize_vault_ncn_slasher_operator_ticket,
    process_initialize_vault_ncn_slasher_ticket, process_initialize_vault_ncn_ticket,
    process_initialize_vault_operator_delegation, process_initialize_vault_update_state_tracker,
    process_initialize_vault_with_mint, process_mint,
    process_revoke_delegate_token_account, process_set_admin,
    process_set_config_admin, process_set_config_secondary_admin,
    process_set_deposit_capacity, process_set_fees,
    process_set_is_paused, process_set_program_fee,
    process_set_program_fee_wallet, process_set_secondary_admin,
    process_update_token_metadata, process_update_vault_balance,
    process_warmup_vault_ncn_slasher_ticket, process_warmup_vault_ncn_ticket.

Section VaultBehaved.
Context {env : Env} {laws : EnvLaws env}.

Lemma dispatch_behaved program_id accounts ix : Behaved (dispatch program_id accounts ix).
Proof.
  destruct ix; cbn [dispatch].
  all: unfold_handlers.
  all: solve_behaved.
Qed.

Lemma process_instruction_behaved decode program_id accounts data :
  Behaved (process_instruction decode program_id accounts data).
Proof.
  unfold process_instruction. apply behaved_if; [apply _|].
  apply behaved_bind; [apply _|]. intros ix. apply dispatch_behaved.
Qed.

End VaultBehaved.

(** ** An instruction of the test environment *)

(** The capacity admin sets the deposit capacity. *)
Definition test_decode (d : list Z) : result ProgramError VaultInstruction :=
  match d with
  | [n] => Ok (SetDepositCapacity n)
  | _ => Err ProgramError.InvalidInstructionData
  end.
Definition test_accounts : list AccountInfo := [config_info; vault_info; mkInfo 4 true false].
Definition test_run : result Fault (Tx * list Instruction) :=
  run_instruction (process_instruction test_decode 20 test_accounts [5000]) 20 test_accounts 1600
    test_tx.

Lemma test_run_Ok : exists t' trace, test_run = Ok (t', trace) /\
  try_from_slice_unchecked Vault (data (acct (accounts t') test_vault_key))
  = Ok test_vault<|Vault.deposit_capacity := 5000|>.
Proof.
  destruct test_run as [[t' trace]|] eqn:E; [|vm_compute in E; done].
  exists t', trace. split; [done|]. vm_compute in E. injection E as <- <-.
  vm_compute. reflexivity.
Qed.

(** ** Claims *)

(** C9: the vault program changes no read-only account.  Whatever the
    instruction data, the accounts and the behaviour of the programs it calls,
    a successful instruction leaves lamports, data and owner of every account
    that was not passed as writable as they were: pending writes are refused
    when the program returns, and no call can gain a privilege. *)
Theorem vault_program_respects_readonly {env : Env} {laws : EnvLaws env} decode program_id accs ixd
    prog slot t t' trace k :
  run_instruction (process_instruction decode program_id accs ixd) prog accs slot t
  = Ok (t', trace) ->
  readonly accs k -> acct (accounts t') k = acct (accounts t) k.
Proof.
  intros H Hk. eapply run_permitted in H; [|apply process_instruction_behaved]. by apply H.
Qed.

Lemma vault_program_respects_readonly_witness :
  exists t' trace, test_run = Ok (t', trace) /\
    acct (accounts t') test_config_key = acct (accounts test_tx) test_config_key.
Proof.
  destruct test_run as [[t' trace]|] eqn:E; [|vm_compute in E; done].
  exists t', trace. split; [reflexivity|].
  apply (vault_program_respects_readonly test_decode 20 test_accounts [5000] 20 1600 test_tx t'
           trace test_config_key E).
  repeat constructor; vm_compute; congruence.
Defined.

(** C10: the vault program changes only what it or a called program owns.  The
    data and the owner of an account that belongs neither to the vault
    program, nor to the system program, nor to a program it calls are the same
    after a successful instruction, even when the account was passed as
    writable. *)
Theorem vault_program_respects_ownership {env : Env} {laws : EnvLaws env} decode program_id accs
    ixd prog slot t t' trace k :
  run_instruction (process_instruction decode program_id accs ixd) prog accs slot t
  = Ok (t', trace) ->
  owner (acct (accounts t) k) ∉ running prog ->
  data (acct (accounts t') k) = data (acct (accounts t) k) /\
  owner (acct (accounts t') k) = owner (acct (accounts t) k).
Proof.
  intros H Hk. eapply run_permitted in H; [|apply process_instruction_behaved]. by apply H.
Qed.

Lemma vault_program_respects_ownership_witness :
  let t := mkTx (<[4 := mkAccount 5 [1; 2; 3] 99 false]> test_store) 0 0 in
  let accs := [config_info; vault_info; mkInfo 4 true true] in
  exists t' trace,
    run_instruction (process_instruction test_decode 20 accs [5000]) 20 accs 1600 t
    = Ok (t', trace) /\
    data (acct (accounts t') 4) = [1; 2; 3] /\ owner (acct (accounts t') 4) = 99.
Proof.
  intros t accs.
  destruct (run_instruction (process_instruction test_decode 20 accs [5000]) 20 accs 1600 t)
    as [[t' trace]|] eqn:E; [|vm_compute in E; done].
  exists t', trace. split; [reflexivity|].
  apply (vault_program_respects_ownership test_decode 20 accs [5000] 20 1600 t t' trace 4 E).
  apply (bool_decide_unpack _). vm_compute. exact I.
Defined.
