(* ===== verification/VaultAuthority.v ===== *)
(** * Who may run which instruction, and when

    Tables of the authority, the pause check and the up-to-date check of every
    vault instruction, and the theorems that the handlers enforce them. *)

From stdpp Require Import base numbers list gmap.
From Stdlib Require Import Lia.
From S2P Require Import Prelude Errors Pod DelegationState SlotToggle Runtime SystemProgram.
From S2P Require Import Program Core RestakingCore VaultConfig Vault VaultTickets.
From S2P Require Import VaultInstruction VaultAdmin VaultTicketHandlers VaultShareHandlers.
From S2P Require Import VaultUpdateHandlers VaultProgram Isolation Effects Testbed VaultIsolation.
Local Open Scope Z_scope.

(** ** Tables *)

(** The account whose contents name the signer, and the signer's position; an
    optional role binds only when the vault names somebody. *)
Inductive Authority : Type :=
| VaultRole (vault_pos signer_pos : nat) (role : Vault -> Pubkey)
| ConfigRole (config_pos signer_pos : nat) (role : Config -> Pubkey)
| TicketRole (ticket_pos signer_pos : nat) (role : VaultStakerWithdrawalTicket -> Pubkey)
| OptionalVaultRole (vault_pos signer_pos : nat) (role : Vault -> Pubkey)
| Anyone.

Definition authority (ix : VaultInstruction) : Authority :=
  match ix with
  | InitializeVaultNcnTicket => VaultRole 1 5 Vault.ncn_admin
  | InitializeVaultOperatorDelegation => VaultRole 1 5 Vault.operator_admin
  | InitializeVaultNcnSlasherTicket => VaultRole 1 6 Vault.slasher_admin
  | WarmupVaultNcnTicket | CooldownVaultNcnTicket => VaultRole 1 4 Vault.ncn_admin
  | WarmupVaultNcnSlasherTicket | CooldownVaultNcnSlasherTicket =>
      VaultRole 1 5 Vault.slasher_admin
  | AddDelegation _ | CooldownDelegation _ => VaultRole 1 4 Vault.delegation_admin
  | SetAdmin | SetSecondaryAdmin _ | SetIsPaused _ => VaultRole 1 2 Vault.admin
  | SetDepositCapacity _ => VaultRole 1 2 Vault.capacity_admin
  | SetFees _ _ _ => VaultRole 1 2 Vault.fee_admin
  | DelegateTokenAccount | RevokeDelegateTokenAccount =>
      VaultRole 1 2 Vault.delegate_asset_admin
  | CreateTokenMetadata _ _ _ | UpdateTokenMetadata _ _ _ => VaultRole 0 1 Vault.admin
  | SetProgramFee _ | SetConfigAdmin | SetConfigSecondaryAdmin _ => ConfigRole 0 1 Config.admin
  | SetProgramFeeWallet => ConfigRole 0 1 Config.fee_admin
  | ChangeWithdrawalTicketOwner => TicketRole 2 3 VaultStakerWithdrawalTicket.staker
  | MintTo _ _ | EnqueueWithdrawal _ => OptionalVaultRole 1 9 Vault.mint_burn_admin
  | BurnWithdrawalTicket => OptionalVaultRole 1 12 Vault.mint_burn_admin
  | _ => Anyone
  end.

(** The vault at its position belongs to the program; if it names somebody for
    the role, that account signed. *)
Definition optional_signer (program_id : Pubkey) (accs : list AccountInfo) (s : Store)
    (pos spos : nat) (role : Vault -> Pubkey) : Prop :=
  exists i v, accs !! pos = Some i /\ owner (account_of s i) = program_id /\
    try_from_slice_unchecked Vault (data (account_of s i)) = Ok v /\
    (role v <> Pubkey_default ->
     exists j, accs !! spos = Some j /\ is_signer j = true /\ key j = role v).

Definition authorised (program_id : Pubkey) (accs : list AccountInfo) (s : Store)
    (a : Authority) : Prop :=
  match a with
  | VaultRole p q role => named_signer Vault program_id accs s p q role
  | ConfigRole p q role => named_signer Config program_id accs s p q role
  | TicketRole p q role => named_signer VaultStakerWithdrawalTicket program_id accs s p q role
  | OptionalVaultRole p q role => optional_signer program_id accs s p q role
  | Anyone => True
  end.

(** The instructions a paused vault refuses. *)
Definition refused_when_paused (ix : VaultInstruction) : bool :=
  match ix with
  | InitializeVaultNcnTicket | InitializeVaultOperatorDelegation
  | InitializeVaultNcnSlasherTicket | InitializeVaultNcnSlasherOperatorTicket
  | WarmupVaultNcnTicket | CooldownVaultNcnTicket
  | WarmupVaultNcnSlasherTicket | CooldownVaultNcnSlasherTicket
  | MintTo _ _ | EnqueueWithdrawal _ | ChangeWithdrawalTicketOwner | BurnWithdrawalTicket
  | AddDelegation _ | CooldownDelegation _ | UpdateVaultBalance
  | InitializeVaultUpdateStateTracker _ | CrankVaultUpdateStateTracker
  | CloseVaultUpdateStateTracker _ => true
  | _ => false
  end.

(** The instructions that need the vault's update of the current epoch. *)
Definition refused_when_stale (ix : VaultInstruction) : bool :=
  match ix with
  | InitializeVaultNcnTicket | InitializeVaultOperatorDelegation
  | InitializeVaultNcnSlasherTicket | InitializeVaultNcnSlasherOperatorTicket
  | WarmupVaultNcnTicket | CooldownVaultNcnTicket
  | WarmupVaultNcnSlasherTicket | CooldownVaultNcnSlasherTicket
  | MintTo _ _ | EnqueueWithdrawal _ | BurnWithdrawalTicket
  | AddDelegation _ | CooldownDelegation _ | UpdateVaultBalance => true
  | _ => false
  end.

(** ** Lemmas *)

Section Loads.
Context {env : Env}.

Lemma Config_load_owner p i b s u : Config.load p i b s = Ok u -> owner (account_of s i) = p.
Proof. unfold Config.load. intros H.
  apply qbind_Ok in H as (? & H & _). exact (load_program_account_owner _ _ _ _ _ _ H). Qed.

Lemma Vault_load_owner p i b s u : Vault.load p i b s = Ok u -> owner (account_of s i) = p.
Proof. unfold Vault.load. intros H.
  apply qbind_Ok in H as (? & H & _). exact (load_program_account_owner _ _ _ _ _ _ H). Qed.

Lemma Ticket_load_owner p i v b s u :
  VaultStakerWithdrawalTicket.load p i v b s = Ok u -> owner (account_of s i) = p.
Proof.
  unfold VaultStakerWithdrawalTicket.load. intros H.
  apply qbind_Ok in H as (? & H & _). exact (load_program_account_owner _ _ _ _ _ _ H).
Qed.

Lemma check_is_paused_Ok v u : Vault.check_is_paused v = Ok u -> Vault.is_paused v = false.
Proof. unfold Vault.check_is_paused. by destruct (Vault.is_paused v). Qed.

Lemma check_update_state_ok_Ok v slot el u :
  Vault.check_update_state_ok v slot el = Ok u ->
  slot / el <= Vault.last_full_state_update_slot v / el /\ el <> 0.
Proof.
  unfold Vault.check_update_state_ok, Vault.is_update_needed. intros H.
  apply qbind_Ok in H as (needed & Hn & H). destruct needed; [done|].
  apply qbind_Ok in Hn as (e1 & H1 & Hn). apply qbind_Ok in Hn as (e2 & H2 & Hn).
  apply get_epoch_inv in H1 as [-> ?]. apply get_epoch_inv in H2 as [-> _].
  injection Hn as Hn. apply Z.ltb_ge in Hn. done.
Qed.

End Loads.

(** The vault at its position, as the instruction found it. *)
Definition vault_at (accs : list AccountInfo) (s : Store) (pos : nat) (v : Vault) : Prop :=
  exists i, accs !! pos = Some i /\
    try_from_slice_unchecked Vault (data (account_of s i)) = Ok v.
Definition config_at (accs : list AccountInfo) (s : Store) (pos : nat) (c : Config) : Prop :=
  exists i, accs !! pos = Some i /\
    try_from_slice_unchecked Config (data (account_of s i)) = Ok c.

Section Gates.
Context {env : Env}.

Ltac simplify_guards :=
  repeat match goal with
  | C : negb (_ =? _) = false |- _ => apply negb_false_iff, Z.eqb_eq in C
  | C : (_ =? _) = false |- _ => clear C
  | R : _ = Ok _ |- _ =>
      lazymatch type of R with
      | Vault.check_admin _ _ = _ => apply guard_eq in R
      | Vault.check_ncn_admin _ _ = _ => apply guard_eq in R
      | Vault.check_operator_admin _ _ = _ => apply guard_eq in R
      | Vault.check_slasher_admin _ _ = _ => apply guard_eq in R
      | Vault.check_delegation_admin _ _ = _ => apply guard_eq in R
      | Vault.check_capacity_admin _ _ = _ => apply guard_eq in R
      | Vault.check_fee_admin _ _ = _ => apply guard_eq in R
      | Vault.check_delegate_asset_admin _ _ = _ => apply guard_eq in R
      | Config.check_admin _ _ = _ => apply guard_eq in R
      | VaultStakerWithdrawalTicket.check_staker _ _ = _ => apply guard_eq in R
      end
  end.

Ltac solve_named_signer :=
  eexists _, _, _; split; [reflexivity|]; split; [reflexivity|];
  split; [by eauto using Config_load_owner, Vault_load_owner, Ticket_load_owner|];
  split; [eassumption|]; split; [by eapply load_signer_Ok|];
  simplify_guards; congruence.

Lemma check_mint_burn_admin_Ok v optional u :
  Vault.check_mint_burn_admin v optional = Ok u -> Vault.mint_burn_admin v <> Pubkey_default ->
  exists j, optional = Some j /\ is_signer j = true /\ key j = Vault.mint_burn_admin v.
Proof.
  unfold Vault.check_mint_burn_admin. intros H Hne. rewrite (proj2 (Z.eqb_neq _ _) Hne) in H. cbn in H.
  destruct optional as [j|]; [|done]. exists j. apply qbind_Ok in H as (x & Hs & H).
  destruct (load_signer j false) as [y|] eqn:E; [|done].
  split; [done|]. split; [by eapply load_signer_Ok|].
  destruct (Z.eqb_spec (key j) (Vault.mint_burn_admin v)); [done|]. done.
Qed.

Lemma dispatch_trader program_id accs ix w u w' p q role :
  dispatch program_id accs ix w = Ok (u, w') -> authority ix = OptionalVaultRole p q role ->
  optional_signer program_id accs (view w) p q role.
Proof.
  intros H Hix. destruct ix; try discriminate Hix; injection Hix as <- <- <-; cbn [dispatch] in H.
  all: revert H; unfold_handlers; intros H.
  all: open_handler accs H.
  all: match goal with Hp : Vault.check_mint_burn_admin ?v _ = Ok _ |- _ =>
         eexists _, v; split; [solve_lookup|]; split; [by eapply Vault_load_owner|]; split; [eassumption|];
         intros Hne; destruct (check_mint_burn_admin_Ok _ _ _ Hp Hne) as (j & Hj & Hs & Hk) end.
  all: rewrite head_lookup, lookup_drop in Hj; by exists j.
Qed.

Lemma dispatch_authorised program_id accs ix w u w' :
  dispatch program_id accs ix w = Ok (u, w') -> authorised program_id accs (view w) (authority ix).
Proof.
  intros H. destruct (authority ix) eqn:Hix; [..|by eapply dispatch_trader|exact I].
  all: destruct ix; try discriminate Hix; injection Hix as <- <- <-; cbn [dispatch authorised] in *.
  all: revert H; unfold_handlers; intros H.
  all: destruct_accounts accs H.
  all: run_inv H.
  all: solve_named_signer.
Qed.

Lemma dispatch_unpaused program_id accs ix w u w' :
  dispatch program_id accs ix w = Ok (u, w') -> refused_when_paused ix = true ->
  exists v, vault_at accs (view w) 1 v /\ Vault.is_paused v = false.
Proof.
  intros H Hix. destruct ix; try discriminate Hix; cbn [dispatch] in H.
  all: revert H; unfold_handlers; intros H.
  all: open_handler accs H.
  all: match goal with Hp : Vault.check_is_paused ?v = Ok _ |- _ => exists v;
         split; [|by eapply check_is_paused_Ok] end.
  all: eexists; split; [solve_lookup|eassumption].
Qed.

Lemma dispatch_up_to_date program_id accs ix w u w' :
  dispatch program_id accs ix w = Ok (u, w') -> refused_when_stale ix = true ->
  exists c v, config_at accs (view w) 0 c /\ vault_at accs (view w) 1 v /\
    clock_slot w / Config.epoch_length c
    <= Vault.last_full_state_update_slot v / Config.epoch_length c.
Proof.
  intros H Hix. destruct ix; try discriminate Hix; cbn [dispatch] in H.
  all: revert H; unfold_handlers; intros H.
  all: open_handler accs H.
  all: match goal with Hp : Vault.check_update_state_ok ?v _ (Config.epoch_length ?c) = Ok _ |- _ =>
         exists c, v; split; [|split; [|by eapply check_update_state_ok_Ok]] end.
  all: eexists; split; [solve_lookup|eassumption].
Qed.

End Gates.

(** ** From the entry point to the handler *)

Lemma run_dispatch {env : Env} decode program_id accs ixd prog slot t t' trace :
  run_instruction (process_instruction decode program_id accs ixd) prog accs slot t
  = Ok (t', trace) ->
  exists ix w, decode ixd = Ok ix /\ program_id = VAULT_PROGRAM_ID /\
    dispatch program_id accs ix (enter prog accs slot t) = Ok (tt, w).
Proof.
  unfold run_instruction, process_instruction. intros H.
  destruct (Z.eqb_spec program_id VAULT_PROGRAM_ID) as [->|]; [|done]. simpl in H.
  unfold mbind', lift in H. destruct (decode ixd) as [ix|]; [|done].
  destruct (dispatch VAULT_PROGRAM_ID accs ix (enter prog accs slot t)) as [[[] w]|] eqn:E; [|done].
  exists ix, w. done.
Qed.

(** The delegation admin delegates 100 tokens to the test operator. *)
Definition delegation_decode (d : list Z) : result ProgramError VaultInstruction :=
  match d with
  | [n] => Ok (AddDelegation n)
  | _ => Err ProgramError.InvalidInstructionData
  end.
Definition delegation_accounts : list AccountInfo :=
  [config_info; vault_info; operator_info; delegation_info; admin_info].
Definition delegation_run (vault : Vault) (slot : Z) : result Fault (Tx * list Instruction) :=
  run_instruction (process_instruction delegation_decode 20 delegation_accounts [100]) 20
    delegation_accounts slot (tx_with vault).

(** ** Claims *)

(** C8: every privileged instruction needs the signature of its authority.
    A successful instruction of the vault program was run under the program's
    id, and, for each instruction of the table, the account at the given
    position is owned by the program and stores the key of the account that
    signed: the matching admin of the vault, the admin or fee admin of the
    configuration, or the owner of the withdrawal ticket.  Deposits, withdrawal
    requests and withdrawals need the signature of the vault's mint and burn
    admin if it has one. *)
Theorem instructions_need_their_authority {env : Env} decode program_id accs ixd prog slot t t'
    trace :
  run_instruction (process_instruction decode program_id accs ixd) prog accs slot t
  = Ok (t', trace) ->
  exists ix, decode ixd = Ok ix /\ program_id = VAULT_PROGRAM_ID /\
    authorised program_id accs (accounts t) (authority ix).
Proof.
  intros H. apply run_dispatch in H as (ix & w & Hd & Hp & H). exists ix.
  split_and!; [done|done|]. by apply dispatch_authorised in H.
Qed.

Lemma instructions_need_their_authority_witness :
  is_ok (delegation_run test_vault 1600) = true /\
  named_signer Vault 20 delegation_accounts (accounts test_tx) 1 4 Vault.delegation_admin.
Proof.
  split; [vm_compute; reflexivity|].
  destruct (delegation_run test_vault 1600) as [[t' trace]|] eqn:E; [|vm_compute in E; done].
  destruct (instructions_need_their_authority delegation_decode 20 delegation_accounts [100] 20
              1600 test_tx t' trace E) as (ix & Hd & _ & H).
  injection Hd as <-. exact H.
Defined.

(** A paused vault is frozen.  No instruction that moves shares or stake,
    creates or toggles a relation, or advances the update cycle succeeds on a
    vault whose pause flag is set, whatever the other accounts are. *)
Theorem paused_vault_is_frozen {env : Env} decode program_id accs ixd prog slot t ix v :
  decode ixd = Ok ix -> refused_when_paused ix = true ->
  vault_at accs (accounts t) 1 v -> Vault.is_paused v = true ->
  is_ok (run_instruction (process_instruction decode program_id accs ixd) prog accs slot t)
  = false.
Proof.
  intros Hd Hix (i & Hi & Hv) Hp.
  destruct (run_instruction _ prog accs slot t) as [[t' trace]|] eqn:H; [|done].
  apply run_dispatch in H as (ix' & w & Hd' & _ & H). rewrite Hd in Hd'. injection Hd' as <-.
  apply dispatch_unpaused in H as (v' & (i' & Hi' & Hv') & Hp'); [|done]. simpl in Hv'.
  rewrite Hi in Hi'. injection Hi' as <-. rewrite Hv in Hv'. injection Hv' as <-. congruence.
Qed.

Lemma paused_vault_is_frozen_witness :
  is_ok (delegation_run test_vault 1600) = true /\
  is_ok (delegation_run (Vault.set_is_paused test_vault true) 1600) = false.
Proof.
  split; [vm_compute; reflexivity|].
  apply (paused_vault_is_frozen delegation_decode 20 delegation_accounts [100] 20 1600
    (tx_with (Vault.set_is_paused test_vault true)) (AddDelegation 100)
    (Vault.set_is_paused test_vault true)).
  - reflexivity.
  - reflexivity.
  - exists vault_info. split; vm_compute; reflexivity.
  - reflexivity.
Defined.

(** A stale vault does not trade.  Deposits, withdrawals, delegation,
    balance updates and changes of relations succeed only when the vault's
    last full update was made in the current epoch. *)
Theorem stale_vault_does_not_trade {env : Env} decode program_id accs ixd prog slot t ix c v :
  decode ixd = Ok ix -> refused_when_stale ix = true ->
  config_at accs (accounts t) 0 c -> vault_at accs (accounts t) 1 v ->
  Vault.last_full_state_update_slot v / Config.epoch_length c < slot / Config.epoch_length c ->
  is_ok (run_instruction (process_instruction decode program_id accs ixd) prog accs slot t)
  = false.
Proof.
  intros Hd Hix (ic & Hic & Hc) (iv & Hiv & Hv) Hlt.
  destruct (run_instruction _ prog accs slot t) as [[t' trace]|] eqn:H; [|done].
  apply run_dispatch in H as (ix' & w & Hd' & _ & H). rewrite Hd in Hd'. injection Hd' as <-.
  apply dispatch_up_to_date in H as (c' & v' & (ic' & Hic' & Hc') & (iv' & Hiv' & Hv') & Hle);
    [|done]. simpl in Hc', Hv', Hle.
  rewrite Hic in Hic'. injection Hic' as <-. rewrite Hc in Hc'. injection Hc' as <-.
  rewrite Hiv in Hiv'. injection Hiv' as <-. rewrite Hv in Hv'. injection Hv' as <-. lia.
Qed.

Lemma stale_vault_does_not_trade_witness :
  is_ok (delegation_run test_vault 1999) = true /\ is_ok (delegation_run test_vault 2000) = false.
Proof.
  split; [vm_compute; reflexivity|].
  apply (stale_vault_does_not_trade delegation_decode 20 delegation_accounts [100] 20 2000
    test_tx (AddDelegation 100) test_config test_vault).
  - reflexivity.
  - reflexivity.
  - exists config_info. split; vm_compute; reflexivity.
  - exists vault_info. split; vm_compute; reflexivity.
  - vm_compute. reflexivity.
Defined.
