(* ===== verification/VaultEffects.v ===== *)
(** * What the vault's instructions do to the ledger

    From the first byte of an instruction to the committed accounts: which
    token instructions a deposit, a withdrawal, a reward update makes, with
    which amounts, and what is stored in the vault afterwards. *)

From stdpp Require Import base numbers list gmap.
From Stdlib Require Import Lia.
From S2P Require Import Prelude Errors Pod DelegationState SlotToggle Runtime SystemProgram.
From S2P Require Import Program Core RestakingCore VaultConfig Vault VaultTickets.
From S2P Require Import VaultInstruction VaultAdmin VaultTicketHandlers VaultShareHandlers.
From S2P Require Import VaultUpdateHandlers VaultProgram VaultShares VaultFees UpdateCycle Isolation Effects Testbed.
From S2P Require Import VaultIsolation VaultAuthority.
Local Open Scope Z_scope.

Section VaultEffects.
Context {env : Env} {laws : EnvLaws env}.

Lemma loaded_holds program_id i b w u :
  Vault.load program_id i b (view w) = Ok u ->
  holds w (key i) program_id (data (account_of (view w) i)).
Proof. intros H. split; [by apply Vault_load_owner in H|done]. Qed.

Lemma process_mint_effect program_id accs a m w w' u :
  process_mint program_id accs a m w = Ok (u, w') -> program_id ∉ callees ->
  exists ci vi mint dep dta vta dvta fta tp opt v v' s,
    accs = [ci; vi; mint; dep; dta; vta; dvta; fta; tp] ++ opt /\
    try_from_slice_unchecked Vault (data (account_of (view w) vi)) = Ok v /\
    Vault.mint_with_fee v a m = Ok (v', s) /\ vrt_to_depositor s <> 0 /\
    later w w'
      [token_transfer spl_token_id (key dta) (key vta) (key dep) a;
       token_mint_to spl_token_id (key mint) (key dvta) (key vi) (vrt_to_depositor s);
       token_mint_to spl_token_id (key mint) (key fta) (key vi) (vrt_to_fee_wallet s)] /\
    holds w' (key vi) program_id (write_back (data (account_of (view w) vi)) v').
Proof.
  unfold process_mint. intros H Hp. open_handler accs H.
  apply loaded_holds in R1. pose proof (write_holds _ _ _ _ _ _ _ R15 R1) as Hh.
  apply write_effect in R15 as [L0 _]. apply invoke_effect in R16 as [L1 K1].
  apply invoke_effect in R17 as [L2 K2]. apply invoke_effect in H as [L3 K3].
  exists a0, a1, a2, a3, a4, a5, a6, a7, a8, (drop 9 accs), x2, v, m0.
  split; [by apply required_app|]. split; [done|]. split; [done|].
  split; [by apply Z.eqb_neq in C1|]. split; [|by auto].
  exact (later_trans _ _ _ _ _ L0 (later_trans _ _ _ _ _ L1 (later_trans _ _ _ _ _ L2 L3))).
Qed.

Lemma process_update_vault_balance_effect program_id accs w w' u :
  process_update_vault_balance program_id accs w = Ok (u, w') -> program_id ∉ callees ->
  exists ci vi vta mint fta tp v b v' f,
    accs = [ci; vi; vta; mint; fta; tp] /\
    try_from_slice_unchecked Vault (data (account_of (view w) vi)) = Ok v /\
    token_account_unpack (data (account_of (view w) vta)) = Ok b /\
    update_balance v (ta_amount b) = Ok (v', f) /\
    later w w' (if f >? 0
                then [token_mint_to spl_token_id (key mint) (key fta) (key vi) f] else []) /\
    holds w' (key vi) program_id (write_back (data (account_of (view w) vi)) v').
Proof.
  unfold process_update_vault_balance. intros H Hp. open_handler accs H.
  all: apply loaded_holds in R0; pose proof (write_holds _ _ _ _ _ _ _ R12 R0) as Hh.
  all: apply write_effect in R12 as [L0 _].
  all: exists a, a0, a1, a2, a3, a4, x2, x10, v, z; do 4 (split; [done|]); rewrite C.
  - apply invoke_effect in H as [L1 K1]. split; [exact (later_trans _ _ _ _ _ L0 L1)|by auto].
  - injection H as <- <-. done.
Qed.

Lemma token_account_owner i k m s u :
  load_associated_token_account i k m s = Ok u -> owner (account_of s i) = spl_token_id.
Proof.
  unfold load_associated_token_account.
  destruct (Z.eqb_spec (owner (account_of s i)) spl_token_id); done.
Qed.

Lemma process_burn_effect program_id accs w w' u :
  process_burn_withdrawal_ticket program_id accs w = Ok (u, w') ->
  program_id ∉ callees -> program_id <> spl_token_id ->
  exists ci vi vta mint st sta ti tta fta pta tp sp opt c v ticket bal v' s,
    accs = [ci; vi; vta; mint; st; sta; ti; tta; fta; pta; tp; sp] ++ opt /\
    try_from_slice_unchecked Config (data (account_of (view w) ci)) = Ok c /\
    try_from_slice_unchecked Vault (data (account_of (view w) vi)) = Ok v /\
    try_from_slice_unchecked VaultStakerWithdrawalTicket (data (account_of (view w) ti))
    = Ok ticket /\
    token_2022_base_unpack (data (account_of (view w) tta)) = Ok bal /\
    VaultStakerWithdrawalTicket.staker ticket = key st /\
    VaultStakerWithdrawalTicket.is_withdrawable ticket (clock_slot w) (Config.epoch_length c)
    = Ok true /\
    burn_ticket v (Config.program_fee_wallet c =? key st) (Vault.fee_wallet v =? key st)
      (VaultStakerWithdrawalTicket.vrt_amount ticket) (ta_amount bal) = Ok (v', s) /\
    later w w'
      [token_transfer spl_token_id (key tta) (key fta) (key ti) (vault_fee_amount s);
       token_transfer spl_token_id (key tta) (key pta) (key ti) (program_fee_amount s);
       token_burn spl_token_id (key tta) (key mint) (key ti) (burn_amount s);
       token_close_account spl_token_id (key tta) (key st) (key ti);
       token_transfer spl_token_id (key vta) (key sta) (key vi) (out_amount s)] /\
    holds w' (key vi) program_id (write_back (data (account_of (view w) vi)) v') /\
    holds w' (key ti) system_program_id [] /\ lamports (acct (view w') (key ti)) = 0.
Proof.
  unfold process_burn_withdrawal_ticket. intros H Hp Hspl. open_handler accs H.
  assert (key a0 <> key a5) as Hne by (by apply (parsed_ne _ _ _ _ _ R2 R7)).
  pose proof (Ticket_load_owner _ _ _ _ _ _ R6) as Hto.
  assert (key a5 ∉ map key (ix_accounts (token_transfer spl_token_id (key a1) (key a4) (key a0)
    (out_amount b)))) as Hun.
  { rewrite token_transfer_metas. simpl. rewrite !not_elem_of_cons. split_and!; try done.
    - eapply owned_ne. by rewrite Hto, (token_account_owner _ _ _ _ _ R3).
    - eapply owned_ne. by rewrite Hto, (token_account_owner _ _ _ _ _ R5).
    - apply not_elem_of_nil. }
  pose proof (invoke_unnamed _ _ _ _ _ _ _ H Hun) as Hkeep.
  apply loaded_holds in R1. pose proof (write_holds _ _ _ _ _ _ _ R21 R1) as Hh.
  apply write_effect in R21 as [L0 _]. apply invoke_effect in R22 as [L1 K1].
  apply invoke_effect in R23 as [L2 K2]. apply invoke_effect in R24 as [L3 K3].
  apply invoke_effect in R25 as [L4 K4].
  apply close_effect in R26 as (_ & L5 & Hc1 & Hc2 & _ & K5). apply invoke_effect in H as [L6 K6].
  exists a, a0, a1, a2, a3, a4, a5, a6, a7, a8, a9, a10, (drop 12 accs), x0, x2, x7, x9, v, b.
  split; [by apply required_app|]. do 4 (split; [done|]). split; [by apply guard_eq in R18|].
  split; [by destruct x19|]. split; [done|]. split.
  { exact (later_trans _ _ _ _ _ L0 (later_trans _ _ _ _ _ L1 (later_trans _ _ _ _ _ L2
      (later_trans _ _ _ _ _ L3 (later_trans _ _ _ _ _ L4 (later_trans _ _ _ _ _ L5 L6)))))). }
  split; [by auto 10|]. unfold holds. rewrite Hkeep. done.
Qed.

(** The withdrawal empties the ticket's token account. *)
Lemma burn_ticket_Ok v own_p own_v amount bal v' s :
  Vault.wf v -> is_u64 amount -> burn_ticket v own_p own_v amount bal = Ok (v', s) ->
  vault_fee_amount s + program_fee_amount s + burn_amount s = bal /\
  out_amount s = out_ref v own_p own_v amount /\
  v' = v<|Vault.vrt_supply := Vault.vrt_supply v - burn_amount s|>
        <|Vault.tokens_deposited := Vault.tokens_deposited v - out_amount s|>
        <|Vault.vrt_ready_to_claim_amount := Vault.vrt_ready_to_claim_amount v - amount|> /\
  Vault.wf v' /\ price_le v v'.
Proof.
  intros Hwf Ha H. unfold burn_ticket in H. apply qbind_Ok in H as ([v1 s1] & Hb & H).
  pose proof (burn_price _ _ _ _ _ _ Hwf Ha Hb) as Hpr.
  pose proof (burn_wf _ _ _ _ _ _ Hwf Ha Hb) as Hwf1.
  apply burn_Ok in Hb as (_ & -> & _ & ->); [|done|done].
  unfold Vault.decrement_vrt_ready_to_claim_amount in H. inv_ok.
  cbn [program_fee_amount vault_fee_amount burn_amount out_amount burn_summary_ref].
  split_and!; try done.
  - unfold burned_ref. lia.
  - unfold Vault.wf, is_u64 in *. cbn in *. intuition lia.
Qed.

Lemma Delegation_load_owner p i v o b s u :
  VaultOperatorDelegation.load p i v o b s = Ok u -> owner (account_of s i) = p.
Proof.
  unfold VaultOperatorDelegation.load. intros H.
  apply qbind_Ok in H as (? & H & _). exact (load_program_account_owner _ _ _ _ _ _ H).
Qed.

Lemma process_add_delegation_effect program_id accs amount w w' u :
  process_add_delegation program_id accs amount w = Ok (u, w') ->
  exists ci vi oi di ai v o v' d',
    accs = [ci; vi; oi; di; ai] /\
    try_from_slice_unchecked Vault (data (account_of (view w) vi)) = Ok v /\
    try_from_slice_unchecked VaultOperatorDelegation (data (account_of (view w) di)) = Ok o /\
    Vault.delegate v amount = Ok v' /\
    DelegationState.delegate (VaultOperatorDelegation.delegation_state o) amount = Ok d' /\
    later w w' [] /\
    holds w' (key vi) program_id (write_back (data (account_of (view w) vi)) v') /\
    holds w' (key di) program_id (write_back (data (account_of (view w) di))
      o<|VaultOperatorDelegation.delegation_state := d'|>).
Proof.
  unfold process_add_delegation. intros H. open_handler accs H.
  assert (key a0 <> key a2) as Hne by (by apply (parsed_ne _ _ _ _ _ R2 R5)).
  pose proof (Delegation_load_owner _ _ _ _ _ _ _ R4) as Hdo. apply loaded_holds in R1.
  pose proof (write_holds _ _ _ _ _ _ _ R11 R1) as Hv.
  assert (holds x12 (key a2) program_id (data (account_of (view w) a2))) as Hd0
    by (by apply (write_other _ _ _ _ _ _ _ _ R11)).
  pose proof (write_holds _ _ _ _ _ _ _ H Hd0) as Hd. pose proof (write_other _ _ _ _ _ _ _ _ H Hne Hv).
  apply write_effect in R11 as [L0 _]. apply write_effect in H as [L1 _].
  exists a, a0, a1, a2, a3, x2, x5, x10, x13. do 5 (split; [done|]).
  split; [exact (later_trans _ _ _ _ _ L0 L1)|]. done.
Qed.

End VaultEffects.

(** ** Stored structs stay in range *)

Lemma pod_wf_amounts v s b c :
  pod_wf acc_codec v -> is_u64 s -> is_u64 b -> is_u64 c ->
  pod_wf acc_codec v<|Vault.vrt_supply := s|><|Vault.tokens_deposited := b|>
                    <|Vault.vrt_ready_to_claim_amount := c|>.
Proof. destruct v. intros H Hs Hb Hc. cbn in *. tauto. Qed.

Lemma pod_wf_shares v v' s b :
  pod_wf acc_codec v -> v' = v<|Vault.vrt_supply := s|><|Vault.tokens_deposited := b|> ->
  Vault.wf v' -> pod_wf acc_codec v'.
Proof.
  intros H -> (Hs & Hb & _ & _ & _ & _ & _ & Hc & _).
  pose proof (pod_wf_amounts v s b (Vault.vrt_ready_to_claim_amount v) H Hs Hb Hc). by destruct v.
Qed.

(** Delegating keeps the stored structs in range. *)
Lemma delegated_fits d amount d' :
  pod_wf DelegationState.layout d -> DelegationState.wf d -> is_u64 amount ->
  DelegationState.delegate d amount = Ok d' -> pod_wf DelegationState.layout d'.
Proof.
  intros H Hwf Hu Hd. apply delegate_Ok in Hd as (Hwf' & _ & _ & ->); [|done|done].
  destruct d. destruct Hwf' as (? & ? & ?). cbn in *. tauto.
Qed.

Lemma delegated_vault_fits v amount v' :
  pod_wf acc_codec v -> Vault.wf v -> is_u64 amount -> Vault.delegate v amount = Ok v' ->
  pod_wf acc_codec v'.
Proof.
  intros H Hwf Hu Hd. unfold Vault.delegate in Hd. inv_ok.
  match goal with Hx : DelegationState.delegate _ _ = Ok ?d |- _ =>
    assert (pod_wf DelegationState.layout d) as Hd by (
      eapply (delegated_fits (Vault.delegation_state v)); try exact Hx; try done;
      [by destruct H as (_ & _ & _ & _ & _ & _ & ? & _)|by destruct Hwf as (_ & _ & _ & ? & _)]);
    clear Hx end.
  destruct v. cbn in *. tauto.
Qed.

Lemma delegated_operator_fits o amount d' :
  pod_wf acc_codec o -> DelegationState.wf (VaultOperatorDelegation.delegation_state o) ->
  is_u64 amount ->
  DelegationState.delegate (VaultOperatorDelegation.delegation_state o) amount = Ok d' ->
  pod_wf acc_codec o<|VaultOperatorDelegation.delegation_state := d'|>.
Proof.
  intros H Hwf Hu Hd.
  assert (pod_wf DelegationState.layout d') as Hd'.
  { apply (delegated_fits _ _ _ (proj1 (proj2 (proj2 H))) Hwf Hu Hd). }
  clear Hd Hwf. destruct o. cbn in *. tauto.
Qed.

Lemma ticket_amount_u64 ticket :
  pod_wf acc_codec ticket -> is_u64 (VaultStakerWithdrawalTicket.vrt_amount ticket).
Proof. by intros (_ & _ & _ & ? & _). Qed.

Lemma is_withdrawable_true ticket slot el :
  VaultStakerWithdrawalTicket.is_withdrawable ticket slot el = Ok true ->
  VaultStakerWithdrawalTicket.slot_unstaked ticket / el + 1 < slot / el.
Proof.
  unfold VaultStakerWithdrawalTicket.is_withdrawable. intros H.
  apply qbind_Ok in H as (e1 & H1 & H). apply qbind_Ok in H as (e2 & H2 & H).
  apply get_epoch_inv in H1 as [-> _]. apply get_epoch_inv in H2 as [-> _].
  apply qbind_Ok in H as (n & Hn & H). destruct (Z.leb_spec (slot / el) n); [done|].
  clear H. inv_ok. lia.
Qed.

(** A committed run of the program: the handler that ran, and where its final
    state went. *)
Lemma run_handler {env : Env} {laws : EnvLaws env} decode program_id accs ixd prog slot t t' trace :
  run_instruction (process_instruction decode program_id accs ixd) prog accs slot t
  = Ok (t', trace) ->
  exists ix w, decode ixd = Ok ix /\
    dispatch program_id accs ix (enter prog accs slot t) = Ok (tt, w) /\ trace = cpis w /\
    forall i p d, i ∈ accs -> holds w (key i) p d ->
      owner (acct (accounts t') (key i)) = p /\ data (acct (accounts t') (key i)) = d /\
      lamports (acct (accounts t') (key i)) = lamports (acct (view w) (key i)).
Proof.
  intros H. pose proof (run_dispatch _ _ _ _ _ _ _ _ _ H) as (ix & w & Hd & Hp & Hr).
  apply run_effect in H as (w2 & H2 & -> & Hk); [|apply process_instruction_behaved].
  exists ix, w. enough (w2 = w) as -> by done.
  unfold process_instruction in H2. rewrite Hp, Z.eqb_refl in H2. simpl in H2.
  unfold mbind', lift in H2. rewrite Hd in H2. simpl in H2. rewrite <- Hp in H2. congruence.
Qed.


(** ** A ledger with the token accounts of the test vault and of a staker *)

Definition token_data (mint wallet amount : Z) : Account :=
  mkAccount 1000 [mint; wallet; amount] 10 false.
Definition ata (wallet mint : Pubkey) : Pubkey := get_associated_token_address wallet mint.
Definition trade_vault : Vault := test_vault<|Vault.last_full_state_update_slot := 3500|>.
Definition staker_key : Pubkey := 40.
Definition ticket_key : Pubkey :=
  (VaultStakerWithdrawalTicket.find_address 20 test_vault_key 41).1.1.
Definition test_ticket : VaultStakerWithdrawalTicket :=
  VaultStakerWithdrawalTicket.new test_vault_key staker_key 41 10 1000 255.
Definition program_fee_key : Pubkey := Config.program_fee_wallet test_config.
Definition trade_tx : Tx :=
  mkTx (<[ata test_vault_key 3 := token_data 3 test_vault_key 3300]>
       (<[2 := token_data 0 0 0]>
       (<[ata staker_key 3 := token_data 3 staker_key 5000]>
       (<[ata staker_key 2 := token_data 2 staker_key 0]>
       (<[ata 5 2 := token_data 2 5 0]>
       (<[ata program_fee_key 2 := token_data 2 program_fee_key 0]>
       (<[ticket_key := program_account 20 test_ticket]>
       (<[ata ticket_key 2 := token_data 2 ticket_key 12]>
       (<[staker_key := mkAccount 1000 [] 0 false]> (store_with trade_vault)))))))))) 0 0.

Definition writable (k : Pubkey) : AccountInfo := mkInfo k false true.
Definition deposit_accounts : list AccountInfo :=
  [config_info; vault_info; writable 2; mkInfo staker_key true true; writable (ata staker_key 3);
   writable (ata test_vault_key 3); writable (ata staker_key 2); writable (ata 5 2);
   mkInfo 10 false false].
Definition withdrawal_accounts : list AccountInfo :=
  [config_info; vault_info; writable (ata test_vault_key 3); writable 2;
   mkInfo staker_key true true; writable (ata staker_key 3); writable ticket_key;
   writable (ata ticket_key 2); writable (ata 5 2); writable (ata program_fee_key 2);
   mkInfo 10 false false; mkInfo 0 false false].
Definition balance_accounts : list AccountInfo :=
  [config_info; vault_info; writable (ata test_vault_key 3); writable 2; writable (ata 5 2);
   mkInfo 10 false false].
Definition trade_decode (d : list Z) : result ProgramError VaultInstruction :=
  match d with
  | [0; a; m] => Ok (MintTo a m)
  | [1] => Ok BurnWithdrawalTicket
  | [2] => Ok UpdateVaultBalance
  | [3; a] => Ok (AddDelegation a)
  | _ => Err ProgramError.InvalidInstructionData
  end.
Definition trade_run (accs : list AccountInfo) (d : list Z) : result Fault (Tx * list Instruction) :=
  run_instruction (process_instruction trade_decode 20 accs d) 20 accs 3600 trade_tx.

Definition trace_of (r : result Fault (Tx * list Instruction)) : option (list Instruction) :=
  match r with Ok (_, trace) => Some trace | Err _ => None end.

(** Evaluate the left side of an equation. *)
Ltac eval_lhs H :=
  match type of H with
  | ?l = _ =>
      let l' := eval vm_compute in l in
      let Hl := fresh in
      assert (l = l') as Hl by (vm_compute; reflexivity); rewrite Hl in H; clear Hl
  end.

Lemma trade_vault_wf : Vault.wf trade_vault.
Proof. solve_vault_wf. Qed.

Lemma trade_vault_stored : stores trade_tx test_vault_key 20 trade_vault.
Proof.
  split_and!.
  - vm_compute. reflexivity.
  - apply (bool_decide_unpack _). vm_compute. exact I.
  - vm_compute. reflexivity.
Qed.

Lemma test_ticket_stored : stores trade_tx ticket_key 20 test_ticket.
Proof.
  split_and!.
  - vm_compute. reflexivity.
  - apply (bool_decide_unpack _). vm_compute. exact I.
  - vm_compute. reflexivity.
Qed.

Lemma vault_program_not_called : (20 : Pubkey) ∉ callees (env := test_env).
Proof. apply (bool_decide_unpack _). vm_compute. exact I. Qed.

(** ** Claims *)

(** C2: a deposit is executed as quoted.  When a [MintTo] instruction
    succeeds, the calls it made are exactly the transfer of the whole deposit
    from the depositor's account to the vault's, and the mints of the
    depositor's and the fee wallet's shares, in the amounts of the reference
    mint on the stored vault; afterwards the vault account stores the
    reference's new vault and is well-formed. *)
Theorem deposit_executed_as_quoted {env : Env} {laws : EnvLaws env} decode program_id accs ixd slot
    t t' trace a m i v :
  run_instruction (process_instruction decode program_id accs ixd) program_id accs slot t
  = Ok (t', trace) ->
  decode ixd = Ok (MintTo a m) -> is_u64 a -> program_id ∉ callees ->
  accs !! 1%nat = Some i -> stores t (key i) program_id v -> Vault.wf v ->
  exists ci mint dep dta vta dvta fta tp opt v' s,
    accs = [ci; i; mint; dep; dta; vta; dvta; fta; tp] ++ opt /\
    mint_reference v a m = Ok (v', s) /\
    trace = [token_transfer spl_token_id (key dta) (key vta) (key dep) a;
             token_mint_to spl_token_id (key mint) (key dvta) (key i) (vrt_to_depositor s);
             token_mint_to spl_token_id (key mint) (key fta) (key i) (vrt_to_fee_wallet s)] /\
    stores t' (key i) program_id v' /\ Vault.wf v'.
Proof.
  intros H Hd Ha Hp Hi Hs Hwf. apply run_handler in H as (ix & w & Hd' & H & -> & Hc).
  rewrite Hd in Hd'. injection Hd' as <-. cbn [dispatch] in H.
  apply process_mint_effect in H as (ci & vi & mint & dep & dta & vta & dvta & fta & tp & opt
    & v0 & v' & s & -> & Hv0 & Hm & _ & L & Hh); [|done].
  injection Hi as ->. simpl in Hv0, Hh. unfold account_of in Hv0, Hh.
  rewrite (proj2 (proj2 Hs)) in Hv0. injection Hv0 as <-.
  destruct (Hc i _ _ (list_elem_of_lookup_2 (_ :: i :: _) 1 i eq_refl) Hh) as (Ho' & Hd' & _).
  pose proof (mint_wf _ _ _ _ _ Hwf Ha Hm) as Hwf'.
  exists ci, mint, dep, dta, vta, dvta, fta, tp, opt, v', s. split; [done|].
  rewrite <- mint_ref_eq by done. split; [done|]. split; [by destruct L as (_ & _ & _ & _ & ->)|].
  split; [|done]. apply (stores_write_back t _ _ _ v); try done.
  apply mint_Ok in Hm as (_ & _ & _ & _ & _ & _ & _ & Hv'); [|done|done].
  apply (pod_wf_shares _ _ _ _ (stores_pod_wf _ _ _ _ Hs) Hv' Hwf').
Qed.

Lemma deposit_executed_as_quoted_witness :
  exists t' trace v' s, trade_run deposit_accounts [0; 600; 390] = Ok (t', trace) /\
    mint_reference trade_vault 600 390 = Ok (v', s) /\ vrt_to_depositor s = 396 /\
    stores t' test_vault_key 20 v' /\ Vault.tokens_deposited v' = 3600.
Proof.
  destruct (trade_run deposit_accounts [0; 600; 390]) as [[t' trace]|] eqn:E;
    [|vm_compute in E; done].
  destruct (deposit_executed_as_quoted trade_decode 20 deposit_accounts [0; 600; 390] 3600
    trade_tx t' trace 600 390 vault_info trade_vault E)
    as (ci & mint & dep & dta & vta & dvta & fta & tp & opt & v' & s & _ & Hm & _ & Hs & _).
  - reflexivity.
  - unfold is_u64. lia.
  - exact vault_program_not_called.
  - reflexivity.
  - exact trade_vault_stored.
  - exact trade_vault_wf.
  - exists t', trace, v', s. split; [reflexivity|]. split; [exact Hm|].
    vm_compute in Hm. injection Hm as <- <-. split; [reflexivity|]. split; [exact Hs|reflexivity].
Defined.

(** C3: a withdrawal is paid out as computed and cannot be repeated.  When a
    [BurnWithdrawalTicket] instruction succeeds the ticket belongs to the
    staker account and has waited more than one full epoch; the calls split the
    ticket's whole token balance into the two fees and the burned shares, close
    its token account and pay the reference amount of tokens out of the
    vault's; the vault stores the reduced supply, deposit and claim, its share
    price has not fallen, and the ticket account is left without data,
    lamports or owner. *)
Theorem withdrawal_pays_out_once {env : Env} {laws : EnvLaws env} decode program_id accs ixd slot
    t t' trace i v ti ticket :
  run_instruction (process_instruction decode program_id accs ixd) program_id accs slot t
  = Ok (t', trace) ->
  decode ixd = Ok BurnWithdrawalTicket -> program_id ∉ callees -> program_id <> spl_token_id ->
  accs !! 1%nat = Some i -> stores t (key i) program_id v -> Vault.wf v ->
  accs !! 6%nat = Some ti -> stores t (key ti) program_id ticket ->
  exists ci vta mint st sta tta fta pta tp sp opt c bal v' s,
    accs = [ci; i; vta; mint; st; sta; ti; tta; fta; pta; tp; sp] ++ opt /\
    try_from_slice_unchecked Config (data (acct (accounts t) (key ci))) = Ok c /\
    VaultStakerWithdrawalTicket.staker ticket = key st /\
    VaultStakerWithdrawalTicket.slot_unstaked ticket / Config.epoch_length c + 1
      < slot / Config.epoch_length c /\
    token_2022_base_unpack (data (acct (accounts t) (key tta))) = Ok bal /\
    trace = [token_transfer spl_token_id (key tta) (key fta) (key ti) (vault_fee_amount s);
             token_transfer spl_token_id (key tta) (key pta) (key ti) (program_fee_amount s);
             token_burn spl_token_id (key tta) (key mint) (key ti) (burn_amount s);
             token_close_account spl_token_id (key tta) (key st) (key ti);
             token_transfer spl_token_id (key vta) (key sta) (key i) (out_amount s)] /\
    vault_fee_amount s + program_fee_amount s + burn_amount s = ta_amount bal /\
    out_amount s = out_ref v (Config.program_fee_wallet c =? key st)
      (Vault.fee_wallet v =? key st) (VaultStakerWithdrawalTicket.vrt_amount ticket) /\
    stores t' (key i) program_id v' /\ Vault.wf v' /\ price_le v v' /\
    Vault.vrt_supply v' = Vault.vrt_supply v - burn_amount s /\
    Vault.tokens_deposited v' = Vault.tokens_deposited v - out_amount s /\
    Vault.vrt_ready_to_claim_amount v' = Vault.vrt_ready_to_claim_amount v
      - VaultStakerWithdrawalTicket.vrt_amount ticket /\
    lamports (acct (accounts t') (key ti)) = 0 /\ data (acct (accounts t') (key ti)) = [] /\
    owner (acct (accounts t') (key ti)) = system_program_id.
Proof.
  intros H Hd Hp Hspl Hi Hs Hwf Hti Ht. apply run_handler in H as (ix & w & Hd' & H & -> & Hc).
  rewrite Hd in Hd'. injection Hd' as <-. cbn [dispatch] in H.
  apply process_burn_effect in H as (ci & vi & vta & mint & st & sta & ti' & tta & fta & pta & tp
    & sp & opt & c & v0 & ticket' & bal & v' & s & -> & Hcfg & Hv0 & Ht0 & Hbal & Hst & Hw & Hbt
    & L & Hh & Hcl & Hlam); [|done|done].
  injection Hi as ->. injection Hti as ->. simpl in Hv0, Ht0. unfold account_of in *. simpl in *.
  rewrite (proj2 (proj2 Hs)) in Hv0. injection Hv0 as <-.
  rewrite (proj2 (proj2 Ht)) in Ht0. injection Ht0 as <-.
  destruct (Hc i _ _ (list_elem_of_lookup_2 (_ :: i :: _) 1 i eq_refl) Hh) as (Ho1 & Hd1 & _).
  destruct (Hc ti _ _ (list_elem_of_lookup_2 (_ :: _ :: _ :: _ :: _ :: _ :: ti :: _) 6 ti eq_refl)
    Hcl) as (Ho2 & Hd2 & Hl2).
  apply is_withdrawable_true in Hw.
  pose proof (ticket_amount_u64 _ (stores_pod_wf _ _ _ _ Ht)) as Hu.
  destruct (burn_ticket_Ok _ _ _ _ _ _ _ Hwf Hu Hbt)
    as (Hsum & Hout & Hv' & Hwf' & Hpr).
  exists ci, vta, mint, st, sta, tta, fta, pta, tp, sp, opt, c, bal, v', s.
  split_and!; try done; [by destruct L as (_ & _ & _ & _ & ->)| |by subst v'..|congruence].
  apply (stores_write_back t _ _ _ v); try done. pose proof (stores_pod_wf _ _ _ _ Hs) as Hpw.
  destruct Hwf' as (Hx & Hy & _ & _ & _ & _ & _ & Hz & _). subst v'.
  by apply pod_wf_amounts.
Qed.

Lemma withdrawal_pays_out_once_witness :
  exists t' trace v', trade_run withdrawal_accounts [1] = Ok (t', trace) /\
    stores t' test_vault_key 20 v' /\ Vault.vrt_supply v' = 1992 /\
    Vault.tokens_deposited v' = 2988 /\ owner (acct (accounts t') ticket_key) = 0.
Proof.
  destruct (trade_run withdrawal_accounts [1]) as [[t' trace]|] eqn:E; [|vm_compute in E; done].
  destruct (withdrawal_pays_out_once trade_decode 20 withdrawal_accounts [1] 3600 trade_tx t' trace
    vault_info trade_vault (writable ticket_key) test_ticket E)
    as (ci & vta & mint & st & sta & tta & fta & pta & tp & sp & opt & c & bal & v' & s & Ha & Hc
        & _ & _ & _ & Htr & _ & _ & Hs & _ & _ & H1 & H2 & _ & _ & _ & Ho).
  - reflexivity.
  - exact vault_program_not_called.
  - vm_compute. congruence.
  - reflexivity.
  - exact trade_vault_stored.
  - exact trade_vault_wf.
  - reflexivity.
  - exact test_ticket_stored.
  - exists t', trace, v'. split; [reflexivity|]. split; [exact Hs|].
    pose proof (f_equal trace_of E) as Hx. rewrite Htr in Hx. eval_lhs Hx. cbn [trace_of] in Hx.
    assert (burn_amount s = 8) as Hb by congruence. assert (out_amount s = 12) as Hout by congruence.
    rewrite H1, H2, Hb, Hout. split; [reflexivity|]. split; [reflexivity|exact Ho].
Defined.

(** A balance update books the rewards and pays the fee in shares.  When
    [UpdateVaultBalance] succeeds, the vault stores the balance of its token
    account as deposited and the supply grown by exactly the shares minted to
    the fee wallet; those shares are the reference mint of the reward fee at
    the price that excludes the fee, and no mint is made when they are zero. *)
Theorem balance_update_books_rewards {env : Env} {laws : EnvLaws env} decode program_id accs ixd
    slot t t' trace i v vta b :
  run_instruction (process_instruction decode program_id accs ixd) program_id accs slot t
  = Ok (t', trace) ->
  decode ixd = Ok UpdateVaultBalance -> program_id ∉ callees ->
  accs !! 1%nat = Some i -> stores t (key i) program_id v -> Vault.wf v ->
  accs !! 2%nat = Some vta ->
  token_account_unpack (data (acct (accounts t) (key vta))) = Ok b -> is_u64 (ta_amount b) ->
  let F := fee_of (saturating_sub (ta_amount b) (Vault.tokens_deposited v))
             (Vault.reward_fee_bps v) in
  let f := minted (v<|Vault.tokens_deposited := ta_amount b - F|>) F in
  let v' := v<|Vault.tokens_deposited := ta_amount b|>
             <|Vault.vrt_supply := Vault.vrt_supply v + f|> in
  exists ci mint fta tp,
    accs = [ci; i; vta; mint; fta; tp] /\
    trace = (if f >? 0
             then [token_mint_to spl_token_id (key mint) (key fta) (key i) f] else []) /\
    stores t' (key i) program_id v' /\ Vault.wf v'.
Proof.
  intros H Hd Hp Hi Hs Hwf Hvta Hb Hu F f v'.
  apply run_handler in H as (ix & w & Hd' & H & -> & Hc).
  rewrite Hd in Hd'. injection Hd' as <-. cbn [dispatch] in H.
  apply process_update_vault_balance_effect in H as (ci & vi & vta' & mint & fta & tp & v0 & b0
    & v1 & f1 & -> & Hv0 & Hb0 & Hub & L & Hh); [|done].
  injection Hi as ->. injection Hvta as ->. unfold account_of in *. simpl in Hv0, Hb0, Hh.
  rewrite (proj2 (proj2 Hs)) in Hv0. injection Hv0 as <-. rewrite Hb in Hb0. injection Hb0 as <-.
  destruct (update_balance_Ok _ _ _ _ Hwf Hu Hub) as (_ & Hf & Hv1 & Hle & _).
  change (f1 = f) in Hf. subst f1. change (v1 = v') in Hv1. subst v1.
  destruct (Hc i _ _ (list_elem_of_lookup_2 (_ :: i :: _) 1 i eq_refl) Hh) as (Ho & Hdat & _).
  destruct (update_balance_wf _ _ _ _ Hwf Hu Hub) as [_ Hwf'].
  exists ci, mint, fta, tp. split; [done|]. split; [by destruct L as (_ & _ & _ & _ & ->)|].
  split; [|done]. apply (stores_write_back t _ _ _ v); try done.
  apply (pod_wf_shares v v' (Vault.vrt_supply v + f) (ta_amount b)); [|by destruct v|done].
  by eapply stores_pod_wf.
Qed.

Lemma balance_update_books_rewards_witness :
  exists t' trace v', trade_run balance_accounts [2] = Ok (t', trace) /\
    stores t' test_vault_key 20 v' /\ Vault.tokens_deposited v' = 3300 /\
    Vault.vrt_supply v' = 2018.
Proof.
  destruct (trade_run balance_accounts [2]) as [[t' trace]|] eqn:E; [|vm_compute in E; done].
  destruct (balance_update_books_rewards trade_decode 20 balance_accounts [2] 3600 trade_tx t'
    trace vault_info trade_vault (writable (ata test_vault_key 3))
    (mkTokenAccount 3 test_vault_key 3300) E)
    as (ci & mint & fta & tp & _ & _ & Hs & _).
  - reflexivity.
  - exact vault_program_not_called.
  - reflexivity.
  - exact trade_vault_stored.
  - exact trade_vault_wf.
  - reflexivity.
  - vm_compute. reflexivity.
  - unfold is_u64. cbn. lia.
  - exists t', trace. eexists. split; [reflexivity|]. split; [exact Hs|].
    split; vm_compute; reflexivity.
Defined.

(** A delegation on the ledger keeps the books.  When [AddDelegation]
    succeeds on a vault and one of its operators whose accounts agree with the
    books, the two accounts afterwards store a vault and a delegation that
    agree with the books again, what is delegated plus what the withdrawal
    queue is owed is covered by the deposits, and no other program was
    called. *)
Theorem delegation_on_ledger_keeps_books {env : Env} {laws : EnvLaws env} decode program_id accs
    ixd slot t t' trace amount i v di o el ops n :
  run_instruction (process_instruction decode program_id accs ixd) program_id accs slot t
  = Ok (t', trace) ->
  decode ixd = Ok (AddDelegation amount) -> is_u64 amount ->
  accs !! 1%nat = Some i -> stores t (key i) program_id v ->
  accs !! 3%nat = Some di -> stores t (key di) program_id o ->
  books el v ops -> ops !! n = Some o ->
  trace = [] /\ exists v' o', stores t' (key i) program_id v' /\
    stores t' (key di) program_id o' /\ books el v' (<[n := o']> ops) /\
    exists req, Vault.calculate_supported_assets_requested_for_withdrawal v' = Ok req /\
      DelegationState.sum (Vault.delegation_state v') + req <= Vault.tokens_deposited v'.
Proof.
  intros H Hd Hu Hi Hs Hdi Ho Hb Hn. apply run_handler in H as (ix & w & Hd' & H & -> & Hc).
  rewrite Hd in Hd'. injection Hd' as <-. cbn [dispatch] in H.
  apply process_add_delegation_effect in H as (ci & vi & oi & di' & ai & v0 & o0 & v' & d' & ->
    & Hv0 & Ho0 & Hv & Hod & L & Hh & Hdh).
  injection Hi as ->. injection Hdi as ->. unfold account_of in *. simpl in Hv0, Ho0, Hh, Hdh.
  rewrite (proj2 (proj2 Hs)) in Hv0. injection Hv0 as <-.
  rewrite (proj2 (proj2 Ho)) in Ho0. injection Ho0 as <-.
  destruct (Hc i _ _ (list_elem_of_lookup_2 (_ :: i :: _) 1 i eq_refl) Hh) as (Ho1 & Hd1 & _).
  destruct (Hc di _ _ (list_elem_of_lookup_2 (_ :: _ :: _ :: di :: _) 3 di eq_refl) Hdh)
    as (Ho2 & Hd2 & _).
  destruct (delegate_books _ _ _ _ _ _ _ _ Hb Hn Hu Hv Hod) as [Hb' Hres].
  split; [by destruct L as (_ & _ & _ & _ & ->)|]. eexists v', _. split_and!; [| |exact Hb'|done].
  - apply (stores_write_back t _ _ _ v); try done.
    eapply delegated_vault_fits; [by eapply stores_pod_wf| |done|done]. apply (bk_wf _ _ _ Hb).
  - apply (stores_write_back t _ _ _ o); try done.
    eapply delegated_operator_fits; [by eapply stores_pod_wf| |done|done].
    by destruct (bk_ops _ _ _ Hb _ _ Hn) as (_ & ? & _).
Qed.

Lemma delegation_on_ledger_keeps_books_witness :
  let t := mkTx (<[test_vault_key := program_account 20 example_light_vault]>
    (<[test_delegation_key := program_account 20 (example_operator 1 1000 10 0)]> test_store)) 0 0 in
  exists t' trace v' o',
    run_instruction (process_instruction trade_decode 20 delegation_accounts [3; 100]) 20
      delegation_accounts 1600 t = Ok (t', trace) /\
    stores t' test_vault_key 20 v' /\ stores t' test_delegation_key 20 o' /\
    books 1000 v' (<[1%nat := o']> example_light_operators).
Proof.
  intros t.
  destruct (run_instruction (process_instruction trade_decode 20 delegation_accounts [3; 100]) 20
    delegation_accounts 1600 t) as [[t' trace]|] eqn:E; [|vm_compute in E; done].
  destruct (delegation_on_ledger_keeps_books trade_decode 20 delegation_accounts [3; 100] 1600 t t'
    trace 100 vault_info example_light_vault delegation_info (example_operator 1 1000 10 0) 1000
    example_light_operators 1 E) as (_ & v' & o' & Hv & Ho & Hb & _).
  - reflexivity.
  - unfold is_u64. lia.
  - reflexivity.
  - split_and!; [vm_compute; reflexivity|apply (bool_decide_unpack _); vm_compute; exact I
      |vm_compute; reflexivity].
  - reflexivity.
  - split_and!; [vm_compute; reflexivity|apply (bool_decide_unpack _); vm_compute; exact I
      |vm_compute; reflexivity].
  - exact example_light_books.
  - reflexivity.
  - exists t', trace, v', o'. split; [reflexivity|]. split; [exact Hv|]. split; [exact Ho|exact Hb].
Defined.
