(* ===== verification/UpdateEffects.v ===== *)
(** * The update cycle on the ledger

    The instructions of the update cycle run on the accounts of a vault, its
    tracker and one operator's delegation are the steps of the abstract cycle
    of [UpdateCycle]: what the accounts store afterwards is the next state. *)

From stdpp Require Import base numbers list gmap.
From Stdlib Require Import Lia.
From S2P Require Import Prelude Errors Pod DelegationState SlotToggle Runtime SystemProgram.
From S2P Require Import Program Core RestakingCore VaultConfig Vault VaultTickets.
From S2P Require Import VaultInstruction VaultAdmin VaultTicketHandlers VaultShareHandlers.
From S2P Require Import VaultUpdateHandlers VaultProgram VaultShares VaultFees UpdateCycle.
From S2P Require Import Isolation Effects Testbed VaultIsolation VaultAuthority VaultEffects.
Local Open Scope Z_scope.

Section UpdateEffects.
Context {env : Env} {laws : EnvLaws env}.

Lemma Tracker_load_owner p i v e b s u :
  VaultUpdateStateTracker.load p i v e b s = Ok u -> owner (account_of s i) = p.
Proof.
  unfold VaultUpdateStateTracker.load. intros H.
  apply qbind_Ok in H as (? & H & _). exact (load_program_account_owner _ _ _ _ _ _ H).
Qed.

Lemma process_crank_effect program_id accs w w' u :
  process_crank_vault_update_state_tracker program_id accs w = Ok (u, w') ->
  exists ci vi oi di ti c v o tr p v' o' tr',
    accs = [ci; vi; oi; di; ti] /\
    try_from_slice_unchecked Config (data (account_of (view w) ci)) = Ok c /\
    try_from_slice_unchecked Vault (data (account_of (view w) vi)) = Ok v /\
    try_from_slice_unchecked VaultOperatorDelegation (data (account_of (view w) di)) = Ok o /\
    try_from_slice_unchecked VaultUpdateStateTracker (data (account_of (view w) ti)) = Ok tr /\
    partially_updated v o (Config.epoch_length c) = Ok p /\
    crank_operator p (clock_slot w) (Config.epoch_length c) v o tr = Ok (v', o', tr') /\
    later w w' [] /\
    holds w' (key vi) program_id (write_back (data (account_of (view w) vi)) v') /\
    holds w' (key di) program_id (write_back (data (account_of (view w) di)) o') /\
    holds w' (key ti) program_id (write_back (data (account_of (view w) ti)) tr').
Proof.
  unfold process_crank_vault_update_state_tracker. intros H. open_handler accs H.
  assert (key a0 <> key a2) as N1 by (by apply (parsed_ne _ _ _ _ _ R2 R5)).
  assert (key a0 <> key a3) as N2 by (by apply (parsed_ne _ _ _ _ _ R2 R9)).
  assert (key a2 <> key a3) as N3 by (by apply (parsed_ne _ _ _ _ _ R5 R9)).
  pose proof (Delegation_load_owner _ _ _ _ _ _ _ R4) as Ho.
  pose proof (Tracker_load_owner _ _ _ _ _ _ _ R8) as Ht. apply loaded_holds in R1.
  assert (holds w' (key a0) program_id (write_back (data (account_of (view w) a0)) v0)) as H0.
  { apply (write_other _ _ _ _ _ _ _ _ H); [done|]. apply (write_other _ _ _ _ _ _ _ _ R13); [done|].
    apply (write_holds _ _ _ _ _ _ _ R12 R1). }
  assert (holds w' (key a2) program_id (write_back (data (account_of (view w) a2)) v1)) as H1.
  { apply (write_other _ _ _ _ _ _ _ _ H); [done|]. apply (write_holds _ _ _ _ _ _ _ R13).
    by apply (write_other _ _ _ _ _ _ _ _ R12). }
  assert (holds w' (key a3) program_id (write_back (data (account_of (view w) a3)) v)) as H2.
  { apply (write_holds _ _ _ _ _ _ _ H). apply (write_other _ _ _ _ _ _ _ _ R13); [done|].
    by apply (write_other _ _ _ _ _ _ _ _ R12). }
  apply write_effect in R12 as [L0 _]. apply write_effect in R13 as [L1 _].
  apply write_effect in H as [L2 _].
  exists a, a0, a1, a2, a3, x0, x2, x5, x9, x7, v0, v1, v. do 7 (split; [done|]).
  split; [exact (later_trans _ _ _ _ _ L0 (later_trans _ _ _ _ _ L1 L2))|done].
Qed.

Lemma process_close_tracker_effect program_id accs e w w' u :
  process_close_vault_update_state_tracker program_id accs e w = Ok (u, w') ->
  exists ci vi ti pi c v tr v',
    accs = [ci; vi; ti; pi] /\
    try_from_slice_unchecked Config (data (account_of (view w) ci)) = Ok c /\
    try_from_slice_unchecked Vault (data (account_of (view w) vi)) = Ok v /\
    try_from_slice_unchecked VaultUpdateStateTracker (data (account_of (view w) ti)) = Ok tr /\
    finish_update v tr e (clock_slot w) (Config.epoch_length c) = Ok v' /\
    later w w' [] /\
    holds w' (key vi) program_id (write_back (data (account_of (view w) vi)) v') /\
    holds w' (key ti) system_program_id [] /\ lamports (acct (view w') (key ti)) = 0.
Proof.
  unfold process_close_vault_update_state_tracker. intros H. open_handler accs H.
  assert (key a0 <> key a1) as Hne by (by apply (parsed_ne _ _ _ _ _ R2 R4)).
  apply loaded_holds in R1. pose proof (write_holds _ _ _ _ _ _ _ R8 R1) as Hv.
  apply write_effect in R8 as [L0 _]. apply close_effect in H as (_ & L1 & Hc & Hl & _ & K).
  exists a, a0, a1, a2, x0, x2, x4, x7. do 5 (split; [done|]).
  split; [exact (later_trans _ _ _ _ _ L0 L1)|]. split; [by apply K|done].
Qed.

End UpdateEffects.

(** ** The stored structs stay in range *)

Lemma state_fits d d' :
  pod_wf DelegationState.layout d -> DelegationState.wf d' ->
  DelegationState.reserved d' = DelegationState.reserved d -> pod_wf DelegationState.layout d'.
Proof.
  intros (_ & _ & _ & Hr) (? & ? & ?) E. destruct d, d'. cbn in *. subst. tauto.
Qed.

Lemma fits_wf d : pod_wf DelegationState.layout d -> DelegationState.wf d.
Proof. intros (? & ? & ? & _). done. Qed.

Lemma cooldown_fits d n d' :
  pod_wf DelegationState.layout d -> is_u64 n -> DelegationState.cooldown d n = Ok d' ->
  pod_wf DelegationState.layout d'.
Proof.
  intros H Hn Hd. apply cooldown_Ok in Hd as (Hw & _ & _ & E); [|by apply fits_wf|done].
  apply (state_fits d); [done|done|]. by subst.
Qed.

Lemma accumulate_fits d o d' :
  pod_wf DelegationState.layout d -> pod_wf DelegationState.layout o ->
  DelegationState.accumulate d o = Ok d' -> pod_wf DelegationState.layout d'.
Proof.
  intros H Ho Hd. apply accumulate_Ok in Hd as (Hw & _ & Hr & _); [|by apply fits_wf..].
  by apply (state_fits d).
Qed.

Lemma operator_fits o d slot :
  pod_wf acc_codec o -> pod_wf DelegationState.layout d -> is_u64 slot ->
  pod_wf acc_codec o<|VaultOperatorDelegation.delegation_state := d|>
                    <|VaultOperatorDelegation.last_update_slot := slot|>.
Proof. destruct o. intros H Hd Hs. cbn in *. tauto. Qed.

Lemma update_fits o slot el o' :
  pod_wf acc_codec o -> is_u64 slot -> VaultOperatorDelegation.update o slot el = Ok o' ->
  pod_wf acc_codec o'.
Proof.
  intros H Hs Hu. unfold VaultOperatorDelegation.update in Hu. inv_ok.
  assert (forall d, pod_wf DelegationState.layout d ->
    pod_wf DelegationState.layout (DelegationState.update d)) as Hup.
  { intros d Hd. apply (state_fits d); [done| |done]. by apply update_wf, fits_wf. }
  pose proof (proj1 (proj2 (proj2 H))) as Hd.
  apply operator_fits; [done| |done]. destruct (_ =? 0); [done|]. destruct (_ =? 1); by auto.
Qed.

Lemma tracker_fits t i d :
  pod_wf acc_codec t -> is_u64 i -> pod_wf DelegationState.layout d ->
  pod_wf acc_codec t<|VaultUpdateStateTracker.last_updated_index := i|>
                    <|VaultUpdateStateTracker.delegation_state := d|>.
Proof. destruct t. intros H Hi Hd. cbn in *. tauto. Qed.

Lemma unstaking_fits v n :
  pod_wf acc_codec v -> is_u64 n ->
  pod_wf acc_codec v<|Vault.additional_assets_need_unstaking := n|>.
Proof. destruct v. intros H Hn. cbn in *. tauto. Qed.

Lemma greedy_cooldown_fits p v o v' o' :
  pod_wf acc_codec v -> pod_wf acc_codec o -> greedy_cooldown p v o = Ok (v', o') ->
  pod_wf acc_codec v' /\ pod_wf acc_codec o'.
Proof.
  intros Hv Ho H. unfold greedy_cooldown in H.
  destruct (negb p && _ && _) eqn:C; [|by injection H as <- <-].
  pose proof (proj1 (proj2 (proj2 Ho))) as Hd.
  pose proof Hv as (_ & _ & _ & _ & _ & _ & _ & Ha & _). cbn in Ha.
  apply qbind_Ok in H as (d & Hcd & H). apply qbind_Ok in H as (v1 & Hv1 & H).
  injection H as <- <-. apply cooldown_fits in Hcd; [|done|].
  - split.
    + unfold Vault.decrement_additional_assets_need_unstaking in Hv1. inv_ok.
      apply unstaking_fits; [done|]. unfold is_u64 in *. lia.
    + destruct o. cbn in *. tauto.
  - pose proof (fits_wf _ Hd) as (Hs & _). unfold is_u64 in *. cbn in *. lia.
Qed.

Lemma crank_fits p slot el v o t v' o' t' :
  pod_wf acc_codec v -> pod_wf acc_codec o -> pod_wf acc_codec t -> is_u64 slot ->
  crank_operator p slot el v o t = Ok (v', o', t') ->
  pod_wf acc_codec v' /\ pod_wf acc_codec o' /\ pod_wf acc_codec t'.
Proof.
  intros Hv Ho Ht Hs H. unfold crank_operator in H. apply qbind_Ok in H as (_ & _ & H).
  apply qbind_Ok in H as (t1 & Ht1 & H). apply qbind_Ok in H as ([v1 o1] & Hg & H).
  apply qbind_Ok in Hg as ([] & _ & Hg). rewrite into_Ok in Hg.
  destruct (greedy_cooldown_fits _ _ _ _ _ Hv Ho Hg) as [Hv1 Ho1].
  apply qbind_Ok in H as (o2 & Ho2 & H). apply (update_fits _ _ _ _ Ho1 Hs) in Ho2.
  apply qbind_Ok in H as (d & Hd & H). injection H as <- <- <-. split_and!; [done|done|].
  unfold VaultUpdateStateTracker.check_and_update_index in Ht1.
  apply qbind_Ok in Ht1 as (_ & _ & Ht1). injection Ht1 as <-.
  apply tracker_fits; [done|by destruct Ho as (_ & _ & _ & _ & ? & _)|].
  eapply accumulate_fits; [|apply (proj1 (proj2 (proj2 Ho2)))|exact Hd].
  by destruct Ht as (_ & _ & _ & ? & _).
Qed.

Lemma config_fee_nonneg c : pod_wf acc_codec c -> 0 <= Config.program_fee_bps c.
Proof. intros (_ & _ & _ & _ & _ & _ & _ & (H & _) & _). exact H. Qed.

Lemma finished_fits v d slot :
  pod_wf acc_codec v -> pod_wf DelegationState.layout d -> is_u64 slot ->
  pod_wf acc_codec v<|Vault.delegation_state := d|><|Vault.last_full_state_update_slot := slot|>.
Proof. destruct v. intros H Hd Hs. cbn in *. tauto. Qed.

Lemma shifted_fits v a :
  pod_wf acc_codec v -> is_u64 a ->
  pod_wf acc_codec v<|Vault.vrt_ready_to_claim_amount := a|>
    <|Vault.vrt_cooling_down_amount := Vault.vrt_enqueued_for_cooldown_amount v|>
    <|Vault.vrt_enqueued_for_cooldown_amount := 0|>.
Proof.
  intros H Ha. assert (is_u64 0) by (unfold is_u64; lia). destruct v. cbn in *. tauto.
Qed.

Lemma shift_vrt_loop_fits n v v' :
  pod_wf acc_codec v -> shift_vrt_loop n v = Ok v' -> pod_wf acc_codec v'.
Proof.
  revert v. induction n as [|n IH]; intros v Hv H; [by injection H as <-|].
  cbn [shift_vrt_loop] in H. apply qbind_Ok in H as (v1 & H1 & H). apply (IH v1); [|done].
  unfold shift_vrt, Vault.increment_vrt_ready_to_claim_amount in H1.
  pose proof Hv as (_ & _ & _ & _ & _ & _ & _ & _ & _ & Hc & Hr & _). cbn in Hc, Hr. inv_ok.
  assert (is_u64 (Vault.vrt_ready_to_claim_amount v + Vault.vrt_cooling_down_amount v)) as Ha
    by (unfold is_u64 in *; lia).
  pose proof (shifted_fits v _ Hv Ha) as Hf. clear -Hf. destruct v. exact Hf.
Qed.

Lemma finish_fits v t e slot el v' :
  pod_wf acc_codec v -> pod_wf acc_codec t -> is_u64 slot ->
  finish_update v t e slot el = Ok v' -> pod_wf acc_codec v'.
Proof.
  intros Hv Ht Hs H. unfold finish_update in H. apply qbind_Ok in H as (c & _ & H).
  apply qbind_Ok in H as (l & _ & H). destruct (negb (e =? c)); [by injection H as <-|].
  apply qbind_Ok in H as (f & _ & H). destruct (negb f); [done|].
  destruct (_ >? 0); [done|]. apply qbind_Ok in H as (n & _ & H). rewrite into_Ok in H.
  eapply shift_vrt_loop_fits; [|exact H].
  apply finished_fits; [done|by destruct Ht as (_ & _ & _ & ? & _)|done].
Qed.

(** ** Claims *)

(** C20: a crank on the ledger is a step of the update cycle.  When
    [CrankVaultUpdateStateTracker] succeeds on the accounts of a vault, its
    tracker and one of its operators, the three accounts afterwards store the
    vault, the tracker and that operator of a successor of the abstract cycle,
    in the epoch of the current slot; nothing else is called. *)
Theorem crank_on_ledger_is_a_step {env : Env} {laws : EnvLaws env} decode program_id accs ixd slot
    t t' trace ci config i di ti c n o :
  run_instruction (process_instruction decode program_id accs ixd) program_id accs slot t
  = Ok (t', trace) ->
  decode ixd = Ok CrankVaultUpdateStateTracker -> is_u64 slot ->
  accs !! 0%nat = Some ci -> stores t (key ci) program_id config ->
  accs !! 1%nat = Some i -> stores t (key i) program_id (cv c) ->
  accs !! 3%nat = Some di -> stores t (key di) program_id o -> cops c !! n = Some o ->
  accs !! 4%nat = Some ti -> stores t (key ti) program_id (ct c) ->
  let el := Config.epoch_length config in
  trace = [] /\ exists c' o', crank_step el (slot / el) c c' /\
    stores t' (key i) program_id (cv c') /\ stores t' (key ti) program_id (ct c') /\
    stores t' (key di) program_id o' /\ cops c' = <[n := o']> (cops c).
Proof.
  intros H Hd Hu Hci Hcs Hi Hs Hdi Ho Hn Hti Ht el.
  apply run_handler in H as (ix & w & Hd' & H & -> & Hc).
  rewrite Hd in Hd'. injection Hd' as <-. cbn [dispatch] in H.
  apply process_crank_effect in H as (ci' & vi & oi & di' & ti' & cfg & v0 & o0 & tr & p & v' & o'
    & tr' & -> & Hc0 & Hv0 & Ho0 & Ht0 & Hp & Hcr & L & H1 & H2 & H3).
  injection Hci as ->. injection Hi as ->. injection Hdi as ->. injection Hti as ->.
  unfold account_of in *. simpl in Hc0, Hv0, Ho0, Ht0, H1, H2, H3, Hcr.
  rewrite (proj2 (proj2 Hcs)) in Hc0. injection Hc0 as <-.
  rewrite (proj2 (proj2 Hs)) in Hv0. injection Hv0 as <-.
  rewrite (proj2 (proj2 Ho)) in Ho0. injection Ho0 as <-.
  rewrite (proj2 (proj2 Ht)) in Ht0. injection Ht0 as <-.
  destruct (crank_fits _ _ _ _ _ _ _ _ _ (stores_pod_wf _ _ _ _ Hs) (stores_pod_wf _ _ _ _ Ho)
    (stores_pod_wf _ _ _ _ Ht) Hu Hcr) as (F1 & F2 & F3).
  destruct (Hc i _ _ (list_elem_of_lookup_2 (_ :: i :: _) 1 i eq_refl) H1) as (A1 & B1 & _).
  destruct (Hc di _ _ (list_elem_of_lookup_2 (_ :: _ :: _ :: di :: _) 3 di eq_refl) H2)
    as (A2 & B2 & _).
  destruct (Hc ti _ _ (list_elem_of_lookup_2 (_ :: _ :: _ :: _ :: ti :: _) 4 ti eq_refl) H3)
    as (A3 & B3 & _).
  split; [by destruct L as (_ & _ & _ & _ & ->)|].
  exists (mkCycle v' tr' (<[n := o']> (cops c))), o'. simpl. split_and!; [| | | |done].
  - by apply (crank_step_intro _ _ _ n slot o p).
  - by apply (stores_write_back t _ _ _ (cv c)).
  - by apply (stores_write_back t _ _ _ (ct c)).
  - by apply (stores_write_back t _ _ _ o).
Qed.

(** The test vault in the middle of its update. *)
Definition tracker_key : Pubkey :=
  (VaultUpdateStateTracker.find_address 20 test_vault_key 2).1.1.
Definition cycle_tx (c : Cycle) : Tx :=
  mkTx (<[test_vault_key := program_account 20 (cv c)]>
       (<[test_delegation_key := program_account 20 (nth 0 (cops c) test_delegation)]>
       (<[tracker_key := program_account 20 (ct c)]> test_store))) 0 0.
Definition crank_accounts : list AccountInfo :=
  [config_info; vault_info; operator_info; delegation_info; mkInfo tracker_key false true].
Definition close_accounts : list AccountInfo :=
  [config_info; vault_info; mkInfo tracker_key false true; mkInfo 40 true true].
Definition cycle_decode (d : list Z) : result ProgramError VaultInstruction :=
  match d with
  | [0] => Ok CrankVaultUpdateStateTracker
  | [1; e] => Ok (CloseVaultUpdateStateTracker e)
  | _ => Err ProgramError.InvalidInstructionData
  end.

Ltac solve_stored :=
  split_and!; [vm_compute; reflexivity|apply (bool_decide_unpack _); vm_compute; exact I
    |vm_compute; reflexivity].

Lemma crank_on_ledger_is_a_step_witness :
  exists t' trace c', run_instruction (process_instruction cycle_decode 20 crank_accounts [0]) 20
      crank_accounts 2300 (cycle_tx example_cycle) = Ok (t', trace) /\
    crank_step 1000 2 example_cycle c' /\ stores t' test_vault_key 20 (cv c').
Proof.
  destruct (run_instruction (process_instruction cycle_decode 20 crank_accounts [0]) 20
    crank_accounts 2300 (cycle_tx example_cycle)) as [[t' trace]|] eqn:E; [|vm_compute in E; done].
  destruct (crank_on_ledger_is_a_step cycle_decode 20 crank_accounts [0] 2300
    (cycle_tx example_cycle) t' trace config_info test_config vault_info delegation_info
    (mkInfo tracker_key false true) example_cycle 0 (example_operator 0 1500 10 10) E)
    as (_ & c' & o' & Hc & Hv & _).
  - reflexivity.
  - unfold is_u64. lia.
  - reflexivity.
  - solve_stored.
  - reflexivity.
  - solve_stored.
  - reflexivity.
  - solve_stored.
  - reflexivity.
  - reflexivity.
  - solve_stored.
  - exists t', trace, c'. split; [reflexivity|]. split; [exact Hc|exact Hv].
Defined.

(** C19: closing the tracker on the ledger ends the update with the books in
    order.  Start from a vault whose books are in order, begin the update and
    crank every operator; if the accounts store the resulting vault and
    tracker, a successful [CloseVaultUpdateStateTracker] of that epoch leaves
    a vault account whose books with the operators are in order again, marked
    as updated in this slot, and an empty tracker account. *)
Theorem close_on_ledger_restores_books {env : Env} {laws : EnvLaws env} decode program_id accs ixd
    slot t t' trace ci config i ti v ops slot0 v1 tracker_vault k c :
  let el := Config.epoch_length config in
  let e := slot0 / el in
  run_instruction (process_instruction decode program_id accs ixd) program_id accs slot t
  = Ok (t', trace) ->
  decode ixd = Ok (CloseVaultUpdateStateTracker e) -> is_u64 slot ->
  accs !! 0%nat = Some ci -> stores t (key ci) program_id config ->
  books el v ops -> 0 <= slot0 -> Vault.last_full_state_update_slot v / el < e ->
  begin_update config v slot0 = Ok v1 ->
  nsteps (crank_step el e) k (mkCycle v1 (VaultUpdateStateTracker.new tracker_vault e 0) ops) c ->
  Z.of_nat k = Vault.operator_count v -> slot / el = e ->
  accs !! 1%nat = Some i -> stores t (key i) program_id (cv c) ->
  accs !! 2%nat = Some ti -> stores t (key ti) program_id (ct c) ->
  trace = [] /\ exists v', stores t' (key i) program_id v' /\ books el v' (cops c) /\
    Vault.last_full_state_update_slot v' = slot /\
    lamports (acct (accounts t') (key ti)) = 0 /\ data (acct (accounts t') (key ti)) = [] /\
    owner (acct (accounts t') (key ti)) = system_program_id.
Proof.
  intros el e H Hd Hu Hci Hcs Hb Hs0 Hlt Hbegin Hn Hk Hslot Hi Hs Hti Ht.
  apply run_handler in H as (ix & w & Hd' & H & -> & Hc).
  rewrite Hd in Hd'. injection Hd' as <-. cbn [dispatch] in H.
  apply process_close_tracker_effect in H as (ci' & vi & ti' & pi & cfg & v0 & tr & v' & -> & Hc0
    & Hv0 & Ht0 & Hf & L & H1 & H2 & H3).
  injection Hci as ->. injection Hi as ->. injection Hti as ->.
  unfold account_of in *. simpl in Hc0, Hv0, Ht0, H1, Hf.
  rewrite (proj2 (proj2 Hcs)) in Hc0. injection Hc0 as <-.
  rewrite (proj2 (proj2 Hs)) in Hv0. injection Hv0 as <-.
  rewrite (proj2 (proj2 Ht)) in Ht0. injection Ht0 as <-.
  assert (0 <= Config.program_fee_bps config) as Hpf by (apply config_fee_nonneg, (stores_pod_wf _ _ _ _ Hcs)).
  destruct (cycle_books config v ops slot0 v1 tracker_vault k c slot Hb Hpf Hs0 Hlt Hbegin Hn Hk
    Hslot) as (v2 & req & Hf2 & Hb2 & Hl2 & _).
  fold el e in Hf2. fold el in Hf. rewrite Hf in Hf2. injection Hf2 as <-.
  pose proof (finish_fits _ _ _ _ _ _ (stores_pod_wf _ _ _ _ Hs) (stores_pod_wf _ _ _ _ Ht) Hu Hf).
  destruct (Hc i _ _ (list_elem_of_lookup_2 (_ :: i :: _) 1 i eq_refl) H1) as (A1 & B1 & _).
  destruct (Hc ti _ _ (list_elem_of_lookup_2 (_ :: _ :: ti :: _) 2 ti eq_refl) H2)
    as (A2 & B2 & C2).
  split; [by destruct L as (_ & _ & _ & _ & ->)|]. exists v'. split_and!; try done; [|congruence].
  by apply (stores_write_back t _ _ _ (cv c)).
Qed.

Lemma close_on_ledger_restores_books_witness :
  exists t' trace v', run_instruction (process_instruction cycle_decode 20 close_accounts [1; 2]) 20
      close_accounts 2700 (cycle_tx example_end) = Ok (t', trace) /\
    stores t' test_vault_key 20 v' /\ books 1000 v' (cops example_end) /\
    data (acct (accounts t') tracker_key) = [].
Proof.
  destruct (run_instruction (process_instruction cycle_decode 20 close_accounts [1; 2]) 20
    close_accounts 2700 (cycle_tx example_end)) as [[t' trace]|] eqn:E; [|vm_compute in E; done].
  destruct (close_on_ledger_restores_books cycle_decode 20 close_accounts [1; 2] 2700
    (cycle_tx example_end) t' trace config_info test_config vault_info
    (mkInfo tracker_key false true) example_update_vault example_operators 2000 example_begun 77 2
    example_end E) as (_ & v' & Hs & Hb & _ & _ & Hd & _).
  - reflexivity.
  - unfold is_u64. lia.
  - reflexivity.
  - solve_stored.
  - exact example_books.
  - lia.
  - vm_compute. reflexivity.
  - vm_compute. reflexivity.
  - exact example_steps.
  - vm_compute. reflexivity.
  - vm_compute. reflexivity.
  - reflexivity.
  - solve_stored.
  - reflexivity.
  - solve_stored.
  - exists t', trace, v'. split; [reflexivity|]. split; [exact Hs|]. split; [exact Hb|exact Hd].
Defined.
