(* ===== verification/RestakingAuthority.v ===== *)
(** * The restaking program as a whole

    Isolation of the program from other accounts, the authority of every
    instruction, and the independence of the two sides of the relation
    between a network and an operator. *)

From stdpp Require Import base numbers list gmap.
From Stdlib Require Import Lia.
From S2P Require Import Prelude Errors Pod DelegationState SlotToggle Runtime SystemProgram.
From S2P Require Import Program Core RestakingCore VaultConfig Vault VaultTickets VaultAdmin.
From S2P Require Import RestakingProgram Isolation Effects Testbed.
Local Open Scope Z_scope.

Ltac unfold_restaking :=
  unfold process_initialize_restaking_config, process_initialize_ncn,
    process_initialize_operator, process_initialize_ncn_operator_state,
    process_initialize_ncn_vault_slasher_ticket, process_initialize_ncn_vault_ticket,
    process_initialize_operator_vault_ticket, process_ncn_cooldown_operator,
    process_ncn_warmup_operator, process_operator_cooldown_ncn, process_operator_warmup_ncn,
    process_warmup_ncn_vault_slasher_ticket, process_cooldown_ncn_vault_slasher_ticket,
    process_warmup_ncn_vault_ticket, process_cooldown_ncn_vault_ticket,
    process_warmup_operator_vault_ticket, process_cooldown_operator_vault_ticket,
    process_ncn_set_admin, process_ncn_set_secondary_admin, process_set_node_operator_admin,
    process_set_operator_secondary_admin, process_operator_set_fee,
    process_ncn_delegate_token_account, process_operator_delegate_token_account,
    process_set_restaking_config_admin.

Section RestakingBehaved.
Context {env : Env} {laws : EnvLaws env}.

Lemma restaking_dispatch_behaved program_id accounts ix :
  Behaved (restaking_dispatch program_id accounts ix).
Proof.
  destruct ix; cbn [restaking_dispatch].
  all: unfold_restaking.
  all: solve_behaved.
Qed.

Lemma process_restaking_behaved decode program_id accounts data :
  Behaved (process_restaking_instruction decode program_id accounts data).
Proof.
  unfold process_restaking_instruction. apply behaved_if; [apply _|].
  apply behaved_bind; [apply _|]. intros ix. apply restaking_dispatch_behaved.
Qed.

(** A committed run: the handler that ran, and where its final state went. *)
Lemma run_restaking decode program_id accs ixd prog slot t t' trace :
  run_instruction (process_restaking_instruction decode program_id accs ixd) prog accs slot t
  = Ok (t', trace) ->
  exists ix w, decode ixd = Ok ix /\ program_id = RESTAKING_PROGRAM_ID /\
    restaking_dispatch program_id accs ix (enter prog accs slot t) = Ok (tt, w) /\
    trace = cpis w /\
    forall i p d, i ∈ accs -> holds w (key i) p d ->
      owner (acct (accounts t') (key i)) = p /\ data (acct (accounts t') (key i)) = d.
Proof.
  intros H. apply run_effect in H as (w & H & -> & Hk); [|apply process_restaking_behaved].
  unfold process_restaking_instruction in H.
  destruct (Z.eqb_spec program_id RESTAKING_PROGRAM_ID) as [->|]; [|done]. simpl in H.
  apply mbind_Ok in H as (ix & w1 & Hd & H). apply lift_Ok in Hd as [Hd ->].
  exists ix, w. split_and!; try done. intros i p d Hi Hh. by destruct (Hk i p d Hi Hh) as (? & ? & _).
Qed.

End RestakingBehaved.

(** ** Tables *)

Inductive RestakingAuthority : Type :=
| NcnRole (ncn_pos signer_pos : nat) (role : Ncn -> Pubkey)
| OperatorRole (operator_pos signer_pos : nat) (role : Operator -> Pubkey)
| RestakingConfigRole (config_pos signer_pos : nat) (role : RestakingConfig -> Pubkey)
| Open.

Definition restaking_authority (ix : RestakingInstruction) : RestakingAuthority :=
  match ix with
  | InitializeRestakingConfig | InitializeNcn | InitializeOperator _ => Open
  | InitializeNcnOperatorState | NcnWarmupOperator | NcnCooldownOperator =>
      NcnRole 1 4 Ncn.operator_admin
  | InitializeNcnVaultTicket | WarmupNcnVaultTicket | CooldownNcnVaultTicket =>
      NcnRole 1 4 Ncn.vault_admin
  | InitializeNcnVaultSlasherTicket _ | WarmupNcnVaultSlasherTicket =>
      NcnRole 1 6 Ncn.slasher_admin
  | CooldownNcnVaultSlasherTicket => NcnRole 1 5 Ncn.slasher_admin
  | InitializeOperatorVaultTicket | WarmupOperatorVaultTicket | CooldownOperatorVaultTicket =>
      OperatorRole 1 4 Operator.vault_admin
  | OperatorWarmupNcn | OperatorCooldownNcn => OperatorRole 2 4 Operator.ncn_admin
  | NcnSetAdmin | NcnSetSecondaryAdmin _ => NcnRole 0 1 Ncn.admin
  | OperatorSetAdmin | OperatorSetSecondaryAdmin _ => OperatorRole 0 1 Operator.admin
  | OperatorSetFee _ => OperatorRole 1 2 Operator.admin
  | NcnDelegateTokenAccount => NcnRole 0 1 Ncn.delegate_admin
  | OperatorDelegateTokenAccount => OperatorRole 0 1 Operator.delegate_admin
  | SetRestakingConfigAdmin => RestakingConfigRole 0 1 RestakingConfig.admin
  end.

Definition restaking_authorised (program_id : Pubkey) (accs : list AccountInfo) (s : Store)
    (a : RestakingAuthority) : Prop :=
  match a with
  | NcnRole p q role => named_signer Ncn program_id accs s p q role
  | OperatorRole p q role => named_signer Operator program_id accs s p q role
  | RestakingConfigRole p q role => named_signer RestakingConfig program_id accs s p q role
  | Open => True
  end.

(** ** Loads *)

Section RestakingLoads.
Context {env : Env}.

Lemma Ncn_load_owner p i b s u : Ncn.load p i b s = Ok u -> owner (account_of s i) = p.
Proof. unfold Ncn.load. intros H.
  apply qbind_Ok in H as (? & H & _). exact (load_program_account_owner _ _ _ _ _ _ H). Qed.

Lemma Operator_load_owner p i b s u :
  Operator.load p i b s = Ok u -> owner (account_of s i) = p.
Proof. unfold Operator.load. intros H.
  apply qbind_Ok in H as (? & H & _). exact (load_program_account_owner _ _ _ _ _ _ H). Qed.

Lemma RestakingConfig_load_owner p i b s u :
  RestakingConfig.load p i b s = Ok u -> owner (account_of s i) = p.
Proof. unfold RestakingConfig.load. intros H.
  apply qbind_Ok in H as (? & H & _). exact (load_program_account_owner _ _ _ _ _ _ H). Qed.

Ltac simplify_guards :=
  repeat match goal with
  | C : negb (_ =? _) = false |- _ => apply negb_false_iff, Z.eqb_eq in C
  | R : Operator.check_admin _ _ = Ok _ |- _ => apply guard_eq in R
  | R : Operator.check_delegate_admin _ _ = Ok _ |- _ => apply guard_eq in R
  | R : Ncn.check_delegate_admin _ _ = Ok _ |- _ => apply guard_eq in R
  end.

Lemma restaking_dispatch_authorised program_id accs ix w u w' :
  restaking_dispatch program_id accs ix w = Ok (u, w') ->
  restaking_authorised program_id accs (view w) (restaking_authority ix).
Proof.
  intros H. destruct ix; cbn [restaking_authority restaking_authorised]; try exact I;
    cbn [restaking_dispatch] in H.
  all: revert H; unfold_restaking; intros H.
  all: destruct_accounts accs H.
  all: run_inv H.
  all: eexists _, _, _; split; [reflexivity|]; split; [reflexivity|];
    split; [by eauto using RestakingConfig_load_owner, Ncn_load_owner, Operator_load_owner|];
    split; [eassumption|]; split; [by eapply load_signer_Ok|].
  all: simplify_guards; congruence.
Qed.

End RestakingLoads.

(** ** The two sides of a relation *)

(** The only changes of a relation's toggles: each side by the warm-up and the
    cooldown instruction of that side. *)
Definition opt_in_step (ix : RestakingInstruction) (slot epoch_length : Z)
    (s s' : NcnOperatorState) : Prop :=
  match ix with
  | NcnWarmupOperator => exists toggle,
      activate_or (NcnOperatorState.ncn_opt_in_state s) slot epoch_length
        RestakingError.NcnWarmupOperatorFailed = Ok toggle /\
      s' = s<|NcnOperatorState.ncn_opt_in_state := toggle|>
  | NcnCooldownOperator => exists toggle,
      deactivate_or (NcnOperatorState.ncn_opt_in_state s) slot epoch_length
        RestakingError.NcnCooldownOperatorFailed = Ok toggle /\
      s' = s<|NcnOperatorState.ncn_opt_in_state := toggle|>
  | OperatorWarmupNcn => exists toggle,
      activate_or (NcnOperatorState.operator_opt_in_state s) slot epoch_length
        RestakingError.OperatorWarmupNcnFailed = Ok toggle /\
      s' = s<|NcnOperatorState.operator_opt_in_state := toggle|>
  | OperatorCooldownNcn => exists toggle,
      deactivate_or (NcnOperatorState.operator_opt_in_state s) slot epoch_length
        RestakingError.OperatorCooldownNcnFailed = Ok toggle /\
      s' = s<|NcnOperatorState.operator_opt_in_state := toggle|>
  | _ => False
  end.

(** [k] is the relation between the network at position 1 and the operator at
    position 2 under the configuration [c] at position 0. *)
Definition relation_of `{Env} (program_id : Pubkey) (accs : list AccountInfo) (s : Store)
    (c : RestakingConfig) (k : Pubkey) : Prop :=
  exists config ncn operator,
    accs !! 0%nat = Some config /\ accs !! 1%nat = Some ncn /\ accs !! 2%nat = Some operator /\
    try_from_slice_unchecked RestakingConfig (data (account_of s config)) = Ok c /\
    k = (NcnOperatorState.find_address program_id (key ncn) (key operator)).1.1.

Section OptIn.
Context {env : Env} {laws : EnvLaws env}.

Section Keeping.
Context (w : World) (k program_id : Pubkey) (d : list Z).
Context (Hh : holds w k program_id d) (Hp : program_id ∉ callees).
Context (Hd : head d = Some (DISCRIMINATOR (A := NcnOperatorState))).

Lemma other_type_ne A `{!AccountDeserialize A} p i b u :
  load_program_account A p i b (view w) = Ok u ->
  DISCRIMINATOR (A := A) <> DISCRIMINATOR (A := NcnOperatorState) -> k <> key i.
Proof.
  intros H Hne ->. apply load_program_account_typed in H. destruct Hh as [_ Hda].
  unfold account_of in H. rewrite Hda, Hd in H. congruence.
Qed.

Lemma fresh_ne i b u : load_system_account i b (view w) = Ok u -> k <> key i.
Proof.
  intros H ->. apply load_system_account_owner in H. destruct Hh as [Ho _].
  unfold account_of in H. rewrite Ho in H. apply Hp. rewrite H. apply list_elem_of_here.
Qed.

End Keeping.

(** Turn every load into the fact that it is not the followed account. *)
Ltac loads_ne Hh Hp Hd :=
  repeat match goal with
  | R : load_system_account ?i _ _ = Ok _ |- _ => apply (fresh_ne _ _ _ _ Hh Hp) in R
  | R : RestakingConfig.load _ ?i _ _ = Ok _ |- _ =>
      apply qbind_Ok in R as (? & R & _); apply (other_type_ne _ _ _ _ Hh Hd) in R; [|done]
  | R : Ncn.load _ ?i _ _ = Ok _ |- _ =>
      apply qbind_Ok in R as (? & R & _); apply (other_type_ne _ _ _ _ Hh Hd) in R; [|done]
  | R : Operator.load _ ?i _ _ = Ok _ |- _ =>
      apply qbind_Ok in R as (? & R & _); apply (other_type_ne _ _ _ _ Hh Hd) in R; [|done]
  | R : NcnVaultTicket.load _ ?i _ _ _ _ = Ok _ |- _ =>
      apply qbind_Ok in R as (? & R & _); apply (other_type_ne _ _ _ _ Hh Hd) in R; [|done]
  | R : OperatorVaultTicket.load _ ?i _ _ _ _ = Ok _ |- _ =>
      apply qbind_Ok in R as (? & R & _); apply (other_type_ne _ _ _ _ Hh Hd) in R; [|done]
  | R : NcnVaultSlasherTicket.load _ ?i _ _ _ _ _ = Ok _ |- _ =>
      apply qbind_Ok in R as (? & R & _); apply (other_type_ne _ _ _ _ Hh Hd) in R; [|done]
  end.

(** Follow an account that no write of the run is for. *)
Ltac follow :=
  repeat match goal with
  | Hh : holds ?w ?k ?p ?d, R : create_account _ _ _ _ _ _ ?w = Ok (_, ?w') |- _ =>
      assert (holds w' k p d) by (by eapply create_account_keeps); clear R
  | Hh : holds ?w ?k ?p ?d, R : create_program_account _ _ _ _ _ _ ?w = Ok (_, ?w') |- _ =>
      assert (holds w' k p d) by (by apply (create_program_account_keeps _ _ _ _ _ _ _ _ _ _ _ _ R)); clear R
  | Hh : holds ?w ?k ?p ?d, R : invoke_signed _ _ _ ?w = Ok (_, ?w') |- _ =>
      assert (holds w' k p d) by (apply invoke_effect in R as [_ R]; by apply R); clear R
  | Hh : holds ?w ?k ?p ?d, R : write_new _ _ ?w = Ok (_, ?w') |- _ =>
      assert (holds w' k p d) by (apply write_new_effect in R as [_ R]; specialize (R _ _ _ Hh);
        by rewrite decide_False in R); clear R
  | Hh : holds ?w ?k ?p ?d, R : write _ _ ?w = Ok (_, ?w') |- _ =>
      assert (holds w' k p d) by (apply write_effect in R as [_ R]; specialize (R _ _ _ Hh);
        by rewrite decide_False in R); clear R
  end.

Lemma relation_kept program_id accs ix w u w' k d :
  restaking_dispatch program_id accs ix w = Ok (u, w') -> program_id ∉ callees ->
  holds w k program_id d -> head d = Some (DISCRIMINATOR (A := NcnOperatorState)) ->
  match ix with
  | NcnWarmupOperator | NcnCooldownOperator | OperatorWarmupNcn | OperatorCooldownNcn => True
  | _ => holds w' k program_id d
  end.
Proof.
  intros H Hp Hh Hd. destruct ix; try exact I; cbn [restaking_dispatch] in H.
  all: revert H; unfold_restaking; intros H.
  all: destruct_accounts accs H.
  all: run_inv H.
  all: loads_ne Hh Hp Hd.
  all: follow.
  all: assumption.
Qed.

Lemma relation_changed program_id accs ix w u w' k d s :
  restaking_dispatch program_id accs ix w = Ok (u, w') -> holds w k program_id d ->
  try_from_slice_unchecked NcnOperatorState d = Ok s ->
  match ix with
  | NcnWarmupOperator | NcnCooldownOperator | OperatorWarmupNcn | OperatorCooldownNcn =>
      holds w' k program_id d \/
      exists c s', relation_of program_id accs (view w) c k /\
        opt_in_step ix (clock_slot w) (RestakingConfig.epoch_length c) s s' /\
        holds w' k program_id (write_back d s')
  | _ => True
  end.
Proof.
  intros H Hh Hs. destruct ix; try exact I; cbn [restaking_dispatch] in H.
  all: revert H; unfold_restaking; intros H.
  all: destruct_accounts accs H.
  all: run_inv H.
  all: match goal with Hw : write ?i _ _ = Ok _, Hl : NcnOperatorState.load _ _ _ _ _ _ = Ok _ |- _ =>
         apply write_effect in Hw as [_ Hw]; specialize (Hw _ _ _ Hh);
         apply qbind_Ok in Hl as (_ & _ & Hl); apply guard_eq in Hl;
         destruct (decide (k = key i)) as [->|]; [right|by left] end.
  all: destruct Hh as [_ Hda]; unfold account_of in *; rewrite Hda in *.
  all: match goal with R : try_from_slice_unchecked NcnOperatorState _ = Ok ?x |- _ =>
         rewrite Hs in R; injection R as <- end.
  all: eexists _, _; split; [eexists _, _, _; split_and!; done|]; split; [|eassumption].
  all: eexists; split; [eassumption|reflexivity].
Qed.

Lemma toggled_fits (t t' : SlotToggle) slot el (e : RestakingError) :
  pod_wf SlotToggle.layout t -> is_u64 slot ->
  activate_or t slot el e = Ok t' \/ deactivate_or t slot el e = Ok t' ->
  pod_wf SlotToggle.layout t'.
Proof.
  intros H Hu [Ht|Ht]; unfold activate_or, deactivate_or, SlotToggle.activate,
    SlotToggle.deactivate in Ht; destruct (SlotToggle.state t slot el) as [[]|]; try done.
  - simpl in Ht. destruct (_ =? slot); [done|]. injection Ht as <-. destruct t. cbn in *. tauto.
  - simpl in Ht. injection Ht as <-. destruct t. cbn in *. tauto.
Qed.

Lemma opt_in_step_fits ix slot el s s' :
  opt_in_step ix slot el s s' -> is_u64 slot ->
  pod_wf NcnOperatorState.layout s -> pod_wf NcnOperatorState.layout s'.
Proof.
  intros H Hu Hw. destruct ix; try done; destruct H as (t & Ht & ->);
    pose proof (fun Hs => toggled_fits _ t slot el _ Hs Hu ltac:(eauto)) as Hf; clear Ht;
    destruct s; cbn in *; tauto.
Qed.

End OptIn.

Lemma stores_disc {A} `{!AccountDeserialize A} t k p (a : A) :
  stores t k p a -> head (data (acct (accounts t) k)) = Some (DISCRIMINATOR (A := A)).
Proof.
  intros (_ & _ & H). unfold try_from_slice_unchecked in H.
  destruct (data (acct (accounts t) k)) as [|b l]; [done|]. simpl.
  by destruct (Z.eqb_spec b (DISCRIMINATOR (A := A))) as [->|].
Qed.

(** ** A ledger with a network, an operator and their relation *)

Definition relation_config_key : Pubkey := (RestakingConfig.find_address 21).1.1.
Definition relation_ncn_key : Pubkey := (Ncn.find_address 21 31).1.1.
Definition relation_key : Pubkey :=
  (NcnOperatorState.find_address 21 relation_ncn_key test_operator_key).1.1.
Definition test_relation : NcnOperatorState :=
  NcnOperatorState.new relation_ncn_key test_operator_key 0 255 1000.
Definition relation_tx : Tx :=
  mkTx (<[relation_config_key := program_account 21 (RestakingConfig.new 4 20 255)]>
       (<[relation_ncn_key := program_account 21 (Ncn.new 31 4 0 255)]>
       (<[test_operator_key := program_account 21 test_operator]>
       (<[relation_key := program_account 21 test_relation]> ∅)))) 0 0.
Definition relation_accounts : list AccountInfo :=
  [mkInfo relation_config_key false false; mkInfo relation_ncn_key false false; operator_info;
   mkInfo relation_key false true; admin_info].
Definition relation_decode (d : list Z) : result ProgramError RestakingInstruction :=
  match d with
  | [0] => Ok NcnWarmupOperator
  | [1] => Ok OperatorWarmupNcn
  | _ => Err ProgramError.InvalidInstructionData
  end.
Definition relation_run (d : list Z) : result Fault (Tx * list Instruction) :=
  run_instruction (process_restaking_instruction relation_decode 21 relation_accounts d) 21
    relation_accounts 2000000 relation_tx.

(** ** Claims *)

(** The restaking program is isolated.  Whatever the instruction, the
    accounts and the called programs do, a successful instruction leaves every
    account that was not passed as writable unchanged, and changes data or
    owner only of accounts of the program itself, of the system program or of
    a called program. *)
Theorem restaking_program_is_isolated {env : Env} {laws : EnvLaws env} decode program_id accs ixd
    prog slot t t' trace k :
  run_instruction (process_restaking_instruction decode program_id accs ixd) prog accs slot t
  = Ok (t', trace) ->
  (readonly accs k -> acct (accounts t') k = acct (accounts t) k) /\
  (owner (acct (accounts t) k) ∉ running prog ->
   data (acct (accounts t') k) = data (acct (accounts t) k) /\
   owner (acct (accounts t') k) = owner (acct (accounts t) k)).
Proof. intros H. eapply run_permitted in H; [|apply process_restaking_behaved]. by apply H. Qed.

Lemma restaking_program_is_isolated_witness :
  exists t' trace, relation_run [0] = Ok (t', trace) /\
    acct (accounts t') test_operator_key = acct (accounts relation_tx) test_operator_key.
Proof.
  destruct (relation_run [0]) as [[t' trace]|] eqn:E; [|vm_compute in E; done].
  exists t', trace. split; [reflexivity|].
  apply (restaking_program_is_isolated relation_decode 21 relation_accounts [0] 21 2000000
           relation_tx t' trace test_operator_key E).
  repeat constructor; vm_compute; congruence.
Defined.

(** C23: every instruction of the restaking program needs its authority.  A
    successful instruction ran under the program's id and, for each
    instruction of the table, the account at the given position is owned by
    the program and stores the key of the account that signed: the admin of
    the network, operator or configuration whose business it is. *)
Theorem restaking_needs_its_authority {env : Env} {laws : EnvLaws env} decode program_id accs ixd
    prog slot t t' trace :
  run_instruction (process_restaking_instruction decode program_id accs ixd) prog accs slot t
  = Ok (t', trace) ->
  exists ix, decode ixd = Ok ix /\ program_id = RESTAKING_PROGRAM_ID /\
    restaking_authorised program_id accs (accounts t) (restaking_authority ix).
Proof.
  intros H. apply run_restaking in H as (ix & w & Hd & Hp & H & _). exists ix.
  split_and!; [done|done|]. by apply restaking_dispatch_authorised in H.
Qed.

Lemma restaking_needs_its_authority_witness :
  is_ok (relation_run [1]) = true /\
  named_signer Operator 21 relation_accounts (accounts relation_tx) 2 4 Operator.ncn_admin.
Proof.
  split; [vm_compute; reflexivity|].
  destruct (relation_run [1]) as [[t' trace]|] eqn:E; [|vm_compute in E; done].
  destruct (restaking_needs_its_authority relation_decode 21 relation_accounts [1] 21 2000000
              relation_tx t' trace E) as (ix & Hd & _ & H).
  injection Hd as <-. exact H.
Defined.

(** Network and operator opt in independently.  Whatever instruction of
    the restaking program runs, an account that stores the relation between a
    network and an operator stores a relation afterwards, and either the same
    one, or one in which a single side was warmed up or cooled down from the
    slot and the configured epoch length, by the operator admin of that
    network for the network's side, by the network admin of that operator for
    the operator's side. *)
Theorem opt_in_sides_are_separate {env : Env} {laws : EnvLaws env} decode program_id accs ixd prog
    slot t t' trace k (s : NcnOperatorState) :
  run_instruction (process_restaking_instruction decode program_id accs ixd) prog accs slot t
  = Ok (t', trace) ->
  is_u64 slot -> program_id ∉ callees -> stores t k program_id s ->
  stores t' k program_id s \/
  exists ix c s', decode ixd = Ok ix /\ relation_of program_id accs (accounts t) c k /\
    restaking_authorised program_id accs (accounts t) (restaking_authority ix) /\
    opt_in_step ix slot (RestakingConfig.epoch_length c) s s' /\ stores t' k program_id s'.
Proof.
  intros H Hu Hp Hs. pose proof (stores_disc _ _ _ _ Hs) as Hd.
  destruct (decide (k ∈ map key accs)) as [Hin|Hout]; [|left].
  - pose proof H as Hrun. apply run_restaking in H as (ix & w & Hix & _ & H & _ & Hk).
    apply list_elem_of_fmap in Hin as (i & -> & Hi).
    assert (holds (enter prog accs slot t) (key i) program_id (data (acct (accounts t) (key i))))
      as Hh by (by destruct Hs).
    pose proof (restaking_dispatch_authorised _ _ _ _ _ _ H) as Ha.
    pose proof (relation_kept _ _ _ _ _ _ _ _ H Hp Hh Hd) as H1.
    pose proof (relation_changed _ _ _ _ _ _ _ _ s H Hh (proj2 (proj2 Hs))) as H2.
    assert (holds w (key i) program_id (data (acct (accounts t) (key i))) \/
      exists c s', relation_of program_id accs (accounts t) c (key i) /\
        opt_in_step ix slot (RestakingConfig.epoch_length c) s s' /\
        holds w (key i) program_id (write_back (data (acct (accounts t) (key i))) s'))
      as [Hw|(c & s' & Hr & Hst & Hw)] by (destruct ix; auto); apply (Hk _ _ _ Hi) in Hw as [Ho Hda].
    + left. destruct Hs as (? & ? & ?). unfold stores. rewrite Ho, Hda. done.
    + right. exists ix, c, s'. split_and!; try done. eapply stores_write_back; try done.
      eapply opt_in_step_fits; [done|done|]. exact (stores_pod_wf _ _ _ _ Hs).
  - eapply run_permitted in H; [|apply process_restaking_behaved]. destruct (H k) as [Hro _].
    unfold stores. rewrite Hro; [done|]. apply Forall_forall. intros i Hi <-. exfalso.
    apply Hout, list_elem_of_fmap. by exists i.
Qed.

Lemma opt_in_sides_are_separate_witness :
  exists t' trace, relation_run [0] = Ok (t', trace) /\
    exists ix c s', relation_decode [0] = Ok ix /\
      relation_of 21 relation_accounts (accounts relation_tx) c relation_key /\
      restaking_authorised 21 relation_accounts (accounts relation_tx) (restaking_authority ix) /\
      opt_in_step ix 2000000 (RestakingConfig.epoch_length c) test_relation s' /\
      stores t' relation_key 21 s'.
Proof.
  destruct (relation_run [0]) as [[t' trace]|] eqn:E; [|vm_compute in E; done].
  exists t', trace. split; [reflexivity|].
  destruct (opt_in_sides_are_separate relation_decode 21 relation_accounts [0] 21 2000000
              relation_tx t' trace relation_key test_relation E) as [Hsame|Hstep].
  - vm_compute. split; discriminate.
  - apply (bool_decide_unpack _). vm_compute. exact I.
  - unfold stores, bytes_wf. split_and!; [vm_compute; reflexivity| |vm_compute; reflexivity].
    apply (bool_decide_unpack _). vm_compute. exact I.
  - exfalso. destruct Hsame as (_ & _ & Hsame). vm_compute in E. injection E as <- <-.
    vm_compute in Hsame. discriminate Hsame.
  - exact Hstep.
Defined.
