(* ===== verification/TxBytes.v ===== *)
(** * Reading a serialized transaction ([gorchain/transaction-view/src/bytes.rs])

    The reads of the transaction parser, as functions of the bytes and the
    current offset.  An offset that the code passes as [&mut usize] is the
    state of the [cursor] monad; it is kept on errors too, as in the code.
    Reads through raw pointers return an [outcome], which is [Undefined] when
    the code would leave the buffer. *)

From stdpp Require Import base numbers list.
From Stdlib Require Import Lia.
From S2P Require Import Prelude Pod.
Local Open Scope Z_scope.

Module TransactionViewError.
Inductive TransactionViewError : Type :=
| ParseError
| SanitizeError
| AddressLookupMismatch.
End TransactionViewError.
Abbreviation TransactionViewError := TransactionViewError.TransactionViewError.

(** ** Offsets and errors *)

Definition cursor (A : Type) : Type := Z -> result TransactionViewError A * Z.
Definition cret {A} (a : A) : cursor A := fun offset => (Ok a, offset).
Definition cfail {A} (e : TransactionViewError) : cursor A := fun offset => (Err e, offset).
Definition cbind {A B} (m : cursor A) (k : A -> cursor B) : cursor B := fun offset =>
  match m offset with
  | (Ok a, offset) => k a offset
  | (Err e, offset) => (Err e, offset)
  end.
(** The value of [*offset]. *)
Definition tell : cursor Z := fun offset => (Ok offset, offset).

Notation "'let%' x ':=' m 'in' k" := (cbind m (fun x => k))
  (at level 10, x pattern, m at level 100, k at level 200,
   format "'[v' 'let%'  x  ':='  m  'in' '//' k ']'") : rust_scope.
Notation "m ';%' k" := (cbind m (fun _ => k))
  (at level 199, right associativity, format "'[v' m  ';%' '//' k ']'") : rust_scope.

(** Code that reads through raw pointers or indexes an array. *)
Inductive outcome (A : Type) : Type :=
| Done (a : A)
| Undefined
| Panicked.
Arguments Done {A} a.
Arguments Undefined {A}.
Arguments Panicked {A}.

Definition obind {A B} (m : outcome A) (k : A -> outcome B) : outcome B :=
  match m with
  | Done a => k a
  | Undefined => Undefined
  | Panicked => Panicked
  end.
Notation "'let*' x ':=' m 'in' k" := (obind m (fun x => k))
  (at level 10, x pattern, m at level 100, k at level 200,
   format "'[v' 'let*'  x  ':='  m  'in' '//' k ']'") : rust_scope.

(** ** Operations on [usize] *)

Abbreviation usize_add := (wrapping_add U64_MAX).
Abbreviation usize_sub := (wrapping_sub U64_MAX).
Abbreviation usize_mul := (wrapping_mul U64_MAX).
Abbreviation as_u16 := (as_uint U16_MAX).
Abbreviation as_u8 := (as_uint U8_MAX).

(** [bytes.get(i)] for an index that is never negative. *)
Definition get (bytes : list Z) (i : Z) : option Z := bytes !! Z.to_nat i.

(** The bytes [i .. i + n]. *)
Definition slice (bytes : list Z) (i n : Z) : list Z :=
  take (Z.to_nat n) (drop (Z.to_nat i) bytes).

(** ** Checked reads *)

Definition check_remaining (bytes : list Z) (offset num_bytes : Z)
    : result TransactionViewError unit :=
  if num_bytes >? usize_sub (zlen bytes) offset then Err TransactionViewError.ParseError
  else Ok tt.

Definition read_byte (bytes : list Z) : cursor Z := fun offset =>
  (ok_or (get bytes offset) TransactionViewError.ParseError, usize_add offset 1).

(** The loop over [0..3] of [read_compressed_u16]. *)
Fixpoint read_compressed_loop (bytes : list Z) (indices : list Z) (result shift : Z) : cursor Z :=
  fun offset =>
  match indices with
  | [] => (Ok result, usize_add offset 3)
  | i :: indices =>
      match get bytes (usize_add offset i) with
      | None => (Err TransactionViewError.ParseError, offset)
      | Some byte =>
          if ((i >? 0) && (byte =? 0)) || ((i =? 2) && (byte >? 3))
          then (Err TransactionViewError.ParseError, offset)
          else
            let result := Z.lor result (as_u16 (Z.shiftl (Z.land byte 127) shift)) in
            let shift := wrapping_add U16_MAX shift 7 in
            if Z.land byte 128 =? 0 then (Ok result, usize_add (usize_add offset i) 1)
            else read_compressed_loop bytes indices result shift offset
      end
  end.

Definition read_compressed_u16 (bytes : list Z) : cursor Z :=
  read_compressed_loop bytes [0; 1; 2] 0 0.

Definition optimized_read_compressed_u16 (bytes : list Z) : cursor Z := fun offset =>
  match get bytes offset with
  | None => (Err TransactionViewError.ParseError, offset)
  | Some byte1 =>
      let result := Z.lor 0 (Z.land byte1 127) in
      if Z.land byte1 128 =? 0 then (Ok result, usize_add offset 1)
      else
        match get bytes (usize_add offset 1) with
        | None => (Err TransactionViewError.ParseError, offset)
        | Some byte2 =>
            if (byte2 =? 0) || negb (Z.land byte2 128 =? 0)
            then (Err TransactionViewError.ParseError, offset)
            else
              let result := Z.lor result (as_u16 (Z.shiftl (Z.land byte2 127) 7)) in
              (Ok result, usize_add offset 2)
        end
  end.

(** [size] is [size_of::<T>()]. *)
Definition advance_offset_for_array (bytes : list Z) (size num_elements : Z) : cursor unit :=
  fun offset =>
  let array_len_bytes := usize_mul num_elements size in
  match check_remaining bytes offset array_len_bytes with
  | Err e => (Err e, offset)
  | Ok _ => (Ok tt, usize_add offset array_len_bytes)
  end.

Definition advance_offset_for_type (bytes : list Z) (size : Z) : cursor unit := fun offset =>
  match check_remaining bytes offset size with
  | Err e => (Err e, offset)
  | Ok _ => (Ok tt, usize_add offset size)
  end.

(** ** Reads through pointers *)

(** [bytes.as_ptr().add(offset)]: defined up to one past the end. *)
Definition ptr_add (bytes : list Z) (offset : Z) : outcome Z :=
  if offset <=? zlen bytes then Done offset else Undefined.

(** [from_raw_parts(ptr as *const T, n)] of bytes, for [T] of size [size]. *)
Definition from_raw_parts (bytes : list Z) (ptr size n : Z) : outcome (list (list Z)) :=
  if ptr + n * size <=? zlen bytes
  then Done (map (fun i => slice bytes (ptr + Z.of_nat i * size) size) (seq 0 (Z.to_nat n)))
  else Undefined.

(** The same for [T = u8]. *)
Definition from_raw_bytes (bytes : list Z) (ptr n : Z) : outcome (list Z) :=
  if ptr + n <=? zlen bytes then Done (slice bytes ptr n) else Undefined.

Definition unchecked_read_byte (bytes : list Z) (offset : Z) : outcome (Z * Z) :=
  match get bytes offset with
  | Some value => Done (value, usize_add offset 1)
  | None => Undefined
  end.

Definition read_slice_data (bytes : list Z) (num_elements : Z) (offset : Z)
    : outcome (result TransactionViewError (list Z) * Z) :=
  let* current_ptr := ptr_add bytes offset in
  match advance_offset_for_array bytes 1 num_elements offset with
  | (Err e, offset) => Done (Err e, offset)
  | (Ok _, offset) =>
      let* data := from_raw_bytes bytes current_ptr num_elements in
      Done (Ok data, offset)
  end.

Definition unchecked_read_slice_data (bytes : list Z) (num_elements : Z) (offset : Z)
    : outcome (list Z * Z) :=
  let* current_ptr := ptr_add bytes offset in
  let array_len_bytes := usize_mul num_elements 1 in
  let offset := usize_add offset array_len_bytes in
  let* data := from_raw_bytes bytes current_ptr num_elements in
  Done (data, offset).

Definition read_type (bytes : list Z) (size : Z) (offset : Z)
    : outcome (result TransactionViewError (list Z) * Z) :=
  let* current_ptr := ptr_add bytes offset in
  match advance_offset_for_type bytes size offset with
  | (Err e, offset) => Done (Err e, offset)
  | (Ok _, offset) =>
      let* data := from_raw_bytes bytes current_ptr size in
      Done (Ok data, offset)
  end.

(** ** Where a chunk of bytes is *)

(** [isize::MAX], the largest length of a Rust slice. *)
Definition ISIZE_MAX : Z := 9223372036854775807.

(** The bytes at [o] are [c]. *)
Definition chunk_at (bytes : list Z) (o : Z) (c : list Z) : Prop :=
  exists pre post, bytes = pre ++ c ++ post /\ o = zlen pre.

Lemma zlen_app {A} (l1 l2 : list A) : zlen (l1 ++ l2) = zlen l1 + zlen l2.
Proof. unfold zlen. rewrite length_app. lia. Qed.
Lemma zlen_cons {A} (x : A) l : zlen (x :: l) = 1 + zlen l.
Proof. unfold zlen. simpl. lia. Qed.
Lemma zlen_nil {A} : zlen (@nil A) = 0.
Proof. done. Qed.
Lemma zlen_nonneg {A} (l : list A) : 0 <= zlen l.
Proof. unfold zlen. lia. Qed.
Lemma zlen_inj {A B} (l : list A) (l' : list B) : zlen l = zlen l' -> length l = length l'.
Proof. unfold zlen. lia. Qed.

Ltac zlen_lia :=
  repeat first [rewrite zlen_app|rewrite zlen_cons|rewrite zlen_nil]; lia.

Section Chunks.
Context (bytes : list Z).

Lemma chunk_at_bounds o c : chunk_at bytes o c -> 0 <= o /\ o + zlen c <= zlen bytes.
Proof.
  intros (pre & post & -> & ->). rewrite !zlen_app. pose proof (zlen_nonneg pre).
  pose proof (zlen_nonneg post). lia.
Qed.

Lemma chunk_at_start o c : chunk_at bytes o c -> 0 <= o <= zlen bytes.
Proof. intros H. pose proof (chunk_at_bounds _ _ H). pose proof (zlen_nonneg c). lia. Qed.

Lemma chunk_at_end o c : chunk_at bytes o c -> 0 <= o + zlen c <= zlen bytes.
Proof. intros H. pose proof (chunk_at_bounds _ _ H). pose proof (zlen_nonneg c). lia. Qed.

Lemma chunk_at_next o b : chunk_at bytes o [b] -> 0 <= o + 1 <= zlen bytes.
Proof. apply (chunk_at_end o [b]). Qed.

Lemma chunk_at_app o c1 c2 :
  chunk_at bytes o (c1 ++ c2) <-> chunk_at bytes o c1 /\ chunk_at bytes (o + zlen c1) c2.
Proof.
  split.
  - intros (pre & post & E & ->). split.
    + exists pre, (c2 ++ post). by rewrite E, <- !app_assoc.
    + exists (pre ++ c1), post. by rewrite E, <- !app_assoc, zlen_app.
  - intros [(pre & post & E & ->) (pre2 & post2 & E2 & H)].
    rewrite E, (app_assoc pre c1) in E2. rewrite <- zlen_app in H.
    apply app_inj_1 in E2 as [<- ->]; [|by apply zlen_inj].
    exists pre, post2. by rewrite E, <- app_assoc.
Qed.

Lemma chunk_at_slice o c n : chunk_at bytes o c -> n = zlen c -> slice bytes o n = c.
Proof.
  intros (pre & post & -> & ->) ->. unfold slice, zlen. rewrite !Nat2Z.id.
  by rewrite drop_app_length, take_app_length.
Qed.

Lemma slice_chunk_at o n :
  0 <= o -> 0 <= n -> o + n <= zlen bytes ->
  chunk_at bytes o (slice bytes o n) /\ zlen (slice bytes o n) = n.
Proof.
  intros Ho Hn Hle. unfold slice, zlen in *. split.
  - exists (take (Z.to_nat o) bytes), (drop (Z.to_nat n) (drop (Z.to_nat o) bytes)).
    rewrite take_drop, take_drop. split; [done|]. unfold zlen. rewrite length_take. lia.
  - rewrite length_take, length_drop. lia.
Qed.

Lemma chunk_at_get o b : chunk_at bytes o [b] <-> 0 <= o /\ get bytes o = Some b.
Proof.
  unfold get. split.
  - intros (pre & post & -> & ->). split; [apply zlen_nonneg|]. unfold zlen.
    rewrite Nat2Z.id. by apply list_lookup_middle.
  - intros [Ho H]. exists (take (Z.to_nat o) bytes), (drop (S (Z.to_nat o)) bytes).
    pose proof (lookup_lt_Some _ _ _ H). split; [by symmetry; apply take_drop_middle|].
    unfold zlen. rewrite length_take. lia.
Qed.

Lemma chunk_at_cons o b c :
  chunk_at bytes o (b :: c) <-> chunk_at bytes o [b] /\ chunk_at bytes (o + 1) c.
Proof. exact (chunk_at_app o [b] c). Qed.

Lemma chunk_at_2 o b1 b2 :
  chunk_at bytes o [b1; b2] <->
  0 <= o /\ get bytes o = Some b1 /\ get bytes (o + 1) = Some b2.
Proof. rewrite chunk_at_cons, !chunk_at_get. intuition lia. Qed.

Lemma chunk_at_3 o b1 b2 b3 :
  chunk_at bytes o [b1; b2; b3] <->
  0 <= o /\ get bytes o = Some b1 /\ get bytes (o + 1) = Some b2 /\ get bytes (o + 2) = Some b3.
Proof.
  rewrite chunk_at_cons, chunk_at_2, chunk_at_get. replace (o + 1 + 1) with (o + 2) by lia.
  intuition lia.
Qed.

Lemma chunk_at_nil o : 0 <= o <= zlen bytes -> chunk_at bytes o [].
Proof.
  intros H. exists (take (Z.to_nat o) bytes), (drop (Z.to_nat o) bytes).
  simpl. rewrite take_drop. split; [done|]. unfold zlen in *. rewrite length_take. lia.
Qed.

Lemma chunk_at_unique o c c' :
  chunk_at bytes o c -> chunk_at bytes o c' -> zlen c = zlen c' -> c = c'.
Proof.
  intros H H' E. by rewrite <- (chunk_at_slice o c (zlen c) H eq_refl), (chunk_at_slice o c' _ H' E).
Qed.

(** A run of [n] elements of [size] bytes. *)
Lemma chunk_at_elements o n size :
  0 <= o -> 0 <= size -> o + Z.of_nat n * size <= zlen bytes ->
  exists xs, length xs = n /\ Forall (fun x => zlen x = size) xs /\ chunk_at bytes o (concat xs).
Proof.
  revert o. induction n as [|n IH]; intros o Ho Hs Hle.
  - exists []. split_and!; [done|done|]. apply chunk_at_nil. lia.
  - destruct (slice_chunk_at o size Ho Hs ltac:(lia)) as [H1 H2].
    destruct (IH (o + size)) as (xs & Hx & Hf & Hc); [lia..|].
    exists (slice bytes o size :: xs). split_and!; [simpl; lia|by constructor|].
    simpl. apply chunk_at_app. by rewrite H2.
Qed.

Lemma zlen_concat (xs : list (list Z)) size :
  Forall (fun x => zlen x = size) xs -> zlen (concat xs) = zlen xs * size.
Proof.
  induction 1 as [|x xs Hx _ IH]; [done|]. cbn [concat]. rewrite zlen_app, zlen_cons, IH. lia.
Qed.

Context (Hlen : zlen bytes <= ISIZE_MAX).

Lemma check_remaining_Ok o n u :
  0 <= o <= zlen bytes -> check_remaining bytes o n = Ok u <-> o + n <= zlen bytes.
Proof.
  intros Ho. unfold check_remaining, ISIZE_MAX in *. rewrite wrapping_sub_small by lia. destruct u.
  rewrite Z.gtb_ltb. destruct (Z.ltb_spec (zlen bytes - o) n); split; intros; try done; lia.
Qed.

Lemma read_byte_Ok o b o' :
  0 <= o <= zlen bytes -> read_byte bytes o = (Ok b, o') <-> chunk_at bytes o [b] /\ o' = o + 1.
Proof.
  intros Ho. rewrite chunk_at_get. unfold read_byte, ISIZE_MAX in *.
  rewrite wrapping_add_small by lia. destruct (get bytes o); simpl; naive_solver.
Qed.

Lemma advance_array_Ok size n o o' u :
  0 <= o <= zlen bytes -> 0 <= n <= U16_MAX -> 0 <= size <= 64 ->
  advance_offset_for_array bytes size n o = (Ok u, o') <->
  o' = o + n * size /\ o' <= zlen bytes.
Proof.
  intros Ho Hn Hs. unfold advance_offset_for_array. rewrite wrapping_mul_small by nia.
  destruct (check_remaining bytes o (n * size)) as [[]|] eqn:E; destruct u.
  - apply check_remaining_Ok in E; [|done]. unfold ISIZE_MAX in *.
    rewrite wrapping_add_small by nia. split; [intros [= <-]; lia|intros [-> _]; done].
  - split; [done|]. intros [-> H]. assert (check_remaining bytes o (n * size) = Ok tt) as E'
      by (by apply check_remaining_Ok). congruence.
Qed.

Lemma advance_type_Ok size o o' u :
  0 <= o <= zlen bytes -> 0 <= size <= 64 ->
  advance_offset_for_type bytes size o = (Ok u, o') <-> o' = o + size /\ o' <= zlen bytes.
Proof.
  intros Ho Hs. rewrite <- (Z.mul_1_l size) at 2. rewrite <- (advance_array_Ok size 1 o o' u) by lia.
  unfold advance_offset_for_array, advance_offset_for_type.
  rewrite wrapping_mul_small by lia. by rewrite Z.mul_1_l.
Qed.

End Chunks.

(** ** The compact encoding of lengths *)

(** Seven bits per byte, low bits first, high bit set on all but the last. *)
Definition compact_u16 (v : Z) : list Z :=
  if v <? 128 then [v]
  else if v <? 16384 then [v mod 128 + 128; v / 128]
  else [v mod 128 + 128; (v / 128) mod 128 + 128; v / 16384].

(** The bytes of a code below 2^14, which the parser accepts. *)
Definition is_len (v : Z) : Prop := 0 <= v < 16384.

Lemma land_127 b : Z.land b 127 = b mod 128.
Proof. change 127 with (Z.ones 7). by rewrite Z.land_ones. Qed.

Lemma land_128 b : is_byte b -> Z.land b 128 =? 0 = (b <? 128).
Proof.
  intros H. assert (Forall (fun n => (Z.land n 128 =? 0) = (n <? 128)) (map Z.of_nat (seq 0 256)))
    as HF by (apply (bool_decide_unpack _); vm_compute; exact I).
  rewrite Forall_forall in HF. apply HF. apply list_elem_of_fmap. exists (Z.to_nat b).
  unfold is_byte in H. split; [lia|]. apply elem_of_seq. lia.
Qed.

Lemma lor_shift a b n : 0 <= n -> 0 <= a < 2 ^ n -> Z.lor a (b * 2 ^ n) = a + b * 2 ^ n.
Proof.
  intros Hn Ha. rewrite <- Z.shiftl_mul_pow2 by done. symmetry.
  rewrite <- Z.lxor_lor; [apply Z.add_nocarry_lxor|].
  all: apply Z.bits_inj'; intros i Hi; rewrite Z.land_spec, Z.bits_0, Z.shiftl_spec by done.
  all: destruct (Z.ltb_spec i n); [rewrite (Z.testbit_neg_r b) by lia; apply andb_false_r|].
  all: rewrite <- (Z.mod_small a (2 ^ n)) by done; by rewrite Z.mod_pow2_bits_high by lia.
Qed.

Lemma mod_plus_128 a : (a mod 128 + 128) mod 128 = a mod 128.
Proof. rewrite <- (Z.mul_1_l 128) at 2. by rewrite Z.mod_add, Z.mod_mod by lia. Qed.

#[export] Hint Resolve chunk_at_start chunk_at_end chunk_at_next : rust.

Section Compact.
Context (bytes : list Z) (Hwf : bytes_wf bytes) (Hlen : zlen bytes <= ISIZE_MAX).

Lemma get_byte o b : get bytes o = Some b -> is_byte b.
Proof. intros H. by eapply Forall_lookup_1 in H. Qed.

Lemma get_lt o b : 0 <= o -> get bytes o = Some b -> o + 1 <= zlen bytes.
Proof. intros Ho H. by apply (chunk_at_bounds bytes o [b]), chunk_at_get. Qed.

Lemma compact_two b1 b2 :
  128 <= b1 < 256 -> 0 < b2 < 128 ->
  let v := b1 mod 128 + b2 * 2 ^ 7 in is_len v /\ compact_u16 v = [b1; b2].
Proof.
  intros H1 H2 v. assert (b1 = 128 + b1 mod 128) as E by (pose proof (Z.mod_pos_bound b1 128);
    pose proof (Z.div_mod b1 128); nia).
  assert (v / 128 = b2) as Eq by (unfold v; rewrite Z.div_add, Z.div_small by
    (try apply Z.mod_pos_bound; lia); lia).
  assert (v mod 128 = b1 mod 128) as Em by (unfold v; by rewrite Z.mod_add, Z.mod_mod by lia).
  pose proof (Z.mod_pos_bound b1 128). unfold is_len, compact_u16. rewrite Eq, Em.
  unfold v in *. destruct (Z.ltb_spec (b1 mod 128 + b2 * 2 ^ 7) 128); [lia|].
  destruct (Z.ltb_spec (b1 mod 128 + b2 * 2 ^ 7) 16384); [|lia]. split; [lia|].
  by rewrite (Z.add_comm (b1 mod 128)), <- E.
Qed.

Lemma optimized_inv o v o' :
  0 <= o <= zlen bytes -> optimized_read_compressed_u16 bytes o = (Ok v, o') ->
  is_len v /\ chunk_at bytes o (compact_u16 v) /\ o' = o + zlen (compact_u16 v).
Proof.
  intros Ho H. unfold optimized_read_compressed_u16 in H. unfold ISIZE_MAX in *.
  destruct (get bytes o) as [b1|] eqn:E1; [|done].
  pose proof (get_byte _ _ E1) as B1. unfold is_byte in B1.
  rewrite land_128, land_127, Z.lor_0_l in H by done. rewrite wrapping_add_small in H by lia.
  destruct (Z.ltb_spec b1 128) as [L1|L1].
  - injection H as <- <-. rewrite Z.mod_small by lia. unfold is_len, compact_u16.
    destruct (Z.ltb_spec b1 128); [|lia]. rewrite chunk_at_get. split_and!; try done; lia.
  - destruct (get bytes (o + 1)) as [b2|] eqn:E2; [|done].
    pose proof (get_byte _ _ E2) as B2. unfold is_byte in B2. rewrite land_128, land_127 in H by done.
    destruct (Z.eqb_spec b2 0); [done|]. destruct (Z.ltb_spec b2 128); [|done]. simpl in H.
    rewrite (Z.mod_small b2), Z.shiftl_mul_pow2, as_uint_small, lor_shift in H
      by (try apply Z.mod_pos_bound; lia).
    pose proof (get_lt (o + 1) b2 ltac:(lia) E2). rewrite wrapping_add_small in H by lia.
    destruct (compact_two b1 b2) as [Hl Hc]; [lia..|]. injection H as <- <-.
    rewrite Hc. split_and!; [done| |done]. apply chunk_at_cons. rewrite !chunk_at_get.
    split_and!; try done; lia.
Qed.

Lemma optimized_at o v :
  is_len v -> chunk_at bytes o (compact_u16 v) ->
  optimized_read_compressed_u16 bytes o = (Ok v, o + zlen (compact_u16 v)).
Proof.
  intros Hv Hc. pose proof (chunk_at_bounds _ _ _ Hc) as Hb. unfold is_len, ISIZE_MAX in *.
  unfold optimized_read_compressed_u16, compact_u16 in *.
  destruct (Z.ltb_spec v 128) as [L|L]; [|destruct (Z.ltb_spec v 16384); [|lia]].
  - change (zlen [v]) with 1 in *. apply chunk_at_get in Hc as [Ho ->].
    rewrite land_128, land_127, Z.lor_0_l, Z.mod_small, wrapping_add_small
      by (unfold is_byte; lia). destruct (Z.ltb_spec v 128); [done|lia].
  - change (zlen [v mod 128 + 128; v / 128]) with 2 in *. apply chunk_at_cons in Hc as [C1 C2].
    apply chunk_at_get in C1 as [Ho ->]. apply chunk_at_get in C2 as [_ C2].
    pose proof (Z.mod_pos_bound v 128). pose proof (Z.div_mod v 128).
    rewrite !wrapping_add_small, C2 by lia.
    rewrite !land_128, !land_127, Z.lor_0_l by (unfold is_byte; lia).
    destruct (Z.ltb_spec (v mod 128 + 128) 128); [lia|].
    destruct (Z.eqb_spec (v / 128) 0); [lia|]. destruct (Z.ltb_spec (v / 128) 128); [|lia].
    cbn [orb negb]. rewrite (Z.mod_small (v / 128)) by lia.
    rewrite mod_plus_128.
    rewrite Z.shiftl_mul_pow2, as_uint_small, lor_shift by lia. repeat f_equal; lia.
Qed.

Lemma optimized_Ok o v o' :
  0 <= o <= zlen bytes ->
  optimized_read_compressed_u16 bytes o = (Ok v, o') <->
  is_len v /\ chunk_at bytes o (compact_u16 v) /\ o' = o + zlen (compact_u16 v).
Proof.
  intros Ho. split; [by apply optimized_inv|]. intros (Hv & Hc & ->). by apply optimized_at.
Qed.

(** The three rounds of [read_compressed_u16] with their bit operations worked
    out. *)
Lemma read_compressed_rounds o :
  0 <= o <= zlen bytes ->
  read_compressed_u16 bytes o =
  match get bytes o with
  | None => (Err TransactionViewError.ParseError, o)
  | Some b1 =>
      if b1 <? 128 then (Ok b1, o + 1)
      else match get bytes (o + 1) with
      | None => (Err TransactionViewError.ParseError, o)
      | Some b2 =>
          if b2 =? 0 then (Err TransactionViewError.ParseError, o)
          else if b2 <? 128 then (Ok (b1 mod 128 + b2 * 128), o + 2)
          else match get bytes (o + 2) with
          | None => (Err TransactionViewError.ParseError, o)
          | Some b3 =>
              if (b3 =? 0) || (b3 >? 3) then (Err TransactionViewError.ParseError, o)
              else (Ok (b1 mod 128 + b2 mod 128 * 128 + b3 * 16384), o + 3)
          end
      end
  end.
Proof.
  intros Ho. unfold read_compressed_u16, ISIZE_MAX in *. cbn [read_compressed_loop].
  change (0 >? 0) with false. change (0 =? 2) with false. change (1 >? 0) with true.
  change (1 =? 2) with false. change (2 >? 0) with true. change (2 =? 2) with true.
  change (wrapping_add U16_MAX 0 7) with 7. change (wrapping_add U16_MAX 7 7) with 14.
  cbn [andb orb]. rewrite !(wrapping_add_small _ o) by lia. rewrite Z.add_0_r.
  destruct (get bytes o) as [b1|] eqn:E1; [|done]. pose proof (get_byte _ _ E1) as B1.
  pose proof (get_lt o b1 ltac:(lia) E1). pose proof (Z.mod_pos_bound b1 128). unfold is_byte in B1.
  rewrite land_128, land_127, Z.shiftl_0_r, Z.lor_0_l, as_uint_small by (unfold is_byte; lia).
  destruct (Z.ltb_spec b1 128); [rewrite Z.mod_small, wrapping_add_small by lia; done|].
  destruct (get bytes (o + 1)) as [b2|] eqn:E2; [|done]. pose proof (get_byte _ _ E2) as B2.
  pose proof (get_lt (o + 1) b2 ltac:(lia) E2). pose proof (Z.mod_pos_bound b2 128).
  unfold is_byte in B2. rewrite orb_false_r. destruct (Z.eqb_spec b2 0); [done|].
  rewrite (land_128 b2), (land_127 b2), Z.shiftl_mul_pow2, as_uint_small, lor_shift
    by (unfold is_byte; lia). change (2 ^ 7) with 128.
  destruct (Z.ltb_spec b2 128); [rewrite (Z.mod_small b2), wrapping_add_small by lia;
    f_equal; lia|].
  destruct (get bytes (o + 2)) as [b3|] eqn:E3; [|done]. pose proof (get_byte _ _ E3) as B3.
  pose proof (get_lt (o + 2) b3 ltac:(lia) E3). unfold is_byte in B3.
  destruct (Z.eqb_spec b3 0); [done|]. rewrite Z.gtb_ltb. destruct (Z.ltb_spec 3 b3); [done|].
  cbn [orb]. rewrite (land_128 b3), (land_127 b3), (Z.mod_small b3), Z.shiftl_mul_pow2,
    as_uint_small, lor_shift by (unfold is_byte; lia).
  destruct (Z.ltb_spec b3 128); [|lia]. rewrite wrapping_add_small by lia. f_equal; lia.
Qed.

Lemma compact_three b1 b2 b3 :
  128 <= b1 < 256 -> 128 <= b2 < 256 -> 0 < b3 <= 3 ->
  let v := b1 mod 128 + b2 mod 128 * 128 + b3 * 16384 in
  is_u16 v /\ compact_u16 v = [b1; b2; b3].
Proof.
  intros H1 H2 H3 v. pose proof (Z.mod_pos_bound b1 128). pose proof (Z.mod_pos_bound b2 128).
  assert (b1 mod 128 = b1 - 128) as E1 by (symmetry; apply (Z.mod_unique_pos _ _ 1); lia).
  assert (b2 mod 128 = b2 - 128) as E2 by (symmetry; apply (Z.mod_unique_pos _ _ 1); lia).
  assert (v mod 128 = b1 - 128) as M1 by (symmetry;
    apply (Z.mod_unique_pos _ _ (b2 - 128 + b3 * 128)); lia).
  assert (v / 128 = b2 - 128 + b3 * 128) as D1 by (symmetry;
    apply (Z.div_unique_pos _ _ _ (b1 - 128)); lia).
  assert (v / 128 mod 128 = b2 - 128) as M2 by (symmetry; rewrite D1;
    apply (Z.mod_unique_pos _ _ b3); lia).
  assert (v / 16384 = b3) as D2 by (symmetry;
    apply (Z.div_unique_pos _ _ _ (b1 - 128 + (b2 - 128) * 128)); lia).
  unfold compact_u16. rewrite M1, M2, D2. unfold is_u16, v. rewrite E1, E2.
  destruct (Z.ltb_spec (b1 - 128 + (b2 - 128) * 128 + b3 * 16384) 128); [lia|].
  destruct (Z.ltb_spec (b1 - 128 + (b2 - 128) * 128 + b3 * 16384) 16384); [lia|].
  split; [lia|]. f_equal; [lia|]. f_equal. lia.
Qed.

Lemma read_compressed_inv o v o' :
  0 <= o <= zlen bytes -> read_compressed_u16 bytes o = (Ok v, o') ->
  is_u16 v /\ chunk_at bytes o (compact_u16 v) /\ o' = o + zlen (compact_u16 v).
Proof.
  intros Ho. rewrite read_compressed_rounds by done.
  destruct (get bytes o) as [b1|] eqn:E1; [|done]. pose proof (get_byte _ _ E1). unfold is_byte in *.
  destruct (Z.ltb_spec b1 128).
  { intros [= <- <-]. unfold compact_u16, is_u16. destruct (Z.ltb_spec b1 128); [|lia].
    rewrite chunk_at_get. split_and!; try done; lia. }
  destruct (get bytes (o + 1)) as [b2|] eqn:E2; [|done]. pose proof (get_byte _ _ E2).
  unfold is_byte in *. destruct (Z.eqb_spec b2 0); [done|]. destruct (Z.ltb_spec b2 128).
  { intros [= <- <-]. destruct (compact_two b1 b2) as [Hl Hc]; [lia..|].
    change (2 ^ 7) with 128 in *. rewrite Hc, chunk_at_2.
    unfold is_len, is_u16 in *. split_and!; try done; lia. }
  destruct (get bytes (o + 2)) as [b3|] eqn:E3; [|done]. pose proof (get_byte _ _ E3).
  unfold is_byte in *. destruct (Z.eqb_spec b3 0); [done|]. rewrite Z.gtb_ltb.
  destruct (Z.ltb_spec 3 b3); [done|]. intros [= <- <-].
  destruct (compact_three b1 b2 b3) as [Hl Hc]; [lia..|]. rewrite Hc.
  rewrite chunk_at_3. split_and!; try done; lia.
Qed.

Lemma read_compressed_at o v :
  is_u16 v -> chunk_at bytes o (compact_u16 v) ->
  read_compressed_u16 bytes o = (Ok v, o + zlen (compact_u16 v)).
Proof.
  intros Hv Hc. pose proof (chunk_at_bounds _ _ _ Hc) as Hb. unfold is_u16 in Hv.
  rewrite read_compressed_rounds by (pose proof (zlen_nonneg (compact_u16 v)); lia).
  pose proof (Z.mod_pos_bound v 128). pose proof (Z.div_mod v 128).
  unfold compact_u16 in *. destruct (Z.ltb_spec v 128);
    [|destruct (Z.ltb_spec v 16384)].
  - apply chunk_at_get in Hc as [_ ->]. destruct (Z.ltb_spec v 128); [done|lia].
  - apply chunk_at_2 in Hc as (_ & -> & ->). destruct (Z.ltb_spec (v mod 128 + 128) 128); [lia|].
    destruct (Z.eqb_spec (v / 128) 0); [lia|]. destruct (Z.ltb_spec (v / 128) 128); [|lia].
    rewrite mod_plus_128.
    f_equal. f_equal. lia.
  - apply chunk_at_3 in Hc as (_ & -> & -> & ->).
    pose proof (Z.mod_pos_bound (v / 128) 128). pose proof (Z.div_mod (v / 128) 128).
    assert (v / 16384 = v / 128 / 128) as E by (by rewrite Z.div_div by lia).
    destruct (Z.ltb_spec (v mod 128 + 128) 128); [lia|].
    destruct (Z.eqb_spec ((v / 128) mod 128 + 128) 0); [lia|].
    destruct (Z.ltb_spec ((v / 128) mod 128 + 128) 128); [lia|]. rewrite Z.gtb_ltb.
    destruct (Z.eqb_spec (v / 16384) 0); [lia|]. destruct (Z.ltb_spec 3 (v / 16384)); [lia|].
    cbn [orb]. rewrite !mod_plus_128.
    f_equal. f_equal. lia.
Qed.

End Compact.

(** ** Claims *)

(** The length encoding is canonical.  At every offset of a buffer
    [read_compressed_u16] succeeds exactly when a minimal encoding of a 16-bit
    value is there, returns that value and moves the offset past it: every
    value can be read back from its encoding, and no other bytes are accepted
    for it. *)
Theorem compressed_u16_is_canonical bytes o v o' :
  bytes_wf bytes -> zlen bytes <= ISIZE_MAX -> 0 <= o <= zlen bytes ->
  read_compressed_u16 bytes o = (Ok v, o') <->
  is_u16 v /\ chunk_at bytes o (compact_u16 v) /\ o' = o + zlen (compact_u16 v).
Proof.
  intros Hwf Hlen Ho. split; [by apply read_compressed_inv|]. intros (Hv & Hc & ->).
  by apply read_compressed_at.
Qed.

Lemma compressed_u16_is_canonical_witness :
  read_compressed_u16 [7; 255; 255; 3; 9] 1 = (Ok 65535, 4).
Proof.
  apply (compressed_u16_is_canonical [7; 255; 255; 3; 9] 1 65535 4).
  - apply (bool_decide_unpack _). vm_compute. exact I.
  - vm_compute. discriminate.
  - vm_compute. split; discriminate.
  - split_and!; [vm_compute; split; discriminate| |reflexivity].
    exists [7], [9]. split; reflexivity.
Defined.

(** The two-byte reader is the three-byte reader below 2^14.
    [optimized_read_compressed_u16], which the parser uses for every length,
    accepts exactly the encodings of [read_compressed_u16] whose value fits
    two bytes, with the same value and the same new offset. *)
Theorem optimized_reader_equals_reference bytes o v o' :
  bytes_wf bytes -> zlen bytes <= ISIZE_MAX -> 0 <= o <= zlen bytes ->
  optimized_read_compressed_u16 bytes o = (Ok v, o') <->
  read_compressed_u16 bytes o = (Ok v, o') /\ v < 16384.
Proof.
  intros Hwf Hlen Ho. rewrite optimized_Ok by done. unfold is_len. split.
  - intros (Hv & Hc & ->). split; [|lia]. apply read_compressed_at; try done. unfold is_u16. lia.
  - intros [H Hlt]. apply read_compressed_inv in H as (Hu & Hc & ->); try done.
    unfold is_u16 in Hu. split_and!; try done; lia.
Qed.

Lemma optimized_reader_equals_reference_witness :
  optimized_read_compressed_u16 [128; 1] 0 = (Ok 128, 2) <->
  read_compressed_u16 [128; 1] 0 = (Ok 128, 2) /\ 128 < 16384.
Proof.
  apply (optimized_reader_equals_reference [128; 1] 0 128 2).
  - apply (bool_decide_unpack _). vm_compute. exact I.
  - vm_compute. discriminate.
  - vm_compute. split; discriminate.
Defined.
