(* ===== verification/TxFrame.v ===== *)
(** * Framing of a serialized transaction ([gorchain/transaction-view/src])

    The parser that records where the parts of a transaction are
    ([signature_frame.rs], [message_header_frame.rs],
    [static_account_keys_frame.rs], [instructions_frame.rs],
    [address_table_lookup_frame.rs], [transaction_frame.rs]), the accessors
    that read them through pointers, and the two iterators. *)

From stdpp Require Import base numbers list.
From Stdlib Require Import Lia.
From S2P Require Import Prelude TxBytes.
Local Open Scope Z_scope.

(** [solana_packet::PACKET_DATA_SIZE] and
    [solana_message::MESSAGE_VERSION_PREFIX], as documented in the sources. *)
Definition PACKET_DATA_SIZE : Z := 1232.
Definition MESSAGE_VERSION_PREFIX : Z := 128.

(** [size_of] of [Signature], [Pubkey] and [Hash]. *)
Definition SIGNATURE_BYTES : Z := 64.
Definition PUBKEY_BYTES : Z := 32.
Definition HASH_BYTES : Z := 32.

Inductive TransactionVersion : Type :=
| Legacy
| V0.

#[export] Instance TransactionVersion_eq_dec : EqDecision TransactionVersion.
Proof. solve_decision. Defined.

(** ** Signatures *)

Module SignatureFrame.

Definition MAX_SIGNATURES_PER_PACKET : Z :=
  as_u8 (PACKET_DATA_SIZE / (SIGNATURE_BYTES + PUBKEY_BYTES)).

Record SignatureFrame := mk {
  num_signatures : Z;
  offset : Z;
}.

Definition try_new (bytes : list Z) : cursor SignatureFrame :=
  let% num_signatures := read_byte bytes in
  if (num_signatures =? 0) || (num_signatures >? MAX_SIGNATURES_PER_PACKET)
  then cfail TransactionViewError.ParseError
  else
    let% offset := tell in
    let signature_offset := as_u16 offset in
    advance_offset_for_array bytes SIGNATURE_BYTES num_signatures ;%
    cret (mk num_signatures signature_offset).

End SignatureFrame.
Abbreviation SignatureFrame := SignatureFrame.SignatureFrame.

(** ** Message header *)

Module MessageHeaderFrame.

Record MessageHeaderFrame := mk {
  offset : Z;
  version : TransactionVersion;
  num_required_signatures : Z;
  num_readonly_signed_accounts : Z;
  num_readonly_unsigned_accounts : Z;
}.

Definition try_new (bytes : list Z) : cursor MessageHeaderFrame :=
  let% offset := tell in
  let message_offset := as_u16 offset in
  let% message_prefix := read_byte bytes in
  let% (version, num_required_signatures) :=
    if negb (Z.land message_prefix MESSAGE_VERSION_PREFIX =? 0) then
      let version := Z.land message_prefix (U8_MAX - MESSAGE_VERSION_PREFIX) in
      if version =? 0 then
        let% num_required_signatures := read_byte bytes in
        cret (V0, num_required_signatures)
      else cfail TransactionViewError.ParseError
    else cret (Legacy, message_prefix) in
  let% num_readonly_signed_accounts := read_byte bytes in
  let% num_readonly_unsigned_accounts := read_byte bytes in
  cret (mk message_offset version num_required_signatures num_readonly_signed_accounts
          num_readonly_unsigned_accounts).

End MessageHeaderFrame.
Abbreviation MessageHeaderFrame := MessageHeaderFrame.MessageHeaderFrame.

(** ** Static account keys *)

Module StaticAccountKeysFrame.

Definition MAX_STATIC_ACCOUNTS_PER_PACKET : Z := as_u8 (PACKET_DATA_SIZE / PUBKEY_BYTES).

Record StaticAccountKeysFrame := mk {
  num_static_accounts : Z;
  offset : Z;
}.

Definition try_new (bytes : list Z) : cursor StaticAccountKeysFrame :=
  let% num_static_accounts := read_byte bytes in
  if (num_static_accounts =? 0) || (num_static_accounts >? MAX_STATIC_ACCOUNTS_PER_PACKET)
  then cfail TransactionViewError.ParseError
  else
    let% offset := tell in
    let static_accounts_offset := as_u16 offset in
    advance_offset_for_array bytes PUBKEY_BYTES num_static_accounts ;%
    cret (mk num_static_accounts static_accounts_offset).

End StaticAccountKeysFrame.
Abbreviation StaticAccountKeysFrame := StaticAccountKeysFrame.StaticAccountKeysFrame.

(** ** Instructions *)

(** [gorchain/svm-transaction/src/instruction.rs] *)
Record SVMInstruction := mkSVMInstruction {
  program_id_index : Z;
  ix_account_indexes : list Z;
  ix_data : list Z;
}.

(** A check of the remaining bytes inside a parser. *)
Definition require_remaining (bytes : list Z) (num_bytes : Z) : cursor unit := fun offset =>
  (check_remaining bytes offset num_bytes, offset).

Module InstructionsFrame.

Record InstructionFrame := mkInstructionFrame {
  num_accounts : Z;
  data_len : Z;
  num_accounts_len : Z;
  data_len_len : Z;
}.

Record InstructionsFrame := mk {
  num_instructions : Z;
  offset : Z;
  frames : list InstructionFrame;
}.

(** One round of the loop of [try_new]. *)
Definition parse_instruction (bytes : list Z) : cursor InstructionFrame :=
  let% _program_id_index := read_byte bytes in
  let% num_accounts_offset := tell in
  let% num_accounts := optimized_read_compressed_u16 bytes in
  let% offset := tell in
  let num_accounts_len := as_u8 (usize_sub offset num_accounts_offset) in
  advance_offset_for_array bytes 1 num_accounts ;%
  let% data_len_offset := tell in
  let% data_len := optimized_read_compressed_u16 bytes in
  let% offset := tell in
  let data_len_len := as_u8 (usize_sub offset data_len_offset) in
  advance_offset_for_array bytes 1 data_len ;%
  cret (mkInstructionFrame num_accounts data_len num_accounts_len data_len_len).

Fixpoint parse_instructions (bytes : list Z) (n : nat) : cursor (list InstructionFrame) :=
  match n with
  | O => cret []
  | S n =>
      let% frame := parse_instruction bytes in
      let% frames := parse_instructions bytes n in
      cret (frame :: frames)
  end.

Definition try_new (bytes : list Z) : cursor InstructionsFrame :=
  let% num_instructions := optimized_read_compressed_u16 bytes in
  require_remaining bytes (usize_mul 3 num_instructions) ;%
  let% offset := tell in
  let instructions_offset := as_u16 offset in
  let% frames := parse_instructions bytes (Z.to_nat num_instructions) in
  cret (mk num_instructions instructions_offset frames).

End InstructionsFrame.
Abbreviation InstructionsFrame := InstructionsFrame.InstructionsFrame.

Module InstructionsIterator.
Import InstructionsFrame.

Record InstructionsIterator := mk {
  offset : Z;
  num_instructions : Z;
  index : Z;
  frames : list InstructionFrame;
}.

(** [next]: [frames[index]] panics out of range; the reads are unchecked. *)
Definition next (bytes : list Z) (self : InstructionsIterator)
    : outcome (option SVMInstruction * InstructionsIterator) :=
  if index self <? num_instructions self then
    match frames self !! Z.to_nat (index self) with
    | None => Panicked
    | Some frame =>
        let index := wrapping_add U16_MAX (index self) 1 in
        let* (program_id_index, offset) := unchecked_read_byte bytes (offset self) in
        let offset := usize_add offset (num_accounts_len frame) in
        let* (accounts, offset) :=
          unchecked_read_slice_data bytes (num_accounts frame) offset in
        let offset := usize_add offset (data_len_len frame) in
        let* (data, offset) := unchecked_read_slice_data bytes (data_len frame) offset in
        Done (Some (mkSVMInstruction program_id_index accounts data),
              mk offset (num_instructions self) index (frames self))
    end
  else Done (None, self).

(** [ExactSizeIterator::len]. *)
Definition len (self : InstructionsIterator) : Z :=
  wrapping_sub U16_MAX (num_instructions self) (index self).

(** The items of a [for] loop over the iterator, with [fuel] calls of [next]
    at most. *)
Fixpoint collect (fuel : nat) (bytes : list Z) (self : InstructionsIterator)
    : option (outcome (list SVMInstruction)) :=
  match fuel with
  | O => None
  | S fuel =>
      match next bytes self with
      | Done (Some ix, self) =>
          match collect fuel bytes self with
          | Some (Done l) => Some (Done (ix :: l))
          | r => r
          end
      | Done (None, _) => Some (Done [])
      | Undefined => Some Undefined
      | Panicked => Some Panicked
      end
  end.

End InstructionsIterator.
Abbreviation InstructionsIterator := InstructionsIterator.InstructionsIterator.

(** ** Address table lookups *)

(** [gorchain/svm-transaction/src/message_address_table_lookup.rs] *)
Record SVMMessageAddressTableLookup := mkLookup {
  account_key : list Z;
  writable_indexes : list Z;
  readonly_indexes : list Z;
}.

Module AddressTableLookupFrame.

Definition MIN_SIZED_ATL : Z := PUBKEY_BYTES + 1 + 1 + 1.
Definition MIN_SIZED_PACKET_WITH_ATLS : Z :=
  1 + SIGNATURE_BYTES + 1 + 3 + 1 + PUBKEY_BYTES + HASH_BYTES + 1 + 1.
Definition MAX_ATLS_PER_PACKET : Z :=
  as_u8 ((PACKET_DATA_SIZE - MIN_SIZED_PACKET_WITH_ATLS) / MIN_SIZED_ATL).

Record AddressTableLookupFrame := mk {
  num_address_table_lookups : Z;
  offset : Z;
  total_writable_lookup_accounts : Z;
  total_readonly_lookup_accounts : Z;
}.

(** The loop of [try_new] with its two [u32] totals. *)
Fixpoint parse_lookups (bytes : list Z) (n : nat) (writable readonly : Z) : cursor (Z * Z) :=
  match n with
  | O => cret (writable, readonly)
  | S n =>
      advance_offset_for_type bytes PUBKEY_BYTES ;%
      let% num_write_accounts := optimized_read_compressed_u16 bytes in
      let writable := wrapping_add U32_MAX writable num_write_accounts in
      advance_offset_for_array bytes 1 num_write_accounts ;%
      let% num_read_accounts := optimized_read_compressed_u16 bytes in
      let readonly := wrapping_add U32_MAX readonly num_read_accounts in
      advance_offset_for_array bytes 1 num_read_accounts ;%
      parse_lookups bytes n writable readonly
  end.

Definition clift {A} (r : result TransactionViewError A) : cursor A := fun offset => (r, offset).

Definition try_new (bytes : list Z) : cursor AddressTableLookupFrame :=
  let% num_address_table_lookups := read_byte bytes in
  if num_address_table_lookups >? MAX_ATLS_PER_PACKET
  then cfail TransactionViewError.ParseError
  else
    require_remaining bytes (usize_mul MIN_SIZED_ATL num_address_table_lookups) ;%
    let% offset := tell in
    let address_table_lookups_offset := as_u16 offset in
    let% (writable, readonly) :=
      parse_lookups bytes (Z.to_nat num_address_table_lookups) 0 0 in
    let% writable :=
      clift (ok_or (try_into U16_MAX writable) TransactionViewError.SanitizeError) in
    let% readonly :=
      clift (ok_or (try_into U16_MAX readonly) TransactionViewError.SanitizeError) in
    cret (mk num_address_table_lookups address_table_lookups_offset writable readonly).

End AddressTableLookupFrame.
Abbreviation AddressTableLookupFrame := AddressTableLookupFrame.AddressTableLookupFrame.

Module AddressTableLookupIterator.

Record AddressTableLookupIterator := mk {
  offset : Z;
  num_address_table_lookups : Z;
  index : Z;
}.

(** [unsafe { read(..) }.ok()?]: an error ends the iterator, whose offset and
    index stay as they are then. *)
Definition or_end {A B} (self : AddressTableLookupIterator)
    (m : outcome (result TransactionViewError A * Z))
    (k : A -> AddressTableLookupIterator -> outcome (option B * AddressTableLookupIterator))
    : outcome (option B * AddressTableLookupIterator) :=
  let* (r, offset) := m in
  let self := mk offset (num_address_table_lookups self) (index self) in
  match r with
  | Ok a => k a self
  | Err _ => Done (None, self)
  end.

Definition next (bytes : list Z) (self : AddressTableLookupIterator)
    : outcome (option SVMMessageAddressTableLookup * AddressTableLookupIterator) :=
  if index self <? num_address_table_lookups self then
    let self := mk (offset self) (num_address_table_lookups self)
                   (wrapping_add U8_MAX (index self) 1) in
    or_end self (read_type bytes PUBKEY_BYTES (offset self)) (fun account_key self =>
    or_end self (Done (optimized_read_compressed_u16 bytes (offset self)))
      (fun num_write_accounts self =>
    or_end self (read_slice_data bytes num_write_accounts (offset self))
      (fun writable_indexes self =>
    or_end self (Done (optimized_read_compressed_u16 bytes (offset self)))
      (fun num_read_accounts self =>
    or_end self (read_slice_data bytes num_read_accounts (offset self))
      (fun readonly_indexes self =>
    Done (Some (mkLookup account_key writable_indexes readonly_indexes), self))))))
  else Done (None, self).

Definition len (self : AddressTableLookupIterator) : Z :=
  wrapping_sub U8_MAX (num_address_table_lookups self) (index self).

Fixpoint collect (fuel : nat) (bytes : list Z) (self : AddressTableLookupIterator)
    : option (outcome (list SVMMessageAddressTableLookup)) :=
  match fuel with
  | O => None
  | S fuel =>
      match next bytes self with
      | Done (Some lookup, self) =>
          match collect fuel bytes self with
          | Some (Done l) => Some (Done (lookup :: l))
          | r => r
          end
      | Done (None, _) => Some (Done [])
      | Undefined => Some Undefined
      | Panicked => Some Panicked
      end
  end.

End AddressTableLookupIterator.
Abbreviation AddressTableLookupIterator := AddressTableLookupIterator.AddressTableLookupIterator.

(** ** The whole transaction *)

Module TransactionFrame.

Record TransactionFrame := mk {
  signature : SignatureFrame;
  message_header : MessageHeaderFrame;
  static_account_keys_frame : StaticAccountKeysFrame;
  recent_blockhash_offset : Z;
  instructions : InstructionsFrame;
  address_table_lookup : AddressTableLookupFrame;
}.

(** The body of [try_new] up to the check that nothing is left. *)
Definition parse (bytes : list Z) : cursor TransactionFrame :=
  let% signature := SignatureFrame.try_new bytes in
  let% message_header := MessageHeaderFrame.try_new bytes in
  let% static_account_keys := StaticAccountKeysFrame.try_new bytes in
  let% offset := tell in
  let recent_blockhash_offset := as_u16 offset in
  advance_offset_for_type bytes HASH_BYTES ;%
  let% instructions := InstructionsFrame.try_new bytes in
  let% address_table_lookup :=
    match MessageHeaderFrame.version message_header with
    | Legacy => cret (AddressTableLookupFrame.mk 0 0 0 0)
    | V0 => AddressTableLookupFrame.try_new bytes
    end in
  let% offset := tell in
  if negb (offset =? zlen bytes) then cfail TransactionViewError.ParseError
  else
    cret (mk signature message_header static_account_keys recent_blockhash_offset instructions
            address_table_lookup).

Definition try_new (bytes : list Z) : result TransactionViewError TransactionFrame :=
  fst (parse bytes 0).

Definition num_signatures (self : TransactionFrame) : Z :=
  SignatureFrame.num_signatures (signature self).
Definition version (self : TransactionFrame) : TransactionVersion :=
  MessageHeaderFrame.version (message_header self).
Definition num_required_signatures (self : TransactionFrame) : Z :=
  MessageHeaderFrame.num_required_signatures (message_header self).
Definition num_readonly_signed_static_accounts (self : TransactionFrame) : Z :=
  MessageHeaderFrame.num_readonly_signed_accounts (message_header self).
Definition num_readonly_unsigned_static_accounts (self : TransactionFrame) : Z :=
  MessageHeaderFrame.num_readonly_unsigned_accounts (message_header self).
Definition num_static_account_keys (self : TransactionFrame) : Z :=
  StaticAccountKeysFrame.num_static_accounts (static_account_keys_frame self).
Definition num_instructions (self : TransactionFrame) : Z :=
  InstructionsFrame.num_instructions (instructions self).
Definition num_address_table_lookups (self : TransactionFrame) : Z :=
  AddressTableLookupFrame.num_address_table_lookups (address_table_lookup self).
Definition total_writable_lookup_accounts (self : TransactionFrame) : Z :=
  AddressTableLookupFrame.total_writable_lookup_accounts (address_table_lookup self).
Definition total_readonly_lookup_accounts (self : TransactionFrame) : Z :=
  AddressTableLookupFrame.total_readonly_lookup_accounts (address_table_lookup self).
Definition message_offset (self : TransactionFrame) : Z :=
  MessageHeaderFrame.offset (message_header self).

(** The [unsafe] accessors. *)
Definition signatures (self : TransactionFrame) (bytes : list Z) : outcome (list (list Z)) :=
  let* ptr := ptr_add bytes (SignatureFrame.offset (signature self)) in
  from_raw_parts bytes ptr SIGNATURE_BYTES (SignatureFrame.num_signatures (signature self)).

Definition static_account_keys (self : TransactionFrame) (bytes : list Z)
    : outcome (list (list Z)) :=
  let* ptr := ptr_add bytes (StaticAccountKeysFrame.offset (static_account_keys_frame self)) in
  from_raw_parts bytes ptr PUBKEY_BYTES
    (StaticAccountKeysFrame.num_static_accounts (static_account_keys_frame self)).

Definition recent_blockhash (self : TransactionFrame) (bytes : list Z) : outcome (list Z) :=
  let* ptr := ptr_add bytes (recent_blockhash_offset self) in
  from_raw_bytes bytes ptr HASH_BYTES.

Definition instructions_iter (self : TransactionFrame) : InstructionsIterator :=
  InstructionsIterator.mk (InstructionsFrame.offset (instructions self))
    (InstructionsFrame.num_instructions (instructions self)) 0
    (InstructionsFrame.frames (instructions self)).

Definition address_table_lookup_iter (self : TransactionFrame) : AddressTableLookupIterator :=
  AddressTableLookupIterator.mk (AddressTableLookupFrame.offset (address_table_lookup self))
    (AddressTableLookupFrame.num_address_table_lookups (address_table_lookup self)) 0.

End TransactionFrame.
Abbreviation TransactionFrame := TransactionFrame.TransactionFrame.
