(* ===== verification/TxFormat.v ===== *)
(** * The wire format of a transaction and the parser

    A reference encoder of transactions and, part by part, the theorem that
    the parser of [TxFrame] accepts exactly its output: the frame it returns
    is the frame of a transaction whose encoding the bytes are.  From this
    follow that the accessors and iterators, which read through pointers, stay
    inside the buffer and show that transaction. *)

From stdpp Require Import base numbers list.
From Stdlib Require Import Lia.
From S2P Require Import Prelude Pod TxBytes TxFrame.
Local Open Scope Z_scope.

(** ** Successful parsers *)

Lemma cbind_Ok {A B} (m : cursor A) (k : A -> cursor B) o b o2 :
  cbind m k o = (Ok b, o2) <-> exists a o1, m o = (Ok a, o1) /\ k a o1 = (Ok b, o2).
Proof. unfold cbind. destruct (m o) as [[a|e] o1]; naive_solver. Qed.

Lemma cret_Ok {A} (a b : A) o o' : cret a o = (Ok b, o') <-> a = b /\ o = o'.
Proof. unfold cret. naive_solver. Qed.

Lemma tell_Ok o x o' : tell o = (Ok x, o') <-> x = o /\ o' = o.
Proof. unfold tell. naive_solver. Qed.

(** [m] reads an [x] with [ok x] from its encoding and returns its frame. *)
Definition parses {A X} (bytes : list Z) (m : cursor A) (ok : X -> Prop) (enc : X -> list Z)
    (frame : X -> Z -> A) : Prop :=
  forall o a o', 0 <= o <= zlen bytes ->
    m o = (Ok a, o') <->
    exists x, ok x /\ a = frame x o /\ chunk_at bytes o (enc x) /\ o' = o + zlen (enc x).

(** ** Transactions *)

Definition enc_instruction (ix : SVMInstruction) : list Z :=
  program_id_index ix :: compact_u16 (zlen (ix_account_indexes ix)) ++ ix_account_indexes ix ++
  compact_u16 (zlen (ix_data ix)) ++ ix_data ix.

Definition instruction_ok (ix : SVMInstruction) : Prop :=
  is_len (zlen (ix_account_indexes ix)) /\ is_len (zlen (ix_data ix)).

Definition enc_lookup (l : SVMMessageAddressTableLookup) : list Z :=
  account_key l ++ compact_u16 (zlen (writable_indexes l)) ++ writable_indexes l ++
  compact_u16 (zlen (readonly_indexes l)) ++ readonly_indexes l.

Definition lookup_ok (l : SVMMessageAddressTableLookup) : Prop :=
  zlen (account_key l) = PUBKEY_BYTES /\ is_len (zlen (writable_indexes l)) /\
  is_len (zlen (readonly_indexes l)).

Record Header := mkHeader {
  h_version : TransactionVersion;
  h_num_required_signatures : Z;
  h_num_readonly_signed : Z;
  h_num_readonly_unsigned : Z;
}.

Definition enc_header (h : Header) : list Z :=
  match h_version h with Legacy => [] | V0 => [MESSAGE_VERSION_PREFIX] end ++
  [h_num_required_signatures h; h_num_readonly_signed h; h_num_readonly_unsigned h].

(** The first byte of a legacy message must not look like a version prefix. *)
Definition header_ok (h : Header) : Prop :=
  h_version h = Legacy -> h_num_required_signatures h < MESSAGE_VERSION_PREFIX.

Record Transaction := mkTransaction {
  t_signatures : list (list Z);
  t_header : Header;
  t_account_keys : list (list Z);
  t_recent_blockhash : list Z;
  t_instructions : list SVMInstruction;
  t_lookups : list SVMMessageAddressTableLookup;
}.

Definition enc_array (xs : list (list Z)) : list Z := zlen xs :: concat xs.
Definition enc_instructions (l : list SVMInstruction) : list Z :=
  compact_u16 (zlen l) ++ concat (map enc_instruction l).
Definition enc_lookups (l : list SVMMessageAddressTableLookup) : list Z :=
  zlen l :: concat (map enc_lookup l).

Definition encode (t : Transaction) : list Z :=
  enc_array (t_signatures t) ++ enc_header (t_header t) ++ enc_array (t_account_keys t) ++
  t_recent_blockhash t ++ enc_instructions (t_instructions t) ++
  match h_version (t_header t) with Legacy => [] | V0 => enc_lookups (t_lookups t) end.

Definition array_ok (max size : Z) (xs : list (list Z)) : Prop :=
  0 < zlen xs <= max /\ Forall (fun x => zlen x = size) xs.

Definition total_writable (l : list SVMMessageAddressTableLookup) : Z :=
  zsum (fun x => zlen (writable_indexes x)) l.
Definition total_readonly (l : list SVMMessageAddressTableLookup) : Z :=
  zsum (fun x => zlen (readonly_indexes x)) l.

(** The lookups that a packet may hold: a lookup needs 35 bytes on average,
    and their indexes can be counted with 16 bits. *)
Definition lookups_ok (l : list SVMMessageAddressTableLookup) : Prop :=
  zlen l <= 31 /\ Forall lookup_ok l /\ 35 * zlen l <= zlen (concat (map enc_lookup l)) /\
  is_u16 (total_writable l) /\ is_u16 (total_readonly l).

Definition transaction_ok (t : Transaction) : Prop :=
  array_ok 12 SIGNATURE_BYTES (t_signatures t) /\ header_ok (t_header t) /\
  array_ok 38 PUBKEY_BYTES (t_account_keys t) /\ zlen (t_recent_blockhash t) = HASH_BYTES /\
  is_len (zlen (t_instructions t)) /\ Forall instruction_ok (t_instructions t) /\
  match h_version (t_header t) with
  | Legacy => t_lookups t = []
  | V0 => lookups_ok (t_lookups t)
  end.

(** ** Their frames *)

Definition instruction_frame (ix : SVMInstruction) : InstructionsFrame.InstructionFrame :=
  InstructionsFrame.mkInstructionFrame (zlen (ix_account_indexes ix)) (zlen (ix_data ix))
    (zlen (compact_u16 (zlen (ix_account_indexes ix)))) (zlen (compact_u16 (zlen (ix_data ix)))).

Lemma compact_zlen v : is_len v -> 1 <= zlen (compact_u16 v) <= 2.
Proof.
  unfold is_len, compact_u16. intros H. destruct (v <? 128); [by compute|].
  destruct (Z.ltb_spec v 16384); [by compute|lia].
Qed.

Section Parsers.
Context (bytes : list Z) (Hwf : bytes_wf bytes) (Hlen : zlen bytes <= ISIZE_MAX).

(** A length-prefixed run of bytes. *)
Definition sized (m : cursor Z) : cursor (Z * Z) :=
  let% start := tell in
  let% n := m in
  let% offset := tell in
  let n_len := as_u8 (usize_sub offset start) in
  advance_offset_for_array bytes 1 n ;%
  cret (n, n_len).

Lemma sized_Ok o n l o' :
  0 <= o <= zlen bytes ->
  sized (optimized_read_compressed_u16 bytes) o = (Ok (n, l), o') <->
  exists c, is_len (zlen c) /\ n = zlen c /\ l = zlen (compact_u16 (zlen c)) /\
    chunk_at bytes o (compact_u16 (zlen c) ++ c) /\ o' = o + zlen (compact_u16 (zlen c) ++ c).
Proof.
  intros Ho. unfold sized. rewrite cbind_Ok. setoid_rewrite tell_Ok. split.
  - intros (s & o1 & [-> ->] & H). apply cbind_Ok in H as (n1 & o1 & H1 & H).
    apply optimized_Ok in H1 as (Hn & Hc & ->); try done.
    pose proof (compact_zlen _ Hn). pose proof (chunk_at_bounds _ _ _ Hc).
    apply cbind_Ok in H as (s1 & o2 & Ht & H). apply tell_Ok in Ht as [-> ->].
    apply cbind_Ok in H as ([] & o2 & Ha & H). apply cret_Ok in H as [[= -> <-] <-].
    unfold is_len, ISIZE_MAX in *. apply advance_array_Ok in Ha as [-> Hle]; [|done|lia..].
    destruct (slice_chunk_at bytes (o + zlen (compact_u16 n)) n) as [Hs Hz]; [lia..|].
    exists (slice bytes (o + zlen (compact_u16 n)) n). rewrite Hz, chunk_at_app, zlen_app, Hz.
    rewrite wrapping_sub_small, as_uint_small by lia. split_and!; try done; lia.
  - intros (c & Hc & -> & -> & Hat & ->). apply chunk_at_app in Hat as [H1 H2].
    pose proof (chunk_at_bounds _ _ _ H1). pose proof (chunk_at_bounds _ _ _ H2).
    pose proof (compact_zlen _ Hc). exists o, o. split; [done|].
    apply cbind_Ok. exists (zlen c), (o + zlen (compact_u16 (zlen c))).
    split; [by apply optimized_Ok|]. apply cbind_Ok. eexists _, _. split; [by apply tell_Ok|].
    unfold is_len, ISIZE_MAX in *. rewrite wrapping_sub_small, as_uint_small by lia.
    apply cbind_Ok. exists tt, (o + zlen (compact_u16 (zlen c)) + zlen c).
    rewrite advance_array_Ok by (unfold ISIZE_MAX; lia). split; [lia|]. apply cret_Ok.
    rewrite zlen_app. split; [f_equal; lia|lia].
Qed.

(** The readers of the source are runs of [sized]. *)
Lemma sized_run_plain {A} (m : cursor Z) (k : Z -> cursor A) o :
  (let% n := m in advance_offset_for_array bytes 1 n ;% k n) o
  = (let% (n, _) := sized m in k n) o.
Proof.
  unfold sized, cbind, tell, cret. destruct (m o) as [[n|] o1]; [|done].
  by destruct (advance_offset_for_array bytes 1 n o1) as [[]].
Qed.

Lemma parse_instruction_run o :
  InstructionsFrame.parse_instruction bytes o
  = (let% _ := read_byte bytes in
     let% (n, nl) := sized (optimized_read_compressed_u16 bytes) in
     let% (d, dl) := sized (optimized_read_compressed_u16 bytes) in
     cret (InstructionsFrame.mkInstructionFrame n d nl dl)) o.
Proof.
  unfold InstructionsFrame.parse_instruction, sized, cbind, tell, cret.
  destruct (read_byte bytes o) as [[b|] o1]; [|done].
  destruct (optimized_read_compressed_u16 bytes o1) as [[n|] o2]; [|done].
  destruct (advance_offset_for_array bytes 1 n o2) as [[[]|] o3]; [|done].
  destruct (optimized_read_compressed_u16 bytes o3) as [[d|] o4]; [|done].
  by destruct (advance_offset_for_array bytes 1 d o4) as [[[]|] o5].
Qed.

Lemma parse_instruction_spec :
  parses bytes (InstructionsFrame.parse_instruction bytes) instruction_ok enc_instruction
    (fun ix _ => instruction_frame ix).
Proof.
  intros o f o' Ho. rewrite parse_instruction_run, cbind_Ok. split.
  - intros (b & o1 & Hb & H). apply read_byte_Ok in Hb as [Hb ->]; try done.
    apply cbind_Ok in H as ([n nl] & o1 & H1 & H).
    apply sized_Ok in H1 as (c & Hc & -> & -> & C1 & ->); [|exact (chunk_at_end _ _ _ Hb)].
    apply cbind_Ok in H as ([d dl] & o1 & H1 & H).
    apply sized_Ok in H1 as (e & He & -> & -> & C2 & ->); [|exact (chunk_at_end _ _ _ C1)].
    apply cret_Ok in H as [<- <-].
    exists (mkSVMInstruction b c e). unfold enc_instruction; simpl.
    rewrite chunk_at_cons, app_assoc, chunk_at_app, zlen_cons, !zlen_app, <- !zlen_app.
    split_and!; try done; rewrite ?zlen_app in *; lia.
  - intros (ix & [Ha Hd] & -> & Hc & ->). unfold enc_instruction in *.
    rewrite chunk_at_cons, app_assoc, chunk_at_app in Hc. destruct Hc as (C0 & C1 & C2).
    exists (program_id_index ix), (o + 1). rewrite read_byte_Ok by done. split; [done|].
    apply cbind_Ok. eexists (_, _), _. rewrite sized_Ok by (by eauto with rust).
    split; [by eauto 10|]. apply cbind_Ok. eexists (_, _), _.
    rewrite sized_Ok by (by eauto with rust).
    split; [by eauto 10|]. apply cret_Ok. split; [done|].
    rewrite zlen_cons, !zlen_app. lia.
Qed.

(** [n] elements in sequence. *)
Lemma parse_instructions_spec n :
  parses bytes (InstructionsFrame.parse_instructions bytes n)
    (fun l => length l = n /\ Forall instruction_ok l)
    (fun l => concat (map enc_instruction l)) (fun l _ => map instruction_frame l).
Proof.
  induction n as [|n IH]; intros o f o' Ho; cbn [InstructionsFrame.parse_instructions].
  - rewrite cret_Ok. split.
    + intros [<- <-]. exists []. split_and!; try done; [by apply chunk_at_nil|cbn; rewrite zlen_nil; lia].
    + intros (l & [Hl _] & -> & _ & ->). destruct l; [|done]. cbn. rewrite zlen_nil. split; [done|lia].
  - rewrite cbind_Ok. split.
    + intros (f1 & o1 & H1 & H). apply parse_instruction_spec in H1 as (ix & Hi & -> & C1 & ->); [|done].
      apply cbind_Ok in H as (fs & o1 & H1 & H).
      apply IH in H1 as (l & [Hl Hf] & -> & C2 & ->); [|by eauto with rust].
      apply cret_Ok in H as [<- <-]. exists (ix :: l). cbn [map concat length].
      rewrite chunk_at_app, zlen_app. split_and!; try done; [lia|by constructor|lia].
    + intros (l & [Hl Hf] & -> & C & ->). destruct l as [|ix l]; [done|].
      apply Forall_cons in Hf as [Hi Hf]. cbn [map concat] in *. apply chunk_at_app in C as [C1 C2].
      eexists _, _. rewrite (parse_instruction_spec o) by done. split; [by eauto 10|].
      apply cbind_Ok. eexists _, _. rewrite (IH (o + zlen (enc_instruction ix))) by (by eauto with rust).
      split; [|apply cret_Ok; split; [done|]]; [|by rewrite zlen_app, Z.add_assoc].
      exists l. by injection Hl.
Qed.

Lemma require_remaining_Ok n o u o' :
  0 <= o <= zlen bytes ->
  require_remaining bytes n o = (Ok u, o') <-> o' = o /\ o + n <= zlen bytes.
Proof.
  intros Ho. unfold require_remaining. rewrite <- (check_remaining_Ok bytes Hlen o n u) by done.
  split; [by intros [= -> ->]|by intros [-> ->]].
Qed.

Lemma enc_instruction_min ix : instruction_ok ix -> 3 <= zlen (enc_instruction ix).
Proof.
  intros [Ha Hd]. unfold enc_instruction. rewrite zlen_cons, !zlen_app.
  pose proof (compact_zlen _ Ha). pose proof (compact_zlen _ Hd).
  pose proof (zlen_nonneg (ix_account_indexes ix)). pose proof (zlen_nonneg (ix_data ix)). lia.
Qed.

Lemma enc_instructions_min l :
  Forall instruction_ok l -> 3 * zlen l <= zlen (concat (map enc_instruction l)).
Proof.
  induction 1 as [|ix l Hi _ IH]; [done|]. cbn [map concat]. rewrite zlen_cons, zlen_app.
  pose proof (enc_instruction_min _ Hi). lia.
Qed.

Definition instructions_frame (l : list SVMInstruction) (o : Z) : InstructionsFrame :=
  InstructionsFrame.mk (zlen l) (as_u16 (o + zlen (compact_u16 (zlen l))))
    (map instruction_frame l).

Lemma instructions_spec :
  parses bytes (InstructionsFrame.try_new bytes)
    (fun l => is_len (zlen l) /\ Forall instruction_ok l) enc_instructions instructions_frame.
Proof.
  intros o f o' Ho. unfold InstructionsFrame.try_new. rewrite cbind_Ok. split.
  - intros (n & o1 & H1 & H). apply optimized_Ok in H1 as (Hn & C1 & ->); try done.
    apply cbind_Ok in H as (u & o1 & H1 & H). apply require_remaining_Ok in H1 as [-> _];
      [|by eauto with rust].
    apply cbind_Ok in H as (o2 & o1 & H1 & H). apply tell_Ok in H1 as [-> ->].
    apply cbind_Ok in H as (fs & o1 & H1 & H).
    apply parse_instructions_spec in H1 as (l & [Hl Hf] & -> & C2 & ->); [|by eauto with rust].
    apply cret_Ok in H as [<- <-]. exists l. assert (n = zlen l) as -> by (unfold zlen, is_len in *; lia).
    unfold enc_instructions. rewrite chunk_at_app, zlen_app. split_and!; try done. lia.
  - intros (l & [Hl Hf] & -> & C & ->). unfold enc_instructions in *.
    apply chunk_at_app in C as [C1 C2]. eexists _, _. rewrite optimized_Ok by done.
    split; [by eauto|]. apply cbind_Ok. exists tt, (o + zlen (compact_u16 (zlen l))).
    rewrite require_remaining_Ok by (by eauto with rust). split.
    + pose proof (enc_instructions_min l Hf). pose proof (chunk_at_bounds _ _ _ C2).
      unfold is_len in Hl. rewrite wrapping_mul_small by lia. lia.
    + apply cbind_Ok. eexists _, _. split; [by apply tell_Ok|].
      apply cbind_Ok. eexists _, _. rewrite (parse_instructions_spec _ (o + zlen (compact_u16 (zlen l))))
        by (by eauto with rust).
      split; [exists l; split_and!; try done; unfold zlen; lia|].
      rewrite zlen_app, Z.add_assoc. apply cret_Ok. done.
Qed.

(** A count and that many elements. *)
Lemma counted_spec {A} (mk : Z -> Z -> A) max size :
  0 <= max <= U8_MAX -> 0 <= size <= 64 ->
  parses bytes
    (let% n := read_byte bytes in
     if (n =? 0) || (n >? max) then cfail TransactionViewError.ParseError
     else
       let% offset := tell in
       advance_offset_for_array bytes size n ;%
       cret (mk n (as_u16 offset)))
    (array_ok max size) enc_array (fun xs o => mk (zlen xs) (as_u16 (o + 1))).
Proof.
  intros Hm Hs o f o' Ho. rewrite cbind_Ok. split.
  - intros (n & o1 & H1 & H). apply read_byte_Ok in H1 as [C1 ->]; try done.
    destruct (Z.eqb_spec n 0); [done|]. rewrite Z.gtb_ltb in H.
    destruct (Z.ltb_spec max n); [done|]. cbn [orb] in H.
    apply cbind_Ok in H as (o2 & o1 & H1 & H). apply tell_Ok in H1 as [-> ->].
    apply cbind_Ok in H as (u & o1 & H1 & H). apply cret_Ok in H as [<- <-].
    assert (is_byte n) as Hb by (apply chunk_at_get in C1 as [_ C1]; by eapply get_byte in C1).
    unfold is_byte in Hb. pose proof (chunk_at_end _ _ _ C1) as He. change (zlen [n]) with 1 in He.
    apply advance_array_Ok in H1 as [-> Hle]; try done; [|lia].
    destruct (chunk_at_elements bytes (o + 1) (Z.to_nat n) size) as (xs & Hx & Hf & C2); [lia..|].
    assert (zlen xs = n) as Hn by (unfold zlen; lia).
    exists xs. unfold array_ok, enc_array. rewrite Hn, chunk_at_cons, zlen_cons, (zlen_concat xs size), Hn
      by done. split_and!; try done; lia.
  - intros (xs & [Hn Hf] & -> & C & ->). unfold enc_array in *. apply chunk_at_cons in C as [C1 C2].
    eexists _, _. rewrite read_byte_Ok by done. split; [by eauto|].
    destruct (Z.eqb_spec (zlen xs) 0); [lia|]. rewrite Z.gtb_ltb.
    destruct (Z.ltb_spec max (zlen xs)); [lia|]. cbn [orb]. apply cbind_Ok. eexists _, _.
    split; [by apply tell_Ok|]. apply cbind_Ok. exists tt, (o + 1 + zlen xs * size).
    pose proof (chunk_at_bounds _ _ _ C2) as Hb. rewrite (zlen_concat xs size) in Hb by done.
    rewrite advance_array_Ok by first [done|lia|by eauto with rust].
    split; [lia|]. apply cret_Ok. rewrite zlen_cons, (zlen_concat xs size) by done. split; [done|lia].
Qed.

Definition signature_frame (xs : list (list Z)) (o : Z) : SignatureFrame :=
  SignatureFrame.mk (zlen xs) (as_u16 (o + 1)).
Definition keys_frame (xs : list (list Z)) (o : Z) : StaticAccountKeysFrame :=
  StaticAccountKeysFrame.mk (zlen xs) (as_u16 (o + 1)).

Lemma signatures_spec :
  parses bytes (SignatureFrame.try_new bytes) (array_ok 12 SIGNATURE_BYTES) enc_array
    signature_frame.
Proof. apply (counted_spec SignatureFrame.mk 12 SIGNATURE_BYTES); unfold SIGNATURE_BYTES; lia. Qed.

Lemma account_keys_spec :
  parses bytes (StaticAccountKeysFrame.try_new bytes) (array_ok 38 PUBKEY_BYTES) enc_array
    keys_frame.
Proof. apply (counted_spec StaticAccountKeysFrame.mk 38 PUBKEY_BYTES); unfold PUBKEY_BYTES; lia. Qed.

Definition header_frame (h : Header) (o : Z) : MessageHeaderFrame :=
  MessageHeaderFrame.mk (as_u16 o) (h_version h) (h_num_required_signatures h)
    (h_num_readonly_signed h) (h_num_readonly_unsigned h).

Lemma prefix_byte b :
  is_byte b -> 128 <= b -> (Z.land b (U8_MAX - MESSAGE_VERSION_PREFIX) =? 0) = (b =? 128).
Proof.
  intros Hb Hge. unfold is_byte, MESSAGE_VERSION_PREFIX in *. change (255 - 128) with 127. rewrite land_127.
  assert (b mod 128 = b - 128) as -> by (symmetry; apply (Z.mod_unique_pos _ _ 1); lia).
  destruct (Z.eqb_spec (b - 128) 0), (Z.eqb_spec b 128); lia.
Qed.

Lemma header_spec :
  parses bytes (MessageHeaderFrame.try_new bytes) header_ok enc_header header_frame.
Proof.
  intros o f o' Ho. unfold MessageHeaderFrame.try_new. rewrite cbind_Ok. split.
  - intros (m & o1 & H1 & H). apply tell_Ok in H1 as [-> ->].
    apply cbind_Ok in H as (b & o1 & H1 & H). apply read_byte_Ok in H1 as [C1 ->]; try done.
    assert (is_byte b) as Hb by (apply chunk_at_get in C1 as [_ C1]; by eapply get_byte in C1).
    apply cbind_Ok in H as ([v r] & o1 & H1 & H).
    assert (exists h, h_version h = v /\ h_num_required_signatures h = r /\ header_ok h /\
      chunk_at bytes o (match v with Legacy => [r] | V0 => [MESSAGE_VERSION_PREFIX; r] end) /\
      o1 = o + zlen (match v with Legacy => [r] | V0 => [MESSAGE_VERSION_PREFIX; r] end))
      as (h & <- & <- & Hh & C2 & ->); [|clear H1].
    { change MESSAGE_VERSION_PREFIX with 128 in H1 at 1. rewrite land_128 in H1 by done.
      exists (mkHeader v r 0 0). do 2 (split; [done|]). destruct (Z.ltb_spec b 128); cbn [negb] in H1.
      - apply cret_Ok in H1 as [[= <- <-] <-]. split_and!; [by intros _|done|done].
      - rewrite prefix_byte in H1 by done. destruct (Z.eqb_spec b 128) as [->|]; [|done].
        apply cbind_Ok in H1 as (r' & o2 & H1 & H2). apply cret_Ok in H2 as [[= <- ->] <-].
        apply read_byte_Ok in H1 as [C2 ->]; [|done|by eauto with rust].
        split; [done|]. split; [by apply chunk_at_cons|]. zlen_lia. }
    apply cbind_Ok in H as (s & o1 & H1 & H).
    apply read_byte_Ok in H1 as [C3 ->]; [|done|by eauto with rust].
    apply cbind_Ok in H as (u & o1 & H1 & H).
    apply read_byte_Ok in H1 as [C4 ->]; [|done|by eauto with rust]. apply cret_Ok in H as [<- <-].
    exists (mkHeader (h_version h) (h_num_required_signatures h) s u).
    split; [done|]. split; [done|]. unfold enc_header; cbn [h_version h_num_required_signatures].
    destruct (h_version h); cbn [app h_num_readonly_signed h_num_readonly_unsigned] in *.
    + split; [|zlen_lia].
      apply chunk_at_cons. split; [done|]. apply chunk_at_cons. done.
    + split; [|zlen_lia]. apply (chunk_at_app _ _ [_; _] [_; _]).
      split; [done|]. apply chunk_at_cons. done.
  - intros (h & Hh & -> & C & ->). eexists _, _. split; [by apply tell_Ok|].
    apply cbind_Ok. unfold enc_header, header_frame, header_ok in *. destruct h as [[] r s u];
      cbn [h_version h_num_required_signatures h_num_readonly_signed h_num_readonly_unsigned app] in *.
    + apply chunk_at_3 in C as C3. apply chunk_at_cons in C as [C0 C]. apply chunk_at_cons in C as [C1 C2].
      pose proof (Hh eq_refl) as Hr. change MESSAGE_VERSION_PREFIX with 128 in *.
      assert (is_byte r) as Hb by (apply chunk_at_get in C0 as [_ C0]; by eapply get_byte in C0).
      eexists _, _. rewrite read_byte_Ok by done. split; [by eauto|]. rewrite land_128 by done.
      destruct (Z.ltb_spec r 128); [|lia]. cbn [negb]. apply cbind_Ok. eexists (_, _), _.
      split; [by apply cret_Ok|]. apply cbind_Ok. eexists _, _.
      rewrite read_byte_Ok by (done || by eauto with rust). split; [by eauto|].
      apply cbind_Ok. eexists _, _. rewrite read_byte_Ok by (done || by eauto with rust).
      split; [by eauto|]. apply cret_Ok. split; [done|]. zlen_lia.
    + change (chunk_at bytes o ([MESSAGE_VERSION_PREFIX] ++ [r; s; u])) in C.
      apply chunk_at_app in C as [Cp C]. change (zlen [MESSAGE_VERSION_PREFIX]) with 1 in C.
      apply chunk_at_cons in C as [C0 C]. apply chunk_at_cons in C as [C1 C2].
      eexists _, _. rewrite read_byte_Ok by done. split; [by eauto|]. cbn [negb].
      change (Z.land MESSAGE_VERSION_PREFIX MESSAGE_VERSION_PREFIX =? 0) with false.
      change (Z.land MESSAGE_VERSION_PREFIX (U8_MAX - MESSAGE_VERSION_PREFIX) =? 0) with true.
      cbn [negb]. apply cbind_Ok. eexists (_, _), _. split.
      { apply cbind_Ok. eexists _, _. rewrite read_byte_Ok by (done || by eauto with rust).
        split; [by eauto|]. by apply cret_Ok. }
      apply cbind_Ok. eexists _, _. rewrite read_byte_Ok by (done || by eauto with rust).
      split; [by eauto|]. apply cbind_Ok. eexists _, _.
      rewrite read_byte_Ok by (done || by eauto with rust).
      split; [by eauto|]. apply cret_Ok. split; [done|]. zlen_lia.
Qed.

(** *** Lookups *)

Lemma parse_lookups_run n w r o :
  AddressTableLookupFrame.parse_lookups bytes (S n) w r o
  = (advance_offset_for_type bytes PUBKEY_BYTES ;%
     let% (nw, _) := sized (optimized_read_compressed_u16 bytes) in
     let% (nr, _) := sized (optimized_read_compressed_u16 bytes) in
     AddressTableLookupFrame.parse_lookups bytes n (wrapping_add U32_MAX w nw)
       (wrapping_add U32_MAX r nr)) o.
Proof.
  cbn [AddressTableLookupFrame.parse_lookups]. unfold sized, cbind, tell, cret.
  destruct (advance_offset_for_type bytes PUBKEY_BYTES o) as [[[]|] o1]; [|done].
  destruct (optimized_read_compressed_u16 bytes o1) as [[nw|] o2]; [|done].
  destruct (advance_offset_for_array bytes 1 nw o2) as [[[]|] o3]; [|done].
  destruct (optimized_read_compressed_u16 bytes o3) as [[nr|] o4]; [|done].
  by destruct (advance_offset_for_array bytes 1 nr o4) as [[[]|] o5].
Qed.

Lemma key_bytes_Ok o u o' :
  0 <= o <= zlen bytes ->
  advance_offset_for_type bytes PUBKEY_BYTES o = (Ok u, o') <->
  exists k, zlen k = PUBKEY_BYTES /\ chunk_at bytes o k /\ o' = o + zlen k.
Proof.
  intros Ho. rewrite advance_type_Ok by (done || unfold PUBKEY_BYTES; lia). split.
  - intros [-> Hle]. destruct (slice_chunk_at bytes o PUBKEY_BYTES) as [Hc Hz];
      [lia|unfold PUBKEY_BYTES; lia|done|]. exists (slice bytes o PUBKEY_BYTES). by rewrite Hz.
  - intros (k & Hk & Hc & ->). pose proof (chunk_at_bounds _ _ _ Hc). rewrite Hk in *. lia.
Qed.

Lemma parse_lookups_spec n : forall w r,
  0 <= w -> 0 <= r -> w + 16384 * Z.of_nat n <= U32_MAX -> r + 16384 * Z.of_nat n <= U32_MAX ->
  parses bytes (AddressTableLookupFrame.parse_lookups bytes n w r)
    (fun l => length l = n /\ Forall lookup_ok l)
    (fun l => concat (map enc_lookup l))
    (fun l _ => (w + total_writable l, r + total_readonly l)).
Proof.
  induction n as [|n IH]; intros w r Hw0 Hr0 Hw Hr o f o' Ho.
  - cbn [AddressTableLookupFrame.parse_lookups]. rewrite cret_Ok. split.
    + intros [<- <-]. exists []. split_and!; try done; [|by apply chunk_at_nil|cbn [map concat]; zlen_lia].
      unfold total_writable, total_readonly. cbn [zsum foldr writable_indexes readonly_indexes]. f_equal; lia.
    + intros (l & [Hl _] & -> & _ & ->). destruct l; [|done]. cbn [map concat].
      unfold total_writable, total_readonly. cbn [zsum foldr writable_indexes readonly_indexes]. split; [f_equal; lia|zlen_lia].
  - rewrite parse_lookups_run, cbind_Ok. split.
    + intros (u & o1 & H1 & H). apply key_bytes_Ok in H1 as (k & Hk & C0 & ->); [|done].
      apply cbind_Ok in H as ([nw x] & o1 & H1 & H).
      apply sized_Ok in H1 as (c & Hc & -> & -> & C1 & ->); [|by eauto with rust].
      apply cbind_Ok in H as ([nr y] & o1 & H1 & H).
      apply sized_Ok in H1 as (e & He & -> & -> & C2 & ->); [|by eauto with rust].
      unfold is_len in Hc, He. rewrite !wrapping_add_small in H by lia.
      apply IH in H as (l & [Hl Hf] & -> & C3 & ->); [|lia..|by eauto with rust].
      exists (mkLookup k c e :: l). cbn [map concat].
      assert (enc_lookup (mkLookup k c e) = k ++ (compact_u16 (zlen c) ++ c) ++
        compact_u16 (zlen e) ++ e) as -> by (unfold enc_lookup; by rewrite <- app_assoc).
      split_and!; [simpl; lia|constructor; [|done]; by split_and!| | |zlen_lia].
      * unfold total_writable, total_readonly. rewrite !zsum_cons. cbn [writable_indexes readonly_indexes].
        f_equal; lia.
      * rewrite !chunk_at_app in *. rewrite ?zlen_app, ?Z.add_assoc in *. tauto.
    + intros (l & [Hl Hf] & -> & C & ->). destruct l as [|x l]; [done|].
      apply Forall_cons in Hf as [(Hk & Hxw & Hxr) Hf]. cbn [map concat] in *.
      assert (chunk_at bytes o (account_key x ++
        (compact_u16 (zlen (writable_indexes x)) ++ writable_indexes x) ++
        (compact_u16 (zlen (readonly_indexes x)) ++ readonly_indexes x) ++
        concat (map enc_lookup l))) as C' by (unfold enc_lookup in C at 1; by rewrite <- !app_assoc in *).
      apply chunk_at_app in C' as [C0 C']. apply chunk_at_app in C' as [C1 C'].
      apply chunk_at_app in C' as [C2 C3].
      exists tt, (o + zlen (account_key x)). rewrite key_bytes_Ok by done. split; [by eauto|].
      apply cbind_Ok. eexists (_, _), _. rewrite sized_Ok by (by eauto with rust).
      split; [by eauto 10|]. apply cbind_Ok. eexists (_, _), _. rewrite sized_Ok by (by eauto with rust).
      split; [by eauto 10|]. unfold is_len in *. rewrite !wrapping_add_small by lia.
      apply IH; [lia..|by eauto with rust|]. exists l. split_and!; [by injection Hl|done| |done|].
      * unfold total_writable, total_readonly. rewrite !zsum_cons. cbn [writable_indexes readonly_indexes].
        f_equal; lia.
      * unfold enc_lookup. zlen_lia.
Qed.

Definition lookups_frame (l : list SVMMessageAddressTableLookup) (o : Z)
    : AddressTableLookupFrame :=
  AddressTableLookupFrame.mk (zlen l) (as_u16 (o + 1)) (total_writable l) (total_readonly l).

Lemma totals_bound l :
  Forall lookup_ok l ->
  0 <= total_writable l <= 16384 * zlen l /\ 0 <= total_readonly l <= 16384 * zlen l.
Proof.
  unfold total_writable, total_readonly. induction 1 as [|x l (_ & Hw & Hr) _ IH]; [done|].
  rewrite !zsum_cons, zlen_cons. unfold is_len in *. lia.
Qed.

Lemma lookups_spec o f o' :
  0 <= o <= zlen bytes ->
  AddressTableLookupFrame.try_new bytes o = (Ok f, o') <->
  exists l, zlen l <= 31 /\ Forall lookup_ok l /\ is_u16 (total_writable l) /\
    is_u16 (total_readonly l) /\ o + 1 + 35 * zlen l <= zlen bytes /\
    f = lookups_frame l o /\ chunk_at bytes o (enc_lookups l) /\ o' = o + zlen (enc_lookups l).
Proof.
  intros Ho. unfold AddressTableLookupFrame.try_new. rewrite cbind_Ok.
  change AddressTableLookupFrame.MAX_ATLS_PER_PACKET with 31.
  change AddressTableLookupFrame.MIN_SIZED_ATL with 35. split.
  - intros (n & o1 & H1 & H). apply read_byte_Ok in H1 as [C1 ->]; try done.
    assert (is_byte n) as Hb by (apply chunk_at_get in C1 as [_ C1]; by eapply get_byte in C1).
    unfold is_byte in Hb. rewrite Z.gtb_ltb in H. destruct (Z.ltb_spec 31 n); [done|].
    apply cbind_Ok in H as (u & o1 & H1 & H). rewrite wrapping_mul_small in H1 by lia.
    apply require_remaining_Ok in H1 as [-> Hrem]; [|by eauto with rust].
    apply cbind_Ok in H as (o2 & o1 & H1 & H). apply tell_Ok in H1 as [-> ->].
    apply cbind_Ok in H as ([w r] & o1 & H1 & H).
    apply parse_lookups_spec in H1 as (l & [Hl Hf] & [= -> ->] & C2 & ->); [|lia..|by eauto with rust].
    assert (zlen l = n) as Hn by (unfold zlen; lia). pose proof (totals_bound l Hf) as [Bw Br].
    apply cbind_Ok in H as (w & o1 & H1 & H). injection H1 as H1 <-. apply ok_or_Ok in H1.
    apply try_into_Some in H1 as [-> Hw].
    apply cbind_Ok in H as (r & o1 & H1 & H). injection H1 as H1 <-. apply ok_or_Ok in H1.
    apply try_into_Some in H1 as [-> Hr]. apply cret_Ok in H as [<- <-].
    exists l. unfold enc_lookups, lookups_frame, is_u16. rewrite chunk_at_cons, zlen_cons, Hn.
    split_and!; try done; lia.
  - intros (l & Hn & Hf & Hw & Hr & Hrem & -> & C & ->). unfold enc_lookups in *.
    apply chunk_at_cons in C as [C1 C2]. pose proof (zlen_nonneg l).
    eexists _, _. rewrite read_byte_Ok by done. split; [by eauto|]. rewrite Z.gtb_ltb.
    destruct (Z.ltb_spec 31 (zlen l)); [lia|]. apply cbind_Ok. exists tt, (o + 1).
    rewrite wrapping_mul_small by lia. rewrite require_remaining_Ok by (by eauto with rust).
    split; [done|]. apply cbind_Ok. eexists _, _. split; [by apply tell_Ok|].
    apply cbind_Ok. eexists (_, _), _. assert (Z.of_nat (Z.to_nat (zlen l)) = zlen l) as E by lia.
    split; [apply parse_lookups_spec; [lia..|by eauto with rust|]; exists l;
      split_and!; try done; unfold zlen; lia|].
    unfold is_u16 in *. apply cbind_Ok. eexists _, _. split.
    { unfold AddressTableLookupFrame.clift, try_into. destruct (Z.leb_spec (0 + total_writable l) U16_MAX);
        [done|lia]. }
    apply cbind_Ok. eexists _, _. split.
    { unfold AddressTableLookupFrame.clift, try_into. destruct (Z.leb_spec (0 + total_readonly l) U16_MAX);
        [done|lia]. }
    apply cret_Ok. split; [done|]. zlen_lia.
Qed.

(** *** The whole transaction *)

Definition sig_end (t : Transaction) : Z := zlen (enc_array (t_signatures t)).
Definition header_end (t : Transaction) : Z := sig_end t + zlen (enc_header (t_header t)).
Definition keys_end (t : Transaction) : Z := header_end t + zlen (enc_array (t_account_keys t)).
Definition hash_end (t : Transaction) : Z := keys_end t + zlen (t_recent_blockhash t).
Definition instructions_end (t : Transaction) : Z :=
  hash_end t + zlen (enc_instructions (t_instructions t)).

Definition transaction_frame (t : Transaction) : TransactionFrame :=
  TransactionFrame.mk (signature_frame (t_signatures t) 0)
    (header_frame (t_header t) (sig_end t)) (keys_frame (t_account_keys t) (header_end t))
    (as_u16 (keys_end t)) (instructions_frame (t_instructions t) (hash_end t))
    match h_version (t_header t) with
    | Legacy => AddressTableLookupFrame.mk 0 0 0 0
    | V0 => lookups_frame (t_lookups t) (instructions_end t)
    end.

Lemma chunk_at_all c : chunk_at bytes 0 c -> zlen c = zlen bytes -> bytes = c.
Proof.
  intros (pre & post & -> & Hp) E. rewrite !zlen_app in E. pose proof (zlen_nonneg post).
  destruct pre; [|rewrite zlen_cons in Hp; pose proof (zlen_nonneg pre); lia].
  destruct post; [by rewrite app_nil_r|]. rewrite zlen_nil, zlen_cons in E.
  pose proof (zlen_nonneg post). lia.
Qed.

Lemma hash_bytes_Ok o u o' :
  0 <= o <= zlen bytes ->
  advance_offset_for_type bytes HASH_BYTES o = (Ok u, o') <->
  exists k, zlen k = HASH_BYTES /\ chunk_at bytes o k /\ o' = o + zlen k.
Proof. exact (key_bytes_Ok o u o'). Qed.

Lemma lookups_remaining o l :
  chunk_at bytes o (enc_lookups l) -> o + zlen (enc_lookups l) = zlen bytes ->
  o + 1 + 35 * zlen l <= zlen bytes <-> 35 * zlen l <= zlen (concat (map enc_lookup l)).
Proof. intros _ E. unfold enc_lookups in E. rewrite zlen_cons in E. lia. Qed.

Lemma parse_inv f :
  TransactionFrame.try_new bytes = Ok f ->
  exists t, transaction_ok t /\ bytes = encode t /\ f = transaction_frame t.
Proof.
  unfold TransactionFrame.try_new. destruct (TransactionFrame.parse bytes 0) as [r oe] eqn:H.
  cbn [fst]. intros ->. unfold TransactionFrame.parse in H.
  apply cbind_Ok in H as (fs & o & H1 & H).
  apply signatures_spec in H1 as (sigs & Hs & -> & C1 & ->); [|pose proof (zlen_nonneg bytes); lia].
  rewrite Z.add_0_l in *.
  apply cbind_Ok in H as (fh & o & H1 & H).
  apply header_spec in H1 as (h & Hh & -> & C2 & ->); [|exact (chunk_at_end _ _ _ C1)].
  apply cbind_Ok in H as (fk & o & H1 & H).
  apply account_keys_spec in H1 as (keys & Hk & -> & C3 & ->); [|by eauto with rust].
  apply cbind_Ok in H as (o2 & o & H1 & H). apply tell_Ok in H1 as [-> ->].
  apply cbind_Ok in H as (u & o & H1 & H).
  apply hash_bytes_Ok in H1 as (hash & Hhash & C4 & ->); [|by eauto with rust].
  apply cbind_Ok in H as (fi & o & H1 & H).
  apply instructions_spec in H1 as (ixs & [Hn Hi] & -> & C5 & ->); [|by eauto with rust].
  apply cbind_Ok in H as (fl & o & H1 & H). apply cbind_Ok in H as (o2 & o3 & Ht & H).
  apply tell_Ok in Ht as [-> ->]. destruct (Z.eqb_spec o (zlen bytes)) as [->|]; [|done].
  cbn [negb] in H. apply cret_Ok in H as [<- _]. cbn [header_frame MessageHeaderFrame.version] in H1.
  destruct (h_version h) eqn:Ev.
  - apply cret_Ok in H1 as [<- E]. exists (mkTransaction sigs h keys hash ixs []).
    unfold transaction_ok, transaction_frame, encode;
      cbn [t_signatures t_header t_account_keys t_recent_blockhash t_instructions t_lookups].
    rewrite Ev. split_and!; try done.
    rewrite app_nil_r. apply chunk_at_all; [|rewrite !zlen_app; lia].
    rewrite !chunk_at_app, Z.add_0_l. done.
  - apply lookups_spec in H1 as (l & Hl & Hf & Hw & Hr & Hrem & -> & C6 & E); [|by eauto with rust].
    exists (mkTransaction sigs h keys hash ixs l).
    apply (lookups_remaining _ _ C6 (eq_sym E)) in Hrem.
    unfold transaction_ok, transaction_frame, encode;
      cbn [t_signatures t_header t_account_keys t_recent_blockhash t_instructions t_lookups].
    rewrite Ev. split_and!; try done.
    apply chunk_at_all; [|rewrite !zlen_app; lia]. rewrite !chunk_at_app, Z.add_0_l. done.
Qed.

Lemma parse_encoded t :
  transaction_ok t -> bytes = encode t ->
  TransactionFrame.try_new bytes = Ok (transaction_frame t).
Proof.
  intros (Hs & Hh & Hk & Hhash & Hn & Hi & Hl) E.
  assert (chunk_at bytes 0 (encode t)) as C by (exists [], []; by rewrite app_nil_r).
  unfold encode in C. rewrite !chunk_at_app, Z.add_0_l in C. destruct C as (C1 & C2 & C3 & C4 & C5 & C6).
  change (zlen (enc_array (t_signatures t))) with (sig_end t) in *.
  change (sig_end t + zlen (enc_header (t_header t))) with (header_end t) in *.
  change (header_end t + zlen (enc_array (t_account_keys t))) with (keys_end t) in *.
  change (keys_end t + zlen (t_recent_blockhash t)) with (hash_end t) in *.
  change (hash_end t + zlen (enc_instructions (t_instructions t))) with (instructions_end t) in *.
  enough (TransactionFrame.parse bytes 0 = (Ok (transaction_frame t), zlen bytes)) as Hp
    by (unfold TransactionFrame.try_new; by rewrite Hp).
  unfold TransactionFrame.parse. apply cbind_Ok. eexists _, (sig_end t). split.
  { apply signatures_spec; [by eauto with rust|]. exists (t_signatures t). by rewrite Z.add_0_l. }
  apply cbind_Ok. eexists _, (header_end t). split.
  { apply header_spec; [by eauto with rust|]. by exists (t_header t). }
  apply cbind_Ok. eexists _, (keys_end t). split.
  { apply account_keys_spec; [by eauto with rust|]. by exists (t_account_keys t). }
  apply cbind_Ok. eexists _, _. split; [by apply tell_Ok|]. apply cbind_Ok. exists tt, (hash_end t). split.
  { apply hash_bytes_Ok; [by eauto with rust|]. by exists (t_recent_blockhash t). }
  apply cbind_Ok. eexists _, (instructions_end t). split.
  { apply instructions_spec; [by eauto with rust|]. by exists (t_instructions t). }
  assert (zlen bytes = instructions_end t + zlen (match h_version (t_header t) with
    | Legacy => [] | V0 => enc_lookups (t_lookups t) end)) as Ez.
  { rewrite E at 1. unfold encode, instructions_end, hash_end, keys_end, header_end, sig_end.
    rewrite !zlen_app. lia. }
  apply cbind_Ok. cbn [header_frame MessageHeaderFrame.version]. unfold transaction_frame.
  destruct (h_version (t_header t)); eexists _, (zlen bytes); split.
  - apply cret_Ok. split; [done|]. rewrite zlen_nil in Ez. lia.
  - apply cbind_Ok. eexists _, _. split; [by apply tell_Ok|]. cbv beta.
    rewrite (proj2 (Z.eqb_eq _ _)) by lia. apply cret_Ok. split; [done|lia].
  - destruct Hl as (Hl & Hf & Hrem & Hw & Hr). apply lookups_spec; [by eauto with rust|].
    exists (t_lookups t). rewrite (lookups_remaining _ _ C6) by done. done.
  - apply cbind_Ok. eexists _, _. split; [by apply tell_Ok|]. cbv beta.
    rewrite (proj2 (Z.eqb_eq _ _)) by lia. apply cret_Ok. split; [done|lia].
Qed.

End Parsers.

(** ** What the accessors show *)

Lemma slices_of_elements bytes o size xs :
  Forall (fun x => zlen x = size) xs -> chunk_at bytes o (concat xs) ->
  map (fun i => slice bytes (o + Z.of_nat i * size) size) (seq 0 (length xs)) = xs.
Proof.
  intros Hf. revert o. induction Hf as [|x xs Hx Hf IH]; intros o C; [done|].
  cbn [concat] in C. apply chunk_at_app in C as [C1 C2]. cbn [length seq map]. f_equal.
  - rewrite Z.mul_0_l, Z.add_0_r. by apply chunk_at_slice.
  - rewrite Hx in C2. rewrite <- seq_shift, map_map.
    rewrite <- (IH (o + size)) at 2 by done. apply map_ext. intros i. f_equal. lia.
Qed.

Lemma from_raw_parts_at bytes o size xs :
  Forall (fun x => zlen x = size) xs -> chunk_at bytes o (concat xs) ->
  from_raw_parts bytes o size (zlen xs) = Done xs.
Proof.
  intros Hf C. unfold from_raw_parts. pose proof (chunk_at_bounds _ _ _ C) as Hb.
  rewrite (zlen_concat xs size) in Hb by done. rewrite (proj2 (Z.leb_le _ _)) by lia.
  unfold zlen. rewrite Nat2Z.id. f_equal. by apply slices_of_elements.
Qed.

Lemma ptr_add_at bytes o c : chunk_at bytes o c -> ptr_add bytes o = Done o.
Proof.
  intros C. apply chunk_at_start in C. unfold ptr_add. by rewrite (proj2 (Z.leb_le _ _)) by lia.
Qed.

Lemma from_raw_bytes_at bytes o c :
  chunk_at bytes o c -> from_raw_bytes bytes o (zlen c) = Done c.
Proof.
  intros C. pose proof (chunk_at_bounds _ _ _ C). unfold from_raw_bytes.
  rewrite (proj2 (Z.leb_le _ _)) by lia. f_equal. by apply chunk_at_slice.
Qed.

Section Reading.
Context (bytes : list Z) (Hwf : bytes_wf bytes) (Hlen : zlen bytes <= ISIZE_MAX).

Lemma unchecked_read_byte_at o b :
  chunk_at bytes o [b] -> unchecked_read_byte bytes o = Done (b, o + 1).
Proof.
  intros C. pose proof (chunk_at_next _ _ _ C). unfold unchecked_read_byte, ISIZE_MAX in *.
  apply chunk_at_get in C as [_ ->]. by rewrite wrapping_add_small by lia.
Qed.

Lemma unchecked_read_slice_at o c :
  chunk_at bytes o c -> unchecked_read_slice_data bytes (zlen c) o = Done (c, o + zlen c).
Proof.
  intros C. pose proof (chunk_at_end _ _ _ C). pose proof (chunk_at_start _ _ _ C).
  pose proof (zlen_nonneg c). unfold unchecked_read_slice_data, ISIZE_MAX in *.
  rewrite (ptr_add_at _ _ _ C). cbn [obind]. rewrite wrapping_mul_small, Z.mul_1_r by lia.
  rewrite wrapping_add_small by lia. by rewrite (from_raw_bytes_at _ _ _ C).
Qed.

(** *** The instructions *)

Lemma instruction_next l done ix rest o :
  l = done ++ ix :: rest -> is_len (zlen l) -> instruction_ok ix ->
  chunk_at bytes o (enc_instruction ix) ->
  InstructionsIterator.next bytes
    (InstructionsIterator.mk o (zlen l) (zlen done) (map instruction_frame l))
  = Done (Some ix, InstructionsIterator.mk (o + zlen (enc_instruction ix)) (zlen l)
                     (zlen (done ++ [ix])) (map instruction_frame l)).
Proof.
  intros El Hl [Ha Hd] C. unfold InstructionsIterator.next. cbn [InstructionsIterator.index
    InstructionsIterator.num_instructions InstructionsIterator.frames InstructionsIterator.offset].
  pose proof (zlen_nonneg done). pose proof (zlen_nonneg rest). unfold is_len in Hl.
  assert (zlen l = zlen done + 1 + zlen rest) as Hz by (rewrite El; zlen_lia).
  rewrite (proj2 (Z.ltb_lt _ _)) by lia.
  replace (map instruction_frame l !! Z.to_nat (zlen done)) with (Some (instruction_frame ix)).
  2: { rewrite El. unfold zlen. rewrite Nat2Z.id, map_app. cbn [map].
       rewrite <- (length_map instruction_frame done). symmetry. by apply list_lookup_middle. }
  unfold enc_instruction in C. apply chunk_at_cons in C as [C0 C]. apply chunk_at_app in C as [C1 C].
  apply chunk_at_app in C as [C2 C]. apply chunk_at_app in C as [C3 C4].
  rewrite (unchecked_read_byte_at _ _ C0). cbn [obind instruction_frame
    InstructionsFrame.num_accounts_len InstructionsFrame.num_accounts
    InstructionsFrame.data_len InstructionsFrame.data_len_len].
  pose proof (chunk_at_end _ _ _ C1). pose proof (chunk_at_end _ _ _ C3).
  unfold ISIZE_MAX in *. rewrite wrapping_add_small by lia.
  rewrite (unchecked_read_slice_at _ _ C2). cbn [obind].
  rewrite wrapping_add_small by lia. rewrite (unchecked_read_slice_at _ _ C4). cbn [obind].
  rewrite wrapping_add_small by lia. rewrite (zlen_app done [ix]). change (zlen [ix]) with 1.
  match goal with |- Done (_, InstructionsIterator.mk ?e _ _ _) = _ =>
    replace e with (o + zlen (enc_instruction ix)) by (unfold enc_instruction; zlen_lia) end.
  by destruct ix.
Qed.

Lemma instructions_collect l : forall rest done o fuel,
  l = done ++ rest -> is_len (zlen l) -> Forall instruction_ok rest ->
  chunk_at bytes o (concat (map enc_instruction rest)) -> (length rest < fuel)%nat ->
  InstructionsIterator.collect fuel bytes
    (InstructionsIterator.mk o (zlen l) (zlen done) (map instruction_frame l))
  = Some (Done rest).
Proof.
  induction rest as [|ix rest IH]; intros done o fuel El Hl Hf C Hfuel;
    (destruct fuel as [|fuel]; [simpl in Hfuel; lia|]); cbn [InstructionsIterator.collect].
  - unfold InstructionsIterator.next. rewrite app_nil_r in El. subst l. cbn.
    by rewrite Z.ltb_irrefl.
  - apply Forall_cons in Hf as [Hi Hf]. cbn [map concat] in C. apply chunk_at_app in C as [C1 C2].
    rewrite (instruction_next l done ix rest o El Hl Hi C1).
    rewrite (IH (done ++ [ix])); [done|by rewrite <- app_assoc|done|done|done|simpl in Hfuel; lia].
Qed.

(** *** The lookups *)

Lemma read_type_at o k size :
  chunk_at bytes o k -> size = zlen k -> size <= 64 ->
  read_type bytes size o = Done (Ok k, o + zlen k).
Proof.
  intros C -> Hs. pose proof (zlen_nonneg k). unfold read_type. rewrite (ptr_add_at _ _ _ C).
  cbn [obind]. assert (advance_offset_for_type bytes (zlen k) o = (Ok tt, o + zlen k)) as ->.
  { apply advance_type_Ok; [done|by eauto with rust|lia|]. pose proof (chunk_at_end _ _ _ C). lia. }
  by rewrite (from_raw_bytes_at _ _ _ C).
Qed.

Lemma read_slice_at o c :
  chunk_at bytes o c -> is_len (zlen c) ->
  read_slice_data bytes (zlen c) o = Done (Ok c, o + zlen c).
Proof.
  intros C Hc. unfold is_len in Hc. unfold read_slice_data. rewrite (ptr_add_at _ _ _ C). cbn [obind].
  assert (advance_offset_for_array bytes 1 (zlen c) o = (Ok tt, o + zlen c)) as ->.
  { apply advance_array_Ok; [done|by eauto with rust|lia..|]. pose proof (chunk_at_end _ _ _ C). lia. }
  by rewrite (from_raw_bytes_at _ _ _ C).
Qed.

Lemma lookup_next n i x o :
  0 <= i < n -> n <= U8_MAX -> lookup_ok x -> chunk_at bytes o (enc_lookup x) ->
  AddressTableLookupIterator.next bytes (AddressTableLookupIterator.mk o n i)
  = Done (Some x, AddressTableLookupIterator.mk (o + zlen (enc_lookup x)) n (i + 1)).
Proof.
  intros Hi Hn (Hk & Hw & Hr) C. unfold AddressTableLookupIterator.next.
  cbn [AddressTableLookupIterator.index AddressTableLookupIterator.num_address_table_lookups
       AddressTableLookupIterator.offset].
  rewrite (proj2 (Z.ltb_lt _ _)) by lia. rewrite wrapping_add_small by lia.
  unfold enc_lookup in C. apply chunk_at_app in C as [C0 C]. apply chunk_at_app in C as [C1 C].
  apply chunk_at_app in C as [C2 C]. apply chunk_at_app in C as [C3 C4].
  rewrite (read_type_at _ (account_key x)) by (done || by rewrite Hk).
  unfold AddressTableLookupIterator.or_end. cbn [obind AddressTableLookupIterator.offset
    AddressTableLookupIterator.index AddressTableLookupIterator.num_address_table_lookups].
  rewrite (optimized_at _ Hlen _ _ Hw C1). cbn [obind].
  rewrite (read_slice_at _ _ C2 Hw). cbn [obind].
  rewrite (optimized_at _ Hlen _ _ Hr C3). cbn [obind].
  rewrite (read_slice_at _ _ C4 Hr). cbn [obind].
  match goal with |- Done (_, AddressTableLookupIterator.mk ?e _ _) = _ =>
    replace e with (o + zlen (enc_lookup x)) by (unfold enc_lookup; zlen_lia) end.
  by destruct x.
Qed.

Lemma lookups_collect n : forall rest i o fuel,
  0 <= i -> n = i + zlen rest -> n <= U8_MAX -> Forall lookup_ok rest ->
  chunk_at bytes o (concat (map enc_lookup rest)) -> (length rest < fuel)%nat ->
  AddressTableLookupIterator.collect fuel bytes (AddressTableLookupIterator.mk o n i)
  = Some (Done rest).
Proof.
  induction rest as [|x rest IH]; intros i o fuel Hi En Hn Hf C Hfuel;
    (destruct fuel as [|fuel]; [simpl in Hfuel; lia|]); cbn [AddressTableLookupIterator.collect].
  - unfold AddressTableLookupIterator.next. cbn [AddressTableLookupIterator.index
      AddressTableLookupIterator.num_address_table_lookups].
    rewrite En, zlen_nil, Z.add_0_r. by rewrite Z.ltb_irrefl.
  - apply Forall_cons in Hf as [Hx Hf]. cbn [map concat] in C. apply chunk_at_app in C as [C1 C2].
    rewrite zlen_cons in En. pose proof (zlen_nonneg rest).
    rewrite (lookup_next n i x o) by (done || lia).
    rewrite IH; [done|lia|lia|done|done|done|simpl in Hfuel; lia].
Qed.

(** *** The lookup iterator anywhere in the buffer *)

(** A checked read is defined, and leaves the offset in the buffer when it
    succeeds. *)
Definition safe_read {A} (m : outcome (result TransactionViewError A * Z)) (P : A -> Prop) : Prop :=
  exists r o', m = Done (r, o') /\ forall a, r = Ok a -> P a /\ 0 <= o' <= zlen bytes.

Lemma read_type_safe size o :
  0 <= o <= zlen bytes -> 0 <= size <= 64 ->
  safe_read (read_type bytes size o) (fun _ => True).
Proof.
  intros Ho Hs. unfold read_type, ptr_add. rewrite (proj2 (Z.leb_le _ _)) by lia. cbn [obind].
  destruct (advance_offset_for_type bytes size o) as [[[]|e] o'] eqn:E; [|by eexists _, _].
  apply advance_type_Ok in E as [-> Hle]; try done. unfold from_raw_bytes.
  rewrite (proj2 (Z.leb_le _ _)) by lia. eexists _, _. split; [done|]. intros a _. split; [done|lia].
Qed.

Lemma read_slice_safe n o :
  0 <= o <= zlen bytes -> is_len n -> safe_read (read_slice_data bytes n o) (fun _ => True).
Proof.
  intros Ho Hn. unfold is_len in Hn. unfold read_slice_data, ptr_add.
  rewrite (proj2 (Z.leb_le _ _)) by lia. cbn [obind].
  destruct (advance_offset_for_array bytes 1 n o) as [[[]|e] o'] eqn:E; [|by eexists _, _].
  apply advance_array_Ok in E as [-> Hle]; try done; try lia. unfold from_raw_bytes.
  rewrite (proj2 (Z.leb_le _ _)) by lia. eexists _, _. split; [done|]. intros a _. split; [done|lia].
Qed.

Lemma optimized_safe o :
  0 <= o <= zlen bytes -> safe_read (Done (optimized_read_compressed_u16 bytes o)) is_len.
Proof.
  intros Ho. destruct (optimized_read_compressed_u16 bytes o) as [r o'] eqn:E. eexists _, _.
  split; [done|]. intros a ->. apply optimized_Ok in E as (Hn & C & ->); try done.
  split; [done|]. by eauto with rust.
Qed.

(** The iterator at index [i] of [n] with an offset in the buffer. *)
Definition in_buffer (n i : Z) (it : AddressTableLookupIterator) : Prop :=
  exists o, it = AddressTableLookupIterator.mk o n i /\ 0 <= o <= zlen bytes.

Lemma or_end_safe {A B} n i it (m : outcome (result TransactionViewError A * Z)) (P : A -> Prop)
    (k : A -> AddressTableLookupIterator -> outcome (option B * AddressTableLookupIterator)) :
  in_buffer n i it -> safe_read m P ->
  (forall a it', P a -> in_buffer n i it' ->
     exists b it2, k a it' = Done (b, it2) /\ (b <> None -> in_buffer n i it2)) ->
  exists b it2, AddressTableLookupIterator.or_end it m k = Done (b, it2) /\
    (b <> None -> in_buffer n i it2).
Proof.
  intros (o & -> & Ho) (r & o' & -> & Hr) Hk. unfold AddressTableLookupIterator.or_end.
  cbn [obind AddressTableLookupIterator.index AddressTableLookupIterator.num_address_table_lookups].
  destruct r as [a|e]; [|by eexists _, _]. destruct (Hr a eq_refl) as [Pa Ho'].
  apply Hk; [done|]. by exists o'.
Qed.

Lemma lookup_next_safe n i it :
  0 <= i <= n -> n <= U8_MAX -> in_buffer n i it ->
  exists b it2, AddressTableLookupIterator.next bytes it = Done (b, it2) /\
    (b <> None -> i < n /\ in_buffer n (i + 1) it2).
Proof.
  intros Hi Hn (o & -> & Ho). unfold AddressTableLookupIterator.next.
  cbn [AddressTableLookupIterator.index AddressTableLookupIterator.num_address_table_lookups
       AddressTableLookupIterator.offset].
  destruct (Z.ltb_spec i n); [|by eexists _, _]. rewrite wrapping_add_small by lia.
  match goal with |- exists b it2, ?m = _ /\ _ =>
    enough (exists b it2, m = Done (b, it2) /\ (b <> None -> in_buffer n (i + 1) it2))
      as (b & it2 & -> & Hb) by (eexists _, _; split; [done|]; auto) end.
  eapply or_end_safe; [by exists o|by apply read_type_safe|]. intros key ? _ (o1 & -> & Ho1).
  eapply or_end_safe; [by exists o1|by apply optimized_safe|]. intros nw ? Hnw (o2 & -> & Ho2).
  eapply or_end_safe; [by exists o2|by apply read_slice_safe|]. intros w ? _ (o3 & -> & Ho3).
  eapply or_end_safe; [by exists o3|by apply optimized_safe|]. intros nr ? Hnr (o4 & -> & Ho4).
  eapply or_end_safe; [by exists o4|by apply read_slice_safe|]. intros r ? _ (o5 & -> & Ho5).
  eexists _, _. split; [done|]. intros _. by exists o5.
Qed.

Lemma lookups_terminate n : n <= U8_MAX -> forall m i it,
  0 <= i <= n -> n - i <= Z.of_nat m -> in_buffer n i it ->
  exists l, AddressTableLookupIterator.collect (S m) bytes it = Some (Done l).
Proof.
  intros Hn. induction m as [|m IH]; intros i it Hi Hm Hb;
    destruct (lookup_next_safe n i it Hi Hn Hb) as (b & it2 & E & Hs);
    cbn [AddressTableLookupIterator.collect]; rewrite E; (destruct b as [x|]; [|by eexists]);
    destruct (Hs ltac:(done)) as [Hlt Hb2]; [lia|].
  destruct (IH (i + 1) it2) as [l Hl]; [lia..|done|].
  cbn [AddressTableLookupIterator.collect] in Hl |- *. rewrite Hl. by eexists.
Qed.

End Reading.

(** ** The view of a transaction *)

(** Everything but the lookups that frame [f] shows of [bytes]. *)
Definition shows_message (f : TransactionFrame) (bytes : list Z) (t : Transaction) : Prop :=
  TransactionFrame.signatures f bytes = Done (t_signatures t) /\
  TransactionFrame.static_account_keys f bytes = Done (t_account_keys t) /\
  TransactionFrame.recent_blockhash f bytes = Done (t_recent_blockhash t) /\
  (forall fuel, (length (t_instructions t) < fuel)%nat ->
   InstructionsIterator.collect fuel bytes (TransactionFrame.instructions_iter f)
   = Some (Done (t_instructions t))) /\
  mkHeader (TransactionFrame.version f) (TransactionFrame.num_required_signatures f)
    (TransactionFrame.num_readonly_signed_static_accounts f)
    (TransactionFrame.num_readonly_unsigned_static_accounts f) = t_header t /\
  TransactionFrame.num_signatures f = zlen (t_signatures t) /\
  TransactionFrame.num_static_account_keys f = zlen (t_account_keys t) /\
  TransactionFrame.num_instructions f = zlen (t_instructions t).

Definition shows_lookups (f : TransactionFrame) (bytes : list Z) (t : Transaction) : Prop :=
  (forall fuel, (length (t_lookups t) < fuel)%nat ->
   AddressTableLookupIterator.collect fuel bytes (TransactionFrame.address_table_lookup_iter f)
   = Some (Done (t_lookups t))) /\
  TransactionFrame.num_address_table_lookups f = zlen (t_lookups t) /\
  TransactionFrame.total_writable_lookup_accounts f = total_writable (t_lookups t) /\
  TransactionFrame.total_readonly_lookup_accounts f = total_readonly (t_lookups t).

Section View.
Context (bytes : list Z) (Hwf : bytes_wf bytes) (Hlen : zlen bytes <= ISIZE_MAX).
Context (t : Transaction) (Hok : transaction_ok t) (Henc : bytes = encode t).

(** Where the parts are. *)
Lemma parts :
  chunk_at bytes 1 (concat (t_signatures t)) /\
  chunk_at bytes (header_end t + 1) (concat (t_account_keys t)) /\
  chunk_at bytes (keys_end t) (t_recent_blockhash t) /\
  chunk_at bytes (hash_end t + zlen (compact_u16 (zlen (t_instructions t))))
    (concat (map enc_instruction (t_instructions t))) /\
  (h_version (t_header t) = V0 ->
   chunk_at bytes (instructions_end t + 1) (concat (map enc_lookup (t_lookups t)))).
Proof.
  assert (chunk_at bytes 0 (encode t)) as C by (exists [], []; by rewrite app_nil_r).
  unfold encode in C. rewrite !chunk_at_app, Z.add_0_l in C. destruct C as (C1 & C2 & C3 & C4 & C5 & C6).
  change (zlen (enc_array (t_signatures t))) with (sig_end t) in *.
  change (sig_end t + zlen (enc_header (t_header t))) with (header_end t) in *.
  change (header_end t + zlen (enc_array (t_account_keys t))) with (keys_end t) in *.
  change (keys_end t + zlen (t_recent_blockhash t)) with (hash_end t) in *.
  change (hash_end t + zlen (enc_instructions (t_instructions t))) with (instructions_end t) in *.
  apply chunk_at_cons in C1 as [_ C1]. apply chunk_at_cons in C3 as [_ C3].
  unfold enc_instructions in C5. apply chunk_at_app in C5 as [_ C5]. split_and!; try done.
  intros Ev. rewrite Ev in C6. by apply chunk_at_cons in C6 as [_ C6].
Qed.

(** The parts before the instructions fit into a packet's first bytes. *)
Lemma ends_small :
  0 <= sig_end t <= 769 /\ 0 <= header_end t <= 773 /\ 0 <= keys_end t <= 1990 /\
  0 <= hash_end t <= 2022.
Proof.
  destruct Hok as ([Hs1 Hs2] & _ & [Hk1 Hk2] & Hh & _).
  unfold hash_end, keys_end, header_end, sig_end, enc_array. rewrite !zlen_cons.
  rewrite (zlen_concat _ _ Hs2), (zlen_concat _ _ Hk2), Hh.
  unfold SIGNATURE_BYTES, PUBKEY_BYTES, HASH_BYTES, enc_header.
  assert (3 <= zlen (enc_header (t_header t)) <= 4) as Hz.
  { unfold enc_header. destruct (h_version (t_header t)); by compute. }
  unfold enc_header in Hz. lia.
Qed.

Lemma frame_shows_message : shows_message (transaction_frame t) bytes t.
Proof.
  destruct Hok as ([Hs1 Hs2] & _ & [Hk1 Hk2] & Hh & Hn & Hi & _).
  destruct parts as (C1 & C2 & C3 & C4 & _). pose proof ends_small.
  unfold shows_message, TransactionFrame.signatures, TransactionFrame.static_account_keys,
    TransactionFrame.recent_blockhash, TransactionFrame.instructions_iter. cbn.
  rewrite !as_uint_small by lia. split_and!.
  - change (0 + 1) with 1. rewrite (ptr_add_at _ _ _ C1). by apply from_raw_parts_at.
  - rewrite (ptr_add_at _ _ _ C2). by apply from_raw_parts_at.
  - rewrite (ptr_add_at _ _ _ C3). cbn [obind]. rewrite <- Hh. by apply from_raw_bytes_at.
  - intros fuel Hfuel. pose proof (compact_zlen _ Hn). rewrite as_uint_small by lia.
    by apply (instructions_collect bytes Hlen (t_instructions t) (t_instructions t) []).
  - by destruct (t_header t).
  - done.
  - done.
  - done.
Qed.

Lemma frame_shows_lookups : zlen bytes <= U16_MAX -> shows_lookups (transaction_frame t) bytes t.
Proof.
  intros Hu. destruct Hok as (_ & _ & _ & _ & _ & _ & Hl). destruct parts as (_ & _ & _ & _ & C).
  unfold shows_lookups, TransactionFrame.address_table_lookup_iter, transaction_frame,
    TransactionFrame.num_address_table_lookups, TransactionFrame.total_writable_lookup_accounts,
    TransactionFrame.total_readonly_lookup_accounts. cbn [TransactionFrame.address_table_lookup].
  destruct (h_version (t_header t)).
  - rewrite Hl. split_and!; try done. intros [|fuel] Hf; [simpl in Hf; lia|done].
  - destruct Hl as (Hl & Hf & _). specialize (C eq_refl). pose proof (chunk_at_start _ _ _ C).
    split_and!; try done. intros fuel Hfuel. cbn. rewrite as_uint_small by lia.
    apply (lookups_collect bytes Hlen (zlen (t_lookups t)) (t_lookups t) 0); try done; lia.
Qed.

End View.

(** ** A transaction *)

Definition sample_transaction : Transaction :=
  mkTransaction [replicate 64 7] (mkHeader V0 1 0 1)
    [replicate 32 1; replicate 32 2] (replicate 32 9)
    [mkSVMInstruction 1 [0; 2; 3] [5; 6; 7; 8]] [mkLookup (replicate 32 4) [0] [1; 2]].
Definition sample_bytes : list Z := encode sample_transaction.

Lemma sample_ok : transaction_ok sample_transaction.
Proof.
  unfold transaction_ok, array_ok, lookups_ok, header_ok, is_len, is_u16.
  split_and!; try (vm_compute; congruence); repeat constructor; vm_compute; congruence.
Qed.

Lemma sample_wf : bytes_wf sample_bytes.
Proof. apply (bool_decide_unpack _). vm_compute. exact I. Qed.

(** ** Claims *)

(** C21: the parser accepts exactly the encodings of transactions.  For a
    buffer of any length a slice can have, [TransactionFrame::try_new]
    succeeds if and only if the bytes are the encoding of a transaction within
    the limits of a packet, with no byte left over, and then returns the frame
    of that transaction. *)
Theorem parser_accepts_exactly_the_encodings bytes f :
  bytes_wf bytes -> zlen bytes <= ISIZE_MAX ->
  TransactionFrame.try_new bytes = Ok f <->
  exists t, transaction_ok t /\ bytes = encode t /\ f = transaction_frame t.
Proof.
  intros Hwf Hlen. split; [by apply parse_inv|]. intros (t & Hok & E & ->). by apply parse_encoded.
Qed.

Lemma parser_accepts_exactly_the_encodings_witness :
  TransactionFrame.try_new sample_bytes = Ok (transaction_frame sample_transaction).
Proof.
  apply (parser_accepts_exactly_the_encodings sample_bytes (transaction_frame sample_transaction)).
  - exact sample_wf.
  - vm_compute. discriminate.
  - exists sample_transaction. split; [exact sample_ok|]. split; reflexivity.
Defined.

(** The view shows the transaction that was sent.  When the parser accepts
    a buffer of at most 65535 bytes, the signatures, account keys, blockhash,
    counts and the two iterators, read through the recorded offsets, give
    exactly the parts of the one transaction whose encoding the buffer is. *)
Theorem view_shows_the_transaction bytes f :
  bytes_wf bytes -> zlen bytes <= U16_MAX -> TransactionFrame.try_new bytes = Ok f ->
  exists t, transaction_ok t /\ bytes = encode t /\ shows_message f bytes t /\
    shows_lookups f bytes t /\
    forall t', transaction_ok t' -> bytes = encode t' -> t' = t.
Proof.
  intros Hwf Hu H. assert (zlen bytes <= ISIZE_MAX) as Hlen by (unfold ISIZE_MAX; lia).
  destruct (parse_inv bytes Hwf Hlen f H) as (t & Hok & E & ->). exists t.
  pose proof (frame_shows_message bytes Hlen t Hok E) as Hm.
  pose proof (frame_shows_lookups bytes Hlen t Hok E Hu) as Hs.
  split_and!; try done. intros t' Hok' E'.
  pose proof (parse_encoded bytes Hwf Hlen t' Hok' E') as P'. 
  assert (transaction_frame t' = transaction_frame t) as Hf
    by (rewrite P' in H; set (x := transaction_frame t') in *; congruence).
  pose proof (frame_shows_message bytes Hlen t' Hok' E') as Hm'.
  pose proof (frame_shows_lookups bytes Hlen t' Hok' E' Hu) as Hs'. rewrite Hf in Hm', Hs'.
  destruct Hm as (A1 & A2 & A3 & A4 & A5 & _), Hm' as (B1 & B2 & B3 & B4 & B5 & _).
  destruct Hs as (A6 & _), Hs' as (B6 & _).
  specialize (A4 (S (length (t_instructions t) + length (t_instructions t'))) ltac:(lia)).
  specialize (B4 (S (length (t_instructions t) + length (t_instructions t'))) ltac:(lia)).
  specialize (A6 (S (length (t_lookups t) + length (t_lookups t'))) ltac:(lia)).
  specialize (B6 (S (length (t_lookups t) + length (t_lookups t'))) ltac:(lia)).
  destruct t, t'; cbn [t_signatures t_header t_account_keys t_recent_blockhash t_instructions
    t_lookups] in *. congruence.
Qed.

Lemma view_shows_the_transaction_witness :
  exists t, transaction_ok t /\ sample_bytes = encode t /\
    shows_message (transaction_frame sample_transaction) sample_bytes t /\
    shows_lookups (transaction_frame sample_transaction) sample_bytes t /\
    forall t', transaction_ok t' -> sample_bytes = encode t' -> t' = t.
Proof.
  apply (view_shows_the_transaction sample_bytes (transaction_frame sample_transaction)).
  - exact sample_wf.
  - vm_compute. discriminate.
  - vm_compute. reflexivity.
Defined.

(** C22: the unsafe reads stay in the buffer and the iterators end.  Whatever
    bytes the parser accepted, of any length, every accessor that reads
    through a pointer is defined on the same bytes, no index is out of range,
    the instruction iterator ends after exactly [num_instructions] items and
    the lookup iterator after at most [num_address_table_lookups]. *)
Theorem unsafe_reads_stay_in_bounds bytes f :
  bytes_wf bytes -> zlen bytes <= ISIZE_MAX -> TransactionFrame.try_new bytes = Ok f ->
  (exists l, TransactionFrame.signatures f bytes = Done l /\
     zlen l = TransactionFrame.num_signatures f) /\
  (exists l, TransactionFrame.static_account_keys f bytes = Done l /\
     zlen l = TransactionFrame.num_static_account_keys f) /\
  (exists h, TransactionFrame.recent_blockhash f bytes = Done h) /\
  (exists l, InstructionsIterator.collect (S (Z.to_nat (TransactionFrame.num_instructions f))) bytes
       (TransactionFrame.instructions_iter f) = Some (Done l) /\
     zlen l = TransactionFrame.num_instructions f) /\
  (exists l, AddressTableLookupIterator.collect
       (S (Z.to_nat (TransactionFrame.num_address_table_lookups f))) bytes
       (TransactionFrame.address_table_lookup_iter f) = Some (Done l)).
Proof.
  intros Hwf Hlen H. destruct (parse_inv bytes Hwf Hlen f H) as (t & Hok & E & ->).
  destruct (frame_shows_message bytes Hlen t Hok E) as (A1 & A2 & A3 & A4 & _ & N1 & N2 & N3).
  split_and!; [by eexists|by eexists|by eexists| |].
  - exists (t_instructions t). split; [apply A4; rewrite N3; unfold zlen; lia|done].
  - set (n := TransactionFrame.num_address_table_lookups (transaction_frame t)).
    assert (0 <= n <= U8_MAX) as Hn.
    { unfold n. destruct Hok as (_ & _ & _ & _ & _ & _ & Hl).
      unfold TransactionFrame.num_address_table_lookups, transaction_frame. cbn.
      destruct (h_version (t_header t)); cbn; [lia|]. destruct Hl as (Hl & _).
      pose proof (zlen_nonneg (t_lookups t)). lia. }
    apply (lookups_terminate bytes Hwf Hlen n ltac:(lia) _ 0); [lia..|]. eexists. split; [done|].
    destruct (parts bytes t E) as (_ & _ & _ & _ & C).
    unfold transaction_frame. cbn [TransactionFrame.address_table_lookup].
    destruct (h_version (t_header t)); cbn [AddressTableLookupFrame.offset lookups_frame];
      [pose proof (zlen_nonneg bytes); lia|].
    pose proof (chunk_at_start _ _ _ (C eq_refl)) as Hs.
    pose proof (Z.mod_pos_bound (instructions_end t + 1) 65536 ltac:(lia)).
    pose proof (Z.mod_le (instructions_end t + 1) 65536 ltac:(lia) ltac:(lia)).
    unfold as_uint. change (U16_MAX + 1) with 65536. lia.
Qed.

Lemma unsafe_reads_stay_in_bounds_witness :
  exists l, AddressTableLookupIterator.collect
    (S (Z.to_nat (TransactionFrame.num_address_table_lookups
                    (transaction_frame sample_transaction)))) sample_bytes
    (TransactionFrame.address_table_lookup_iter (transaction_frame sample_transaction))
  = Some (Done l).
Proof.
  apply (unsafe_reads_stay_in_bounds sample_bytes (transaction_frame sample_transaction)).
  - exact sample_wf.
  - vm_compute. discriminate.
  - vm_compute. reflexivity.
Defined.
