(* ===== verification/TxView.v ===== *)
(** * Sanitized and resolved transactions ([gorchain/transaction-view/src])

    The view over a serialized transaction ([transaction_view.rs]), the checks
    that make it a sanitized one ([sanitize.rs]), and the view with resolved
    address lookups and its cache of writable accounts
    ([resolved_transaction_view.rs]). *)

From stdpp Require Import base numbers list gmap.
From Stdlib Require Import Lia.
From S2P Require Import Prelude Pod TxBytes TxFrame TxFormat.
Local Open Scope Z_scope.

(** ** The view *)

(** The data and its frame; whether the view is sanitized is a type parameter
    of the source, here it is which function returned it. *)
Record TransactionView := mkView {
  view_data : list Z;
  view_frame : TransactionFrame;
}.

Module TransactionView.

Definition try_new_unsanitized (data : list Z) : result TransactionViewError TransactionView :=
  let? frame := TransactionFrame.try_new data in
  Ok (mkView data frame).

Definition num_signatures (v : TransactionView) : Z := TransactionFrame.num_signatures (view_frame v).
Definition version (v : TransactionView) : TransactionVersion :=
  TransactionFrame.version (view_frame v).
Definition num_required_signatures (v : TransactionView) : Z :=
  TransactionFrame.num_required_signatures (view_frame v).
Definition num_readonly_signed_static_accounts (v : TransactionView) : Z :=
  TransactionFrame.num_readonly_signed_static_accounts (view_frame v).
Definition num_readonly_unsigned_static_accounts (v : TransactionView) : Z :=
  TransactionFrame.num_readonly_unsigned_static_accounts (view_frame v).
Definition num_static_account_keys (v : TransactionView) : Z :=
  TransactionFrame.num_static_account_keys (view_frame v).
Definition num_instructions (v : TransactionView) : Z :=
  TransactionFrame.num_instructions (view_frame v).
Definition num_address_table_lookups (v : TransactionView) : Z :=
  TransactionFrame.num_address_table_lookups (view_frame v).
Definition total_writable_lookup_accounts (v : TransactionView) : Z :=
  TransactionFrame.total_writable_lookup_accounts (view_frame v).
Definition total_readonly_lookup_accounts (v : TransactionView) : Z :=
  TransactionFrame.total_readonly_lookup_accounts (view_frame v).
Definition signatures (v : TransactionView) : outcome (list (list Z)) :=
  TransactionFrame.signatures (view_frame v) (view_data v).
Definition static_account_keys (v : TransactionView) : outcome (list (list Z)) :=
  TransactionFrame.static_account_keys (view_frame v) (view_data v).
Definition recent_blockhash (v : TransactionView) : outcome (list Z) :=
  TransactionFrame.recent_blockhash (view_frame v) (view_data v).
Definition instructions_iter (v : TransactionView) : InstructionsIterator :=
  TransactionFrame.instructions_iter (view_frame v).
Definition address_table_lookup_iter (v : TransactionView) : AddressTableLookupIterator :=
  TransactionFrame.address_table_lookup_iter (view_frame v).

(** [&self.data()[message_offset..]], which panics past the end. *)
Definition message_data (v : TransactionView) : outcome (list Z) :=
  let offset := TransactionFrame.message_offset (view_frame v) in
  if offset <=? zlen (view_data v) then Done (drop (Z.to_nat offset) (view_data v)) else Panicked.

End TransactionView.

(** ** [for] loops over the iterators *)

(** A loop with an early return: the outcome, or [None] when [fuel] calls of
    [next] do not suffice. *)
Fixpoint for_instructions (fuel : nat) (bytes : list Z) (it : InstructionsIterator)
    (body : SVMInstruction -> result TransactionViewError unit)
    : option (outcome (result TransactionViewError unit)) :=
  match fuel with
  | O => None
  | S fuel =>
      match InstructionsIterator.next bytes it with
      | Done (None, _) => Some (Done (Ok tt))
      | Done (Some ix, it) =>
          match body ix with
          | Ok _ => for_instructions fuel bytes it body
          | Err e => Some (Done (Err e))
          end
      | Undefined => Some Undefined
      | Panicked => Some Panicked
      end
  end.

Fixpoint for_lookups (fuel : nat) (bytes : list Z) (it : AddressTableLookupIterator)
    (body : SVMMessageAddressTableLookup -> result TransactionViewError unit)
    : option (outcome (result TransactionViewError unit)) :=
  match fuel with
  | O => None
  | S fuel =>
      match AddressTableLookupIterator.next bytes it with
      | Done (None, _) => Some (Done (Ok tt))
      | Done (Some l, it) =>
          match body l with
          | Ok _ => for_lookups fuel bytes it body
          | Err e => Some (Done (Err e))
          end
      | Undefined => Some Undefined
      | Panicked => Some Panicked
      end
  end.

(** ** Sanitization *)

Module Sanitize.
Import TransactionView.

Definition total_number_of_accounts (view : TransactionView) : Z :=
  saturating_add U16_MAX
    (saturating_add U16_MAX (num_static_account_keys view) (total_writable_lookup_accounts view))
    (total_readonly_lookup_accounts view).

Definition sanitize_signatures (view : TransactionView) : result TransactionViewError unit :=
  if negb (num_signatures view =? num_required_signatures view)
  then Err TransactionViewError.SanitizeError
  else if num_static_account_keys view <? num_signatures view
  then Err TransactionViewError.SanitizeError
  else Ok tt.

Definition sanitize_account_access (view : TransactionView) : result TransactionViewError unit :=
  if num_readonly_unsigned_static_accounts view
       >? wrapping_sub U8_MAX (num_static_account_keys view) (num_required_signatures view)
  then Err TransactionViewError.SanitizeError
  else if num_readonly_signed_static_accounts view >=? num_required_signatures view
  then Err TransactionViewError.SanitizeError
  else if total_number_of_accounts view >? 256 then Err TransactionViewError.SanitizeError
  else Ok tt.

(** The loop over the account indexes of an instruction. *)
Fixpoint check_indexes (max_account_index : Z) (indexes : list Z)
    : result TransactionViewError unit :=
  match indexes with
  | [] => Ok tt
  | account_index :: indexes =>
      if account_index >? max_account_index then Err TransactionViewError.SanitizeError
      else check_indexes max_account_index indexes
  end.

Definition check_instruction (max_program_id_index max_account_index : Z)
    (instruction : SVMInstruction) : result TransactionViewError unit :=
  if program_id_index instruction >? max_program_id_index
  then Err TransactionViewError.SanitizeError
  else if program_id_index instruction =? 0 then Err TransactionViewError.SanitizeError
  else check_indexes max_account_index (ix_account_indexes instruction).

Definition sanitize_instructions (view : TransactionView)
    : option (outcome (result TransactionViewError unit)) :=
  let max_program_id_index := wrapping_sub U8_MAX (num_static_account_keys view) 1 in
  let max_account_index := as_u8 (wrapping_sub U16_MAX (total_number_of_accounts view) 1) in
  for_instructions (S (Z.to_nat (num_instructions view))) (view_data view) (instructions_iter view)
    (check_instruction max_program_id_index max_account_index).

Definition check_lookup (l : SVMMessageAddressTableLookup) : result TransactionViewError unit :=
  match writable_indexes l, readonly_indexes l with
  | [], [] => Err TransactionViewError.SanitizeError
  | _, _ => Ok tt
  end.

Definition sanitize_address_table_lookups (view : TransactionView)
    : option (outcome (result TransactionViewError unit)) :=
  for_lookups (S (Z.to_nat (num_address_table_lookups view))) (view_data view)
    (address_table_lookup_iter view) check_lookup.

Definition sanitize (view : TransactionView) : option (outcome (result TransactionViewError unit)) :=
  match sanitize_signatures view with
  | Err e => Some (Done (Err e))
  | Ok _ =>
      match sanitize_account_access view with
      | Err e => Some (Done (Err e))
      | Ok _ =>
          match sanitize_instructions view with
          | Some (Done (Ok _)) => sanitize_address_table_lookups view
          | r => r
          end
      end
  end.

End Sanitize.

Module SanitizedTransactionView.
Import TransactionView.

Definition try_new_sanitized (data : list Z)
    : option (outcome (result TransactionViewError TransactionView)) :=
  match try_new_unsanitized data with
  | Err e => Some (Done (Err e))
  | Ok view =>
      match Sanitize.sanitize view with
      | None => None
      | Some (Done (Ok _)) => Some (Done (Ok view))
      | Some (Done (Err e)) => Some (Done (Err e))
      | Some Undefined => Some Undefined
      | Some Panicked => Some Panicked
      end
  end.

(** [self.static_account_keys()[program_id_index]] of an instruction. *)
Definition program_id (view : TransactionView) (ix : SVMInstruction) : outcome (list Z) :=
  let* keys := static_account_keys view in
  match keys !! Z.to_nat (program_id_index ix) with
  | Some k => Done k
  | None => Panicked
  end.

Definition num_static_unsigned_static_accounts (view : TransactionView) : Z :=
  wrapping_sub U8_MAX (num_static_account_keys view) (num_required_signatures view).
Definition num_writable_unsigned_static_accounts (view : TransactionView) : Z :=
  wrapping_sub U8_MAX (num_static_unsigned_static_accounts view)
    (num_readonly_unsigned_static_accounts view).
Definition num_writable_signed_static_accounts (view : TransactionView) : Z :=
  wrapping_sub U8_MAX (num_required_signatures view) (num_readonly_signed_static_accounts view).
Definition total_num_accounts (view : TransactionView) : Z :=
  wrapping_add U16_MAX
    (wrapping_add U16_MAX (num_static_account_keys view) (total_writable_lookup_accounts view))
    (total_readonly_lookup_accounts view).
Definition num_requested_write_locks (view : TransactionView) : Z :=
  wrapping_add U16_MAX
    (wrapping_sub U8_MAX
       (wrapping_sub U8_MAX (num_static_account_keys view)
          (num_readonly_signed_static_accounts view))
       (num_readonly_unsigned_static_accounts view))
    (total_writable_lookup_accounts view).

End SanitizedTransactionView.

(** ** Resolved lookups *)

(** [solana_message::v0::LoadedAddresses]. *)
Record LoadedAddresses := mkLoaded {
  loaded_writable : list (list Z);
  loaded_readonly : list (list Z);
}.

(** What the view uses of crates outside the repository: the iteration order
    of [solana_message::AccountKeys] and the id of the upgradeable loader. *)
Class AccountKeysEnv := {
  account_keys : list (list Z) -> option LoadedAddresses -> list (list Z);
  bpf_loader_upgradeable_id : list Z;
}.

(** [AccountKeys] iterates over the static keys, then the writable and then
    the read-only loaded addresses. *)
Class AccountKeysLaws (env : AccountKeysEnv) : Prop :=
  account_keys_order static loaded :
    account_keys static loaded
    = static ++ match loaded with
                | Some l => loaded_writable l ++ loaded_readonly l
                | None => []
                end.

(** A loop over the instructions that carries a state and cannot fail. *)
Fixpoint fold_instructions {S : Type} (fuel : nat) (bytes : list Z) (it : InstructionsIterator)
    (body : S -> SVMInstruction -> S) (s : S) : option (outcome S) :=
  match fuel with
  | O => None
  | Datatypes.S fuel =>
      match InstructionsIterator.next bytes it with
      | Done (None, _) => Some (Done s)
      | Done (Some ix, it) => fold_instructions fuel bytes it body (body s ix)
      | Undefined => Some Undefined
      | Panicked => Some Panicked
      end
  end.

Record ResolvedTransactionView := mkResolved {
  rv_view : TransactionView;
  resolved_addresses : option LoadedAddresses;
  writable_cache : list bool;
}.

Module ResolvedTransactionView.
Import TransactionView SanitizedTransactionView.

Section Resolved.
Context {env : AccountKeysEnv}.

Definition is_requested_write (view : TransactionView) (index : Z) : bool :=
  if index >=? num_static_account_keys view then
    usize_sub index (num_static_account_keys view) <? total_writable_lookup_accounts view
  else if index >=? num_required_signatures view then
    usize_sub index (num_required_signatures view) <? num_writable_unsigned_static_accounts view
  else index <? num_writable_signed_static_accounts view.

(** [cache[index] = b], which panics out of range. *)
Definition set_cache (cache : list bool) (index : Z) (b : bool) : outcome (list bool) :=
  if index <? zlen cache then Done (<[Z.to_nat index := b]> cache) else Panicked.

(** The loop [for (index, key) in account_keys.iter().enumerate()]. *)
Fixpoint cache_requested (view : TransactionView) (reserved : gset (list Z)) (index : Z)
    (keys : list (list Z)) (cache : list bool) : outcome (list bool) :=
  match keys with
  | [] => Done cache
  | key :: keys =>
      let* cache := set_cache cache index
        (is_requested_write view index && negb (bool_decide (key ∈ reserved))) in
      cache_requested view reserved (index + 1) keys cache
  end.

Definition is_loader_present (keys : list (list Z)) : bool :=
  existsb (fun key => bool_decide (key = bpf_loader_upgradeable_id)) keys.

(** One round of the loop over the program ids, with the lazily computed
    [is_upgradable_loader_present].  The index is a [u8] and the cache has 256
    cells, so the accesses are in range. *)
Definition demote_program (keys : list (list Z)) (s : list bool * option bool)
    (ix : SVMInstruction) : list bool * option bool :=
  let '(cache, is_upgradable_loader_present) := s in
  let i := Z.to_nat (program_id_index ix) in
  if default false (cache !! i) then
    let present := default (is_loader_present keys) is_upgradable_loader_present in
    (if negb present then <[i := false]> cache else cache, Some present)
  else s.

Definition cache_is_writable (view : TransactionView) (resolved : option LoadedAddresses)
    (reserved : gset (list Z)) : option (outcome (list bool)) :=
  match static_account_keys view with
  | Undefined => Some Undefined
  | Panicked => Some Panicked
  | Done static =>
      let keys := account_keys static resolved in
      match cache_requested view reserved 0 keys (replicate 256 false) with
      | Undefined => Some Undefined
      | Panicked => Some Panicked
      | Done cache =>
          match fold_instructions (S (Z.to_nat (num_instructions view))) (view_data view)
                  (instructions_iter view) (demote_program keys) (cache, None) with
          | Some (Done (cache, _)) => Some (Done cache)
          | Some Undefined => Some Undefined
          | Some Panicked => Some Panicked
          | None => None
          end
      end
  end.

(** The checks of [try_new] on the resolved addresses. *)
Definition check_resolved (view : TransactionView) (resolved : option LoadedAddresses)
    : result TransactionViewError unit :=
  match version view, resolved with
  | V0, None => Err TransactionViewError.AddressLookupMismatch
  | _, Some loaded =>
      if negb (zlen (loaded_writable loaded) =? total_writable_lookup_accounts view)
         || negb (zlen (loaded_readonly loaded) =? total_readonly_lookup_accounts view)
      then Err TransactionViewError.AddressLookupMismatch
      else Ok tt
  | Legacy, None =>
      if negb (total_writable_lookup_accounts view =? 0)
         || negb (total_readonly_lookup_accounts view =? 0)
      then Err TransactionViewError.AddressLookupMismatch
      else Ok tt
  end.

Definition try_new (view : TransactionView) (resolved : option LoadedAddresses)
    (reserved : gset (list Z)) : option (outcome (result TransactionViewError ResolvedTransactionView)) :=
  match check_resolved view resolved with
  | Err e => Some (Done (Err e))
  | Ok _ =>
      match cache_is_writable view resolved reserved with
      | Some (Done cache) => Some (Done (Ok (mkResolved view resolved cache)))
      | Some Undefined => Some Undefined
      | Some Panicked => Some Panicked
      | None => None
      end
  end.

Definition is_writable (self : ResolvedTransactionView) (index : Z) : bool :=
  default false (writable_cache self !! Z.to_nat index).

Definition is_signer (self : ResolvedTransactionView) (index : Z) : bool :=
  index <? num_required_signatures (rv_view self).

(** [fee_payer]: [&static_account_keys()[0]]. *)
Definition fee_payer (self : ResolvedTransactionView) : outcome (list Z) :=
  let* keys := static_account_keys (rv_view self) in
  match keys with
  | k :: _ => Done k
  | [] => Panicked
  end.

(** [signature]: [&signatures()[0]]. *)
Definition signature (self : ResolvedTransactionView) : outcome (list Z) :=
  let* sigs := signatures (rv_view self) in
  match sigs with
  | s :: _ => Done s
  | [] => Panicked
  end.

End Resolved.
End ResolvedTransactionView.

(** ** Loops over what the iterators show *)

Lemma for_instructions_list bytes body : forall fuel it l,
  InstructionsIterator.collect fuel bytes it = Some (Done l) ->
  for_instructions fuel bytes it body = Some (Done (all_ok body l)).
Proof.
  induction fuel as [|fuel IH]; intros it l H; [done|].
  cbn [InstructionsIterator.collect for_instructions] in *.
  destruct (InstructionsIterator.next bytes it) as [[[ix|] it']| |]; try done.
  - destruct (InstructionsIterator.collect fuel bytes it') as [[l'| |]|] eqn:E; try done.
    injection H as <-. cbn [all_ok]. destruct (body ix) as [[]|]; [|done]. simpl. by apply IH.
  - by injection H as <-.
Qed.

Lemma for_lookups_list bytes body : forall fuel it l,
  AddressTableLookupIterator.collect fuel bytes it = Some (Done l) ->
  for_lookups fuel bytes it body = Some (Done (all_ok body l)).
Proof.
  induction fuel as [|fuel IH]; intros it l H; [done|].
  cbn [AddressTableLookupIterator.collect for_lookups] in *.
  destruct (AddressTableLookupIterator.next bytes it) as [[[ix|] it']| |]; try done.
  - destruct (AddressTableLookupIterator.collect fuel bytes it') as [[l'| |]|] eqn:E; try done.
    injection H as <-. cbn [all_ok]. destruct (body ix) as [[]|]; [|done]. simpl. by apply IH.
  - by injection H as <-.
Qed.

(** ** Sane transactions *)

Definition total_accounts (t : Transaction) : Z :=
  zlen (t_account_keys t) + total_writable (t_lookups t) + total_readonly (t_lookups t).

Definition instruction_sane (t : Transaction) (ix : SVMInstruction) : Prop :=
  0 < program_id_index ix < zlen (t_account_keys t) /\
  Forall (fun a => a < total_accounts t) (ix_account_indexes ix).

Definition sane (t : Transaction) : Prop :=
  let h := t_header t in
  zlen (t_signatures t) = h_num_required_signatures h /\
  h_num_required_signatures h <= zlen (t_account_keys t) /\
  h_num_readonly_unsigned h <= zlen (t_account_keys t) - h_num_required_signatures h /\
  h_num_readonly_signed h < h_num_required_signatures h /\
  total_accounts t <= 256 /\
  Forall (instruction_sane t) (t_instructions t) /\
  Forall (fun l => writable_indexes l <> [] \/ readonly_indexes l <> []) (t_lookups t).

(** The header and the indexes of an encoded transaction are bytes. *)
Lemma encoded_bytes t :
  bytes_wf (encode t) ->
  is_byte (h_num_required_signatures (t_header t)) /\
  is_byte (h_num_readonly_signed (t_header t)) /\
  is_byte (h_num_readonly_unsigned (t_header t)) /\
  Forall (fun ix => is_byte (program_id_index ix)) (t_instructions t).
Proof.
  unfold encode. rewrite !bytes_wf_app. intros (_ & Hh & _ & _ & Hi & _).
  assert (bytes_wf [h_num_required_signatures (t_header t); h_num_readonly_signed (t_header t);
    h_num_readonly_unsigned (t_header t)]) as Hb.
  { unfold enc_header in Hh. by apply bytes_wf_app in Hh as [_ Hh]. }
  inversion_clear Hb as [|? ? B1 Hb']. inversion_clear Hb' as [|? ? B2 Hb].
  inversion_clear Hb as [|? ? B3 _]. do 3 (split; [done|]).
  unfold enc_instructions in Hi. apply bytes_wf_app in Hi as [_ Hi].
  induction (t_instructions t) as [|ix l IH]; [constructor|]. cbn [map concat] in Hi.
  apply bytes_wf_app in Hi as [Hix Hi]. constructor; [by inversion_clear Hix|by apply IH].
Qed.

Lemma check_indexes_Ok m l : Sanitize.check_indexes m l = Ok tt <-> Forall (fun a => a <= m) l.
Proof.
  induction l as [|a l IH]; cbn [Sanitize.check_indexes]; [by split; [constructor|]|].
  rewrite Forall_cons, Z.gtb_ltb. destruct (Z.ltb_spec m a); [split; [done|lia]|].
  rewrite IH. intuition lia.
Qed.

Lemma check_indexes_Err m l e :
  Sanitize.check_indexes m l = Err e -> e = TransactionViewError.SanitizeError.
Proof.
  induction l as [|a l IH]; cbn [Sanitize.check_indexes]; [done|].
  destruct (_ >? _); [by intros [= <-]|done].
Qed.

(** ** The view of an encoded transaction *)

Section EncodedView.
Context (bytes : list Z) (Hwf : bytes_wf bytes) (Hu : zlen bytes <= U16_MAX).
Context (t : Transaction) (Hok : transaction_ok t) (Henc : bytes = encode t).

Definition the_view : TransactionView := mkView bytes (transaction_frame t).

Lemma view_length : zlen bytes <= ISIZE_MAX.
Proof. unfold ISIZE_MAX. lia. Qed.

Lemma view_counts :
  TransactionView.num_signatures the_view = zlen (t_signatures t) /\
  TransactionView.num_static_account_keys the_view = zlen (t_account_keys t) /\
  TransactionView.total_writable_lookup_accounts the_view = total_writable (t_lookups t) /\
  TransactionView.total_readonly_lookup_accounts the_view = total_readonly (t_lookups t).
Proof.
  destruct (frame_shows_message bytes view_length t Hok Henc) as (_ & _ & _ & _ & _ & N1 & N2 & _).
  destruct (frame_shows_lookups bytes view_length t Hok Henc Hu) as (_ & _ & N3 & N4). done.
Qed.

Lemma lookup_totals :
  is_u16 (total_writable (t_lookups t)) /\ is_u16 (total_readonly (t_lookups t)).
Proof.
  destruct Hok as (_ & _ & _ & _ & _ & _ & Hl). destruct (h_version (t_header t)).
  - rewrite Hl. by compute.
  - by destruct Hl as (_ & _ & _ & ? & ?).
Qed.

Lemma view_total :
  Sanitize.total_number_of_accounts the_view = Z.min U16_MAX (total_accounts t).
Proof.
  destruct view_counts as (_ & N2 & N3 & N4). unfold Sanitize.total_number_of_accounts.
  rewrite N2, N3, N4. unfold saturating_add, total_accounts. pose proof lookup_totals as [Hw Hr].
  unfold is_u16 in *. lia.
Qed.

Lemma view_instructions body :
  for_instructions (S (Z.to_nat (TransactionView.num_instructions the_view))) (view_data the_view)
    (TransactionView.instructions_iter the_view) body
  = Some (Done (all_ok body (t_instructions t))).
Proof.
  destruct (frame_shows_message bytes view_length t Hok Henc) as (_ & _ & _ & A & _ & _ & _ & N).
  apply for_instructions_list, A. unfold TransactionView.num_instructions.
  change (view_frame the_view) with (transaction_frame t). rewrite N. unfold zlen. lia.
Qed.

Lemma view_lookups body :
  for_lookups (S (Z.to_nat (TransactionView.num_address_table_lookups the_view)))
    (view_data the_view) (TransactionView.address_table_lookup_iter the_view) body
  = Some (Done (all_ok body (t_lookups t))).
Proof.
  destruct (frame_shows_lookups bytes view_length t Hok Henc Hu) as (A & N & _).
  apply for_lookups_list, A. unfold TransactionView.num_address_table_lookups.
  change (view_frame the_view) with (transaction_frame t). rewrite N. unfold zlen. lia.
Qed.

Lemma account_keys_count : 1 <= zlen (t_account_keys t) <= 38.
Proof. destruct Hok as (_ & _ & [Hk _] & _). lia. Qed.

Lemma check_instruction_sane ix :
  total_accounts t <= 256 ->
  Sanitize.check_instruction
    (wrapping_sub U8_MAX (TransactionView.num_static_account_keys the_view) 1)
    (as_u8 (wrapping_sub U16_MAX (Sanitize.total_number_of_accounts the_view) 1)) ix = Ok tt <->
  0 <> program_id_index ix /\ program_id_index ix < zlen (t_account_keys t) /\
  Forall (fun a => a < total_accounts t) (ix_account_indexes ix).
Proof.
  intros Ht. rewrite view_total. destruct view_counts as (_ & -> & _). pose proof account_keys_count.
  pose proof lookup_totals as [Hw Hr]. unfold is_u16, total_accounts in *.
  rewrite Z.min_r, !wrapping_sub_small, as_uint_small by (rewrite ?wrapping_sub_small by lia; lia).
  unfold Sanitize.check_instruction. rewrite Z.gtb_ltb.
  destruct (Z.ltb_spec (zlen (t_account_keys t) - 1) (program_id_index ix)); [split; [done|lia]|].
  destruct (Z.eqb_spec (program_id_index ix) 0); [split; [done|lia]|]. rewrite check_indexes_Ok.
  rewrite !Forall_forall. split; [intros Hi; split_and!; [lia|lia|]|intros (_ & _ & Hi)];
    intros a Ha; specialize (Hi a Ha); lia.
Qed.

Lemma instructions_sane :
  total_accounts t <= 256 ->
  Sanitize.sanitize_instructions the_view = Some (Done (Ok tt)) <->
  Forall (instruction_sane t) (t_instructions t).
Proof.
  intros Ht. unfold Sanitize.sanitize_instructions. rewrite view_instructions.
  pose proof Hwf as Hb. rewrite Henc in Hb. apply encoded_bytes in Hb as (_ & _ & _ & B4).
  transitivity (all_ok (Sanitize.check_instruction
    (wrapping_sub U8_MAX (TransactionView.num_static_account_keys the_view) 1)
    (as_u8 (wrapping_sub U16_MAX (Sanitize.total_number_of_accounts the_view) 1)))
    (t_instructions t) = Ok tt); [split; [by intros [= ->]|by intros ->]|].
  rewrite all_ok_iff, !Forall_forall in *. unfold instruction_sane. split; intros Hi ix Hix.
  - specialize (B4 ix Hix). specialize (Hi ix Hix). unfold is_byte in B4.
    apply check_instruction_sane in Hi; [|done]. intuition lia.
  - apply check_instruction_sane; [done|]. specialize (Hi ix Hix). intuition lia.
Qed.

Lemma lookups_sane :
  Sanitize.sanitize_address_table_lookups the_view = Some (Done (Ok tt)) <->
  Forall (fun l => writable_indexes l <> [] \/ readonly_indexes l <> []) (t_lookups t).
Proof.
  unfold Sanitize.sanitize_address_table_lookups. rewrite view_lookups.
  transitivity (all_ok Sanitize.check_lookup (t_lookups t) = Ok tt);
    [split; [by intros [= ->]|by intros ->]|].
  rewrite all_ok_iff. apply Forall_iff. intros l. unfold Sanitize.check_lookup.
  destruct (writable_indexes l), (readonly_indexes l); naive_solver.
Qed.

(** The loops end, and only with a sanitize error. *)
Lemma sanitize_loops_end :
  (exists r, Sanitize.sanitize_instructions the_view = Some (Done r) /\
     forall e, r = Err e -> e = TransactionViewError.SanitizeError) /\
  (exists r, Sanitize.sanitize_address_table_lookups the_view = Some (Done r) /\
     forall e, r = Err e -> e = TransactionViewError.SanitizeError).
Proof.
  unfold Sanitize.sanitize_instructions, Sanitize.sanitize_address_table_lookups.
  rewrite view_instructions, view_lookups.
  split; eexists; (split; [done|]); intros e He;
    apply all_ok_Err, Exists_exists in He as (x & _ & He).
  - unfold Sanitize.check_instruction in He. destruct (_ >? _); [by injection He as <-|].
    destruct (_ =? 0); [by injection He as <-|]. by eapply check_indexes_Err.
  - unfold Sanitize.check_lookup in He. destruct (writable_indexes x), (readonly_indexes x);
      try done. by injection He as <-.
Qed.

(** A guard that fails. *)
Ltac refuse := eexists; split; [done|]; split; [split; [done|lia]|by intros e [= <-]].

Lemma sanitize_sane :
  exists r, Sanitize.sanitize the_view = Some (Done r) /\ (r = Ok tt <-> sane t) /\
    (forall e, r = Err e -> e = TransactionViewError.SanitizeError).
Proof.
  pose proof Hwf as Hb. rewrite Henc in Hb. apply encoded_bytes in Hb as (B1 & B2 & B3 & B4).
  destruct view_counts as (N1 & N2 & N3 & N4). pose proof account_keys_count.
  unfold Sanitize.sanitize, Sanitize.sanitize_signatures, Sanitize.sanitize_account_access.
  rewrite N1, N2. unfold sane.
  change (TransactionView.num_required_signatures the_view) with (h_num_required_signatures (t_header t)).
  change (TransactionView.num_readonly_signed_static_accounts the_view) with (h_num_readonly_signed (t_header t)).
  change (TransactionView.num_readonly_unsigned_static_accounts the_view)
    with (h_num_readonly_unsigned (t_header t)).
  set (req := h_num_required_signatures (t_header t)) in *. unfold is_byte in *.
  destruct (Z.eqb_spec (zlen (t_signatures t)) req) as [Es|]; cbn [negb];
    [|refuse].
  destruct (Z.ltb_spec (zlen (t_account_keys t)) (zlen (t_signatures t)));
    [refuse|].
  rewrite wrapping_sub_small by lia. rewrite !Z.gtb_ltb.
  destruct (Z.ltb_spec (zlen (t_account_keys t) - req) (h_num_readonly_unsigned (t_header t)));
    [refuse|].
  rewrite Z.geb_leb. destruct (Z.leb_spec req (h_num_readonly_signed (t_header t)));
    [refuse|].
  rewrite view_total. destruct (Z.ltb_spec 256 (Z.min U16_MAX (total_accounts t)));
    [refuse|].
  destruct sanitize_loops_end as [(r1 & E1 & F1) (r2 & E2 & F2)].
  pose proof (instructions_sane ltac:(lia)) as S1. pose proof lookups_sane as S2.
  rewrite E1, E2 in *. destruct r1 as [[]|e1].
  - exists r2. split_and!; [done| |done]. transitivity (Some (Done r2) = Some (Done (Ok (E := TransactionViewError) tt))).
    { split; [by intros ->|by intros [= ->]]. }
    rewrite S2. rewrite <- S1. intuition lia.
  - exists (Err e1). split_and!; [done| |done]. split; [done|]. intros Hs.
    assert (Some (Done (Err e1)) = Some (Done (Ok (E := TransactionViewError) tt))) by (apply S1; tauto).
    congruence.
Qed.

End EncodedView.

(** ** The cache of writable accounts *)

Lemma fold_instructions_list {S} bytes (body : S -> SVMInstruction -> S) : forall fuel it l s,
  InstructionsIterator.collect fuel bytes it = Some (Done l) ->
  fold_instructions fuel bytes it body s = Some (Done (foldl body s l)).
Proof.
  induction fuel as [|fuel IH]; intros it l s H; [done|].
  cbn [InstructionsIterator.collect fold_instructions] in *.
  destruct (InstructionsIterator.next bytes it) as [[[ix|] it']| |]; try done.
  - destruct (InstructionsIterator.collect fuel bytes it') as [[l'| |]|] eqn:E; try done.
    injection H as <-. cbn [foldl]. by apply IH.
  - by injection H as <-.
Qed.

Section Cache.
Context {env : AccountKeysEnv}.
Import ResolvedTransactionView.

Lemma cache_requested_spec view reserved : forall keys index cache,
  0 <= index -> index + zlen keys <= zlen cache ->
  exists cache', cache_requested view reserved index keys cache = Done cache' /\
    length cache' = length cache /\
    (forall j k, keys !! j = Some k ->
       cache' !! (Z.to_nat index + j)%nat
       = Some (is_requested_write view (index + Z.of_nat j) && negb (bool_decide (k ∈ reserved)))) /\
    (forall j, (j < Z.to_nat index \/ Z.to_nat index + length keys <= j)%nat -> cache' !! j = cache !! j).
Proof.
  induction keys as [|k keys IH]; intros index cache Hi Hle; cbn [cache_requested].
  - exists cache. split_and!; try done.
  - rewrite zlen_cons in Hle. pose proof (zlen_nonneg keys). unfold set_cache.
    rewrite (proj2 (Z.ltb_lt _ _)) by lia. cbn [obind].
    set (b := is_requested_write view index && _).
    destruct (IH (index + 1) (<[Z.to_nat index := b]> cache)) as (c' & E & Hl & H1 & H2).
    { lia. }
    { unfold zlen in *. rewrite length_insert. lia. }
    rewrite length_insert in Hl. exists c'. split_and!; [done|done| |].
    + intros [|j] k' Hk.
      * injection Hk as <-. rewrite Nat.add_0_r, H2 by lia. rewrite list_lookup_insert_eq
          by (unfold zlen in *; lia). by rewrite Z.add_0_r.
      * specialize (H1 j k' Hk). replace (Z.to_nat index + S j)%nat with (Z.to_nat (index + 1) + j)%nat by lia.
        rewrite H1. do 2 f_equal. f_equal. lia.
    + intros j Hj. cbn [length] in Hj. rewrite H2 by lia.
      by rewrite list_lookup_insert_ne by lia.
Qed.

(** Whether program ids may stay writable, and which accounts are program
    ids. *)
Definition invoked (l : list SVMInstruction) (j : nat) : bool :=
  existsb (fun ix => bool_decide (Z.to_nat (program_id_index ix) = j)) l.

Lemma demote_programs keys : forall l cache present,
  present = None \/ present = Some (is_loader_present keys) ->
  forall j, (foldl (demote_program keys) (cache, present) l).1 !! j
    = (fun b => b && (is_loader_present keys || negb (invoked l j))) <$> cache !! j.
Proof.
  induction l as [|ix l IH]; intros cache present Hp j; cbn [foldl invoked existsb].
  - simpl. rewrite orb_true_r. destruct (cache !! j) as [b|]; simpl; [by rewrite andb_true_r|done].
  - unfold demote_program at 2. set (i := Z.to_nat (program_id_index ix)).
    assert (default (is_loader_present keys) present = is_loader_present keys) as -> by (by destruct Hp as [->| ->]).
    destruct (default false (cache !! i)) eqn:Ei.
    + rewrite IH by (by right). destruct (is_loader_present keys); simpl; [done|].
      destruct (decide (i = j)) as [->|Hne].
      * rewrite bool_decide_true by done. destruct (cache !! j) as [b|] eqn:Ej; [|done].
        rewrite list_lookup_insert_eq by (by eapply lookup_lt_Some). simpl.
        by rewrite andb_false_r.
      * rewrite list_lookup_insert_ne, bool_decide_false by done. done.
    + rewrite IH by done. destruct (decide (i = j)) as [->|Hne].
      * rewrite bool_decide_true by done. destruct (cache !! j) as [[]|] eqn:Ej; [done| |done]. done.
      * by rewrite bool_decide_false by done.
Qed.

End Cache.

(** The accounts whose write lock a transaction requests: the leading signed
    and unsigned static keys, and the writable lookups. *)
Definition requested (t : Transaction) (i : Z) : Prop :=
  let h := t_header t in
  let keys := zlen (t_account_keys t) in
  i < h_num_required_signatures h - h_num_readonly_signed h \/
  h_num_required_signatures h <= i < keys - h_num_readonly_unsigned h \/
  keys <= i < keys + total_writable (t_lookups t).

(** The keys of all accounts, in the order of their indexes. *)
Definition all_keys (t : Transaction) (loaded : option LoadedAddresses) : list (list Z) :=
  t_account_keys t ++
  match loaded with Some l => loaded_writable l ++ loaded_readonly l | None => [] end.

Section SaneView.
Context (bytes : list Z) (Hwf : bytes_wf bytes) (Hu : zlen bytes <= U16_MAX).
Context (t : Transaction) (Hok : transaction_ok t) (Hsane : sane t) (Henc : bytes = encode t).
Local Abbreviation view := (the_view bytes t).

Lemma sane_header :
  0 <= h_num_readonly_signed (t_header t) < h_num_required_signatures (t_header t) /\
  h_num_required_signatures (t_header t) <= zlen (t_account_keys t) <= 38 /\
  0 <= h_num_readonly_unsigned (t_header t) /\
  h_num_readonly_unsigned (t_header t)
  <= zlen (t_account_keys t) - h_num_required_signatures (t_header t) /\
  0 <= total_writable (t_lookups t) /\ 0 <= total_readonly (t_lookups t) /\
  zlen (t_account_keys t) + total_writable (t_lookups t) + total_readonly (t_lookups t) <= 256.
Proof.
  pose proof Hwf as Hb. rewrite Henc in Hb. apply encoded_bytes in Hb as (B1 & B2 & B3 & _).
  destruct Hsane as (S1 & S2 & S3 & S4 & S5 & _). pose proof (account_keys_count t Hok).
  destruct (lookup_totals t Hok) as [Hw Hr]. unfold is_byte, is_u16, total_accounts in *. lia.
Qed.

(** The message is what follows the signatures. *)
Lemma message_data_spec :
  TransactionView.message_data view = Done (drop (Z.to_nat (sig_end t)) bytes).
Proof.
  pose proof (ends_small t Hok) as (He & _). unfold TransactionView.message_data.
  cbn [view_frame view_data the_view]. change (TransactionFrame.message_offset (transaction_frame t))
    with (as_u16 (sig_end t)). rewrite as_uint_small by lia.
  destruct (parts bytes t Henc) as (_ & C & _). apply chunk_at_start in C. unfold header_end in C.
  pose proof (zlen_nonneg (enc_header (t_header t))). by rewrite (proj2 (Z.leb_le _ _)) by lia.
Qed.

(** The counters of a sanitized view do not wrap. *)
Lemma sane_counters :
  SanitizedTransactionView.num_static_unsigned_static_accounts view
  = zlen (t_account_keys t) - h_num_required_signatures (t_header t) /\
  SanitizedTransactionView.num_writable_unsigned_static_accounts view
  = zlen (t_account_keys t) - h_num_required_signatures (t_header t)
    - h_num_readonly_unsigned (t_header t) /\
  SanitizedTransactionView.num_writable_signed_static_accounts view
  = h_num_required_signatures (t_header t) - h_num_readonly_signed (t_header t) /\
  SanitizedTransactionView.total_num_accounts view = total_accounts t /\
  SanitizedTransactionView.num_requested_write_locks view
  = zlen (t_account_keys t) - h_num_readonly_signed (t_header t)
    - h_num_readonly_unsigned (t_header t) + total_writable (t_lookups t).
Proof.
  pose proof sane_header. destruct (view_counts bytes Hu t Hok Henc) as (_ & N2 & N3 & N4).
  unfold SanitizedTransactionView.num_requested_write_locks, SanitizedTransactionView.total_num_accounts,
    SanitizedTransactionView.num_writable_unsigned_static_accounts,
    SanitizedTransactionView.num_static_unsigned_static_accounts,
    SanitizedTransactionView.num_writable_signed_static_accounts. rewrite N2, N3, N4.
  change (TransactionView.num_required_signatures view) with (h_num_required_signatures (t_header t)).
  change (TransactionView.num_readonly_signed_static_accounts view) with (h_num_readonly_signed (t_header t)).
  change (TransactionView.num_readonly_unsigned_static_accounts view)
    with (h_num_readonly_unsigned (t_header t)).
  unfold total_accounts.
  rewrite (wrapping_sub_small U8_MAX (zlen (t_account_keys t)) (h_num_required_signatures _)),
    (wrapping_sub_small U8_MAX (zlen (t_account_keys t)) (h_num_readonly_signed _)),
    (wrapping_add_small U16_MAX (zlen (t_account_keys t))) by lia.
  rewrite !wrapping_sub_small by lia. rewrite !wrapping_add_small by lia. split_and!; lia.
Qed.

Lemma is_requested_write_iff i :
  0 <= i <= U16_MAX ->
  ResolvedTransactionView.is_requested_write view i = true <-> requested t i.
Proof.
  intros Hi. pose proof sane_header. destruct sane_counters as (_ & C2 & C3 & _).
  destruct (view_counts bytes Hu t Hok Henc) as (_ & N2 & N3 & _).
  unfold ResolvedTransactionView.is_requested_write, requested. rewrite N2, N3, C2, C3.
  change (TransactionView.num_required_signatures view) with (h_num_required_signatures (t_header t)).
  rewrite !Z.geb_leb. destruct (Z.leb_spec (zlen (t_account_keys t)) i);
    [|destruct (Z.leb_spec (h_num_required_signatures (t_header t)) i)];
    rewrite ?wrapping_sub_small, Z.ltb_lt by lia; lia.
Qed.

Section WithKeys.
Context {env : AccountKeysEnv} {laws : AccountKeysLaws env}.
Context (loaded : option LoadedAddresses) (reserved : gset (list Z)).
Context (Hloaded : ResolvedTransactionView.check_resolved view loaded = Ok tt).

Lemma all_keys_length : zlen (all_keys t loaded) = total_accounts t.
Proof.
  destruct (view_counts bytes Hu t Hok Henc) as (_ & _ & N3 & N4). pose proof sane_header.
  unfold all_keys, total_accounts, ResolvedTransactionView.check_resolved in *. rewrite N3, N4 in Hloaded.
  rewrite zlen_app. destruct loaded as [l|].
  - rewrite zlen_app. destruct (TransactionView.version view);
      destruct (Z.eqb_spec (zlen (loaded_writable l)) (total_writable (t_lookups t))); try done;
      destruct (Z.eqb_spec (zlen (loaded_readonly l)) (total_readonly (t_lookups t))); try done; lia.
  - rewrite zlen_nil. destruct (TransactionView.version view); [|done].
    destruct (Z.eqb_spec (total_writable (t_lookups t)) 0); [|done].
    destruct (Z.eqb_spec (total_readonly (t_lookups t)) 0); [lia|done].
Qed.

Lemma resolved_cache :
  exists cache,
    ResolvedTransactionView.try_new view loaded reserved
    = Some (Done (Ok (mkResolved view loaded cache))) /\ length cache = 256%nat /\
    (forall j k, all_keys t loaded !! j = Some k ->
       cache !! j = Some (ResolvedTransactionView.is_requested_write view (Z.of_nat j)
         && negb (bool_decide (k ∈ reserved))
         && (ResolvedTransactionView.is_loader_present (all_keys t loaded)
             || negb (invoked (t_instructions t) j)))) /\
    (forall j, (length (all_keys t loaded) <= j)%nat -> default false (cache !! j) = false).
Proof.
  assert (zlen bytes <= ISIZE_MAX) as Hlen by (unfold ISIZE_MAX; lia).
  destruct (frame_shows_message bytes Hlen t Hok Henc) as (_ & A2 & _ & A4 & _ & _ & _ & N).
  unfold ResolvedTransactionView.try_new, ResolvedTransactionView.cache_is_writable.
  rewrite Hloaded. unfold TransactionView.static_account_keys.
  change (view_data view) with bytes. change (view_frame view) with (transaction_frame t).
  rewrite A2, account_keys_order. fold (all_keys t loaded).
  pose proof all_keys_length as Hl. destruct Hsane as (_ & _ & _ & _ & Ht & _).
  destruct (cache_requested_spec view reserved (all_keys t loaded) 0 (replicate 256 false))
    as (c & -> & Hc & C1 & C2). { lia. } { rewrite Hl. unfold zlen. rewrite length_replicate. lia. }
  rewrite (fold_instructions_list _ _ _ _ (t_instructions t)).
  2: { apply A4. unfold TransactionView.num_instructions. change (view_frame view) with (transaction_frame t).
       rewrite N. unfold zlen. lia. }
  pose proof (demote_programs (all_keys t loaded) (t_instructions t) c None (or_introl eq_refl)) as HD.
  set (s := foldl _ _ _) in *. destruct s as [cache p]. cbn [fst] in HD. exists cache.
  split_and!; [done| | |].
  - rewrite length_replicate in Hc.
    assert (forall j, is_Some (cache !! j) <-> is_Some (c !! j)) as HS by (intros j; by rewrite HD, fmap_is_Some).
    apply Nat.le_antisymm.
    + apply Nat.nlt_ge. intros Hlt. assert (is_Some (c !! 256%nat)) as [? Hx%lookup_lt_Some]
        by (by apply HS, lookup_lt_is_Some). lia.
    + destruct (HS 255%nat) as [_ Hs]. assert (is_Some (cache !! 255%nat)) as [? Hx%lookup_lt_Some]
        by (apply Hs, lookup_lt_is_Some; lia). lia.
  - intros j k Hk. rewrite HD. specialize (C1 j k Hk).
    change (Z.to_nat 0 + j)%nat with j in C1. rewrite Z.add_0_l in C1. by rewrite C1.
  - intros j Hj. rewrite HD, C2 by (right; lia). destruct (replicate 256 false !! j) as [b|] eqn:E; [|done].
    apply lookup_replicate in E as [-> _]. done.
Qed.

End WithKeys.
End SaneView.

(** ** A sane transaction and its environment *)

#[export] Instance sample_keys_env : AccountKeysEnv := {
  account_keys static loaded :=
    static ++ match loaded with Some l => loaded_writable l ++ loaded_readonly l | None => [] end;
  bpf_loader_upgradeable_id := replicate 32 255;
}.
#[export] Instance sample_keys_laws : AccountKeysLaws sample_keys_env.
Proof. intros static loaded. reflexivity. Qed.

Definition sample_loaded : LoadedAddresses :=
  mkLoaded [replicate 32 20] [replicate 32 21; replicate 32 22].

Lemma sample_sane : sane sample_transaction.
Proof.
  unfold sane, instruction_sane. split_and!; try (vm_compute; congruence).
  all: repeat constructor; try (vm_compute; congruence).
Qed.

(** ** Claims *)

(** C24: sanitization accepts the sane transactions and refuses the others with
    one error.  On a buffer of at most 65535 bytes [try_new_sanitized] always
    returns; it returns a view exactly when the bytes encode a transaction
    with matching signatures, a writable fee payer, no overlap of signed and
    read-only accounts, at most 256 accounts, and only valid program, account
    and lookup indexes.  An encoded transaction that is not sane gives
    [SanitizeError]; bytes that are no encoding give an error as well. *)
Theorem sanitize_equals_reference bytes :
  bytes_wf bytes -> zlen bytes <= U16_MAX ->
  exists r, SanitizedTransactionView.try_new_sanitized bytes = Some (Done r) /\
    (forall v, r = Ok v <->
       exists t, transaction_ok t /\ sane t /\ bytes = encode t /\
         v = mkView bytes (transaction_frame t)) /\
    (forall t, transaction_ok t -> bytes = encode t -> ~ sane t ->
       r = Err TransactionViewError.SanitizeError) /\
    ((forall t, transaction_ok t -> bytes <> encode t) -> exists e, r = Err e).
Proof.
  intros Hwf Hu. assert (zlen bytes <= ISIZE_MAX) as Hlen by (unfold ISIZE_MAX; lia).
  unfold SanitizedTransactionView.try_new_sanitized, TransactionView.try_new_unsanitized.
  destruct (TransactionFrame.try_new bytes) as [f|e] eqn:E; cbn [qbind].
  - destruct (parse_inv bytes Hwf Hlen f E) as (t & Hok & Henc & ->).
    assert (forall t', transaction_ok t' -> bytes = encode t' ->
      transaction_frame t' = transaction_frame t) as Huniq.
    { intros t' Hok' E'. pose proof (parse_encoded bytes Hwf Hlen t' Hok' E') as P.
      set (x := transaction_frame t') in *. congruence. }
    destruct (sanitize_sane bytes Hwf Hu t Hok Henc) as (r & Hr & Hiff & Herr).
    assert (forall t', transaction_ok t' -> bytes = encode t' -> (r = Ok tt <-> sane t')) as Hiff'.
    { intros t' Hok' E'. destruct (sanitize_sane bytes Hwf Hu t' Hok' E') as (r' & Hr' & Hiff' & _).
      unfold the_view in *. rewrite (Huniq t' Hok' E'), Hr in Hr'. by injection Hr' as <-. }
    unfold the_view in Hr. rewrite Hr. destruct r as [[]|e].
    + eexists. split; [done|]. split_and!.
      * intros v. split; [intros [= <-]; exists t; split_and!; try done; by apply Hiff|].
        intros (t' & Hok' & _ & E' & ->). by rewrite (Huniq t' Hok' E').
      * intros t' Hok' E' Hns. exfalso. by apply Hns, (Hiff' t').
      * intros Hno. by destruct (Hno t Hok).
    + eexists. split; [done|]. split_and!; [| |by eauto].
      * intros v. split; [done|]. intros (t' & Hok' & Hs & E' & _).
        by apply (Hiff' t' Hok' E') in Hs.
      * intros t' _ _ _. by rewrite (Herr e).
  - eexists. split; [done|]. split_and!; [| |by eauto].
    + intros v. split; [done|]. intros (t & Hok & _ & Henc & _).
      by rewrite (parse_encoded bytes Hwf Hlen t Hok Henc) in E.
    + intros t Hok Henc _. by rewrite (parse_encoded bytes Hwf Hlen t Hok Henc) in E.
Qed.

Lemma sanitize_equals_reference_witness :
  exists r, SanitizedTransactionView.try_new_sanitized sample_bytes = Some (Done r) /\
    (forall v, r = Ok v <->
       exists t, transaction_ok t /\ sane t /\ sample_bytes = encode t /\
         v = mkView sample_bytes (transaction_frame t)) /\
    (forall t, transaction_ok t -> sample_bytes = encode t -> ~ sane t ->
       r = Err TransactionViewError.SanitizeError) /\
    ((forall t, transaction_ok t -> sample_bytes <> encode t) -> exists e, r = Err e).
Proof.
  apply (sanitize_equals_reference sample_bytes).
  - exact sample_wf.
  - vm_compute. discriminate.
Defined.

(** C39: the counters of a sanitized view are exact.  On the view of a sane
    transaction no wrapping subtraction or addition wraps: the numbers of
    writable signed and unsigned accounts, of all accounts and of requested
    write locks are the ones of the transaction, the account indexes fit a
    byte, every instruction's program id is found among the static keys, and
    the message data is the encoding after the signatures. *)
Theorem sanitized_counters_are_exact bytes t :
  bytes_wf bytes -> zlen bytes <= U16_MAX -> transaction_ok t -> sane t -> bytes = encode t ->
  let v := mkView bytes (transaction_frame t) in
  let h := t_header t in
  let keys := zlen (t_account_keys t) in
  SanitizedTransactionView.num_writable_signed_static_accounts v
  = h_num_required_signatures h - h_num_readonly_signed h /\
  0 < SanitizedTransactionView.num_writable_signed_static_accounts v /\
  SanitizedTransactionView.num_writable_unsigned_static_accounts v
  = keys - h_num_required_signatures h - h_num_readonly_unsigned h /\
  SanitizedTransactionView.total_num_accounts v = total_accounts t /\ total_accounts t <= 256 /\
  SanitizedTransactionView.num_requested_write_locks v
  = keys - h_num_readonly_signed h - h_num_readonly_unsigned h + total_writable (t_lookups t) /\
  Forall (fun ix => exists k, SanitizedTransactionView.program_id v ix = Done k /\
                      t_account_keys t !! Z.to_nat (program_id_index ix) = Some k)
    (t_instructions t) /\
  TransactionView.message_data v = Done (drop (Z.to_nat (sig_end t)) bytes).
Proof.
  intros Hwf Hu Hok Hs Henc v h keys. assert (zlen bytes <= ISIZE_MAX) as Hlen by (unfold ISIZE_MAX; lia).
  pose proof (sane_header bytes Hwf t Hok Hs Henc) as Hh.
  destruct (sane_counters bytes Hwf Hu t Hok Hs Henc) as (_ & C2 & C3 & C4 & C5).
  unfold the_view in *. fold v in C2, C3, C4, C5. rewrite C2, C3, C4, C5.
  destruct Hs as (_ & _ & _ & _ & Ht & Hi & _). split_and!; try done.
  - lia.
  - rewrite Forall_forall in Hi |- *. intros ix Hix. destruct (Hi ix Hix) as [Hp _].
    destruct (frame_shows_message bytes Hlen t Hok Henc) as (_ & A2 & _).
    unfold SanitizedTransactionView.program_id, TransactionView.static_account_keys, v.
    cbn [view_frame view_data]. rewrite A2. cbn [obind].
    destruct (t_account_keys t !! Z.to_nat (program_id_index ix)) as [k|] eqn:E; [by exists k|].
    apply lookup_ge_None in E. unfold zlen in Hp. lia.
  - by apply message_data_spec.
Qed.

Lemma sanitized_counters_are_exact_witness :
  SanitizedTransactionView.num_requested_write_locks
    (mkView sample_bytes (transaction_frame sample_transaction)) = 2.
Proof.
  destruct (sanitized_counters_are_exact sample_bytes sample_transaction)
    as (_ & _ & _ & _ & _ & H & _).
  - exact sample_wf.
  - vm_compute. discriminate.
  - exact sample_ok.
  - exact sample_sane.
  - reflexivity.
  - etransitivity; [exact H|]. vm_compute. reflexivity.
Defined.

(** C25: an account is writable exactly when it should be.  Resolving the
    lookups of a sane transaction with addresses of the right number never
    panics, and the resulting view answers [is_writable] for every account
    index with: the transaction requested the write, the key is not reserved,
    and the account is not an invoked program unless the upgradeable loader is
    among the accounts.  No other index is writable, and the fee payer is
    writable unless it is reserved. *)
Theorem writable_accounts_are_as_requested {env : AccountKeysEnv} {laws : AccountKeysLaws env}
    bytes t loaded reserved :
  bytes_wf bytes -> zlen bytes <= U16_MAX -> transaction_ok t -> sane t -> bytes = encode t ->
  ResolvedTransactionView.check_resolved (mkView bytes (transaction_frame t)) loaded = Ok tt ->
  exists rv, ResolvedTransactionView.try_new (mkView bytes (transaction_frame t)) loaded reserved
             = Some (Done (Ok rv)) /\
    (forall j k, all_keys t loaded !! j = Some k ->
       ResolvedTransactionView.is_writable rv (Z.of_nat j) = true <->
       requested t (Z.of_nat j) /\ k ∉ reserved /\
       (bpf_loader_upgradeable_id ∈ all_keys t loaded \/
        Forall (fun ix => program_id_index ix <> Z.of_nat j) (t_instructions t))) /\
    (forall j, all_keys t loaded !! j = None ->
       ResolvedTransactionView.is_writable rv (Z.of_nat j) = false) /\
    requested t 0.
Proof.
  intros Hwf Hu Hok Hs Henc Hl.
  destruct (resolved_cache bytes Hwf Hu t Hok Hs Henc loaded reserved Hl) as (c & Hc & Hlen & C1 & C2).
  eexists. split; [exact Hc|]. unfold ResolvedTransactionView.is_writable. cbn [writable_cache].
  pose proof (sane_header bytes Hwf t Hok Hs Henc) as Hh. split_and!.
  - intros j k Hk. rewrite Nat2Z.id, (C1 j k Hk). cbn [default from_option id].
    assert (length (all_keys t loaded) <= 256)%nat as Hle.
    { pose proof (all_keys_length bytes Hwf Hu t Hok Hs Henc loaded Hl). destruct Hs as (_ & _ & _ & _ & Ht & _).
      unfold zlen in *. lia. }
    pose proof (lookup_lt_Some _ _ _ Hk). rewrite !andb_true_iff, negb_true_iff, bool_decide_eq_false.
    rewrite (is_requested_write_iff bytes Hwf Hu t Hok Hs Henc) by lia.
    rewrite orb_true_iff, negb_true_iff. unfold ResolvedTransactionView.is_loader_present, invoked.
    rewrite existsb_exists. setoid_rewrite bool_decide_eq_true. setoid_rewrite <- list_elem_of_In.
    pose proof Hwf as Hb. rewrite Henc in Hb. apply encoded_bytes in Hb as (_ & _ & _ & B4).
    rewrite Forall_forall in B4 |- *. unfold is_byte in B4.
    assert (existsb (fun ix => bool_decide (Z.to_nat (program_id_index ix) = j)) (t_instructions t) = false
      <-> forall ix, ix ∈ t_instructions t -> program_id_index ix <> Z.of_nat j) as ->; [|naive_solver].
    rewrite <- not_true_iff_false, existsb_exists. setoid_rewrite bool_decide_eq_true.
    setoid_rewrite <- list_elem_of_In. split.
    + intros Hn ix Hix Heq. apply Hn. exists ix. split; [done|]. lia.
    + intros Ha (ix & Hix & Heq). specialize (Ha ix Hix). specialize (B4 ix Hix). lia.
  - intros j Hj. rewrite Nat2Z.id. apply C2. by apply lookup_ge_None.
  - left. lia.
Qed.

Lemma writable_accounts_are_as_requested_witness :
  exists rv, ResolvedTransactionView.try_new
      (mkView sample_bytes (transaction_frame sample_transaction)) (Some sample_loaded) ∅
    = Some (Done (Ok rv)) /\
    (forall j k, all_keys sample_transaction (Some sample_loaded) !! j = Some k ->
       ResolvedTransactionView.is_writable rv (Z.of_nat j) = true <->
       requested sample_transaction (Z.of_nat j) /\ k ∉ (∅ : gset (list Z)) /\
       (bpf_loader_upgradeable_id ∈ all_keys sample_transaction (Some sample_loaded) \/
        Forall (fun ix => program_id_index ix <> Z.of_nat j) (t_instructions sample_transaction))) /\
    (forall j, all_keys sample_transaction (Some sample_loaded) !! j = None ->
       ResolvedTransactionView.is_writable rv (Z.of_nat j) = false) /\
    requested sample_transaction 0.
Proof.
  apply (writable_accounts_are_as_requested sample_bytes sample_transaction (Some sample_loaded) ∅).
  - exact sample_wf.
  - vm_compute. discriminate.
  - exact sample_ok.
  - exact sample_sane.
  - reflexivity.
  - vm_compute. reflexivity.
Defined.
