(* ===== verification/ComputeBudget.v ===== *)
(** * The compute budget of a transaction

    The table of builtin programs
    ([gorchain/builtins-default-costs/src/lib.rs]), the scan of a transaction's
    instructions for compute-budget requests
    ([gorchain/compute-budget-instruction/src/]) and the limits it gives
    ([gorchain/compute-budget/src/compute_budget_limits.rs]).

    The scan keeps two caches indexed by the program's position among the
    transaction's keys and a table on the first byte of a key; indexing out of
    range panics.  The reference at the end reads the requests off the list of
    instructions directly, in unbounded arithmetic; the claim is that the scan
    gives the same limits or the same error, on any number of instructions. *)

From stdpp Require Import base numbers list gmap.
From Stdlib Require Import Lia.
From S2P Require Import Prelude Errors Pod TxBytes TxFrame.
Local Open Scope Z_scope.
Local Open Scope rust_scope.

(** ** Errors of a transaction: those of the enumeration that the modelled code
    returns *)
Module TransactionError.
Inductive TransactionError : Type :=
| AccountNotFound
| InvalidAccountForFee
| InsufficientFundsForFee
| InsufficientFundsForRent (account_index : Z)
| InstructionError (index : Z) (e : Errors.InstructionError.InstructionError)
| DuplicateInstruction (index : Z)
| InvalidLoadedAccountsDataSizeLimit
| MaxLoadedAccountsDataSizeExceeded
| UnbalancedTransaction
| BlockhashNotFound
| ProgramAccountNotFound
| InvalidProgramForExecution
| ProgramCacheHitMaxLimit
| AccountInUse
| AccountLoadedTwice
| TooManyAccountLocks
| AlreadyProcessed
| WouldExceedMaxBlockCostLimit
| WouldExceedMaxVoteCostLimit
| WouldExceedMaxAccountCostLimit
| WouldExceedAccountDataBlockLimit
| WouldExceedAccountDataTotalLimit.
End TransactionError.
Export TransactionError (TransactionError).

(** ** Other crates

    Program and feature ids, the length of the default heap, the active
    features and the Borsh decoder of compute-budget instructions ([Unused]
    stands for every variant that is not a request). *)

Inductive ComputeBudgetInstruction : Type :=
| Unused
| RequestHeapFrame (bytes : Z)
| SetComputeUnitLimit (units : Z)
| SetComputeUnitPrice (micro_lamports : Z)
| SetLoadedAccountsDataSizeLimit (bytes : Z).

Class BudgetEnv := {
  stake_id : list Z;
  vote_id : list Z;
  system_id : list Z;
  compute_budget_id : list Z;
  bpf_loader_upgradeable_id : list Z;
  bpf_loader_deprecated_id : list Z;
  bpf_loader_id : list Z;
  loader_v4_id : list Z;
  secp256k1_id : list Z;
  ed25519_id : list Z;
  migrate_stake_program_to_core_bpf_id : list Z;
  HEAP_LENGTH : Z;
  is_active : list Z -> bool;
  try_from_slice_unchecked : list Z -> option ComputeBudgetInstruction;
}.

(** A key is 32 bytes; the decoder reads unsigned 32- and 64-bit integers. *)
Definition pubkey_wf (k : list Z) : Prop := zlen k = 32 /\ bytes_wf k.

Definition request_wf (c : ComputeBudgetInstruction) : Prop :=
  match c with
  | Unused => True
  | RequestHeapFrame b | SetComputeUnitLimit b | SetLoadedAccountsDataSizeLimit b =>
      0 <= b <= U32_MAX
  | SetComputeUnitPrice p => is_u64 p
  end.

Class BudgetLaws (env : BudgetEnv) : Prop := {
  ids_wf : Forall pubkey_wf
    [stake_id; vote_id; system_id; compute_budget_id; bpf_loader_upgradeable_id;
     bpf_loader_deprecated_id; bpf_loader_id; loader_v4_id; secp256k1_id; ed25519_id];
  heap_length : HEAP_LENGTH = 32 * 1024;
  decoded_wf : forall d c, try_from_slice_unchecked d = Some c -> request_wf c;
}.

(** ** Constants of the execution budget *)

Definition MAX_COMPUTE_UNIT_LIMIT : Z := 1400000.
Definition DEFAULT_HEAP_COST : Z := 8.
Definition DEFAULT_INSTRUCTION_COMPUTE_UNIT_LIMIT : Z := 200000.
Definition MAX_BUILTIN_ALLOCATION_COMPUTE_UNIT_LIMIT : Z := 3000.
Definition MAX_HEAP_FRAME_BYTES : Z := 256 * 1024.
Definition MAX_LOADED_ACCOUNTS_DATA_SIZE_BYTES : Z := 64 * 1024 * 1024.
Definition MICRO_LAMPORTS_PER_LAMPORT : Z := 1000000.
Definition FILTER_SIZE : Z := as_u8 (PACKET_DATA_SIZE / PUBKEY_BYTES).

(** [Saturating<u16> += 1]. *)
Definition saturating_inc (n : Z) : Z := saturating_add U16_MAX n 1.

(** [a + b] on a type whose largest value is [max], with overflow checks. *)
Definition plain_add (max a b : Z) : outcome Z :=
  if a + b <=? max then Done (a + b) else Panicked.

(** ** Builtin programs *)
Module Builtins.

Record MigratingBuiltinCost := mkMigrating {
  core_bpf_migration_feature : list Z;
  position : Z;
}.

Inductive BuiltinCost : Type :=
| Migrating (m : MigratingBuiltinCost)
| NotMigrating.

Definition cost_migration_feature (c : BuiltinCost) : option (list Z) :=
  match c with
  | Migrating m => Some (core_bpf_migration_feature m)
  | NotMigrating => None
  end.

Definition cost_position (c : BuiltinCost) : option Z :=
  match c with
  | Migrating m => Some (position m)
  | NotMigrating => None
  end.

Inductive BuiltinMigrationFeatureIndex : Type :=
| NotBuiltin
| BuiltinNoMigrationFeature
| BuiltinWithMigrationFeature (index : Z).

Section Tables.
Context {env : BudgetEnv}.

Definition MIGRATING_BUILTINS_COSTS : list (list Z * BuiltinCost) :=
  [(stake_id, Migrating (mkMigrating migrate_stake_program_to_core_bpf_id 0))].

Definition NON_MIGRATING_BUILTINS_COSTS : list (list Z * BuiltinCost) :=
  [(vote_id, NotMigrating);
   (system_id, NotMigrating);
   (compute_budget_id, NotMigrating);
   (bpf_loader_upgradeable_id, NotMigrating);
   (bpf_loader_deprecated_id, NotMigrating);
   (bpf_loader_id, NotMigrating);
   (loader_v4_id, NotMigrating);
   (secp256k1_id, NotMigrating);
   (ed25519_id, NotMigrating)].

(** Collecting pairs into a map: a later pair replaces an earlier one. *)
Definition BUILTIN_INSTRUCTION_COSTS : gmap (list Z) BuiltinCost :=
  foldl (fun costs '(key, cost) => <[key := cost]> costs) ∅
    (MIGRATING_BUILTINS_COSTS ++ NON_MIGRATING_BUILTINS_COSTS).

(** [key.as_ref()[0] as usize]; a key always has 32 bytes. *)
Definition first_byte (key : list Z) : nat := Z.to_nat (default 0 (head key)).

Definition MAYBE_BUILTIN_KEY : list bool :=
  foldl (fun table key => <[first_byte key := true]> table) (replicate 256 false)
    (map_to_list BUILTIN_INSTRUCTION_COSTS).*1.

(** [MAYBE_BUILTIN_KEY[key.as_ref()[0] as usize]]. *)
Definition maybe_builtin (key : list Z) : outcome bool :=
  match MAYBE_BUILTIN_KEY !! first_byte key with
  | Some b => Done b
  | None => Panicked
  end.

Definition get_builtin_migration_feature_index (program_id : list Z)
    : BuiltinMigrationFeatureIndex :=
  match BUILTIN_INSTRUCTION_COSTS !! program_id with
  | None => NotBuiltin
  | Some cost =>
      match cost_position cost with
      | None => BuiltinNoMigrationFeature
      | Some index => BuiltinWithMigrationFeature index
      end
  end.

(** Both [expect]s panic. *)
Definition get_migration_feature_id (index : Z) : outcome (list Z) :=
  match MIGRATING_BUILTINS_COSTS !! Z.to_nat index with
  | None => Panicked
  | Some (_, cost) =>
      match cost_migration_feature cost with
      | Some feature => Done feature
      | None => Panicked
      end
  end.

End Tables.
End Builtins.
Import Builtins.

(** ** The caches of the scan *)

Module ComputeBudgetProgramIdFilter.
Section Filter.
Context {env : BudgetEnv}.

Record ComputeBudgetProgramIdFilter := mk { flags : list (option bool) }.

Definition new : ComputeBudgetProgramIdFilter := mk (replicate (Z.to_nat FILTER_SIZE) None).

Definition check_program_id (program_id : list Z) : outcome bool :=
  let* maybe := maybe_builtin program_id in
  if negb maybe then Done false
  else Done (bool_decide (program_id = compute_budget_id)).

(** The closure of [get_or_insert_with] only runs for an empty slot. *)
Definition is_compute_budget_program (self : ComputeBudgetProgramIdFilter) (index : Z)
    (program_id : list Z) : outcome (bool * ComputeBudgetProgramIdFilter) :=
  match flags self !! Z.to_nat index with
  | None => Panicked
  | Some (Some b) => Done (b, self)
  | Some None =>
      let* b := check_program_id program_id in
      Done (b, mk (<[Z.to_nat index := Some b]> (flags self)))
  end.

End Filter.
End ComputeBudgetProgramIdFilter.

Module BuiltinProgramsFilter.

Inductive ProgramKind : Type :=
| NotBuiltin
| Builtin
| MigratingBuiltin (core_bpf_migration_feature_index : Z).
#[global] Instance ProgramKind_eq_dec : EqDecision ProgramKind.
Proof. solve_decision. Defined.

Section Filter.
Context {env : BudgetEnv}.

Record BuiltinProgramsFilter := mk { program_kind : list (option ProgramKind) }.

Definition new : BuiltinProgramsFilter := mk (replicate (Z.to_nat FILTER_SIZE) None).

Definition check_program_kind (program_id : list Z) : outcome ProgramKind :=
  let* maybe := maybe_builtin program_id in
  if negb maybe then Done NotBuiltin
  else Done
    match get_builtin_migration_feature_index program_id with
    | Builtins.NotBuiltin => NotBuiltin
    | BuiltinNoMigrationFeature => Builtin
    | BuiltinWithMigrationFeature index => MigratingBuiltin index
    end.

Definition get_program_kind (self : BuiltinProgramsFilter) (index : Z) (program_id : list Z)
    : outcome (ProgramKind * BuiltinProgramsFilter) :=
  match program_kind self !! Z.to_nat index with
  | None => Panicked
  | Some (Some k) => Done (k, self)
  | Some None =>
      let* k := check_program_kind program_id in
      Done (k, mk (<[Z.to_nat index := Some k]> (program_kind self)))
  end.

End Filter.
End BuiltinProgramsFilter.

(** ** Limits *)

Record ComputeBudgetLimits := mkLimits {
  updated_heap_bytes : Z;
  compute_unit_limit : Z;
  compute_unit_price : Z;
  loaded_accounts_bytes : Z;
}.

(** [get_prioritization_fee]: micro-lamports in 128 bits, rounded up to
    lamports, and the largest 64-bit value when that does not fit. *)
Definition get_prioritization_fee (compute_unit_price compute_unit_limit : Z) : Z :=
  let micro_lamport_fee := saturating_mul U128_MAX compute_unit_price compute_unit_limit in
  default U64_MAX
    (checked_div
       (saturating_add U128_MAX micro_lamport_fee
          (saturating_sub MICRO_LAMPORTS_PER_LAMPORT 1))
       MICRO_LAMPORTS_PER_LAMPORT
     ≫= try_into U64_MAX).

(** ** The requests of a transaction *)
Module Details.

Record ComputeBudgetInstructionDetails := mk {
  requested_compute_unit_limit : option (Z * Z);
  requested_compute_unit_price : option (Z * Z);
  requested_heap_size : option (Z * Z);
  requested_loaded_accounts_data_size_limit : option (Z * Z);
  num_non_compute_budget_instructions : Z;
  num_non_migratable_builtin_instructions : Z;
  num_non_builtin_instructions : Z;
  migrating_builtin_feature_counters : list Z;
}.
#[export] Instance eta_Details : Eta ComputeBudgetInstructionDetails := fun d =>
  mk (requested_compute_unit_limit d) (requested_compute_unit_price d) (requested_heap_size d)
    (requested_loaded_accounts_data_size_limit d) (num_non_compute_budget_instructions d)
    (num_non_migratable_builtin_instructions d) (num_non_builtin_instructions d)
    (migrating_builtin_feature_counters d).

Section Details.
Context {env : BudgetEnv}.

Definition default_details : ComputeBudgetInstructionDetails :=
  mk None None None None 0 0 0 (replicate (length MIGRATING_BUILTINS_COSTS) 0).

Definition MIN_HEAP_FRAME_BYTES : Z := HEAP_LENGTH.

Definition process_instruction (self : ComputeBudgetInstructionDetails) (index : Z)
    (instruction : SVMInstruction) : result TransactionError ComputeBudgetInstructionDetails :=
  let invalid_instruction_data_error :=
    TransactionError.InstructionError index InstructionError.InvalidInstructionData in
  let duplicate_instruction_error := TransactionError.DuplicateInstruction index in
  match try_from_slice_unchecked (ix_data instruction) with
  | Some (RequestHeapFrame bytes) =>
      if requested_heap_size self is Some _ then Err duplicate_instruction_error
      else Ok self<|requested_heap_size := Some (index, bytes)|>
  | Some (SetComputeUnitLimit units) =>
      if requested_compute_unit_limit self is Some _ then Err duplicate_instruction_error
      else Ok self<|requested_compute_unit_limit := Some (index, units)|>
  | Some (SetComputeUnitPrice micro_lamports) =>
      if requested_compute_unit_price self is Some _ then Err duplicate_instruction_error
      else Ok self<|requested_compute_unit_price := Some (index, micro_lamports)|>
  | Some (SetLoadedAccountsDataSizeLimit bytes) =>
      if requested_loaded_accounts_data_size_limit self is Some _ then Err duplicate_instruction_error
      else Ok self<|requested_loaded_accounts_data_size_limit := Some (index, bytes)|>
  | Some Unused | None => Err invalid_instruction_data_error
  end.

(** The first loop of [try_from], from the instruction with index [i]. *)
Fixpoint scan_requests (i : Z) (instructions : list (list Z * SVMInstruction))
    (filter : ComputeBudgetProgramIdFilter.ComputeBudgetProgramIdFilter)
    (details : ComputeBudgetInstructionDetails)
    : outcome (result TransactionError ComputeBudgetInstructionDetails) :=
  match instructions with
  | [] => Done (Ok details)
  | (program_id, instruction) :: instructions =>
      let* (is_budget, filter) :=
        ComputeBudgetProgramIdFilter.is_compute_budget_program filter
          (program_id_index instruction) program_id in
      if is_budget : bool then
        match process_instruction details (as_u8 i) instruction with
        | Ok details => scan_requests (i + 1) instructions filter details
        | Err e => Done (Err e)
        end
      else
        scan_requests (i + 1) instructions filter
          details<|num_non_compute_budget_instructions :=
                     saturating_inc (num_non_compute_budget_instructions details)|>
  end.

(** The body of the second loop: one instruction counted by its program. *)
Definition count_program (kind : BuiltinProgramsFilter.ProgramKind)
    (details : ComputeBudgetInstructionDetails) : outcome ComputeBudgetInstructionDetails :=
  match kind with
  | BuiltinProgramsFilter.Builtin =>
      Done details<|num_non_migratable_builtin_instructions :=
                      saturating_inc (num_non_migratable_builtin_instructions details)|>
  | BuiltinProgramsFilter.NotBuiltin =>
      Done details<|num_non_builtin_instructions :=
                      saturating_inc (num_non_builtin_instructions details)|>
  | BuiltinProgramsFilter.MigratingBuiltin index =>
      let counters := migrating_builtin_feature_counters details in
      match counters !! Z.to_nat index with
      | None => Panicked
      | Some n =>
          Done details<|migrating_builtin_feature_counters :=
                          <[Z.to_nat index := saturating_inc n]> counters|>
      end
  end.

(** The second loop of [try_from]. *)
Fixpoint count_builtins (instructions : list (list Z * SVMInstruction))
    (filter : BuiltinProgramsFilter.BuiltinProgramsFilter)
    (details : ComputeBudgetInstructionDetails) : outcome ComputeBudgetInstructionDetails :=
  match instructions with
  | [] => Done details
  | (program_id, instruction) :: instructions =>
      let* (kind, filter) :=
        BuiltinProgramsFilter.get_program_kind filter (program_id_index instruction) program_id in
      let* details := count_program kind details in
      count_builtins instructions filter details
  end.

Definition try_from (instructions : list (list Z * SVMInstruction))
    : outcome (result TransactionError ComputeBudgetInstructionDetails) :=
  let* scanned :=
    scan_requests 0 instructions ComputeBudgetProgramIdFilter.new default_details in
  match scanned with
  | Err e => Done (Err e)
  | Ok details =>
      if requested_compute_unit_limit details is Some _ then Done (Ok details)
      else
        let* details := count_builtins instructions BuiltinProgramsFilter.new details in
        Done (Ok details)
  end.

Definition sanitize_requested_heap_size (bytes : Z) : bool :=
  ((MIN_HEAP_FRAME_BYTES <=? bytes) && (bytes <=? MAX_HEAP_FRAME_BYTES)) && (bytes mod 1024 =? 0).

(** The fold over the counters of migrating builtins, from the counter with
    index [index]. *)
Fixpoint fold_migrating (index : Z) (counters : list Z) (migrated not_migrated : Z)
    : outcome (Z * Z) :=
  match counters with
  | [] => Done (migrated, not_migrated)
  | count :: counters =>
      let* active :=
        (if 0 <? count then
           let* feature := get_migration_feature_id index in Done (is_active feature)
         else Done false) in
      if active : bool then
        let* migrated := plain_add U16_MAX migrated count in
        fold_migrating (index + 1) counters migrated not_migrated
      else
        let* not_migrated := plain_add U16_MAX not_migrated count in
        fold_migrating (index + 1) counters migrated not_migrated
  end.

Definition calculate_default_compute_unit_limit (self : ComputeBudgetInstructionDetails)
    : outcome Z :=
  let* (num_migrated, num_not_migrated) :=
    fold_migrating 0 (migrating_builtin_feature_counters self) 0 0 in
  Done
    (saturating_add U32_MAX
       (saturating_mul U32_MAX
          (saturating_add U32_MAX (num_non_migratable_builtin_instructions self) num_not_migrated)
          MAX_BUILTIN_ALLOCATION_COMPUTE_UNIT_LIMIT)
       (saturating_mul U32_MAX
          (saturating_add U32_MAX (num_non_builtin_instructions self) num_migrated)
          DEFAULT_INSTRUCTION_COMPUTE_UNIT_LIMIT)).

Definition sanitize_and_convert_to_compute_budget_limits (self : ComputeBudgetInstructionDetails)
    : outcome (result TransactionError ComputeBudgetLimits) :=
  match
    match requested_heap_size self with
    | Some (index, requested_heap_size) =>
        if sanitize_requested_heap_size requested_heap_size then Ok requested_heap_size
        else Err (TransactionError.InstructionError index InstructionError.InvalidInstructionData)
    | None => Ok MIN_HEAP_FRAME_BYTES
    end
  with
  | Err e => Done (Err e)
  | Ok heap =>
      let updated_heap_bytes := Z.min heap MAX_HEAP_FRAME_BYTES in
      let* units :=
        match requested_compute_unit_limit self with
        | None => calculate_default_compute_unit_limit self
        | Some (_, units) => Done units
        end in
      let compute_unit_limit := Z.min units MAX_COMPUTE_UNIT_LIMIT in
      let compute_unit_price :=
        match requested_compute_unit_price self with
        | None => 0
        | Some (_, price) => price
        end in
      Done
        (let? loaded :=
           match requested_loaded_accounts_data_size_limit self with
           | Some (_, bytes) =>
               if bytes =? 0 then Err TransactionError.InvalidLoadedAccountsDataSizeLimit
               else Ok bytes
           | None => Ok MAX_LOADED_ACCOUNTS_DATA_SIZE_BYTES
           end in
         Ok (mkLimits updated_heap_bytes compute_unit_limit compute_unit_price
               (Z.min loaded MAX_LOADED_ACCOUNTS_DATA_SIZE_BYTES)))
  end.

(** [process_compute_budget_instructions] *)
Definition process_compute_budget_instructions (instructions : list (list Z * SVMInstruction))
    : outcome (result TransactionError ComputeBudgetLimits) :=
  let* details := try_from instructions in
  match details with
  | Err e => Done (Err e)
  | Ok details => sanitize_and_convert_to_compute_budget_limits details
  end.

End Details.
End Details.
Export Details.

(** ** Reference

    The requests of a transaction in order, each with the index it is reported
    under and what it asks for, if the data decodes to a request. *)

Inductive RequestKind : Type := HeapFrame | UnitLimit | UnitPrice | AccountsSize.
#[export] Instance RequestKind_eq_dec : EqDecision RequestKind.
Proof. solve_decision. Defined.

Definition request_of (c : ComputeBudgetInstruction) : option (RequestKind * Z) :=
  match c with
  | Unused => None
  | RequestHeapFrame b => Some (HeapFrame, b)
  | SetComputeUnitLimit u => Some (UnitLimit, u)
  | SetComputeUnitPrice p => Some (UnitPrice, p)
  | SetLoadedAccountsDataSizeLimit b => Some (AccountsSize, b)
  end.

Abbreviation Request := (Z * option (RequestKind * Z))%type.

Fixpoint request_value (k : RequestKind) (rs : list Request) : option (Z * Z) :=
  match rs with
  | [] => None
  | (i, Some (k', v)) :: rs => if decide (k = k') then Some (i, v) else request_value k rs
  | (_, None) :: rs => request_value k rs
  end.

Definition request_error (earlier : list Request) (r : Request) : option TransactionError :=
  match r with
  | (i, None) =>
      Some (TransactionError.InstructionError i InstructionError.InvalidInstructionData)
  | (i, Some (k, _)) =>
      if request_value k earlier is Some _ then Some (TransactionError.DuplicateInstruction i) else None
  end.

Fixpoint first_error (earlier rs : list Request) : option TransactionError :=
  match rs with
  | [] => None
  | r :: rs =>
      match request_error earlier r with
      | Some e => Some e
      | None => first_error (earlier ++ [r]) rs
      end
  end.

Section Reference.
Context {env : BudgetEnv}.

Fixpoint requests (i : Z) (l : list (list Z * SVMInstruction)) : list Request :=
  match l with
  | [] => []
  | (p, ix) :: l =>
      if decide (p = compute_budget_id)
      then (i mod 256, try_from_slice_unchecked (ix_data ix) ≫= request_of) :: requests (i + 1) l
      else requests (i + 1) l
  end.

(** A program that is builtin and not migrated yet. *)
Definition runs_as_builtin (p : list Z) : bool :=
  match BUILTIN_INSTRUCTION_COSTS !! p with
  | None => false
  | Some NotMigrating => true
  | Some (Migrating m) => negb (is_active (core_bpf_migration_feature m))
  end.

Definition default_units (l : list (list Z * SVMInstruction)) : Z :=
  zsum (fun x => if runs_as_builtin x.1 then 3000 else 200000) l.

Definition heap_ok (b : Z) : Prop := 32768 <= b <= 262144 /\ b mod 1024 = 0.
#[export] Instance heap_ok_dec b : Decision (heap_ok b) := _.

Definition reference_limits (l : list (list Z * SVMInstruction))
    : result TransactionError ComputeBudgetLimits :=
  let rs := requests 0 l in
  match first_error [] rs with
  | Some e => Err e
  | None =>
      let? heap :=
        match request_value HeapFrame rs with
        | None => Ok 32768
        | Some (i, b) =>
            if decide (heap_ok b) then Ok b
            else Err (TransactionError.InstructionError i InstructionError.InvalidInstructionData)
        end in
      let? loaded :=
        match request_value AccountsSize rs with
        | None => Ok 67108864
        | Some (_, b) =>
            if decide (b = 0) then Err TransactionError.InvalidLoadedAccountsDataSizeLimit else Ok b
        end in
      Ok (mkLimits heap
            (Z.min 1400000 (from_option snd (default_units l) (request_value UnitLimit rs)))
            (from_option snd 0 (request_value UnitPrice rs))
            (Z.min 67108864 loaded))
  end.

(** The program of each instruction is the key at the instruction's program
    index, among at most 38 keys: what sanitization of a transaction
    guarantees. *)
Definition programs_of (keys : list (list Z)) (l : list (list Z * SVMInstruction)) : Prop :=
  Forall (fun x => keys !! Z.to_nat (program_id_index x.2) = Some x.1) l.

(** ** The table and the caches *)

Lemma request_value_app k rs rs' :
  request_value k (rs ++ rs') =
    match request_value k rs with Some x => Some x | None => request_value k rs' end.
Proof.
  induction rs as [|[i [[k' v]|]] rs IH]; cbn; [done| |done].
  by destruct (decide (k = k')).
Qed.

Lemma foldl_insert_dom (l : list (list Z * BuiltinCost)) (m : gmap (list Z) BuiltinCost) k :
  k ∈ l.*1 \/ is_Some (m !! k) ->
  is_Some (foldl (fun costs '(key, cost) => <[key := cost]> costs) m l !! k).
Proof.
  revert m. induction l as [|[k' c] l IH]; intros m; cbn.
  - intros [H|H]; [by apply not_elem_of_nil in H|done].
  - intros H. apply IH. destruct H as [H|H].
    + apply elem_of_cons in H as [->|H]; [right|by left]. by rewrite lookup_insert_eq.
    + right. destruct (decide (k = k')) as [->|]; [by rewrite lookup_insert_eq|].
      by rewrite lookup_insert_ne.
Qed.

Lemma foldl_insert_inv (l : list (list Z * BuiltinCost)) (m : gmap (list Z) BuiltinCost) k c :
  foldl (fun costs '(key, cost) => <[key := cost]> costs) m l !! k = Some c ->
  (k, c) ∈ l \/ m !! k = Some c.
Proof.
  revert m. induction l as [|[k' c'] l IH]; intros m; cbn; [by right|].
  intros H. apply IH in H as [H|H]; [left; by right|].
  destruct (decide (k = k')) as [->|Hne].
  - rewrite lookup_insert_eq in H. injection H as ->. left. by left.
  - rewrite lookup_insert_ne in H by done. by right.
Qed.

Lemma budget_is_builtin : is_Some (BUILTIN_INSTRUCTION_COSTS !! compute_budget_id).
Proof. apply foldl_insert_dom. left. cbn. set_solver. Qed.

Lemma migrating_is_stake p m :
  BUILTIN_INSTRUCTION_COSTS !! p = Some (Migrating m) ->
  m = mkMigrating migrate_stake_program_to_core_bpf_id 0.
Proof.
  intros H. apply foldl_insert_inv in H as [H|H]; [|by rewrite lookup_empty in H].
  cbn in H. repeat (apply elem_of_cons in H as [H|H]; [by simplify_eq|]).
  by apply not_elem_of_nil in H.
Qed.

Lemma foldl_table keys (t : list bool) :
  length (foldl (fun table key => <[first_byte key := true]> table) t keys) = length t /\
  forall j, (j < length t)%nat -> t !! j = Some true \/ j ∈ first_byte <$> keys ->
    foldl (fun table key => <[first_byte key := true]> table) t keys !! j = Some true.
Proof.
  revert t. induction keys as [|k keys IH]; intros t; cbn.
  - split; [done|]. intros j _ [H|H]; [done|by apply not_elem_of_nil in H].
  - destruct (IH (<[first_byte k := true]> t)) as [IH1 IH2]. rewrite length_insert in IH1, IH2.
    split; [done|]. intros j Hj H. apply IH2; [done|].
    destruct (decide (j = first_byte k)) as [->|Hne].
    + left. by apply list_lookup_insert_eq.
    + rewrite list_lookup_insert_ne by done. destruct H as [H|H]; [by left|right].
      by apply elem_of_cons in H as [H|H].
Qed.

Lemma first_byte_lt k : pubkey_wf k -> (first_byte k < 256)%nat.
Proof.
  intros [Hl Hb]. destruct k as [|b k]; [done|]. apply Forall_inv in Hb.
  unfold first_byte. cbn. unfold is_byte in Hb. lia.
Qed.

Lemma maybe_builtin_spec k : pubkey_wf k ->
  exists b, maybe_builtin k = Done b /\ (is_Some (BUILTIN_INSTRUCTION_COSTS !! k) -> b = true).
Proof.
  intros Hk. pose proof (first_byte_lt k Hk) as Hb. unfold maybe_builtin, MAYBE_BUILTIN_KEY.
  destruct (foldl_table (map_to_list BUILTIN_INSTRUCTION_COSTS).*1 (replicate 256 false))
    as [H1 H2]. rewrite length_replicate in H1, H2.
  destruct (lookup_lt_is_Some_2 _ (first_byte k) ltac:(rewrite H1; exact Hb)) as [b E].
  rewrite E. exists b. split; [done|]. intros [c Hc].
  assert (Some b = Some true) as [=]; [|done]. rewrite <- E. apply H2; [done|]. right.
  apply list_elem_of_fmap. exists k. split; [done|].
  apply list_elem_of_fmap. exists (k, c). split; [done|]. by apply elem_of_map_to_list.
Qed.

Definition is_budget (p : list Z) : bool := bool_decide (p = compute_budget_id).

Lemma check_program_id_spec p : pubkey_wf p ->
  ComputeBudgetProgramIdFilter.check_program_id p = Done (is_budget p).
Proof.
  intros Hp. destruct (maybe_builtin_spec p Hp) as (b & E & Hb).
  unfold ComputeBudgetProgramIdFilter.check_program_id. rewrite E. cbn.
  destruct b; [done|]. cbn. f_equal. symmetry. apply bool_decide_eq_false. intros ->.
  by discriminate Hb; apply budget_is_builtin.
Qed.

(** The kind of a program, without the table on first bytes. *)
Definition kind_of (p : list Z) : BuiltinProgramsFilter.ProgramKind :=
  match BUILTIN_INSTRUCTION_COSTS !! p with
  | None => BuiltinProgramsFilter.NotBuiltin
  | Some NotMigrating => BuiltinProgramsFilter.Builtin
  | Some (Migrating _) => BuiltinProgramsFilter.MigratingBuiltin 0
  end.

Lemma check_program_kind_spec p : pubkey_wf p ->
  BuiltinProgramsFilter.check_program_kind p = Done (kind_of p).
Proof.
  intros Hp. destruct (maybe_builtin_spec p Hp) as (b & E & Hb).
  unfold BuiltinProgramsFilter.check_program_kind, kind_of, get_builtin_migration_feature_index.
  rewrite E. cbn [obind]. destruct (BUILTIN_INSTRUCTION_COSTS !! p) as [[m|]|] eqn:Ec.
  - rewrite Hb by done. cbn. by rewrite (migrating_is_stake p m Ec).
  - by rewrite Hb.
  - by destruct b.
Qed.

(** A cache over the keys of a transaction: its filled slots hold what [f]
    gives for the key at that position. *)
Definition caches {A} (keys : list (list Z)) (f : list Z -> A) (slots : list (option A)) : Prop :=
  (length keys <= length slots)%nat /\
  forall i k a, keys !! i = Some k -> slots !! i = Some (Some a) -> a = f k.

Lemma caches_new {A} keys (f : list Z -> A) :
  zlen keys <= FILTER_SIZE -> caches keys f (replicate (Z.to_nat FILTER_SIZE) None).
Proof.
  intros Hl. split.
  - rewrite length_replicate. unfold zlen in Hl. lia.
  - intros i k a _ H. by apply lookup_replicate in H as [? _].
Qed.

Lemma caches_fill {A} keys (f : list Z -> A) slots i k :
  caches keys f slots -> keys !! i = Some k -> caches keys f (<[i := Some (f k)]> slots).
Proof.
  intros [Hl Hc] Hk. split; [by rewrite length_insert|]. intros j k' a Hk' Ha.
  destruct (decide (i = j)) as [<-|Hne].
  - rewrite list_lookup_insert_eq in Ha by (apply lookup_lt_Some in Hk; lia). congruence.
  - rewrite list_lookup_insert_ne in Ha by done. by eapply Hc.
Qed.

(** A lookup through the cache of a key of the transaction. *)
Lemma caches_slot {A} keys (f : list Z -> A) slots i k :
  caches keys f slots -> keys !! i = Some k ->
  slots !! i = Some None \/ slots !! i = Some (Some (f k)).
Proof.
  intros [Hl Hc] Hk. destruct (slots !! i) as [[a|]|] eqn:E; [right|by left|].
  - by rewrite (Hc i k a).
  - apply lookup_ge_None in E. apply lookup_lt_Some in Hk. lia.
Qed.

Lemma is_compute_budget_program_spec keys filter i p :
  caches keys is_budget (ComputeBudgetProgramIdFilter.flags filter) ->
  keys !! Z.to_nat i = Some p -> pubkey_wf p ->
  exists filter',
    ComputeBudgetProgramIdFilter.is_compute_budget_program filter i p = Done (is_budget p, filter') /\
    caches keys is_budget (ComputeBudgetProgramIdFilter.flags filter').
Proof.
  intros Hc Hk Hp. unfold ComputeBudgetProgramIdFilter.is_compute_budget_program.
  destruct (caches_slot _ _ _ _ _ Hc Hk) as [->| ->]; [|by exists filter].
  rewrite check_program_id_spec by done. eexists. split; [done|]. by apply caches_fill.
Qed.

Lemma get_program_kind_spec keys filter i p :
  caches keys kind_of (BuiltinProgramsFilter.program_kind filter) ->
  keys !! Z.to_nat i = Some p -> pubkey_wf p ->
  exists filter',
    BuiltinProgramsFilter.get_program_kind filter i p = Done (kind_of p, filter') /\
    caches keys kind_of (BuiltinProgramsFilter.program_kind filter').
Proof.
  intros Hc Hk Hp. unfold BuiltinProgramsFilter.get_program_kind.
  destruct (caches_slot _ _ _ _ _ Hc Hk) as [->| ->]; [|by exists filter].
  rewrite check_program_kind_spec by done. eexists. split; [done|]. by apply caches_fill.
Qed.

(** ** The loops *)

(** The scan has recorded the requests [rs]. *)
Definition records (d : ComputeBudgetInstructionDetails) (rs : list Request) : Prop :=
  requested_heap_size d = request_value HeapFrame rs /\
  requested_compute_unit_limit d = request_value UnitLimit rs /\
  requested_compute_unit_price d = request_value UnitPrice rs /\
  requested_loaded_accounts_data_size_limit d = request_value AccountsSize rs.

(** The second loop has not started. *)
Definition uncounted (d : ComputeBudgetInstructionDetails) : Prop :=
  num_non_migratable_builtin_instructions d = 0 /\ num_non_builtin_instructions d = 0 /\
  migrating_builtin_feature_counters d = [0].

Lemma process_instruction_spec d rs i ix :
  records d rs -> uncounted d ->
  let r := (i, try_from_slice_unchecked (ix_data ix) ≫= request_of) in
  match request_error rs r with
  | Some e => process_instruction d i ix = Err e
  | None => exists d', process_instruction d i ix = Ok d' /\ records d' (rs ++ [r]) /\ uncounted d'
  end.
Proof.
  intros (H1 & H2 & H3 & H4) (C1 & C2 & C3). unfold process_instruction.
  destruct (try_from_slice_unchecked (ix_data ix)) as [[]|]; cbn; try done;
    rewrite ?H1, ?H2, ?H3, ?H4.
  all: match goal with |- context [request_value ?k ?l] => destruct (request_value k l) eqn:E end; [done|].
  all: destruct d; cbn in *; eexists; split; [done|]; split; [|done].
  all: unfold records; cbn; rewrite !request_value_app; cbn; subst; rewrite ?E;
       split_and!; try done; repeat case_match; simplify_eq; done.
Qed.

(** Number of instructions of a kind, and a saturating 16-bit counter of it. *)
Definition kind_count (k : BuiltinProgramsFilter.ProgramKind) (l : list (list Z * SVMInstruction))
    : Z :=
  zsum (fun x => if decide (kind_of x.1 = k) then 1 else 0) l.

Definition counted (d : ComputeBudgetInstructionDetails) (a b c : Z) : Prop :=
  num_non_migratable_builtin_instructions d = Z.min U16_MAX a /\
  num_non_builtin_instructions d = Z.min U16_MAX b /\
  migrating_builtin_feature_counters d = [Z.min U16_MAX c].

Lemma saturating_inc_min n : saturating_inc (Z.min U16_MAX n) = Z.min U16_MAX (n + 1).
Proof. unfold saturating_inc, saturating_add. lia. Qed.

Definition one_if (p : list Z) (k : BuiltinProgramsFilter.ProgramKind) : Z :=
  if decide (kind_of p = k) then 1 else 0.

Lemma count_program_spec p d rs a b c :
  records d rs -> counted d a b c ->
  exists d', count_program (kind_of p) d = Done d' /\ records d' rs /\
    counted d' (a + one_if p BuiltinProgramsFilter.Builtin)
      (b + one_if p BuiltinProgramsFilter.NotBuiltin)
      (c + one_if p (BuiltinProgramsFilter.MigratingBuiltin 0)).
Proof.
  intros Hr (N1 & N2 & N3). unfold count_program, one_if, kind_of.
  destruct (BUILTIN_INSTRUCTION_COSTS !! p) as [[]|]; repeat case_decide; try done;
    rewrite ?N1, ?N2, ?N3, ?Z.add_0_r; (eexists; split; [reflexivity|]).
  all: destruct d; cbn in *; subst; split; [exact Hr|].
  all: unfold counted; cbn; by rewrite saturating_inc_min.
Qed.

Section Scan.
Variables (keys : list (list Z)).
Hypothesis keys_wf : Forall pubkey_wf keys.

Lemma scan_requests_spec l i filter d rs :
  programs_of keys l -> caches keys is_budget (ComputeBudgetProgramIdFilter.flags filter) ->
  records d rs -> uncounted d ->
  match first_error rs (requests i l) with
  | Some e => scan_requests i l filter d = Done (Err e)
  | None => exists d', scan_requests i l filter d = Done (Ok d') /\
      records d' (rs ++ requests i l) /\ uncounted d'
  end.
Proof.
  revert i filter d rs. induction l as [|[p ix] l IH]; intros i filter d rs Hl Hc Hr Hu;
    cbn [scan_requests requests].
  { cbn. exists d. by rewrite app_nil_r. }
  apply Forall_cons in Hl as [Hp Hl]. cbn in Hp.
  destruct (is_compute_budget_program_spec keys filter _ p Hc Hp) as (filter' & -> & Hc').
  { by eapply Forall_lookup_1. }
  cbn [obind]. unfold is_budget. destruct (decide (p = compute_budget_id)) as [->|Hne].
  - rewrite bool_decide_true by done. cbn [first_error].
    pose proof (process_instruction_spec d rs (i mod 256) ix Hr Hu) as H. cbn zeta in H.
    unfold as_uint. change (U8_MAX + 1) with 256.
    destruct (request_error rs _) as [e|]; [by rewrite H|].
    destruct H as (d' & -> & Hr' & Hu'). specialize (IH (i + 1) filter' d' _ Hl Hc' Hr' Hu').
    destruct (first_error _ _); [done|]. destruct IH as (d'' & IH & Hr'' & Hu'').
    exists d''. by rewrite <- app_assoc in Hr''.
  - rewrite bool_decide_false by done. by apply IH.
Qed.

Lemma count_builtins_spec l filter d rs a b c :
  programs_of keys l -> caches keys kind_of (BuiltinProgramsFilter.program_kind filter) ->
  records d rs -> counted d a b c ->
  exists d', count_builtins l filter d = Done d' /\ records d' rs /\
    counted d' (a + kind_count BuiltinProgramsFilter.Builtin l)
      (b + kind_count BuiltinProgramsFilter.NotBuiltin l)
      (c + kind_count (BuiltinProgramsFilter.MigratingBuiltin 0) l).
Proof.
  revert filter d a b c. induction l as [|[p ix] l IH]; intros filter d a b c Hl Hc Hr Hn.
  { exists d. split_and!; try done. unfold kind_count. cbn. by rewrite !Z.add_0_r. }
  apply Forall_cons in Hl as [Hp Hl]. cbn in Hp. cbn [count_builtins].
  destruct (get_program_kind_spec keys filter _ p Hc Hp) as (filter' & -> & Hc').
  { by eapply Forall_lookup_1. }
  destruct (count_program_spec p d rs a b c Hr Hn) as (d' & E & Hr' & Hn').
  cbn [obind]. rewrite E. cbn [obind].
  destruct (IH filter' d' _ _ _ Hl Hc' Hr' Hn') as (d'' & E' & Hr'' & Hn'').
  exists d''. unfold kind_count in *. rewrite !zsum_cons, !Z.add_assoc. by split_and!.
Qed.
End Scan.

Lemma kind_count_nonneg k l : 0 <= kind_count k l.
Proof. apply zsum_nonneg. apply Forall_true. intros x. by destruct (decide _). Qed.

Lemma default_units_counts l :
  default_units l =
    3000 * kind_count BuiltinProgramsFilter.Builtin l +
    200000 * kind_count BuiltinProgramsFilter.NotBuiltin l +
    (if is_active migrate_stake_program_to_core_bpf_id then 200000 else 3000) *
      kind_count (BuiltinProgramsFilter.MigratingBuiltin 0) l.
Proof.
  unfold default_units, kind_count. induction l as [|[p ix] l IH]; [cbn; lia|].
  rewrite !zsum_cons, IH. cbn [fst]. unfold runs_as_builtin, kind_of.
  destruct (BUILTIN_INSTRUCTION_COSTS !! p) as [[m|]|] eqn:E; repeat case_decide; try done; try lia.
  rewrite (migrating_is_stake p m E). cbn. destruct (is_active _); cbn; lia.
Qed.

(** The default limit of the code is the reference's, once capped. *)
Lemma default_limit_spec d l :
  counted d (kind_count BuiltinProgramsFilter.Builtin l)
    (kind_count BuiltinProgramsFilter.NotBuiltin l)
    (kind_count (BuiltinProgramsFilter.MigratingBuiltin 0) l) ->
  exists u, calculate_default_compute_unit_limit d = Done u /\
    Z.min u MAX_COMPUTE_UNIT_LIMIT = Z.min 1400000 (default_units l).
Proof.
  intros (E1 & E2 & E3). rewrite default_units_counts.
  pose proof (kind_count_nonneg BuiltinProgramsFilter.Builtin l) as P1.
  pose proof (kind_count_nonneg BuiltinProgramsFilter.NotBuiltin l) as P2.
  pose proof (kind_count_nonneg (BuiltinProgramsFilter.MigratingBuiltin 0) l) as P3.
  unfold calculate_default_compute_unit_limit. rewrite E1, E2, E3.
  clear E1 E2 E3. revert P1 P2 P3.
  generalize (kind_count BuiltinProgramsFilter.Builtin l) as a,
    (kind_count BuiltinProgramsFilter.NotBuiltin l) as b,
    (kind_count (BuiltinProgramsFilter.MigratingBuiltin 0) l) as c.
  intros a b c P1 P2 P3.
  cbn. unfold plain_add, saturating_add, saturating_mul, MAX_COMPUTE_UNIT_LIMIT,
    MAX_BUILTIN_ALLOCATION_COMPUTE_UNIT_LIMIT, DEFAULT_INSTRUCTION_COMPUTE_UNIT_LIMIT.
  change (get_migration_feature_id 0) with (Done migrate_stake_program_to_core_bpf_id).
  rewrite !Z.add_0_l. replace (Z.min U16_MAX c <=? U16_MAX) with true
    by (symmetry; apply Z.leb_le; lia).
  destruct (Z.ltb_spec 0 (Z.min U16_MAX c)); cbn; destruct (is_active _); cbn;
    (eexists; split; [reflexivity|lia]).
Qed.

Section Limits.
Context {laws : BudgetLaws env}.

Lemma limits_spec d l :
  records d (requests 0 l) -> first_error [] (requests 0 l) = None ->
  (request_value UnitLimit (requests 0 l) = None ->
   exists u, calculate_default_compute_unit_limit d = Done u /\
     Z.min u MAX_COMPUTE_UNIT_LIMIT = Z.min 1400000 (default_units l)) ->
  sanitize_and_convert_to_compute_budget_limits d = Done (reference_limits l).
Proof.
  intros (R1 & R2 & R3 & R4) He Hu.
  unfold sanitize_and_convert_to_compute_budget_limits, reference_limits.
  rewrite R1, R2, R3, R4, He.
  assert (MIN_HEAP_FRAME_BYTES = 32768) as Hm by apply heap_length.
  assert (forall b, sanitize_requested_heap_size b = bool_decide (heap_ok b)) as Hh.
  { intros b. unfold sanitize_requested_heap_size, heap_ok, MAX_HEAP_FRAME_BYTES. rewrite Hm.
    apply eq_true_iff_eq. rewrite bool_decide_eq_true, !andb_true_iff, !Z.leb_le, Z.eqb_eq. lia. }
  assert (exists u, match request_value UnitLimit (requests 0 l) with
      | None => calculate_default_compute_unit_limit d
      | Some (_, units) => Done units end = Done u /\
      Z.min u MAX_COMPUTE_UNIT_LIMIT =
        Z.min 1400000 (from_option snd (default_units l) (request_value UnitLimit (requests 0 l))))
    as (u & -> & Hmin).
  { destruct (request_value UnitLimit _) as [[i u]|]; [|by apply Hu].
    exists u. split; [done|]. cbn. unfold MAX_COMPUTE_UNIT_LIMIT. lia. }
  cbn [obind]. rewrite Hmin, Hm. unfold MAX_LOADED_ACCOUNTS_DATA_SIZE_BYTES, MAX_HEAP_FRAME_BYTES.
  assert (match request_value UnitPrice (requests 0 l) with None => 0 | Some (_, price) => price end =
    from_option snd 0 (request_value UnitPrice (requests 0 l))) as ->
    by (by destruct (request_value UnitPrice _) as [[]|]).
  destruct (request_value HeapFrame (requests 0 l)) as [[i b]|]; cbn [qbind].
  - rewrite Hh. destruct (decide (heap_ok b)) as [Hb|Hb];
      [rewrite bool_decide_true by done|by rewrite bool_decide_false].
    cbn [qbind]. rewrite (Z.min_l b) by (unfold heap_ok in Hb; lia).
    destruct (request_value AccountsSize _) as [[j c]|]; cbn [qbind]; [|done].
    destruct (Z.eqb_spec c 0), (decide (c = 0)); try done. cbn [qbind]. by rewrite (Z.min_comm c).
  - destruct (request_value AccountsSize _) as [[j c]|]; cbn [qbind]; [|done].
    destruct (Z.eqb_spec c 0), (decide (c = 0)); try done. cbn [qbind]. by rewrite (Z.min_comm c).
Qed.

Lemma process_spec keys l :
  zlen keys <= FILTER_SIZE -> Forall pubkey_wf keys -> programs_of keys l ->
  process_compute_budget_instructions l = Done (reference_limits l).
Proof.
  intros Hn Hk Hl. unfold process_compute_budget_instructions, try_from.
  pose proof (scan_requests_spec keys Hk l 0 ComputeBudgetProgramIdFilter.new default_details []
    Hl (caches_new keys _ Hn) ltac:(done) ltac:(done)) as H.
  destruct (first_error [] (requests 0 l)) as [e|] eqn:He.
  { rewrite H. cbn [obind]. unfold reference_limits. by rewrite He. }
  destruct H as (d & -> & Hr & Hu). cbn [obind]. rewrite app_nil_l in Hr.
  pose proof Hr as (_ & R2 & _).
  destruct (requested_compute_unit_limit d) as [[i u]|] eqn:Eu; cbn [obind].
  - apply limits_spec; [done|done|]. by rewrite <- R2.
  - destruct (count_builtins_spec keys Hk l BuiltinProgramsFilter.new d (requests 0 l) 0 0 0 Hl
      (caches_new keys _ Hn) Hr Hu) as (d' & -> & Hr' & Hc). cbn [obind].
    apply limits_spec; [done|done|]. intros _. by apply default_limit_spec.
Qed.

(** The value of a request that decoded. *)
Lemma request_value_wf k i l j v : request_value k (requests i l) = Some (j, v) ->
  0 <= v <= U64_MAX /\ (k <> UnitPrice -> v <= U32_MAX).
Proof.
  revert i. induction l as [|[p ix] l IH]; intros i; cbn [requests request_value]; [done|].
  destruct (decide _); [|apply IH]. cbn [request_value].
  destruct (try_from_slice_unchecked (ix_data ix)) as [c|] eqn:E; cbn; [|apply IH].
  apply decoded_wf in E. destruct c; cbn in E |- *; unfold is_u64 in *; try apply IH.
  all: case_decide; [intros [= _ <-]; subst; split; [lia|done || lia]|apply IH].
Qed.

Lemma reference_limits_range l lim : reference_limits l = Ok lim ->
  heap_ok (updated_heap_bytes lim) /\ 0 <= compute_unit_limit lim <= 1400000 /\
  is_u64 (compute_unit_price lim) /\ 1 <= loaded_accounts_bytes lim <= 67108864.
Proof.
  unfold reference_limits. destruct (first_error _ _); [done|]. intros H. inv_ok. cbn.
  assert (0 <= default_units l) as Hd.
  { apply zsum_nonneg, Forall_true. intros x. by destruct (runs_as_builtin _). }
  split_and!.
  - destruct (request_value HeapFrame _) as [[i b]|]; [case_decide; congruence|].
    injection Hr as <-. by split.
  - destruct (request_value UnitLimit _) as [[i u]|] eqn:E; cbn; [|lia].
    apply request_value_wf in E as [E _]. lia.
  - lia.
  - destruct (request_value UnitPrice _) as [[i u]|] eqn:E; cbn; [|done].
    by apply request_value_wf in E as [E _].
  - destruct (request_value AccountsSize _) as [[i b]|] eqn:E; [|injection Hr0 as <-; lia].
    apply request_value_wf in E as [E _]. case_decide; [done|]. injection Hr0 as <-. lia.
  - lia.
Qed.

End Limits.
End Reference.

(** ** A concrete environment

    Keys of 32 equal bytes, and the decoder of the tagged little-endian
    requests. *)

Definition test_id (b : Z) : list Z := replicate 32 b.

Definition test_decode (d : list Z) : option ComputeBudgetInstruction :=
  let u32 l := as_uint U32_MAX (from_le_bytes l) in
  match d with
  | [1; a; b; c; d] => Some (RequestHeapFrame (u32 [a; b; c; d]))
  | [2; a; b; c; d] => Some (SetComputeUnitLimit (u32 [a; b; c; d]))
  | [3; a; b; c; d; e; f; g; h] =>
      Some (SetComputeUnitPrice (as_uint U64_MAX (from_le_bytes [a; b; c; d; e; f; g; h])))
  | [4; a; b; c; d] => Some (SetLoadedAccountsDataSizeLimit (u32 [a; b; c; d]))
  | _ => None
  end.

Definition test_budget : BudgetEnv :=
  {| stake_id := test_id 6; vote_id := test_id 7; system_id := test_id 0;
     compute_budget_id := test_id 3; bpf_loader_upgradeable_id := test_id 2;
     bpf_loader_deprecated_id := test_id 1; bpf_loader_id := test_id 4;
     loader_v4_id := test_id 5; secp256k1_id := test_id 8; ed25519_id := test_id 9;
     migrate_stake_program_to_core_bpf_id := test_id 11; HEAP_LENGTH := 32768;
     is_active := fun _ => true; try_from_slice_unchecked := test_decode |}.

Lemma as_uint_range max z : 0 <= max -> 0 <= as_uint max z <= max.
Proof. intros H. unfold as_uint. pose proof (Z.mod_pos_bound z (max + 1)). lia. Qed.

Lemma test_budget_laws : BudgetLaws test_budget.
Proof.
  split; [|done|].
  - repeat constructor; cbn; unfold is_byte; lia.
  - intros d c. cbn. unfold test_decode. intros H. repeat case_match; simplify_eq;
      apply as_uint_range; lia.
Qed.

(** A transaction that asks for 300000 units at 2 lamports per thousand units
    and calls a program, a staking program and the system program. *)
Definition test_keys : list (list Z) :=
  [test_id 90; test_id 91; test_id 3; test_id 40; test_id 6; test_id 0].
Definition test_instructions (budget : list (list Z)) : list (list Z * SVMInstruction) :=
  ((fun d => (test_id 3, mkSVMInstruction 2 [] d)) <$> budget) ++
  [(test_id 40, mkSVMInstruction 3 [0; 1] [7]);
   (test_id 6, mkSVMInstruction 4 [1] []);
   (test_id 0, mkSVMInstruction 5 [0; 1] [2])].

(** ** Claims *)

(** C36: the scan for compute-budget requests gives the limits of the reference.
    For a transaction of any number of instructions whose program indexes
    point among at most 38 keys, the scan never panics; it fails with the first
    request that does not decode or repeats an earlier one, reported under its
    index modulo 256, then with a heap size that is not a multiple of 1024
    between 32 and 256 KiB, then with an empty account-data limit; otherwise the
    limits are the requested ones, capped, and a transaction that requests no
    units gets 3000 for each instruction of a builtin program and 200000 for
    each other one, capped at 1400000, whatever its counters saturate at. *)
Theorem compute_budget_equals_reference {env : BudgetEnv} {laws : BudgetLaws env} keys l :
  zlen keys <= 38 -> Forall pubkey_wf keys -> programs_of keys l ->
  process_compute_budget_instructions l = Done (reference_limits l) /\
  forall lim, reference_limits l = Ok lim ->
    heap_ok (updated_heap_bytes lim) /\ 0 <= compute_unit_limit lim <= 1400000 /\
    is_u64 (compute_unit_price lim) /\ 1 <= loaded_accounts_bytes lim <= 67108864.
Proof.
  intros Hn Hk Hl. split; [by eapply process_spec|]. intros lim. apply reference_limits_range.
Qed.

Lemma compute_budget_equals_reference_witness :
  let _ := test_budget in
  process_compute_budget_instructions
    (test_instructions [[2; 224; 147; 4; 0]; [3; 208; 7; 0; 0; 0; 0; 0; 0]])
  = Done (Ok (mkLimits 32768 300000 2000 67108864)) /\
  process_compute_budget_instructions (test_instructions [])
  = Done (Ok (mkLimits 32768 403000 0 67108864)).
Proof.
  split.
  - refine (eq_trans (proj1 (@compute_budget_equals_reference test_budget test_budget_laws test_keys
      _ _ _ _)) _); [vm_compute; discriminate| | |vm_compute; reflexivity].
    + repeat constructor; cbn; unfold is_byte; lia.
    + repeat constructor.
  - vm_compute. reflexivity.
Defined.
