(* ===== verification/Fees.v ===== *)
(** * Transaction fees: from the wire to the leader's account

    The fee of a message ([gorchain/fee/src/lib.rs],
    [gorchain/svm-transaction/src/svm_message.rs],
    [gorchain/runtime/src/bank/check_transactions.rs]), the rent state of an
    account ([gorchain/svm/src/rent_calculator.rs]), the charge of the fee payer
    ([gorchain/svm/src/account_loader.rs]) and the distribution of the collected
    fees at the end of a block ([gorchain/runtime/src/bank.rs],
    [gorchain/runtime/src/bank/fee_distribution.rs]).

    Keys are byte strings, as in the transaction view.  Counters that only feed
    metrics and log messages are left out. *)

From stdpp Require Import base numbers list gmap.
From Stdlib Require Import Lia.
From S2P Require Import Prelude Errors Pod TxBytes TxFrame TxFormat TxView ComputeBudget.
Local Open Scope Z_scope.
Local Open Scope rust_scope.

(** ** Accounts and other crates *)

Record AccountSharedData := mkShared {
  lamports : Z;
  data : list Z;
  owner : list Z;
  executable : bool;
  rent_epoch : Z;
}.
#[export] Instance eta_AccountSharedData : Eta AccountSharedData := fun a =>
  mkShared (lamports a) (data a) (owner a) (executable a) (rent_epoch a).

(** [Pubkey::default()] and [AccountSharedData::default()]. *)
Definition pubkey_default : list Z := replicate 32 0.
Definition account_default : AccountSharedData := mkShared 0 [] pubkey_default false 0.

Inductive SystemAccountKind : Type := System | Nonce.

(** [FeeDetails] of the fee-structure crate, with its two parts. *)
Record FeeDetails := mkFeeDetails {
  transaction_fee : Z;
  prioritization_fee : Z;
}.
Definition fee_details_default : FeeDetails := mkFeeDetails 0 0.

Class FeeEnv := {
  fee_budget :: BudgetEnv;
  secp256r1_id : list Z;
  incinerator_id : list Z;
  DEFAULT_BURN_PERCENT : Z;
  total_fee : FeeDetails -> Z;
  accumulate_details : FeeDetails -> FeeDetails -> FeeDetails;
  minimum_balance : Z -> Z;
  is_exempt : Z -> Z -> bool;
  get_system_account_kind : AccountSharedData -> option SystemAccountKind;
  nonce_state_size : Z;
}.

(** What the fee-structure, fee-calculator, rent and system-interface crates
    document: fees add up with saturation, at most the whole fee is burned, an
    account is exempt from rent when it holds the minimum balance of its size,
    and the system program is the default key. *)
Class FeeLaws (env : FeeEnv) : Prop := {
  fee_budget_laws :: BudgetLaws fee_budget;
  total_fee_spec d : total_fee d = saturating_add U64_MAX (transaction_fee d) (prioritization_fee d);
  accumulate_details_spec d d' : accumulate_details d d' =
    mkFeeDetails (saturating_add U64_MAX (transaction_fee d) (transaction_fee d'))
      (saturating_add U64_MAX (prioritization_fee d) (prioritization_fee d'));
  burn_percent_range : 0 <= DEFAULT_BURN_PERCENT <= 100;
  is_exempt_spec l n : is_exempt l n = (minimum_balance n <=? l);
  minimum_balance_range n : is_u64 (minimum_balance n);
  system_id_default : system_id = pubkey_default;
}.

(** ** Messages

    What the validator reads of a transaction through the [SVMMessage] trait. *)
Record SVMMessage := mkMessage {
  num_transaction_signatures : Z;
  program_instructions : list (list Z * SVMInstruction);
  account_keys : list (list Z);
  num_lookup_tables : Z;
  message_is_writable : Z -> bool;
  message_is_signer : Z -> bool;
  message_recent_blockhash : list Z;
  num_static_account_keys : Z;
}.

Module Message.

(** [default_precompile_signature_count]: the first byte of the data of every
    instruction of the precompile, added in 64 bits. *)
Fixpoint default_precompile_signature_count (precompile : list Z)
    (instructions : list (list Z * SVMInstruction)) (sum : Z) : outcome Z :=
  match instructions with
  | [] => Done sum
  | (program_id, ix) :: instructions =>
      if bool_decide (program_id = precompile) then
        let* sum := plain_add U64_MAX sum (default 0 (head (ix_data ix))) in
        default_precompile_signature_count precompile instructions sum
      else default_precompile_signature_count precompile instructions sum
  end.

Section Signatures.
Context {env : FeeEnv}.

Definition num_ed25519_signatures (m : SVMMessage) : outcome Z :=
  default_precompile_signature_count ed25519_id (program_instructions m) 0.
Definition num_secp256k1_signatures (m : SVMMessage) : outcome Z :=
  default_precompile_signature_count secp256k1_id (program_instructions m) 0.
Definition num_secp256r1_signatures (m : SVMMessage) : outcome Z :=
  default_precompile_signature_count secp256r1_id (program_instructions m) 0.

End Signatures.

(** [static_account_keys()[0]], which exists in every sanitized message. *)
Definition fee_payer (m : SVMMessage) : list Z := default pubkey_default (head (account_keys m)).

Definition is_invoked (m : SVMMessage) (key_index : Z) : bool :=
  if key_index <=? U8_MAX then
    existsb (fun x => program_id_index x.2 =? key_index) (program_instructions m)
  else false.

Definition is_instruction_account (m : SVMMessage) (key_index : Z) : bool :=
  if key_index <=? U8_MAX then
    existsb (fun x => existsb (Z.eqb key_index) (ix_account_indexes x.2)) (program_instructions m)
  else false.

(** ** The message of a resolved transaction view *)

(** [program_instructions_iter]: every instruction with the key at its program
    index. *)
Fixpoint attach_programs (view : TransactionView) (l : list SVMInstruction)
    : outcome (list (list Z * SVMInstruction)) :=
  match l with
  | [] => Done []
  | ix :: l =>
      let* p := SanitizedTransactionView.program_id view ix in
      let* rest := attach_programs view l in
      Done ((p, ix) :: rest)
  end.

Definition program_instructions_iter (view : TransactionView)
    : option (outcome (list (list Z * SVMInstruction))) :=
  match
    InstructionsIterator.collect (S (Z.to_nat (TransactionView.num_instructions view)))
      (view_data view) (TransactionView.instructions_iter view)
  with
  | None => None
  | Some l => Some (let* l := l in attach_programs view l)
  end.

Definition message_of {keys : AccountKeysEnv} (self : ResolvedTransactionView)
    : option (outcome SVMMessage) :=
  match program_instructions_iter (rv_view self) with
  | None => None
  | Some instructions =>
      Some (
        let* instructions := instructions in
        let* static := TransactionView.static_account_keys (rv_view self) in
        let* hash := TransactionView.recent_blockhash (rv_view self) in
        Done (mkMessage (TransactionView.num_required_signatures (rv_view self)) instructions
                (TxView.account_keys static (resolved_addresses self))
                (TransactionView.num_address_table_lookups (rv_view self))
                (ResolvedTransactionView.is_writable self)
                (ResolvedTransactionView.is_signer self) hash (zlen static)))
  end.

End Message.

(** ** The fee of a message *)
Module Fee.

Record SignatureCounts := mkCounts {
  transaction_signatures : Z;
  ed25519_signatures : Z;
  secp256k1_signatures : Z;
  secp256r1_signatures : Z;
}.

Definition calculate_signature_fee (counts : SignatureCounts) (lamports_per_signature : Z)
    (enable_secp256r1_precompile : bool) : Z :=
  let signature_count :=
    saturating_add U64_MAX
      (saturating_add U64_MAX
         (saturating_add U64_MAX (transaction_signatures counts) (ed25519_signatures counts))
         (secp256k1_signatures counts))
      (wrapping_mul U64_MAX (if enable_secp256r1_precompile then 1 else 0)
         (secp256r1_signatures counts)) in
  saturating_mul U64_MAX signature_count lamports_per_signature.

Section Fee.
Context {env : FeeEnv}.

(** [SignatureCounts::from]. *)
Definition signature_counts (m : SVMMessage) : outcome SignatureCounts :=
  let* ed25519 := Message.num_ed25519_signatures m in
  let* secp256k1 := Message.num_secp256k1_signatures m in
  let* secp256r1 := Message.num_secp256r1_signatures m in
  Done (mkCounts (num_transaction_signatures m) ed25519 secp256k1 secp256r1).

Definition calculate_fee_details (m : SVMMessage) (zero_fees_for_test : bool)
    (lamports_per_signature prioritization_fee : Z) (enable_secp256r1_precompile : bool)
    : outcome FeeDetails :=
  if zero_fees_for_test then Done fee_details_default
  else
    let* counts := signature_counts m in
    Done (mkFeeDetails
            (calculate_signature_fee counts lamports_per_signature enable_secp256r1_precompile)
            prioritization_fee).

Definition calculate_fee (m : SVMMessage) (zero_fees_for_test : bool)
    (lamports_per_signature prioritization_fee : Z) (enable_secp256r1_precompile : bool)
    : outcome Z :=
  let* details := calculate_fee_details m zero_fees_for_test lamports_per_signature
                    prioritization_fee enable_secp256r1_precompile in
  Done (total_fee details).

(** The limits and fee of one transaction, as [check_age_and_compute_budget_limits]
    computes them from the details recorded when the transaction was built. *)
Definition limits_and_fee (m : SVMMessage) (lamports_per_signature : Z)
    (enable_secp256r1_precompile : bool)
    : outcome (result TransactionError (ComputeBudgetLimits * FeeDetails)) :=
  let* limits := process_compute_budget_instructions (program_instructions m) in
  match limits with
  | Err e => Done (Err e)
  | Ok limits =>
      let* details :=
        calculate_fee_details m false lamports_per_signature
          (get_prioritization_fee (compute_unit_price limits) (compute_unit_limit limits))
          enable_secp256r1_precompile in
      Done (Ok (limits, details))
  end.

End Fee.
End Fee.

(** ** Rent states *)
Module Rent.

Definition RENT_EXEMPT_RENT_EPOCH : Z := U64_MAX.

Inductive RentState : Type :=
| Uninitialized
| RentPaying (lamports data_size : Z)
| RentExempt.

Definition transition_allowed (pre_rent_state post_rent_state : RentState) : bool :=
  match post_rent_state with
  | Uninitialized | RentExempt => true
  | RentPaying post_lamports post_data_size =>
      match pre_rent_state with
      | Uninitialized | RentExempt => false
      | RentPaying pre_lamports pre_data_size =>
          (post_data_size =? pre_data_size) && (post_lamports <=? pre_lamports)
      end
  end.

Section Rent.
Context {env : FeeEnv}.

Definition get_account_rent_state (account : AccountSharedData) : RentState :=
  if lamports account =? 0 then Uninitialized
  else if is_exempt (lamports account) (zlen (data account)) then RentExempt
  else RentPaying (lamports account) (zlen (data account)).

Definition check_rent_state_with_account (pre_rent_state post_rent_state : RentState)
    (address : list Z) (account_index : Z) : result TransactionError unit :=
  if negb (bool_decide (address = incinerator_id))
     && negb (transition_allowed pre_rent_state post_rent_state)
  then Err (TransactionError.InsufficientFundsForRent (as_u8 account_index))
  else Ok tt.

(** [check_rent_state], given the key of the account at [index]: the context
    has one where both rent states are known. *)
Definition check_rent_state (pre_rent_state post_rent_state : option RentState)
    (key : list Z) (index : Z) : result TransactionError unit :=
  match pre_rent_state, post_rent_state with
  | Some pre, Some post => check_rent_state_with_account pre post key index
  | _, _ => Ok tt
  end.

Definition update_rent_exempt_status_for_account (account : AccountSharedData)
    : AccountSharedData :=
  if negb (rent_epoch account =? RENT_EXEMPT_RENT_EPOCH)
     && is_exempt (lamports account) (zlen (data account))
  then account<|rent_epoch := RENT_EXEMPT_RENT_EPOCH|>
  else account.

(** [checked_add_lamports] and [checked_sub_lamports]. *)
Definition checked_add_lamports (account : AccountSharedData) (n : Z) : option AccountSharedData :=
  l ← checked_add U64_MAX (lamports account) n; Some account<|lamports := l|>.
Definition checked_sub_lamports (account : AccountSharedData) (n : Z) : option AccountSharedData :=
  l ← checked_sub (lamports account) n; Some account<|lamports := l|>.

(** The charge of the fee payer: the account after paying, or why it cannot
    pay. *)
Definition validate_fee_payer (payer_address : list Z) (payer_account : AccountSharedData)
    (payer_index fee : Z) : result TransactionError AccountSharedData :=
  if lamports payer_account =? 0 then Err TransactionError.AccountNotFound
  else
    let? system_account_kind :=
      ok_or (get_system_account_kind payer_account) TransactionError.InvalidAccountForFee in
    let min_balance :=
      match system_account_kind with
      | System => 0
      | Nonce => minimum_balance nonce_state_size
      end in
    let? _ :=
      ok_or (checked_sub (lamports payer_account) min_balance ≫= fun v => checked_sub v fee)
        TransactionError.InsufficientFundsForFee in
    let payer_pre_rent_state := get_account_rent_state payer_account in
    let? paid :=
      ok_or (checked_sub_lamports payer_account fee) TransactionError.InsufficientFundsForFee in
    let payer_post_rent_state := get_account_rent_state paid in
    check_rent_state_with_account payer_pre_rent_state payer_post_rent_state payer_address
      payer_index ;?
    Ok paid.

End Rent.
End Rent.

(** ** Collected fees and their distribution *)

Record CollectorFeeDetails := mkCollector {
  collected_transaction_fee : Z;
  collected_priority_fee : Z;
}.

Record RewardInfo := mkReward {
  reward_lamports : Z;
  post_balance : Z;
}.

(** The part of the bank that fees go through. *)
Record Bank := mkBank {
  bank_accounts : gmap (list Z) AccountSharedData;
  collector_id : list Z;
  collector_fee_details : CollectorFeeDetails;
  capitalization : Z;
  rewards : list (list Z * RewardInfo);
}.
#[export] Instance eta_Bank : Eta Bank := fun b =>
  mkBank (bank_accounts b) (collector_id b) (collector_fee_details b) (capitalization b) (rewards b).

Module Distribution.

Inductive DepositFeeError : Type :=
| InvalidRentPayingAccount
| LamportOverflow
| InvalidAccountOwner.

Record FeeDistribution := mkDistribution {
  deposit : Z;
  burn : Z;
}.

(** [CollectorFeeDetails::accumulate] and [total_transaction_fee]. *)
Definition accumulate (self : CollectorFeeDetails) (fee_details : FeeDetails)
    : CollectorFeeDetails :=
  mkCollector
    (saturating_add U64_MAX (collected_transaction_fee self) (transaction_fee fee_details))
    (saturating_add U64_MAX (collected_priority_fee self) (prioritization_fee fee_details)).

Definition total_transaction_fee (self : CollectorFeeDetails) : Z :=
  saturating_add U64_MAX (collected_transaction_fee self) (collected_priority_fee self).

(** [deposit as i64]. *)
Definition as_i64 (z : Z) : Z := if z <=? 9223372036854775807 then z else z - 18446744073709551616.

(** Loading skips an account without lamports. *)
Definition get_account_with_fixed_root_no_cache (bank : Bank) (pubkey : list Z)
    : option AccountSharedData :=
  a ← bank_accounts bank !! pubkey; if lamports a =? 0 then None else Some a.

Definition store_account (bank : Bank) (pubkey : list Z) (account : AccountSharedData) : Bank :=
  bank<|bank_accounts := <[pubkey := account]> (bank_accounts bank)|>.

Section Distribution.
Context {env : FeeEnv}.

(** [transaction_fee * burn_percent / 100], where the product is checked for
    overflow. *)
Definition calculate_reward_and_burn_fee_details (fee_details : CollectorFeeDetails)
    : outcome FeeDistribution :=
  if collected_transaction_fee fee_details =? 0 then Done (mkDistribution 0 0)
  else
    match checked_mul U64_MAX (collected_transaction_fee fee_details) DEFAULT_BURN_PERCENT with
    | None => Panicked
    | Some product =>
        let burn := product / 100 in
        let deposit :=
          saturating_add U64_MAX (collected_priority_fee fee_details)
            (saturating_sub (collected_transaction_fee fee_details) burn) in
        Done (mkDistribution deposit burn)
    end.

Definition deposit_fees (bank : Bank) (pubkey : list Z) (fees : Z)
    : result DepositFeeError (Z * Bank) :=
  let account := default account_default (get_account_with_fixed_root_no_cache bank pubkey) in
  if negb (bool_decide (owner account = system_id)) then Err InvalidAccountOwner
  else
    let recipient_pre_rent_state := Rent.get_account_rent_state account in
    let? account := ok_or (Rent.checked_add_lamports account fees) LamportOverflow in
    let recipient_post_rent_state := Rent.get_account_rent_state account in
    if negb (Rent.transition_allowed recipient_pre_rent_state recipient_post_rent_state)
    then Err InvalidRentPayingAccount
    else Ok (lamports account, store_account bank pubkey account).

(** Returns the amount to burn because it could not be deposited. *)
Definition deposit_or_burn_fee (bank : Bank) (deposit : Z) : Z * Bank :=
  if deposit =? 0 then (0, bank)
  else
    match deposit_fees bank (collector_id bank) deposit with
    | Ok (post_balance, bank) =>
        (0, bank<|rewards :=
              rewards bank ++ [(collector_id bank, mkReward (as_i64 deposit) post_balance)]|>)
    | Err _ => (deposit, bank)
    end.

Definition distribute_transaction_fee_details (bank : Bank) : outcome Bank :=
  let fee_details := collector_fee_details bank in
  if total_transaction_fee fee_details =? 0 then Done bank
  else
    let* distribution := calculate_reward_and_burn_fee_details fee_details in
    let (burned, bank) := deposit_or_burn_fee bank (deposit distribution) in
    let total_burn := saturating_add U64_MAX burned (burn distribution) in
    Done bank<|capitalization := wrapping_sub U64_MAX (capitalization bank) total_burn|>.

End Distribution.
End Distribution.

(** ** The fee of a transaction on the wire *)

(** The instructions of a transaction, each with its program. *)
Definition with_programs (t : Transaction) : list (list Z * SVMInstruction) :=
  (fun ix => (default [] (t_account_keys t !! Z.to_nat (program_id_index ix)), ix))
    <$> t_instructions t.

Definition precompile_signatures (precompile : list Z) (l : list (list Z * SVMInstruction)) : Z :=
  zsum (fun x => if bool_decide (x.1 = precompile) then default 0 (head (ix_data x.2)) else 0) l.

Lemma encoded_parts t :
  bytes_wf (encode t) ->
  Forall bytes_wf (t_account_keys t) /\
  Forall (fun ix => is_byte (program_id_index ix) /\ bytes_wf (ix_data ix)) (t_instructions t).
Proof.
  unfold encode. rewrite !bytes_wf_app. intros (_ & _ & Hk & _ & Hi & _). split.
  - unfold enc_array in Hk. apply Forall_cons in Hk as [_ Hk].
    induction (t_account_keys t) as [|k l IH]; [constructor|]. cbn [concat] in Hk.
    apply bytes_wf_app in Hk as [H1 H2]. constructor; [done|by apply IH].
  - unfold enc_instructions in Hi. apply bytes_wf_app in Hi as [_ Hi].
    induction (t_instructions t) as [|ix l IH]; [constructor|]. cbn [map concat] in Hi.
    apply bytes_wf_app in Hi as [Hix Hi]. constructor; [|by apply IH].
    unfold enc_instruction in Hix. apply Forall_cons in Hix as [Hb Hix].
    do 3 (apply Forall_app in Hix as [_ Hix]). done.
Qed.

Lemma attach_programs_spec view keys l :
  TransactionView.static_account_keys view = Done keys ->
  Forall (fun ix => is_Some (keys !! Z.to_nat (program_id_index ix))) l ->
  Message.attach_programs view l
  = Done ((fun ix => (default [] (keys !! Z.to_nat (program_id_index ix)), ix)) <$> l).
Proof.
  intros Hk. induction 1 as [|ix l [k E] _ IH]; [done|]. cbn [Message.attach_programs].
  unfold SanitizedTransactionView.program_id. rewrite Hk. cbn [obind]. rewrite E. cbn [obind].
  rewrite IH. cbn. by rewrite E.
Qed.

Lemma precompile_count_spec p l s :
  0 <= s -> Forall (fun x : list Z * SVMInstruction => bytes_wf (ix_data x.2)) l ->
  s + 255 * zlen l <= U64_MAX ->
  Message.default_precompile_signature_count p l s = Done (s + precompile_signatures p l) /\
  0 <= precompile_signatures p l <= 255 * zlen l.
Proof.
  intros Hs Hl. revert s Hs. induction Hl as [|[k ix] l Hd Hl IH]; intros s Hs Hb.
  { cbn. by rewrite Z.add_0_r. }
  unfold precompile_signatures in *. rewrite zsum_cons. cbn in Hd |- *.
  rewrite zlen_cons in *.
  assert (0 <= default 0 (head (ix_data ix)) <= 255) as Hh.
  { destruct (ix_data ix); [done|]. apply Forall_inv in Hd. unfold is_byte in Hd. cbn. lia. }
  case_bool_decide.
  - unfold plain_add. rewrite (proj2 (Z.leb_le _ _)) by (pose proof (zlen_nonneg l); lia).
    cbn [obind]. destruct (IH (s + default 0 (head (ix_data ix)))) as [-> ?]; [lia..|].
    split; [f_equal; lia|lia].
  - destruct (IH s) as [-> ?]; [lia..|]. split; [f_equal; lia|lia].
Qed.

Lemma prioritization_fee_spec price units :
  is_u64 price -> 0 <= units <= U32_MAX ->
  get_prioritization_fee price units = Z.min U64_MAX (div_ceil (price * units) 1000000).
Proof.
  intros Hp Hu. unfold is_u64 in Hp. unfold get_prioritization_fee, saturating_mul, saturating_add,
    saturating_sub, MICRO_LAMPORTS_PER_LAMPORT.
  assert (0 <= price * units <= U64_MAX * U32_MAX) as Hm by nia.
  change (Z.max 0 (1000000 - 1)) with 999999. rewrite !Z.min_r by lia.
  unfold checked_div. change (1000000 =? 0) with false. cbn [mbind option_bind].
  assert ((price * units + 999999) / 1000000 = div_ceil (price * units) 1000000) as ->.
  { pose proof (div_ceil_spec (price * units) 1000000 ltac:(lia)).
    symmetry. apply (Z.div_unique _ _ _ (price * units + 999999 - 1000000 *
      div_ceil (price * units) 1000000)); lia. }
  unfold try_into. destruct (Z.leb_spec (div_ceil (price * units) 1000000) U64_MAX); cbn; lia.
Qed.

Section Wire.
Context (t : Transaction) (Hok : transaction_ok t) (Hsane : sane t) (Hwf : bytes_wf (encode t)).

Lemma wire_programs :
  zlen (t_account_keys t) <= FILTER_SIZE /\ Forall pubkey_wf (t_account_keys t) /\
  programs_of (t_account_keys t) (with_programs t) /\
  Forall (fun x => bytes_wf (ix_data x.2)) (with_programs t) /\
  Forall (fun ix => is_Some (t_account_keys t !! Z.to_nat (program_id_index ix)))
    (t_instructions t).
Proof.
  destruct (encoded_parts t Hwf) as [Bk Bi].
  destruct Hok as (_ & _ & [Hk1 Hk2] & _). destruct Hsane as (_ & _ & _ & _ & _ & Hi & _).
  assert (Forall (fun ix => is_Some (t_account_keys t !! Z.to_nat (program_id_index ix)))
    (t_instructions t)) as Hs.
  { eapply Forall_impl; [exact (proj2 (Forall_and _ _) (conj Hi Bi))|].
    intros ix [([_ Hlt] & _) [Hb _]]. apply lookup_lt_is_Some.
    unfold is_byte in Hb. unfold zlen in Hlt. lia. }
  split_and!; [exact (proj2 Hk1)| | | |done].
  - apply Forall_and. split; [done|done].
  - apply Forall_fmap. eapply Forall_impl; [exact Hs|]. intros ix [k E]. cbn. by rewrite E.
  - apply Forall_fmap. eapply Forall_impl; [exact Bi|]. by intros ix [_ Hb].
Qed.

Lemma wire_message {keys : AccountKeysEnv} loaded cache :
  zlen (encode t) <= U16_MAX ->
  let self := mkResolved (mkView (encode t) (transaction_frame t)) loaded cache in
  Message.message_of self = Some (Done
    (mkMessage (h_num_required_signatures (t_header t)) (with_programs t)
       (TxView.account_keys (t_account_keys t) loaded)
       (TransactionView.num_address_table_lookups (rv_view self))
       (ResolvedTransactionView.is_writable self) (ResolvedTransactionView.is_signer self)
       (t_recent_blockhash t) (zlen (t_account_keys t)))).
Proof.
  intros Hu self. assert (zlen (encode t) <= ISIZE_MAX) as Hlen by (unfold ISIZE_MAX; lia).
  destruct (frame_shows_message (encode t) Hlen t Hok eq_refl) as (_ & A2 & A3 & A4 & A5 & _ & _ & N).
  destruct wire_programs as (_ & _ & _ & _ & Hs).
  unfold Message.message_of, Message.program_instructions_iter, self. cbn [rv_view].
  unfold TransactionView.num_instructions, TransactionView.instructions_iter. cbn [view_frame view_data].
  rewrite A4 by (rewrite N; unfold zlen; lia). cbn [obind].
  rewrite (attach_programs_spec _ (t_account_keys t)) by done. cbn [obind].
  unfold TransactionView.static_account_keys at 1. cbn [view_frame view_data]. rewrite A2. cbn [obind].
  unfold TransactionView.recent_blockhash at 1. cbn [view_frame view_data]. rewrite A3. reflexivity.
Qed.

End Wire.

Section WireFee.
Context {env : FeeEnv} {laws : FeeLaws env}.

Definition signatures_to_pay (enable_secp256r1 : bool) (required : Z)
    (l : list (list Z * SVMInstruction)) : Z :=
  required + precompile_signatures ed25519_id l + precompile_signatures secp256k1_id l +
  (if enable_secp256r1 then precompile_signatures secp256r1_id l else 0).

Lemma signature_fee_spec m lamports_per_signature prioritization_fee enable :
  Forall (fun x => bytes_wf (ix_data x.2)) (program_instructions m) ->
  zlen (program_instructions m) <= U16_MAX ->
  0 <= num_transaction_signatures m <= U8_MAX -> is_u64 lamports_per_signature ->
  Fee.calculate_fee_details m false lamports_per_signature prioritization_fee enable
  = Done (mkFeeDetails
      (Z.min U64_MAX (lamports_per_signature *
         signatures_to_pay enable (num_transaction_signatures m) (program_instructions m)))
      prioritization_fee).
Proof.
  intros Hd Hn Hs Hl. pose proof (zlen_nonneg (program_instructions m)). unfold is_u64 in Hl.
  unfold Fee.calculate_fee_details, Fee.signature_counts, Message.num_ed25519_signatures,
    Message.num_secp256k1_signatures, Message.num_secp256r1_signatures, signatures_to_pay.
  destruct (precompile_count_spec ed25519_id _ 0 ltac:(lia) Hd) as [-> E1]; [lia|].
  destruct (precompile_count_spec secp256k1_id _ 0 ltac:(lia) Hd) as [-> E2]; [lia|].
  destruct (precompile_count_spec secp256r1_id _ 0 ltac:(lia) Hd) as [-> E3]; [lia|].
  cbn [obind]. rewrite !Z.add_0_l. do 2 f_equal. unfold Fee.calculate_signature_fee. cbn.
  unfold saturating_add, saturating_mul.
  rewrite (wrapping_mul_small _ (if enable then 1 else 0)) by (destruct enable; lia).
  f_equal. rewrite Z.mul_comm. f_equal. destruct enable; lia.
Qed.

End WireFee.

(** ** The charge of the fee payer *)

Section FeePayer.
Context {env : FeeEnv} {laws : FeeLaws env}.

(** Would the account stop being exempt from rent, without being emptied? *)
Definition loses_exemption (a : AccountSharedData) (fee : Z) : Prop :=
  0 < lamports a - fee < minimum_balance (zlen (data a)) /\
  minimum_balance (zlen (data a)) <= lamports a.

Definition balance_to_keep (k : SystemAccountKind) : Z :=
  match k with System => 0 | Nonce => minimum_balance nonce_state_size end.

Definition fee_payer_reference (address : list Z) (a : AccountSharedData) (index fee : Z)
    : result TransactionError AccountSharedData :=
  if decide (lamports a = 0) then Err TransactionError.AccountNotFound
  else
    match get_system_account_kind a with
    | None => Err TransactionError.InvalidAccountForFee
    | Some kind =>
        if decide (lamports a < balance_to_keep kind + fee)
        then Err TransactionError.InsufficientFundsForFee
        else if decide (loses_exemption a fee /\ address <> incinerator_id)
        then Err (TransactionError.InsufficientFundsForRent (index mod 256))
        else Ok a<|lamports := lamports a - fee|>
    end.

Lemma transition_after_charge a fee :
  0 <= fee <= lamports a -> lamports a <> 0 ->
  Rent.transition_allowed (Rent.get_account_rent_state a)
    (Rent.get_account_rent_state a<|lamports := lamports a - fee|>) =
  negb (bool_decide (loses_exemption a fee)).
Proof.
  intros Hf Hl. unfold Rent.get_account_rent_state, loses_exemption. destruct a as [l d o e r].
  cbn in *. rewrite !is_exempt_spec.
  destruct (Z.eqb_spec (l - fee) 0), (Z.eqb_spec l 0); try done; cbn.
  1: symmetry; apply negb_true_iff, bool_decide_eq_false; lia.
  destruct (Z.leb_spec (minimum_balance (zlen d)) (l - fee)),
    (Z.leb_spec (minimum_balance (zlen d)) l); cbn; try lia.
  all: try (symmetry; apply negb_true_iff, bool_decide_eq_false; lia).
  - symmetry. apply negb_false_iff, bool_decide_eq_true. lia.
  - rewrite Z.eqb_refl, (proj2 (Z.leb_le _ _)) by lia.
    symmetry. apply negb_true_iff, bool_decide_eq_false. lia.
Qed.

Lemma validate_fee_payer_spec address a index fee :
  0 <= fee -> Rent.validate_fee_payer address a index fee = fee_payer_reference address a index fee.
Proof.
  intros Hf. unfold Rent.validate_fee_payer, fee_payer_reference.
  destruct (Z.eqb_spec (lamports a) 0), (decide (lamports a = 0)); try done.
  destruct (get_system_account_kind a) as [k|]; [|done]. cbn [ok_or qbind].
  change (match k with System => 0 | Nonce => minimum_balance nonce_state_size end)
    with (balance_to_keep k).
  assert (0 <= balance_to_keep k) as Hk.
  { destruct k; cbn; [done|]. pose proof (minimum_balance_range nonce_state_size) as []. lia. }
  assert (is_Some (checked_sub (lamports a) (balance_to_keep k) ≫= fun v => checked_sub v fee) <->
    balance_to_keep k + fee <= lamports a) as Hs.
  { unfold checked_sub. destruct (Z.leb_spec (balance_to_keep k) (lamports a)); cbn.
    - destruct (Z.leb_spec fee (lamports a - balance_to_keep k)); split;
        by (lia || (intros [? ?]; lia) || done).
    - split; [by intros [? ?]|lia]. }
  destruct (checked_sub (lamports a) (balance_to_keep k) ≫= fun v => checked_sub v fee) as [v|];
    cbn [ok_or qbind]; destruct (decide (lamports a < balance_to_keep k + fee)); try done.
  1: { exfalso. apply proj1 in Hs. specialize (Hs ltac:(done)). lia. }
  2: { destruct Hs as [_ Hs]. destruct Hs; [lia|done]. }
  unfold Rent.checked_sub_lamports, checked_sub. rewrite (proj2 (Z.leb_le _ _)) by lia.
  cbn [mbind option_bind ok_or qbind]. unfold Rent.check_rent_state_with_account.
  rewrite transition_after_charge, negb_involutive by lia.
  destruct (decide (loses_exemption a fee /\ address <> incinerator_id)) as [[L A]|N].
  - by rewrite (bool_decide_true _ L), (bool_decide_false _ A).
  - destruct (decide (address = incinerator_id)) as [A|A];
      [by rewrite (bool_decide_true _ A)|]. rewrite (bool_decide_false _ A), bool_decide_false; [done|].
    intros L. by apply N.
Qed.

End FeePayer.

(** ** Lamports of a store *)

Definition total_lamports (m : gmap (list Z) AccountSharedData) : Z :=
  map_fold (fun _ a s => lamports a + s) 0 m.

(** Balance of a key, zero when there is no account. *)
Definition balance (m : gmap (list Z) AccountSharedData) (k : list Z) : Z :=
  from_option lamports 0 (m !! k).

Lemma total_lamports_new m k a :
  m !! k = None -> total_lamports (<[k := a]> m) = lamports a + total_lamports m.
Proof.
  intros H. unfold total_lamports. rewrite map_fold_insert_L; [done| |done].
  intros. lia.
Qed.

Lemma total_lamports_insert m k a :
  total_lamports (<[k := a]> m) = total_lamports m - balance m k + lamports a.
Proof.
  unfold balance. destruct (m !! k) as [b|] eqn:E; cbn.
  - rewrite <- insert_delete_eq, total_lamports_new by apply lookup_delete_eq.
    rewrite <- (insert_delete_id m k b E) at 2. rewrite total_lamports_new by apply lookup_delete_eq.
    lia.
  - rewrite total_lamports_new by done. lia.
Qed.

Lemma total_lamports_nonneg m :
  map_Forall (fun _ a => 0 <= lamports a) m -> 0 <= total_lamports m.
Proof.
  induction m as [|k a m Hk IH] using map_ind; intros H; [done|].
  apply map_Forall_insert in H as [Ha H]; [|done]. rewrite total_lamports_new by done.
  specialize (IH H). lia.
Qed.

Lemma balance_le_total m k :
  map_Forall (fun _ a => 0 <= lamports a) m -> 0 <= balance m k <= total_lamports m.
Proof.
  intros H. pose proof (total_lamports_nonneg m H) as Hn. unfold balance.
  destruct (m !! k) as [a|] eqn:E; cbn; [|lia]. pose proof (H _ _ E) as Ha. cbn in Ha.
  rewrite <- (insert_delete_id m k a E), total_lamports_new by apply lookup_delete_eq.
  pose proof (total_lamports_nonneg (delete k m) (map_Forall_delete _ _ _ H)). lia.
Qed.

(** ** The end of a block *)

Section Distribute.
Context {env : FeeEnv} {laws : FeeLaws env}.
Import Distribution.

(** The collector's account as the deposit sees it. *)
Definition collector_account (b : Bank) : AccountSharedData :=
  default account_default (get_account_with_fixed_root_no_cache b (collector_id b)).

(** The leader's account takes a reward when the system program owns it and
    the reward leaves it exempt from rent. *)
Definition takes_reward (b : Bank) (reward : Z) : Prop :=
  owner (collector_account b) = system_id /\
  minimum_balance (zlen (data (collector_account b))) <= lamports (collector_account b) + reward.

#[export] Instance takes_reward_dec b reward : Decision (takes_reward b reward).
Proof. unfold takes_reward. apply _. Defined.

Lemma collector_balance b :
  lamports (collector_account b) = balance (bank_accounts b) (collector_id b).
Proof.
  unfold collector_account, get_account_with_fixed_root_no_cache, balance.
  destruct (bank_accounts b !! collector_id b) as [a|]; cbn; [|done].
  by destruct (Z.eqb_spec (lamports a) 0).
Qed.

Lemma deposit_fees_spec b reward :
  0 < reward -> 0 <= lamports (collector_account b) ->
  lamports (collector_account b) + reward <= U64_MAX ->
  match deposit_fees b (collector_id b) reward with
  | Ok (post, b') => takes_reward b reward /\ post = lamports (collector_account b) + reward /\
      b' = store_account b (collector_id b) (collector_account b)<|lamports := post|>
  | Err _ => ~ takes_reward b reward
  end.
Proof.
  intros Hr H0 Hu. unfold deposit_fees. fold (collector_account b).
  set (a := collector_account b) in *. unfold takes_reward. fold a.
  case_bool_decide as Ho; cbn [negb]; [|by intros [? _]].
  unfold Rent.checked_add_lamports, checked_add. rewrite (proj2 (Z.leb_le _ _)) by done.
  cbn [mbind option_bind ok_or qbind]. unfold Rent.get_account_rent_state.
  destruct a as [l d o e r]. cbn in *. rewrite !is_exempt_spec.
  rewrite (proj2 (Z.eqb_neq (l + reward) 0)) by lia.
  destruct (Z.leb_spec (minimum_balance (zlen d)) (l + reward)) as [He|He]; cbn; [done|].
  assert (Rent.transition_allowed
    (if l =? 0 then Rent.Uninitialized
     else if minimum_balance (zlen d) <=? l then Rent.RentExempt else Rent.RentPaying l (zlen d))
    (Rent.RentPaying (l + reward) (zlen d)) = false) as E.
  { destruct (l =? 0); [done|]. destruct (_ <=? l); [done|]. cbn. rewrite Z.eqb_refl. cbn.
    apply Z.leb_gt. lia. }
  cbn in E. rewrite E. cbn. intros [_ ?]. lia.
Qed.

Lemma deposit_or_burn_spec b reward :
  0 <= reward -> 0 <= lamports (collector_account b) ->
  lamports (collector_account b) + reward <= U64_MAX ->
  exists burned b', deposit_or_burn_fee b reward = (burned, b') /\
    capitalization b' = capitalization b /\
    (takes_reward b reward -> burned = 0 /\
     total_lamports (bank_accounts b') = total_lamports (bank_accounts b) + reward /\
     forall k, balance (bank_accounts b') k =
       balance (bank_accounts b) k + if decide (k = collector_id b) then reward else 0) /\
    (~ takes_reward b reward -> burned = reward /\ bank_accounts b' = bank_accounts b).
Proof.
  intros Hr H0 Hu. unfold deposit_or_burn_fee. destruct (Z.eqb_spec reward 0) as [->|Hne].
  { exists 0, b. split_and!; try done. intros _. split_and!; [done|lia|].
    intros k. destruct (decide _); lia. }
  pose proof (deposit_fees_spec b reward ltac:(lia) H0 Hu) as H.
  destruct (deposit_fees b (collector_id b) reward) as [[post b']|e].
  2: { by exists reward, b. }
  destruct H as (Ht & -> & ->). eexists _, _. split; [reflexivity|].
  unfold store_account. pose proof (collector_balance b) as Hb.
  destruct b as [m c d cap rw]. destruct (collector_account _) as [l da o e r] eqn:Ea. cbn in *.
  split_and!; [done| |done]. intros _. split; [done|]. split.
  - rewrite total_lamports_insert. cbn. lia.
  - intros k. unfold balance. destruct (decide (k = c)) as [->|Hk].
    + rewrite lookup_insert_eq. cbn. unfold balance in Hb. lia.
    + rewrite lookup_insert_ne by done. lia.
Qed.

Lemma reward_split tf pf :
  0 < tf -> 0 <= pf -> tf + pf <= U64_MAX -> tf * DEFAULT_BURN_PERCENT <= U64_MAX ->
  let burned := tf * DEFAULT_BURN_PERCENT / 100 in
  calculate_reward_and_burn_fee_details (mkCollector tf pf)
  = Done (mkDistribution (pf + (tf - burned)) burned) /\ 0 <= burned <= tf.
Proof.
  intros Ht Hp Hu Hm burned. pose proof burn_percent_range as Hb.
  assert (0 <= burned <= tf) as Hr.
  { unfold burned. split; [apply Z.div_pos; nia|]. apply div_mul_le_self; lia. }
  split; [|done]. unfold calculate_reward_and_burn_fee_details. cbn.
  rewrite (proj2 (Z.eqb_neq tf 0)) by lia. unfold checked_mul. rewrite (proj2 (Z.leb_le _ _)) by done.
  fold burned. unfold saturating_add, saturating_sub. do 2 f_equal. lia.
Qed.

Lemma distribute_spec b tf pf :
  collector_fee_details b = mkCollector tf pf -> 0 <= tf -> 0 <= pf ->
  map_Forall (fun _ a => 0 <= lamports a) (bank_accounts b) ->
  total_lamports (bank_accounts b) + tf + pf = capitalization b -> capitalization b <= U64_MAX ->
  tf * DEFAULT_BURN_PERCENT <= U64_MAX ->
  let burned := tf * DEFAULT_BURN_PERCENT / 100 in
  let reward := pf + (tf - burned) in
  exists b', distribute_transaction_fee_details b = Done b' /\
    total_lamports (bank_accounts b') + (if decide (tf = 0) then pf else 0) = capitalization b' /\
    (tf <> 0 -> takes_reward b reward ->
     capitalization b' = capitalization b - burned /\
     forall k, balance (bank_accounts b') k =
       balance (bank_accounts b) k + if decide (k = collector_id b) then reward else 0) /\
    (tf = 0 \/ ~ takes_reward b reward -> bank_accounts b' = bank_accounts b) /\
    (tf <> 0 -> ~ takes_reward b reward -> capitalization b' = capitalization b - (tf + pf)).
Proof.
  intros Hd Ht Hp Hm Hc Hu Hb burned reward.
  pose proof (total_lamports_nonneg _ Hm) as Hn.
  unfold distribute_transaction_fee_details, total_transaction_fee.
  rewrite Hd. cbn [collected_transaction_fee collected_priority_fee]. unfold saturating_add at 1.
  rewrite Z.min_r by lia. destruct (decide (tf = 0)) as [->|Htf].
  { exists b. split; [|split_and!; done || lia]. destruct (Z.eqb_spec (0 + pf) 0) as [E|E]; [done|].
    cbn. unfold saturating_add. rewrite wrapping_sub_small by lia. destruct b; cbn.
    change (Z.min U64_MAX (0 + 0)) with 0. by rewrite Z.sub_0_r. }
  rewrite (proj2 (Z.eqb_neq _ _)) by lia.
  destruct (reward_split tf pf) as [-> Hr]; [lia..|]. fold burned in Hr |- *. fold reward.
  cbn [obind deposit burn].
  pose proof (balance_le_total _ (collector_id b) Hm) as Hbal. pose proof (collector_balance b) as Hcb.
  destruct (deposit_or_burn_spec b reward) as (x & b' & -> & Hcap & Htake & Hburn); [lia..|].
  eexists. split; [reflexivity|]. destruct b' as [m' c' d' cap' rw']. cbn in *. subst cap'.
  destruct (decide (takes_reward b reward)) as [T|T].
  - destruct (Htake T) as (-> & Htot & Hall). unfold saturating_add. rewrite Z.min_r by lia.
    rewrite wrapping_sub_small by lia. split_and!; try done; [lia|by intros [?|?]].
  - destruct (Hburn T) as (-> & ->). unfold saturating_add. rewrite Z.min_r by lia.
    rewrite wrapping_sub_small by lia. split_and!; try done; [lia|]. intros _ _. lia.
Qed.

End Distribute.

(** ** Concrete environment *)

Definition test_kind (a : AccountSharedData) : option SystemAccountKind :=
  if bool_decide (owner a = pubkey_default)
  then if zlen (data a) =? 0 then Some System else if zlen (data a) =? 80 then Some Nonce else None
  else None.

Definition test_minimum_balance (n : Z) : Z := Z.min U64_MAX ((Z.max 0 n + 128) * 6960).

Definition test_fees : FeeEnv :=
  {| fee_budget := test_budget; secp256r1_id := test_id 10; incinerator_id := test_id 200;
     DEFAULT_BURN_PERCENT := 50;
     total_fee d := saturating_add U64_MAX (transaction_fee d) (prioritization_fee d);
     accumulate_details d d' :=
       mkFeeDetails (saturating_add U64_MAX (transaction_fee d) (transaction_fee d'))
         (saturating_add U64_MAX (prioritization_fee d) (prioritization_fee d'));
     minimum_balance := test_minimum_balance;
     is_exempt l n := test_minimum_balance n <=? l;
     get_system_account_kind := test_kind; nonce_state_size := 80 |}.

Lemma test_fees_laws : FeeLaws test_fees.
Proof.
  split; try done; [exact test_budget_laws|]. intros n. unfold is_u64. cbn.
  unfold test_minimum_balance. lia.
Qed.

Definition test_wallet (n : Z) : AccountSharedData := mkShared n [] pubkey_default false U64_MAX.

Definition test_bank : Bank :=
  mkBank {[ test_id 90 := test_wallet 5000000; test_id 91 := test_wallet 7000000 ]}
    (test_id 91) (mkCollector 10001 250) 12010251 [].

(** ** Claims *)

(** C35: the fee of a transaction is determined by its bytes.  For every sane
    transaction of at most 65535 bytes the view gives a message, and its limits
    and fee are computed without panic: when the compute-budget requests are
    refused the error is the reference's, and otherwise the fee is the price of
    a signature for every required signature and every signature its precompile
    instructions announce, plus the requested price for the granted compute
    units rounded up to whole lamports, each capped at the largest 64-bit
    value. *)
Theorem wire_fee_equals_reference {env : FeeEnv} {laws : FeeLaws env} {keys : AccountKeysEnv}
    t loaded cache lamports_per_signature enable :
  transaction_ok t -> sane t -> bytes_wf (encode t) -> zlen (encode t) <= U16_MAX ->
  is_u64 lamports_per_signature ->
  exists m,
    Message.message_of (mkResolved (mkView (encode t) (transaction_frame t)) loaded cache)
    = Some (Done m) /\
    Fee.limits_and_fee m lamports_per_signature enable
    = Done (
        let? limits := reference_limits (with_programs t) in
        Ok (limits, mkFeeDetails
          (Z.min U64_MAX (lamports_per_signature *
             signatures_to_pay enable (h_num_required_signatures (t_header t)) (with_programs t)))
          (Z.min U64_MAX
             (div_ceil (compute_unit_price limits * compute_unit_limit limits) 1000000)))).
Proof.
  intros Hok Hsane Hwf Hu Hl. eexists. split; [by apply wire_message|].
  destruct (wire_programs t Hok Hsane Hwf) as (Hn & Hk & Hp & Hd & _).
  unfold Fee.limits_and_fee. cbn [program_instructions]. rewrite (process_spec _ _ Hn Hk Hp).
  cbn [obind]. destruct (reference_limits (with_programs t)) as [lim|e] eqn:E; cbn [qbind]; [|done].
  apply reference_limits_range in E as (_ & Hunits & Hprice & _).
  destruct (encoded_bytes t Hwf) as (B1 & _). unfold is_byte in B1.
  rewrite prioritization_fee_spec by (done || lia).
  rewrite signature_fee_spec; cbn [program_instructions num_transaction_signatures];
    [done|done| |lia|done].
  unfold with_programs, zlen. rewrite length_fmap. destruct Hok as (_ & _ & _ & _ & Hi & _).
  unfold is_len, zlen in Hi. lia.
Qed.

Lemma wire_fee_equals_reference_witness :
  let _ := test_fees in
  exists m,
    Message.message_of (mkResolved (mkView sample_bytes (transaction_frame sample_transaction))
      (Some sample_loaded) []) = Some (Done m) /\
    Fee.limits_and_fee m 5000 true
    = Done (Ok (mkLimits 32768 3000 0 67108864, mkFeeDetails 5000 0)).
Proof.
  destruct (@wire_fee_equals_reference test_fees test_fees_laws sample_keys_env sample_transaction
    (Some sample_loaded) [] 5000 true sample_ok sample_sane sample_wf) as (m & Hm & Hf).
  - vm_compute. discriminate.
  - vm_compute. split; discriminate.
  - exists m. split; [exact Hm|]. rewrite Hf. vm_compute. reflexivity.
Defined.

(** The fee payer pays exactly the fee, or the transaction is refused for
    the documented reason.  An account without lamports is not found; one that
    is neither a plain system account nor a nonce account cannot pay; a nonce
    account must keep its minimum balance; and no charge may take an account
    out of rent exemption without emptying it, the incinerator apart.
    Otherwise the fee is subtracted and nothing else changes. *)
Theorem fee_payer_pays_exactly {env : FeeEnv} {laws : FeeLaws env} address account index fee :
  0 <= fee ->
  Rent.validate_fee_payer address account index fee
  = fee_payer_reference address account index fee.
Proof. apply validate_fee_payer_spec. Qed.

Lemma fee_payer_pays_exactly_witness :
  let _ := test_fees in
  Rent.validate_fee_payer (test_id 90) (test_wallet 5000000) 0 5000 = Ok (test_wallet 4995000) /\
  Rent.validate_fee_payer (test_id 90) (test_wallet 893000) 256 5000
  = Err (TransactionError.InsufficientFundsForRent 0).
Proof.
  split.
  - refine (eq_trans (@fee_payer_pays_exactly test_fees test_fees_laws (test_id 90)
      (test_wallet 5000000) 0 5000 _) _); [done|vm_compute; reflexivity].
  - refine (eq_trans (@fee_payer_pays_exactly test_fees test_fees_laws (test_id 90)
      (test_wallet 893000) 256 5000 _) _); [done|vm_compute; reflexivity].
Defined.

(** C34: the fees of a block are paid out or burned, to the lamport.  When the
    capitalization counts the lamports of all accounts and the collected fees,
    the distribution at the end of the block does not panic and the
    capitalization counts the lamports of all accounts again: the burned share
    of the signature fees leaves it, the rest and the priority fees go to the
    leader if its account is a system account that ends up exempt from rent, and
    leave the capitalization otherwise; no other balance moves.  The one
    exception is a block that collected priority fees but no signature fee:
    its priority fees reach no account and stay counted. *)
Theorem fees_are_paid_out_or_burned {env : FeeEnv} {laws : FeeLaws env} b tf pf :
  collector_fee_details b = mkCollector tf pf -> 0 <= tf -> 0 <= pf ->
  map_Forall (fun _ a => 0 <= lamports a) (bank_accounts b) ->
  total_lamports (bank_accounts b) + tf + pf = capitalization b -> capitalization b <= U64_MAX ->
  tf * DEFAULT_BURN_PERCENT <= U64_MAX ->
  let burned := tf * DEFAULT_BURN_PERCENT / 100 in
  let reward := pf + (tf - burned) in
  exists b', Distribution.distribute_transaction_fee_details b = Done b' /\
    total_lamports (bank_accounts b') + (if decide (tf = 0) then pf else 0) = capitalization b' /\
    (tf <> 0 -> takes_reward b reward ->
     capitalization b' = capitalization b - burned /\
     forall k, balance (bank_accounts b') k =
       balance (bank_accounts b) k + if decide (k = collector_id b) then reward else 0) /\
    (tf = 0 \/ ~ takes_reward b reward -> bank_accounts b' = bank_accounts b) /\
    (tf <> 0 -> ~ takes_reward b reward -> capitalization b' = capitalization b - (tf + pf)).
Proof. apply distribute_spec. Qed.

Lemma fees_are_paid_out_or_burned_witness :
  let _ := test_fees in
  exists b', Distribution.distribute_transaction_fee_details test_bank = Done b' /\
    balance (bank_accounts b') (test_id 91) = 7005251 /\
    total_lamports (bank_accounts b') = capitalization b'.
Proof.
  destruct (@fees_are_paid_out_or_burned test_fees test_fees_laws test_bank 10001 250)
    as (b' & Hd & Hc & Ht & _); try (vm_compute; (reflexivity || discriminate)).
  - by apply (bool_decide_unpack _); vm_compute.
  - exists b'. split; [exact Hd|]. split.
    + destruct Ht as [_ Ht]; [discriminate|split; vm_compute; (reflexivity || discriminate)|].
      rewrite (Ht (test_id 91)). vm_compute. reflexivity.
    + rewrite <- Hc. vm_compute in Hd. injection Hd as <-. vm_compute. reflexivity.
Defined.
