(* ===== verification/TxMeta.v ===== *)
(** * What the runtime remembers of a transaction

    A transaction is scanned once when it arrives, and the counts are kept with
    it: the signatures of its precompile instructions
    ([gorchain/runtime-transaction/src/signature_details.rs]), the length of its
    instruction data ([instruction_data_len.rs], [instruction_meta.rs]) and its
    compute-budget requests ([transaction_meta.rs],
    [runtime_transaction/transaction_view.rs]).

    The scan caches the kind of a program by its position among the keys.  The
    counts equal those of a direct count over the instructions, so the fee that
    is computed from them is the fee of the message. *)

From stdpp Require Import base numbers list gmap.
From Stdlib Require Import Lia.
From S2P Require Import Prelude Errors Pod TxBytes TxFrame TxFormat TxView ComputeBudget Fees.
Local Open Scope Z_scope.
Local Open Scope rust_scope.

(** What other crates do: the hash of a message, and whether a transaction with
    these signatures, version and programs is a vote. *)
Class MetaEnv := {
  meta_fees :: FeeEnv;
  hash_raw_message : list Z -> list Z;
  is_simple_vote_transaction_impl : list (list Z) -> bool -> list (list Z) -> bool;
}.

Record PrecompileSignatureDetails := mkPrecompile {
  num_secp256k1_instruction_signatures : Z;
  num_ed25519_instruction_signatures : Z;
  num_secp256r1_instruction_signatures : Z;
}.
#[export] Instance eta_PrecompileSignatureDetails : Eta PrecompileSignatureDetails := fun d =>
  mkPrecompile (num_secp256k1_instruction_signatures d) (num_ed25519_instruction_signatures d)
    (num_secp256r1_instruction_signatures d).

Inductive ProgramIdStatus : Type :=
| NotSignature
| Secp256k1
| Ed25519
| Secp256r1.

Module SignatureDetailsFilter.
Section Filter.
Context {env : FeeEnv}.

Definition new : list (option ProgramIdStatus) := replicate (Z.to_nat FILTER_SIZE) None.

Definition check_program_id (program_id : list Z) : ProgramIdStatus :=
  if bool_decide (program_id = secp256k1_id) then Secp256k1
  else if bool_decide (program_id = ed25519_id) then Ed25519
  else if bool_decide (program_id = secp256r1_id) then Secp256r1
  else NotSignature.

Definition is_signature (flags : list (option ProgramIdStatus)) (index : Z) (program_id : list Z)
    : outcome (ProgramIdStatus * list (option ProgramIdStatus)) :=
  match flags !! Z.to_nat index with
  | None => Panicked
  | Some (Some status) => Done (status, flags)
  | Some None =>
      let status := check_program_id program_id in
      Done (status, <[Z.to_nat index := Some status]> flags)
  end.

End Filter.
End SignatureDetailsFilter.

Record PrecompileSignatureDetailsBuilder := mkBuilder {
  filter_flags : list (option ProgramIdStatus);
  value : PrecompileSignatureDetails;
}.

Module PrecompileSignatureDetailsBuilder.
Section Builder.
Context {env : FeeEnv}.

Definition default_builder : PrecompileSignatureDetailsBuilder :=
  mkBuilder SignatureDetailsFilter.new (mkPrecompile 0 0 0).

Definition get_num_signatures_in_instruction (instruction : SVMInstruction) : Z :=
  default 0 (head (ix_data instruction)).

Definition process_instruction (self : PrecompileSignatureDetailsBuilder) (program_id : list Z)
    (instruction : SVMInstruction) : outcome PrecompileSignatureDetailsBuilder :=
  let* r := SignatureDetailsFilter.is_signature (filter_flags self) (program_id_index instruction)
              program_id in
  let (status, flags) := r in
  let n := get_num_signatures_in_instruction instruction in
  let v := value self in
  Done (mkBuilder flags
    match status with
    | NotSignature => v
    | Secp256k1 =>
        v<|num_secp256k1_instruction_signatures :=
             wrapping_add U64_MAX (num_secp256k1_instruction_signatures v) n|>
    | Ed25519 =>
        v<|num_ed25519_instruction_signatures :=
             wrapping_add U64_MAX (num_ed25519_instruction_signatures v) n|>
    | Secp256r1 =>
        v<|num_secp256r1_instruction_signatures :=
             wrapping_add U64_MAX (num_secp256r1_instruction_signatures v) n|>
    end).

End Builder.
End PrecompileSignatureDetailsBuilder.

(** [InstructionDataLenBuilder::process_instruction]: the length is cast to 16
    bits and added with saturation. *)
Definition add_data_len (len : Z) (instruction : SVMInstruction) : Z :=
  saturating_add U16_MAX len (as_u16 (zlen (ix_data instruction))).

Record InstructionMeta := mkInstructionMeta {
  precompile_signature_details : PrecompileSignatureDetails;
  im_instruction_data_len : Z;
}.

Module InstructionMeta.
Section InstructionMeta.
Context {env : FeeEnv}.

(** The loop of [try_new]. *)
Fixpoint scan (instructions : list (list Z * SVMInstruction))
    (builder : PrecompileSignatureDetailsBuilder) (len : Z) : outcome InstructionMeta :=
  match instructions with
  | [] => Done (mkInstructionMeta (value builder) len)
  | (program_id, instruction) :: instructions =>
      let* builder :=
        PrecompileSignatureDetailsBuilder.process_instruction builder program_id instruction in
      scan instructions builder (add_data_len len instruction)
  end.

Definition try_new (instructions : list (list Z * SVMInstruction)) : outcome InstructionMeta :=
  scan instructions PrecompileSignatureDetailsBuilder.default_builder 0.

End InstructionMeta.
End InstructionMeta.

(** [TransactionSignatureDetails] of the message crate. *)
Record TransactionSignatureDetails := mkSignatureDetails {
  sd_transaction : Z;
  sd_precompile : PrecompileSignatureDetails;
}.

Record TransactionMeta := mkMeta {
  meta_message_hash : list Z;
  is_simple_vote_transaction : bool;
  signature_details : TransactionSignatureDetails;
  compute_budget_instruction_details : ComputeBudgetInstructionDetails;
  instruction_data_len : Z;
}.

Module RuntimeTransaction.
Section RuntimeTransaction.
Context {env : MetaEnv}.

(** The kind of a transaction view. *)
Definition is_simple_vote (transaction : TransactionView)
    (instructions : list (list Z * SVMInstruction)) : outcome bool :=
  let* signatures := TransactionView.signatures transaction in
  let is_legacy_message :=
    match TransactionView.version transaction with Legacy => true | _ => false end in
  Done (is_simple_vote_transaction_impl signatures is_legacy_message instructions.*1).

(** [try_from] of a sanitized view; [None] when the iterator over the
    instructions does not end. *)
Definition try_from (transaction : TransactionView) (message_hash : option (list Z))
    (is_simple_vote_tx : option bool)
    : option (outcome (result TransactionError TransactionMeta)) :=
  match Message.program_instructions_iter transaction with
  | None => None
  | Some instructions => Some (
      let* instructions := instructions in
      let* message_hash :=
        match message_hash with
        | Some hash => Done hash
        | None =>
            let* message := TransactionView.message_data transaction in
            Done (hash_raw_message message)
        end in
      let* is_simple_vote_tx :=
        match is_simple_vote_tx with
        | Some b => Done b
        | None => is_simple_vote transaction instructions
        end in
      let* meta := InstructionMeta.try_new instructions in
      let signature_details :=
        mkSignatureDetails (TransactionView.num_required_signatures transaction)
          (precompile_signature_details meta) in
      let* details := Details.try_from instructions in
      match details with
      | Err e => Done (Err e)
      | Ok details =>
          Done (Ok (mkMeta message_hash is_simple_vote_tx signature_details details
                      (im_instruction_data_len meta)))
      end)
  end.

End RuntimeTransaction.
End RuntimeTransaction.

(** A transaction with its metadata: what the runtime reads of the resolved view,
    the write locks it asks for, and the counts. *)
Record RuntimeTransaction := mkRuntime {
  transaction : SVMMessage;
  num_write_locks : Z;
  meta : TransactionMeta;
}.

(** What [RuntimeTransaction<ResolvedTransactionView>] shows. *)
Definition runtime_transaction {keys : AccountKeysEnv} (self : ResolvedTransactionView)
    (meta : TransactionMeta) : option (outcome RuntimeTransaction) :=
  match Message.message_of self with
  | None => None
  | Some m => Some (
      let* m := m in
      Done (mkRuntime m (SanitizedTransactionView.num_requested_write_locks (rv_view self)) meta))
  end.

(** ** The counts are exact *)

(** The precompiles are different programs. *)
Class MetaLaws (env : MetaEnv) : Prop := {
  meta_fee_laws :: FeeLaws meta_fees;
  precompiles_differ : NoDup [secp256k1_id; ed25519_id; secp256r1_id];
}.

Section Counts.
Context {env : MetaEnv} {laws : MetaLaws env}.

Lemma is_signature_spec keys flags i p :
  caches keys SignatureDetailsFilter.check_program_id flags -> keys !! Z.to_nat i = Some p ->
  exists flags',
    SignatureDetailsFilter.is_signature flags i p
    = Done (SignatureDetailsFilter.check_program_id p, flags') /\
    caches keys SignatureDetailsFilter.check_program_id flags'.
Proof.
  intros Hc Hk. unfold SignatureDetailsFilter.is_signature.
  destruct (caches_slot _ _ _ _ _ Hc Hk) as [->| ->]; [|by exists flags].
  eexists. split; [done|]. by apply caches_fill.
Qed.

Lemma precompile_status_spec p :
  SignatureDetailsFilter.check_program_id p
  = if bool_decide (p = secp256k1_id) then Secp256k1
    else if bool_decide (p = ed25519_id) then Ed25519
    else if bool_decide (p = secp256r1_id) then Secp256r1 else NotSignature.
Proof. done. Qed.

(** The counts of some instructions on top of given ones. *)
Definition with_counts (v : PrecompileSignatureDetails) (l : list (list Z * SVMInstruction))
    : PrecompileSignatureDetails :=
  mkPrecompile (num_secp256k1_instruction_signatures v + precompile_signatures secp256k1_id l)
    (num_ed25519_instruction_signatures v + precompile_signatures ed25519_id l)
    (num_secp256r1_instruction_signatures v + precompile_signatures secp256r1_id l).

Definition small_counts (v : PrecompileSignatureDetails) (room : Z) : Prop :=
  0 <= num_secp256k1_instruction_signatures v <= U64_MAX - room /\
  0 <= num_ed25519_instruction_signatures v <= U64_MAX - room /\
  0 <= num_secp256r1_instruction_signatures v <= U64_MAX - room.

Lemma process_signatures_spec keys b p ix room :
  caches keys SignatureDetailsFilter.check_program_id (filter_flags b) ->
  keys !! Z.to_nat (program_id_index ix) = Some p -> bytes_wf (ix_data ix) ->
  small_counts (value b) (room + 255) -> 0 <= room ->
  exists b', PrecompileSignatureDetailsBuilder.process_instruction b p ix = Done b' /\
    caches keys SignatureDetailsFilter.check_program_id (filter_flags b') /\
    value b' = with_counts (value b) [(p, ix)] /\ small_counts (value b') room.
Proof.
  intros Hc Hk Hd Hs Hr. unfold PrecompileSignatureDetailsBuilder.process_instruction.
  destruct (is_signature_spec keys _ _ p Hc Hk) as (flags & -> & Hc'). cbn [obind].
  assert (0 <= PrecompileSignatureDetailsBuilder.get_num_signatures_in_instruction ix <= 255) as Hn.
  { unfold PrecompileSignatureDetailsBuilder.get_num_signatures_in_instruction.
    destruct (ix_data ix); [done|]. apply Forall_inv in Hd. unfold is_byte in Hd. cbn. lia. }
  pose proof precompiles_differ as [[N1 [N2 _]%not_elem_of_cons]%not_elem_of_cons
    [[N3 _]%not_elem_of_cons _]%NoDup_cons]%NoDup_cons.
  destruct (value b) as [k1 ed r1]. unfold small_counts in Hs. cbn in Hs.
  eexists. split; [done|]. cbn [filter_flags value]. split; [done|].
  rewrite precompile_status_spec. unfold with_counts, precompile_signatures, small_counts. cbn.
  fold (PrecompileSignatureDetailsBuilder.get_num_signatures_in_instruction ix).
  repeat case_bool_decide; subst; try congruence; cbn;
    rewrite ?wrapping_add_small by lia; (split; [cbv [set_field eta_PrecompileSignatureDetails]; cbn; f_equal; lia|lia]).
Qed.

Lemma with_counts_cons v x l : with_counts (with_counts v [x]) l = with_counts v (x :: l).
Proof.
  assert (forall p, precompile_signatures p [x] + precompile_signatures p l
    = precompile_signatures p (x :: l)) as H.
  { intros p. unfold precompile_signatures. rewrite !zsum_cons. change (zsum _ []) with 0. lia. }
  unfold with_counts. cbn [num_secp256k1_instruction_signatures num_ed25519_instruction_signatures
    num_secp256r1_instruction_signatures]. by rewrite <- !Z.add_assoc, !H.
Qed.

Lemma scan_spec keys l : forall b len,
  programs_of keys l -> Forall (fun x => bytes_wf (ix_data x.2)) l ->
  Forall (fun x => zlen (ix_data x.2) <= U16_MAX) l ->
  caches keys SignatureDetailsFilter.check_program_id (filter_flags b) ->
  small_counts (value b) (255 * zlen l) -> 0 <= len <= U16_MAX ->
  InstructionMeta.scan l b len
  = Done (mkInstructionMeta (with_counts (value b) l)
      (Z.min U16_MAX (len + zsum (fun x => zlen (ix_data x.2)) l))).
Proof.
  induction l as [|[p ix] l IH]; intros b len Hp Hd Hl Hc Hs Hlen.
  - cbn. rewrite Z.add_0_r, Z.min_r by lia. do 2 f_equal. unfold with_counts, precompile_signatures.
    destruct (value b). cbn. f_equal; lia.
  - apply Forall_cons in Hp as [Hk Hp], Hd as [Hd1 Hd], Hl as [Hl1 Hl]. cbn [fst snd] in *.
    rewrite zlen_cons in Hs. pose proof (zlen_nonneg l). cbn [InstructionMeta.scan].
    destruct (process_signatures_spec keys b p ix (255 * zlen l) Hc Hk Hd1) as (b' & -> & Hc' & E & Hs').
    { eapply eq_ind; [exact Hs|lia]. }
    { lia. }
    cbn [obind]. pose proof (zlen_nonneg (ix_data ix)). unfold add_data_len.
    rewrite as_uint_small by lia. rewrite IH by (done || unfold saturating_add; lia).
    assert (0 <= zsum (fun x : list Z * SVMInstruction => zlen (ix_data x.2)) l).
    { apply zsum_nonneg, Forall_true. intros x. apply zlen_nonneg. }
    rewrite E, with_counts_cons, zsum_cons. cbn [snd]. do 2 f_equal. unfold saturating_add. lia.
Qed.

Lemma try_new_spec keys l :
  zlen keys <= FILTER_SIZE -> programs_of keys l -> Forall (fun x => bytes_wf (ix_data x.2)) l ->
  Forall (fun x => zlen (ix_data x.2) <= U16_MAX) l -> zlen l <= U16_MAX ->
  InstructionMeta.try_new l
  = Done (mkInstructionMeta
      (mkPrecompile (precompile_signatures secp256k1_id l) (precompile_signatures ed25519_id l)
         (precompile_signatures secp256r1_id l))
      (Z.min U16_MAX (zsum (fun x => zlen (ix_data x.2)) l))).
Proof.
  intros Hn Hp Hd Hl Hz. unfold InstructionMeta.try_new. pose proof (zlen_nonneg l).
  rewrite (scan_spec keys) by (done || lia || (apply caches_new; done) || (split_and!; cbn; lia)).
  done.
Qed.

End Counts.
