(* ===== verification/Processing.v ===== *)
(** * Processing and committing a batch of transactions

    The account loader, its cache and the loading of a transaction's accounts
    ([gorchain/svm/src/account_loader.rs]), the accounts kept for a failed
    transaction ([gorchain/svm/src/rollback_accounts.rs]), validation, execution
    and the batch loop ([gorchain/svm/src/transaction_processor.rs],
    [gorchain/svm/src/message_processor.rs],
    [gorchain/svm/src/transaction_account_state_info.rs]), and the commit of the
    results ([gorchain/runtime/src/account_saver.rs],
    [gorchain/runtime/src/bank.rs]).

    The instructions themselves run in an environment that says what one of
    them does to the transaction's accounts.  Metrics, timings, logs, recorded
    balances and the cache of compiled programs are left out; a batch for which
    that cache is full is abandoned as in the code. *)

From stdpp Require Import base numbers list gmap.
From Stdlib Require Import Lia.
From S2P Require Import Prelude Errors Pod TxBytes TxFrame TxFormat TxView ComputeBudget Fees.
Local Open Scope Z_scope.
Local Open Scope rust_scope.

Abbreviation TransactionAccount := (list Z * AccountSharedData)%type.

Record NonceInfo := mkNonce {
  nonce_address : list Z;
  nonce_account : AccountSharedData;
}.

Inductive NonceState : Type :=
| NonceUninitialized
| NonceInitialized (durable_nonce authority : list Z).

(** An instruction as the instructions sysvar shows it. *)
Record BorrowedAccountMeta := mkBorrowedMeta {
  meta_is_signer : bool;
  meta_is_writable : bool;
  meta_pubkey : list Z;
}.
Record BorrowedInstruction := mkBorrowed {
  borrowed_accounts : list BorrowedAccountMeta;
  borrowed_data : list Z;
  borrowed_program_id : list Z;
}.

(** ** The environment of the processor

    Ids and codecs of other crates, one feature, and whether the cache of compiled
    programs is full, with the built-in programs or with those of a message.

    [run_instruction] is the invocation of the top-level instruction with the
    given index on the accounts of the transaction: the preparation, the push of
    its frame, which stores the index in the instructions sysvar, the program or
    precompile, and the pop.  [InvokeContext] is what it keeps between the
    instructions of a transaction, such as the compute meter and the return
    data; [new_invoke_context] is the one a message starts with. *)
Class ProcEnv := {
  proc_fees :: FeeEnv;
  native_loader_id : list Z;
  sysvar_id : list Z;
  instructions_sysvar_id : list Z;
  PROGRAM_OWNERS : list (list Z);
  construct_instructions_data : list BorrowedInstruction -> list Z;
  upgradeable_program : AccountSharedData -> option (list Z);
  nonce_state : AccountSharedData -> option NonceState;
  formalize_loaded_transaction_data_size : bool;
  builtins_fill_program_cache : bool;
  program_cache_full : SVMMessage -> bool;
  InvokeContext : Type;
  new_invoke_context : SVMMessage -> InvokeContext;
  run_instruction : SVMMessage -> Z -> list Z * SVMInstruction -> Z -> InvokeContext ->
    list TransactionAccount -> result InstructionError unit * InvokeContext * list TransactionAccount;
}.

(** ** The account loader *)

Record AccountLoader := mkLoader {
  loaded_accounts : gmap (list Z) AccountSharedData;
  callbacks : gmap (list Z) AccountSharedData;
}.
#[export] Instance eta_AccountLoader : Eta AccountLoader := fun l =>
  mkLoader (loaded_accounts l) (callbacks l).

Record LoadedTransactionAccount := mkLoadedAccount {
  loaded_account : AccountSharedData;
  loaded_size : Z;
}.

(** Code that loads accounts: the loader's cache grows even when the code
    fails. *)
Definition L (A : Type) : Type := AccountLoader -> result TransactionError A * AccountLoader.
Definition lret {A} (a : A) : L A := fun l => (Ok a, l).
Definition lfail {A} (e : TransactionError) : L A := fun l => (Err e, l).
Definition lift {A} (r : result TransactionError A) : L A := fun l => (r, l).
Definition lbind {A B} (m : L A) (k : A -> L B) : L B := fun l =>
  match m l with
  | (Ok a, l) => k a l
  | (Err e, l) => (Err e, l)
  end.
Notation "'let@' x ':=' m 'in' k" := (lbind m (fun x => k))
  (at level 10, x pattern, m at level 100, k at level 200,
   format "'[v' 'let@'  x  ':='  m  'in' '//' k ']'") : rust_scope.

Module AccountLoader.

Definition new (bank_accounts : gmap (list Z) AccountSharedData) : AccountLoader :=
  mkLoader ∅ bank_accounts.

(** The callback into the bank; an account without lamports is not loaded. *)
Definition get_account_shared_data (self : AccountLoader) (k : list Z) : option AccountSharedData :=
  a ← callbacks self !! k; if lamports a =? 0 then None else Some a.

Definition do_load (self : AccountLoader) (account_key : list Z)
    : option AccountSharedData * bool :=
  match loaded_accounts self !! account_key with
  | Some account => (if lamports account =? 0 then None else Some account, false)
  | None =>
      match get_account_shared_data self account_key with
      | Some account => (Some account, true)
      | None => (None, true)
      end
  end.

Definition insert_loaded (self : AccountLoader) (k : list Z) (a : AccountSharedData)
    : AccountLoader :=
  self<|loaded_accounts := <[k := a]> (loaded_accounts self)|>.

Definition load_account (account_key : list Z) : L (option AccountSharedData) := fun self =>
  match do_load self account_key with
  | (Some account, false) => (Ok (Some account), self)
  | (None, false) => (Ok None, self)
  | (Some account, true) => (Ok (Some account), insert_loaded self account_key account)
  | (None, true) => (Ok None, insert_loaded self account_key account_default)
  end.

Definition TRANSACTION_ACCOUNT_BASE_SIZE : Z := 64.

Definition load_transaction_account {env : ProcEnv} (account_key : list Z)
    : L (option LoadedTransactionAccount) :=
  let base_account_size :=
    if formalize_loaded_transaction_data_size then TRANSACTION_ACCOUNT_BASE_SIZE else 0 in
  let@ account := load_account account_key in
  lret ((fun account =>
           mkLoadedAccount account
             (saturating_add U64_MAX base_account_size (zlen (data account)))) <$> account).

(** Storing a list of accounts, a later one over an earlier one. *)
Definition insert_all (self : AccountLoader) (accounts : list TransactionAccount) : AccountLoader :=
  foldl (fun self '(address, account) => insert_loaded self address account) self accounts.

End AccountLoader.
Import AccountLoader.

(** ** Accounts kept when a transaction fails *)

Inductive RollbackAccounts : Type :=
| FeePayerOnly (fee_payer : TransactionAccount)
| SameNonceAndFeePayer (nonce : TransactionAccount)
| SeparateNonceAndFeePayer (nonce fee_payer : TransactionAccount).

Module RollbackAccounts.

Definition new (nonce : option NonceInfo) (fee_payer_address : list Z)
    (fee_payer_account : AccountSharedData) (fee_payer_loaded_rent_epoch : Z) : RollbackAccounts :=
  match nonce with
  | Some nonce =>
      if bool_decide (fee_payer_address = nonce_address nonce) then
        SameNonceAndFeePayer
          (fee_payer_address, fee_payer_account<|data := data (nonce_account nonce)|>)
      else
        SeparateNonceAndFeePayer (nonce_address nonce, nonce_account nonce)
          (fee_payer_address, fee_payer_account)
  | None =>
      FeePayerOnly
        (fee_payer_address, fee_payer_account<|rent_epoch := fee_payer_loaded_rent_epoch|>)
  end.

(** [iter]: the fee payer first. *)
Definition iter (self : RollbackAccounts) : list TransactionAccount :=
  match self with
  | FeePayerOnly fee_payer => [fee_payer]
  | SameNonceAndFeePayer nonce => [nonce]
  | SeparateNonceAndFeePayer nonce fee_payer => [fee_payer; nonce]
  end.

Definition count (self : RollbackAccounts) : Z :=
  match self with
  | FeePayerOnly _ | SameNonceAndFeePayer _ => 1
  | SeparateNonceAndFeePayer _ _ => 2
  end.

Definition data_size (self : RollbackAccounts) : Z :=
  foldl (fun total x => saturating_add U64_MAX total (zlen (data x.2))) 0 (iter self).

End RollbackAccounts.

(** ** Loading the accounts of a transaction *)
Module Loading.

Definition ADDRESS_LOOKUP_TABLE_BASE_SIZE : Z := 8248.

Record LoadedTransactionAccounts := mkLoadedAccounts {
  accounts : list TransactionAccount;
  program_indices : list Z;
  loaded_accounts_data_size : Z;
}.

(** [increase_calculated_data_size] and [accumulate_and_check_loaded_account_data_size]:
    the new size, if it is within the limit. *)
Definition increase_calculated_data_size (loaded_accounts_data_size data_size_delta limit : Z)
    : result TransactionError Z :=
  let? data_size_delta :=
    ok_or (try_into U32_MAX data_size_delta) TransactionError.MaxLoadedAccountsDataSizeExceeded in
  let size := saturating_add U32_MAX loaded_accounts_data_size data_size_delta in
  if size >? limit then Err TransactionError.MaxLoadedAccountsDataSizeExceeded else Ok size.

Definition accumulate_and_check_loaded_account_data_size (accumulated account_data_size limit : Z)
    : result TransactionError Z :=
  let? account_data_size :=
    ok_or (try_into U32_MAX account_data_size) TransactionError.MaxLoadedAccountsDataSizeExceeded in
  let size := saturating_add U32_MAX accumulated account_data_size in
  if size >? limit then Err TransactionError.MaxLoadedAccountsDataSizeExceeded else Ok size.

Section Loading.
Context {env : ProcEnv}.

(** [account_keys.get(i).unwrap()]: the indexes of a sanitized message are
    valid. *)
Definition construct_instructions_account (m : SVMMessage) : AccountSharedData :=
  let decompile '(program_id, ix) :=
    mkBorrowed
      ((fun i => mkBorrowedMeta (message_is_signer m i) (message_is_writable m i)
                   (default pubkey_default (account_keys m !! Z.to_nat i)))
         <$> ix_account_indexes ix)
      (ix_data ix) program_id in
  mkShared 0 (construct_instructions_data (decompile <$> program_instructions m)) sysvar_id false 0.

Definition load_transaction_account (m : SVMMessage) (account_key : list Z) (account_index : Z)
    : L LoadedTransactionAccount :=
  let is_writable := message_is_writable m account_index in
  if bool_decide (account_key = instructions_sysvar_id) then
    lret (mkLoadedAccount (construct_instructions_account m) 0)
  else
    let@ loaded := AccountLoader.load_transaction_account account_key in
    match loaded with
    | Some loaded =>
        lret (if is_writable
              then mkLoadedAccount (Rent.update_rent_exempt_status_for_account (loaded_account loaded))
                     (loaded_size loaded)
              else loaded)
    | None =>
        let default_account := account_default<|rent_epoch := Rent.RENT_EXEMPT_RENT_EPOCH|> in
        lret (mkLoadedAccount default_account (zlen (data default_account)))
    end.

(** *** With formalized data sizes *)

(** The accounts collected so far, their size, and the program data accounts
    that were counted. *)
Record Collected := mkCollected {
  collected_accounts : list TransactionAccount;
  collected_size : Z;
  additional_loaded_accounts : gset (list Z);
}.

(** Counts the program data of an upgradeable program that is not among the
    transaction's keys, once. *)
Definition count_programdata (m : SVMMessage) (limit : Z) (account : AccountSharedData)
    (size : Z) (additional : gset (list Z)) : L (Z * gset (list Z)) :=
  if bool_decide (owner account = ComputeBudget.bpf_loader_upgradeable_id) then
    match upgradeable_program account with
    | None => lret (size, additional)
    | Some programdata_address =>
        if negb (bool_decide (programdata_address ∈ account_keys m))
           && negb (bool_decide (programdata_address ∈ additional))
        then
          let@ programdata := load_account programdata_address in
          match programdata with
          | None => lret (size, additional)
          | Some programdata =>
              let@ size := lift (increase_calculated_data_size size
                (saturating_add U64_MAX TRANSACTION_ACCOUNT_BASE_SIZE (zlen (data programdata)))
                limit) in
              lret (size, {[ programdata_address ]} ∪ additional)
          end
        else lret (size, additional)
    end
  else lret (size, additional).

Definition collect_loaded_account_simd186 (m : SVMMessage) (limit : Z) (key : list Z)
    (loaded : LoadedTransactionAccount) (c : Collected) : L Collected :=
  let@ size := lift (increase_calculated_data_size (collected_size c) (loaded_size loaded) limit) in
  let@ (size, additional) :=
    count_programdata m limit (loaded_account loaded) size (additional_loaded_accounts c) in
  lret (mkCollected (collected_accounts c ++ [(key, loaded_account loaded)]) size additional).

(** The loop over the keys after the fee payer, from [index]. *)
Fixpoint collect_all_simd186 (m : SVMMessage) (limit index : Z) (keys : list (list Z))
    (c : Collected) : L Collected :=
  match keys with
  | [] => lret c
  | key :: keys =>
      let@ loaded := load_transaction_account m key index in
      let@ c := collect_loaded_account_simd186 m limit key loaded c in
      collect_all_simd186 m limit (index + 1) keys c
  end.

Fixpoint program_indices_simd186 (instructions : list (list Z * SVMInstruction)) : L (list Z) :=
  match instructions with
  | [] => lret []
  | (program_id, instruction) :: instructions =>
      let@ program_account := load_account program_id in
      match program_account with
      | None => lfail TransactionError.ProgramAccountNotFound
      | Some program_account =>
          if negb (bool_decide (owner program_account = native_loader_id))
             && negb (bool_decide (owner program_account ∈ PROGRAM_OWNERS))
          then lfail TransactionError.InvalidProgramForExecution
          else
            let@ rest := program_indices_simd186 instructions in
            lret (program_id_index instruction :: rest)
      end
  end.

Definition load_transaction_accounts_simd186 (m : SVMMessage)
    (loaded_fee_payer_account : LoadedTransactionAccount) (limit : Z)
    : L LoadedTransactionAccounts :=
  let@ size := lift (increase_calculated_data_size 0
    (saturating_mul U64_MAX (num_lookup_tables m) ADDRESS_LOOKUP_TABLE_BASE_SIZE) limit) in
  let@ c := collect_loaded_account_simd186 m limit (Message.fee_payer m) loaded_fee_payer_account
              (mkCollected [] size ∅) in
  let@ c := collect_all_simd186 m limit 1 (tail (account_keys m)) c in
  let@ indices := program_indices_simd186 (program_instructions m) in
  lret (mkLoadedAccounts (collected_accounts c) indices (collected_size c)).

(** *** Without *)

Definition collect_loaded_account_old (limit : Z) (key : list Z)
    (loaded : LoadedTransactionAccount) (c : list TransactionAccount * Z)
    : result TransactionError (list TransactionAccount * Z) :=
  let? size := accumulate_and_check_loaded_account_data_size c.2 (loaded_size loaded) limit in
  Ok (c.1 ++ [(key, loaded_account loaded)], size).

Fixpoint collect_all_old (m : SVMMessage) (limit index : Z) (keys : list (list Z))
    (c : list TransactionAccount * Z) : L (list TransactionAccount * Z) :=
  match keys with
  | [] => lret c
  | key :: keys =>
      let@ loaded := load_transaction_account m key index in
      let@ c := lift (collect_loaded_account_old limit key loaded c) in
      collect_all_old m limit (index + 1) keys c
  end.

(** The owner of a program is a loader that is itself owned by the native
    loader; its size counts once. *)
Definition validate_loader (limit : Z) (owner_id : list Z) (size : Z)
    (validated_loaders : gset (list Z)) : L (Z * gset (list Z)) :=
  if bool_decide (owner_id ∈ validated_loaders) then lret (size, validated_loaders)
  else
    let@ owner_account := load_account owner_id in
    match owner_account with
    | None => lfail TransactionError.ProgramAccountNotFound
    | Some owner_account =>
        if negb (bool_decide (owner owner_account = native_loader_id))
        then lfail TransactionError.InvalidProgramForExecution
        else
          let@ size := lift (accumulate_and_check_loaded_account_data_size size
                               (zlen (data owner_account)) limit) in
          lret (size, {[ owner_id ]} ∪ validated_loaders)
    end.

Fixpoint program_indices_old (limit : Z) (instructions : list (list Z * SVMInstruction))
    (size : Z) (validated_loaders : gset (list Z)) : L (list Z * Z) :=
  match instructions with
  | [] => lret ([], size)
  | (program_id, instruction) :: instructions =>
      let@ (index, (size, validated_loaders)) :=
        (if bool_decide (program_id = native_loader_id) then lret (U16_MAX, (size, validated_loaders))
         else
           let@ program_account := load_account program_id in
           match program_account with
           | None => lfail TransactionError.ProgramAccountNotFound
           | Some program_account =>
               if bool_decide (owner program_account = native_loader_id)
               then lret (program_id_index instruction, (size, validated_loaders))
               else
                 let@ validated := validate_loader limit (owner program_account) size
                                     validated_loaders in
                 lret (program_id_index instruction, validated)
           end) in
      let@ (rest, size) := program_indices_old limit instructions size validated_loaders in
      lret (index :: rest, size)
  end.

Definition load_transaction_accounts_old (m : SVMMessage)
    (loaded_fee_payer_account : LoadedTransactionAccount) (limit : Z)
    : L LoadedTransactionAccounts :=
  let@ c := lift (collect_loaded_account_old limit (Message.fee_payer m) loaded_fee_payer_account
                    ([], 0)) in
  let@ (accounts, size) := collect_all_old m limit 1 (tail (account_keys m)) c in
  let@ (indices, size) := program_indices_old limit (program_instructions m) size ∅ in
  lret (mkLoadedAccounts accounts indices size).

Definition load_transaction_accounts (m : SVMMessage)
    (loaded_fee_payer_account : LoadedTransactionAccount) (limit : Z)
    : L LoadedTransactionAccounts :=
  if formalize_loaded_transaction_data_size
  then load_transaction_accounts_simd186 m loaded_fee_payer_account limit
  else load_transaction_accounts_old m loaded_fee_payer_account limit.

End Loading.
End Loading.
Import Loading.

(** ** Results of the stages *)

(** What the check of a transaction against the bank gives: the advanced nonce
    account of a nonce transaction, and the fee with the limit on loaded
    account data. *)
Record CheckedTransactionDetails := mkChecked {
  checked_nonce : option NonceInfo;
  compute_budget_and_limits : result TransactionError (FeeDetails * Z);
}.

Record ValidatedTransactionDetails := mkValidated {
  validated_rollback_accounts : RollbackAccounts;
  loaded_accounts_bytes_limit : Z;
  validated_fee_details : FeeDetails;
  loaded_fee_payer_account : LoadedTransactionAccount;
}.

Record LoadedTransaction := mkLoadedTransaction {
  transaction_accounts : list TransactionAccount;
  transaction_program_indices : list Z;
  loaded_fee_details : FeeDetails;
  loaded_rollback_accounts : RollbackAccounts;
  transaction_data_size : Z;
}.
#[export] Instance eta_LoadedTransaction : Eta LoadedTransaction := fun t =>
  mkLoadedTransaction (transaction_accounts t) (transaction_program_indices t)
    (loaded_fee_details t) (loaded_rollback_accounts t) (transaction_data_size t).

Record FeesOnlyTransaction := mkFeesOnly {
  load_error : TransactionError;
  fees_only_rollback_accounts : RollbackAccounts;
  fees_only_fee_details : FeeDetails;
}.

Inductive TransactionLoadResult : Type :=
| Loaded (t : LoadedTransaction)
| FeesOnly (t : FeesOnlyTransaction)
| NotLoaded (e : TransactionError).

Record ExecutedTransaction := mkExecuted {
  loaded_transaction : LoadedTransaction;
  execution_status : result TransactionError unit;
}.

Inductive ProcessedTransaction : Type :=
| ExecutedTx (t : ExecutedTransaction)
| FeesOnlyTx (t : FeesOnlyTransaction).

Abbreviation TransactionProcessingResult := (result TransactionError ProcessedTransaction).
Abbreviation CheckedMessage :=
  (SVMMessage * result TransactionError CheckedTransactionDetails)%type.

Module Processor.
Section Processor.
Context {env : ProcEnv}.

(** ** Validation *)

Definition validate_transaction_nonce (m : SVMMessage) (nonce_info : NonceInfo)
    (next_durable_nonce : list Z) : L unit :=
  let@ current_nonce := AccountLoader.load_transaction_account (nonce_address nonce_info) in
  let nonce_is_valid :=
    current_nonce ← current_nonce;
    versions ← (if bool_decide (owner (loaded_account current_nonce) = system_id)
                then nonce_state (loaded_account current_nonce) else None);
    match versions with
    | NonceInitialized durable_nonce authority =>
        let nonce_can_be_advanced := negb (bool_decide (durable_nonce = next_durable_nonce)) in
        let nonce_authority_is_valid :=
          existsb (fun x => bool_decide (x.2 = authority) && message_is_signer m x.1)
            (imap (fun i k => (Z.of_nat i, k)) (account_keys m)) in
        if nonce_authority_is_valid then Some nonce_can_be_advanced else None
    | NonceUninitialized => None
    end in
  match nonce_is_valid with
  | None => lfail TransactionError.BlockhashNotFound
  | Some false => lfail TransactionError.AccountNotFound
  | Some true => lret tt
  end.

Definition validate_transaction_fee_payer (m : SVMMessage)
    (checked_details : CheckedTransactionDetails) : L ValidatedTransactionDetails :=
  let@ (fee_details, limit) := lift (compute_budget_and_limits checked_details) in
  let fee_payer_address := Message.fee_payer m in
  let@ loaded_fee_payer := AccountLoader.load_transaction_account fee_payer_address in
  match loaded_fee_payer with
  | None => lfail TransactionError.AccountNotFound
  | Some loaded_fee_payer =>
      let fee_payer_loaded_rent_epoch := rent_epoch (loaded_account loaded_fee_payer) in
      let account := Rent.update_rent_exempt_status_for_account (loaded_account loaded_fee_payer) in
      let fee_payer_index := 0 in
      let@ account := lift (Rent.validate_fee_payer fee_payer_address account fee_payer_index
                              (total_fee fee_details)) in
      let rollback_accounts :=
        RollbackAccounts.new (checked_nonce checked_details) fee_payer_address account
          fee_payer_loaded_rent_epoch in
      lret (mkValidated rollback_accounts limit fee_details
              (mkLoadedAccount account (loaded_size loaded_fee_payer)))
  end.

Definition validate_transaction_nonce_and_fee_payer (m : SVMMessage)
    (checked_details : CheckedTransactionDetails) (next_durable_nonce : list Z)
    : L ValidatedTransactionDetails :=
  let@ _ :=
    match checked_nonce checked_details with
    | Some nonce_info => validate_transaction_nonce m nonce_info next_durable_nonce
    | None => lret tt
    end in
  validate_transaction_fee_payer m checked_details.

(** [load_transaction]: never fails as a whole. *)
Definition load_transaction (m : SVMMessage)
    (validation_result : result TransactionError ValidatedTransactionDetails)
    (self : AccountLoader) : TransactionLoadResult * AccountLoader :=
  match validation_result with
  | Err e => (NotLoaded e, self)
  | Ok tx_details =>
      match load_transaction_accounts m (loaded_fee_payer_account tx_details)
              (loaded_accounts_bytes_limit tx_details) self with
      | (Ok loaded, self) =>
          (Loaded (mkLoadedTransaction (accounts loaded) (program_indices loaded)
                     (validated_fee_details tx_details) (validated_rollback_accounts tx_details)
                     (loaded_accounts_data_size loaded)), self)
      | (Err err, self) =>
          (FeesOnly (mkFeesOnly err (validated_rollback_accounts tx_details)
                       (validated_fee_details tx_details)), self)
      end
  end.

(** ** Execution *)

Definition transaction_accounts_lamports_sum (accounts : list TransactionAccount) : option Z :=
  foldl (fun sum x => s ← sum; checked_add U128_MAX s (lamports x.2)) (Some 0) accounts.

(** [process_message]: the instructions in order, from the one with index
    [index], until one fails. *)
Fixpoint process_message (m : SVMMessage) (index : Z) (instructions : list (list Z * SVMInstruction))
    (program_indices : list Z) (invoke_context : InvokeContext) (accounts : list TransactionAccount)
    : result TransactionError unit * list TransactionAccount :=
  match instructions, program_indices with
  | instruction :: instructions, program_index :: program_indices =>
      match run_instruction m index instruction program_index invoke_context accounts with
      | (Ok _, invoke_context, accounts) =>
          process_message m (index + 1) instructions program_indices invoke_context accounts
      | (Err err, _, accounts) => (Err (TransactionError.InstructionError (as_u8 index) err), accounts)
      end
  | _, _ => (Ok tt, accounts)
  end.

(** [TransactionAccountStateInfo::new]: the rent states of the writable
    accounts. *)
Definition account_state_infos (m : SVMMessage) (accounts : list TransactionAccount)
    : list (option Rent.RentState) :=
  imap (fun i _ =>
          if message_is_writable m (Z.of_nat i)
          then (fun x => Rent.get_account_rent_state x.2) <$> accounts !! i
          else None)
    (account_keys m).

Fixpoint verify_changes (i : Z) (pre post : list (option Rent.RentState))
    (accounts : list TransactionAccount) : result TransactionError unit :=
  match pre, post with
  | pre_state :: pre, post_state :: post =>
      Rent.check_rent_state pre_state post_state
        (from_option fst pubkey_default (accounts !! Z.to_nat i)) i ;?
      verify_changes (i + 1) pre post accounts
  | _, _ => Ok tt
  end.

Definition execute_loaded_transaction (m : SVMMessage) (loaded : LoadedTransaction)
    : ExecutedTransaction :=
  let lamports_before_tx :=
    default 0 (transaction_accounts_lamports_sum (transaction_accounts loaded)) in
  let pre_account_state_info := account_state_infos m (transaction_accounts loaded) in
  let (process_result, accounts) :=
    process_message m 0 (program_instructions m) (transaction_program_indices loaded)
      (new_invoke_context m) (transaction_accounts loaded) in
  let status :=
    process_result ;?
    verify_changes 0 pre_account_state_info (account_state_infos m accounts) accounts in
  let balanced :=
    match transaction_accounts_lamports_sum accounts with
    | Some lamports_after_tx => lamports_before_tx =? lamports_after_tx
    | None => false
    end in
  let status :=
    match status with
    | Ok _ => if negb balanced then Err TransactionError.UnbalancedTransaction else Ok tt
    | Err e => Err e
    end in
  mkExecuted loaded<|transaction_accounts := accounts|> status.

Definition was_successful (t : ExecutedTransaction) : bool :=
  match execution_status t with Ok _ => true | Err _ => false end.

(** The accounts a successful transaction changes: the writable ones, except
    those that are only invoked.  [update_accounts_for_successful_tx] and
    [collect_accounts_for_successful_tx] select them alike. *)
Fixpoint changed_accounts (m : SVMMessage) (i : Z) (accounts : list TransactionAccount)
    : list TransactionAccount :=
  match accounts with
  | [] => []
  | (address, account) :: accounts =>
      if i <? zlen (account_keys m) then
        if negb (message_is_writable m i) then changed_accounts m (i + 1) accounts
        else if Message.is_invoked m i && negb (Message.is_instruction_account m i)
        then changed_accounts m (i + 1) accounts
        else (address, account) :: changed_accounts m (i + 1) accounts
      else []
  end.

Definition update_accounts_for_successful_tx (m : SVMMessage)
    (accounts : list TransactionAccount) (self : AccountLoader) : AccountLoader :=
  insert_all self (changed_accounts m 0 accounts).

Definition update_accounts_for_failed_tx (rollback_accounts : RollbackAccounts)
    (self : AccountLoader) : AccountLoader :=
  insert_all self (RollbackAccounts.iter rollback_accounts).

Definition update_accounts_for_executed_tx (m : SVMMessage) (t : ExecutedTransaction)
    (self : AccountLoader) : AccountLoader :=
  if was_successful t
  then update_accounts_for_successful_tx m (transaction_accounts (loaded_transaction t)) self
  else update_accounts_for_failed_tx (loaded_rollback_accounts (loaded_transaction t)) self.

(** ** The batch *)

(** One round of the loop; [None] when the cache of compiled programs is
    full. *)
Definition process_transaction (next_durable_nonce : list Z) (m : SVMMessage)
    (check_result : result TransactionError CheckedTransactionDetails) (self : AccountLoader)
    : option (TransactionProcessingResult * AccountLoader) :=
  let (validate_result, self) :=
    match check_result with
    | Ok tx_details =>
        validate_transaction_nonce_and_fee_payer m tx_details next_durable_nonce self
    | Err e => (Err e, self)
    end in
  match load_transaction m validate_result self with
  | (NotLoaded err, self) => Some (Err err, self)
  | (FeesOnly fees_only_tx, self) =>
      Some (Ok (FeesOnlyTx fees_only_tx),
            update_accounts_for_failed_tx (fees_only_rollback_accounts fees_only_tx) self)
  | (Loaded loaded, self) =>
      if program_cache_full m then None
      else
        let executed_tx := execute_loaded_transaction m loaded in
        Some (Ok (ExecutedTx executed_tx), update_accounts_for_executed_tx m executed_tx self)
  end.

Fixpoint process_batch (next_durable_nonce : list Z) (txs : list CheckedMessage)
    (self : AccountLoader) : option (list TransactionProcessingResult * AccountLoader) :=
  match txs with
  | [] => Some ([], self)
  | (m, check_result) :: txs =>
      x ← process_transaction next_durable_nonce m check_result self;
      y ← process_batch next_durable_nonce txs x.2;
      Some (x.1 :: y.1, y.2)
  end.

Definition load_and_execute_sanitized_transactions (next_durable_nonce : list Z)
    (txs : list CheckedMessage) (bank_accounts : gmap (list Z) AccountSharedData)
    : list TransactionProcessingResult :=
  let aborted := replicate (length txs) (Err TransactionError.ProgramCacheHitMaxLimit) in
  if builtins_fill_program_cache then aborted
  else
    match process_batch next_durable_nonce txs (AccountLoader.new bank_accounts) with
    | Some (results, _) => results
    | None => aborted
    end.

(** ** Committing *)

Definition fee_details_of (t : ProcessedTransaction) : FeeDetails :=
  match t with
  | ExecutedTx t => loaded_fee_details (loaded_transaction t)
  | FeesOnlyTx t => fees_only_fee_details t
  end.

(** The accounts one result stores. *)
Definition accounts_to_store (m : SVMMessage) (r : TransactionProcessingResult)
    : list TransactionAccount :=
  match r with
  | Err _ => []
  | Ok (ExecutedTx t) =>
      match execution_status t with
      | Ok _ => changed_accounts m 0 (transaction_accounts (loaded_transaction t))
      | Err _ => RollbackAccounts.iter (loaded_rollback_accounts (loaded_transaction t))
      end
  | Ok (FeesOnlyTx t) => RollbackAccounts.iter (fees_only_rollback_accounts t)
  end.

Definition collect_accounts_to_store (txs : list SVMMessage)
    (results : list TransactionProcessingResult) : list TransactionAccount :=
  concat (zip_with accounts_to_store txs results).

(** [store_accounts_seq]: in order, a later account over an earlier one. *)
Definition store_accounts (db : gmap (list Z) AccountSharedData)
    (accounts : list TransactionAccount) : gmap (list Z) AccountSharedData :=
  foldl (fun db '(address, account) => <[address := account]> db) db accounts.

Definition filter_program_errors_and_collect_fee_details
    (results : list TransactionProcessingResult) (c : CollectorFeeDetails) : CollectorFeeDetails :=
  Distribution.accumulate c
    (foldl (fun acc r =>
              match r with
              | Ok t => accumulate_details acc (fee_details_of t)
              | Err _ => acc
              end) fee_details_default results).

Definition commit_transactions (txs : list SVMMessage)
    (results : list TransactionProcessingResult) (bank : Bank) : Bank :=
  bank<|bank_accounts := store_accounts (bank_accounts bank)
                           (collect_accounts_to_store txs results)|>
      <|collector_fee_details :=
          filter_program_errors_and_collect_fee_details results (collector_fee_details bank)|>.

(** Executing and committing a batch whose transactions were checked. *)
Definition execute_and_commit (next_durable_nonce : list Z) (txs : list CheckedMessage)
    (bank : Bank) : Bank :=
  commit_transactions txs.*1
    (load_and_execute_sanitized_transactions next_durable_nonce txs (bank_accounts bank)) bank.

End Processor.
End Processor.
