(* ===== verification/Locks.v ===== *)
(** * Account locks

    The locks that let batches of transactions run at the same time
    ([gorchain/accounts-db/src/account_locks.rs],
    [gorchain/accounts-db/src/accounts.rs]), the batch that owns them
    ([gorchain/runtime/src/transaction_batch.rs]) and the way the bank takes
    them ([gorchain/runtime/src/bank.rs]).

    The two counting maps represent the list of the granted transactions.  A
    transaction is granted exactly when its keys are valid and conflict with no
    granted one, and releasing a batch forgets exactly its transactions. *)

From stdpp Require Import base numbers list gmap sets.
From Stdlib Require Import Lia.
From S2P Require Import Prelude Errors Pod TxBytes TxFrame TxFormat TxView ComputeBudget Fees.
Local Open Scope Z_scope.
Local Open Scope rust_scope.

(** The keys of a transaction, each with whether it is writable. *)
Abbreviation LockKeys := (list (list Z * bool)).

Record AccountLocks := mkLocks {
  write_locks : gmap (list Z) Z;
  readonly_locks : gmap (list Z) Z;
}.
#[export] Instance eta_AccountLocks : Eta AccountLocks := fun l =>
  mkLocks (write_locks l) (readonly_locks l).

Module AccountLocks.

Definition default : AccountLocks := mkLocks ∅ ∅.

Definition is_locked (locks : gmap (list Z) Z) (key : list Z) : bool :=
  match locks !! key with Some count => 0 <? count | None => false end.
Definition is_locked_readonly (self : AccountLocks) : list Z -> bool :=
  is_locked (readonly_locks self).
Definition is_locked_write (self : AccountLocks) : list Z -> bool := is_locked (write_locks self).

Definition can_read_lock (self : AccountLocks) (key : list Z) : bool :=
  negb (is_locked_write self key).
Definition can_write_lock (self : AccountLocks) (key : list Z) : bool :=
  negb (is_locked_readonly self key) && negb (is_locked_write self key).

(** [*entry(key).or_default() += 1], in 64 bits. *)
Definition add_lock (locks : gmap (list Z) Z) (key : list Z) : gmap (list Z) Z :=
  <[key := wrapping_add U64_MAX (from_option id 0 (locks !! key)) 1]> locks.
Definition lock_readonly (self : AccountLocks) (key : list Z) : AccountLocks :=
  self<|readonly_locks := add_lock (readonly_locks self) key|>.
Definition lock_write (self : AccountLocks) (key : list Z) : AccountLocks :=
  self<|write_locks := add_lock (write_locks self) key|>.

(** The entry goes when its count reaches zero; a missing entry is only noticed
    by a debug assertion. *)
Definition remove_lock (locks : gmap (list Z) Z) (key : list Z) : gmap (list Z) Z :=
  match locks !! key with
  | Some count =>
      let count := wrapping_sub U64_MAX count 1 in
      if count =? 0 then delete key locks else <[key := count]> locks
  | None => locks
  end.
Definition unlock_readonly (self : AccountLocks) (key : list Z) : AccountLocks :=
  self<|readonly_locks := remove_lock (readonly_locks self) key|>.
Definition unlock_write (self : AccountLocks) (key : list Z) : AccountLocks :=
  self<|write_locks := remove_lock (write_locks self) key|>.

Fixpoint can_lock_accounts (self : AccountLocks) (keys : LockKeys) : result TransactionError unit :=
  match keys with
  | [] => Ok tt
  | (key, writable) :: keys =>
      if writable then
        if negb (can_write_lock self key) then Err TransactionError.AccountInUse
        else can_lock_accounts self keys
      else if negb (can_read_lock self key) then Err TransactionError.AccountInUse
      else can_lock_accounts self keys
  end.

Definition lock_accounts (self : AccountLocks) (keys : LockKeys) : AccountLocks :=
  foldl (fun self '(key, writable) =>
           if writable : bool then lock_write self key else lock_readonly self key) self keys.

Definition unlock_accounts (self : AccountLocks) (keys : LockKeys) : AccountLocks :=
  foldl (fun self '(key, writable) =>
           if writable : bool then unlock_write self key else unlock_readonly self key) self keys.

Definition try_lock_accounts (self : AccountLocks) (keys : LockKeys)
    : result TransactionError unit * AccountLocks :=
  match can_lock_accounts self keys with
  | Ok _ => (Ok tt, lock_accounts self keys)
  | Err e => (Err e, self)
  end.

(** The second pass of [try_lock_transaction_batch]: every available
    transaction is locked. *)
Fixpoint lock_available (self : AccountLocks) (batch : list (result TransactionError LockKeys))
    : list (result TransactionError unit) * AccountLocks :=
  match batch with
  | [] => ([], self)
  | Ok keys :: batch =>
      let '(rs, self) := lock_available (lock_accounts self keys) batch in (Ok tt :: rs, self)
  | Err e :: batch => let '(rs, self) := lock_available self batch in (Err e :: rs, self)
  end.

(** All transactions are tested against the locks of other batches first, so
    that those of one batch may conflict with each other. *)
Definition try_lock_transaction_batch (self : AccountLocks)
    (validated_batch_keys : list (result TransactionError LockKeys))
    : list (result TransactionError unit) * AccountLocks :=
  lock_available self
    (map (fun validated_keys =>
            match validated_keys with
            | Ok keys =>
                match can_lock_accounts self keys with Err e => Err e | Ok _ => Ok keys end
            | Err e => Err e
            end) validated_batch_keys).

End AccountLocks.

(** ** Validation *)

Definition USE_ACCOUNT_LOCK_SET_SIZE : Z := 32.

(** Whether some key is already in the set when it is inserted. *)
Fixpoint any_inserted_twice (set : gset (list Z)) (keys : list (list Z)) : bool :=
  match keys with
  | [] => false
  | key :: keys =>
      if bool_decide (key ∈ set) then true else any_inserted_twice ({[ key ]} ∪ set) keys
  end.

(** The two nested loops over the positions. *)
Fixpoint any_equal_later (keys : list (list Z)) : bool :=
  match keys with
  | [] => false
  | key :: keys => existsb (fun key' => bool_decide (key = key')) keys || any_equal_later keys
  end.

Definition has_duplicates (account_keys : list (list Z)) : bool :=
  if USE_ACCOUNT_LOCK_SET_SIZE <=? zlen account_keys then any_inserted_twice ∅ account_keys
  else any_equal_later account_keys.

Definition validate_account_locks (account_keys : list (list Z)) (tx_account_lock_limit : Z)
    : result TransactionError unit :=
  if tx_account_lock_limit <? zlen account_keys then Err TransactionError.TooManyAccountLocks
  else if has_duplicates account_keys then Err TransactionError.AccountLoadedTwice
  else Ok tt.

(** ** The accounts database and the bank *)

Definition accounts_with_is_writable (m : SVMMessage) : LockKeys :=
  imap (fun index key => (key, message_is_writable m (Z.of_nat index))) (account_keys m).

Module Accounts.

(** Evaluated for the whole batch before the locks are taken. *)
Definition validated_keys (tx_account_lock_limit : Z) (tx : SVMMessage)
    (result_ : result TransactionError unit) : result TransactionError LockKeys :=
  result_ ;?
  validate_account_locks (account_keys tx) tx_account_lock_limit ;?
  Ok (accounts_with_is_writable tx).

Definition validate_batch (txs : list SVMMessage) (results : list (result TransactionError unit))
    (tx_account_lock_limit : Z) : list (result TransactionError LockKeys) :=
  zip_with (validated_keys tx_account_lock_limit) txs results.

(** Without relaxed locks every transaction is tested against the earlier ones
    of the batch too. *)
Fixpoint try_lock_each (self : AccountLocks) (batch : list (result TransactionError LockKeys))
    : list (result TransactionError unit) * AccountLocks :=
  match batch with
  | [] => ([], self)
  | Ok keys :: batch =>
      let '(r, self) := AccountLocks.try_lock_accounts self keys in
      let '(rs, self) := try_lock_each self batch in
      (r :: rs, self)
  | Err e :: batch => let '(rs, self) := try_lock_each self batch in (Err e :: rs, self)
  end.

Definition lock_accounts (self : AccountLocks) (txs : list SVMMessage)
    (results : list (result TransactionError unit)) (tx_account_lock_limit : Z)
    (relax_intrabatch_account_locks : bool) : list (result TransactionError unit) * AccountLocks :=
  let validated_batch_keys := validate_batch txs results tx_account_lock_limit in
  if relax_intrabatch_account_locks
  then AccountLocks.try_lock_transaction_batch self validated_batch_keys
  else try_lock_each self validated_batch_keys.

Definition is_ok {A} (r : result TransactionError A) : bool :=
  match r with Ok _ => true | Err _ => false end.

Definition unlock_accounts (self : AccountLocks)
    (txs_and_results : list (SVMMessage * result TransactionError unit)) : AccountLocks :=
  if negb (existsb (fun x => is_ok x.2) txs_and_results) then self
  else
    foldl (fun self '(tx, res) =>
             if is_ok res then AccountLocks.unlock_accounts self (accounts_with_is_writable tx)
             else self) self txs_and_results.

End Accounts.

Module BankLocks.

(** The largest limit is a constant of another crate. *)
Definition get_transaction_account_lock_limit (MAX_TX_ACCOUNT_LOCKS : Z) (configured : option Z)
    (increase_tx_account_lock_limit : bool) : Z :=
  match configured with
  | Some transaction_account_lock_limit => transaction_account_lock_limit
  | None => if increase_tx_account_lock_limit then MAX_TX_ACCOUNT_LOCKS else 64
  end.

(** With relaxed locks a message may be taken once per batch. *)
Fixpoint refuse_repeated (message_hash : SVMMessage -> list Z) (seen : gset (list Z))
    (txs : list SVMMessage) (tx_results : list (result TransactionError unit))
    : list (result TransactionError unit) :=
  match txs, tx_results with
  | tx :: txs, Ok _ :: tx_results =>
      if bool_decide (message_hash tx ∈ seen)
      then Err TransactionError.AlreadyProcessed :: refuse_repeated message_hash seen txs tx_results
      else Ok tt :: refuse_repeated message_hash ({[ message_hash tx ]} ∪ seen) txs tx_results
  | _ :: txs, Err e :: tx_results => Err e :: refuse_repeated message_hash seen txs tx_results
  | _, _ => []
  end.

Definition try_lock_accounts_with_results (message_hash : SVMMessage -> list Z) (limit : Z)
    (relax_intrabatch_account_locks : bool) (self : AccountLocks) (txs : list SVMMessage)
    (tx_results : list (result TransactionError unit))
    : list (result TransactionError unit) * AccountLocks :=
  let tx_results :=
    if relax_intrabatch_account_locks then refuse_repeated message_hash ∅ txs tx_results
    else tx_results in
  Accounts.lock_accounts self txs tx_results limit relax_intrabatch_account_locks.

End BankLocks.

(** ** The batch that owns the locks *)

Record TransactionBatch := mkBatch {
  lock_results : list (result TransactionError unit);
  sanitized_txs : list SVMMessage;
  needs_unlock : bool;
}.
#[export] Instance eta_TransactionBatch : Eta TransactionBatch := fun b =>
  mkBatch (lock_results b) (sanitized_txs b) (needs_unlock b).

Module TransactionBatch.

Definition new (lock_results : list (result TransactionError unit)) (txs : list SVMMessage)
    : outcome TransactionBatch :=
  if negb (zlen lock_results =? zlen txs) then Panicked else Done (mkBatch lock_results txs true).

Definition txs_and_results (self : TransactionBatch)
    : list (SVMMessage * result TransactionError unit) :=
  zip (sanitized_txs self) (lock_results self).

(** [unlock_failures]: a transaction may go from locked to failed, never
    back. *)
Definition unlock_failures (self : TransactionBatch)
    (transaction_results : list (result TransactionError unit)) (locks : AccountLocks)
    : outcome (TransactionBatch * AccountLocks) :=
  if negb (zlen (lock_results self) =? zlen transaction_results) then Panicked
  else if negb (needs_unlock self) then Done (self, locks)
  else
    let pairs := zip (txs_and_results self) transaction_results in
    if existsb (fun x => Accounts.is_ok x.2 && negb (Accounts.is_ok x.1.2)) pairs then Panicked
    else
      let failures :=
        (filter (fun x => negb (Accounts.is_ok x.2) && Accounts.is_ok x.1.2 = true) pairs).*1 in
      Done (self<|lock_results := transaction_results|>, Accounts.unlock_accounts locks failures).

(** The destructor. *)
Definition drop (self : TransactionBatch) (locks : AccountLocks) : TransactionBatch * AccountLocks :=
  if needs_unlock self
  then (self<|needs_unlock := false|>, Accounts.unlock_accounts locks (txs_and_results self))
  else (self, locks).

End TransactionBatch.

(** ** The locks represent a bag of keys *)

Definition count (w : bool) (k : list Z) (ks : LockKeys) : Z :=
  zlen (filter (fun x => x = (k, w)) ks).

Lemma count_cons w k x ks :
  count w k (x :: ks) = count w k ks + if decide (x = (k, w)) then 1 else 0.
Proof.
  unfold count. rewrite filter_cons. destruct (decide (x = (k, w))); [rewrite zlen_cons|]; lia.
Qed.

Lemma count_nonneg w k ks : 0 <= count w k ks.
Proof. apply zlen_nonneg. Qed.

Lemma count_le w k ks : count w k ks <= zlen ks.
Proof.
  induction ks as [|x ks IH]; [done|]. rewrite count_cons, zlen_cons. destruct (decide _); lia.
Qed.

#[export] Instance count_proper w k : Proper ((≡ₚ) ==> eq) (count w k).
Proof. intros ks ks' H. unfold count, zlen. by rewrite H. Qed.

Lemma count_pos w k ks : 0 < count w k ks <-> (k, w) ∈ ks.
Proof.
  induction ks as [|x ks IH]; [split; [done|by intros ?%not_elem_of_nil]|].
  rewrite count_cons, elem_of_cons. pose proof (count_nonneg w k ks).
  destruct (decide (x = (k, w))) as [->|Hne]; [split; [auto|lia]|].
  rewrite Z.add_0_r, IH. split; [auto|]. intros [E|]; [by symmetry in E|done].
Qed.

Definition entry (n : Z) : option Z := if decide (n = 0) then None else Some n.

Definition represents (L : AccountLocks) (ks : LockKeys) : Prop :=
  forall k, write_locks L !! k = entry (count true k ks) /\
    readonly_locks L !! k = entry (count false k ks).

#[export] Instance represents_proper : Proper (eq ==> (≡ₚ) ==> iff) represents.
Proof.
  intros L ? <- ks ks' H. unfold represents. split; intros R k; specialize (R k).
  - by rewrite <- !H.
  - by rewrite !H.
Qed.

Lemma represents_nil L : represents L [] <-> L = AccountLocks.default.
Proof.
  split; [|intros ->; done]. intros R. destruct L as [w r]. unfold AccountLocks.default. f_equal.
  - apply map_eq. intros k. rewrite lookup_empty. apply (R k).
  - apply map_eq. intros k. rewrite lookup_empty. apply (R k).
Qed.

Lemma add_lock_entry w m key ks :
  (forall k, m !! k = entry (count w k ks)) -> zlen ks < U64_MAX ->
  forall k, AccountLocks.add_lock m key !! k = entry (count w k ((key, w) :: ks)).
Proof.
  intros H Hl k. unfold AccountLocks.add_lock. rewrite count_cons.
  pose proof (count_nonneg w key ks). pose proof (count_le w key ks).
  destruct (decide (key = k)) as [->|Hne].
  - rewrite lookup_insert_eq, H, (decide_True (P := (k, w) = (k, w))) by done.
    unfold entry. rewrite (decide_False (P := _ + 1 = 0)) by lia. f_equal.
    destruct (decide (count w k ks = 0)) as [->|]; cbn; [done|]. apply wrapping_add_small. unfold id. lia.
  - rewrite lookup_insert_ne, H, (decide_False (P := (key, w) = (k, w))), Z.add_0_r by congruence. done.
Qed.

Lemma remove_lock_entry w m key ks :
  (forall k, m !! k = entry (count w k ((key, w) :: ks))) -> zlen ks < U64_MAX ->
  forall k, AccountLocks.remove_lock m key !! k = entry (count w k ks).
Proof.
  intros H Hl k. unfold AccountLocks.remove_lock. pose proof (count_nonneg w key ks).
  pose proof (count_le w key ks). pose proof (H key) as Hk. rewrite count_cons, decide_True in Hk by done.
  unfold entry in Hk. rewrite decide_False in Hk by lia. rewrite Hk, wrapping_sub_small by lia.
  replace (count w key ks + 1 - 1) with (count w key ks) by lia.
  destruct (decide (key = k)) as [->|Hne].
  - unfold entry. destruct (Z.eqb_spec (count w k ks) 0) as [E|E].
    + by rewrite lookup_delete_eq, decide_True.
    + by rewrite lookup_insert_eq, decide_False.
  - specialize (H k). rewrite count_cons, decide_False, Z.add_0_r in H by congruence.
    destruct (_ =? 0); [by rewrite lookup_delete_ne|by rewrite lookup_insert_ne].
Qed.

Lemma other_kind w k key ks : count w k ((key, negb w) :: ks) = count w k ks.
Proof. rewrite count_cons, decide_False; [lia|]. by destruct w. Qed.

Lemma lock_one_represents L (x : list Z * bool) ks :
  represents L ks -> zlen ks < U64_MAX ->
  represents (if x.2 then AccountLocks.lock_write L x.1 else AccountLocks.lock_readonly L x.1) (x :: ks).
Proof.
  destruct x as [key w], L as [wl rl]. intros R Hl k.
  destruct w; cbn; (split; [|]); rewrite ?(other_kind true), ?(other_kind false); try apply R.
  - apply add_lock_entry; [apply R|done].
  - apply add_lock_entry; [apply R|done].
Qed.

Lemma unlock_one_represents L (x : list Z * bool) ks :
  represents L (x :: ks) -> zlen ks < U64_MAX ->
  represents (if x.2 then AccountLocks.unlock_write L x.1 else AccountLocks.unlock_readonly L x.1) ks.
Proof.
  destruct x as [key w], L as [wl rl]. intros R Hl.
  assert (forall k, rl !! k = entry (count false k ((key, w) :: ks)) /\
    wl !! k = entry (count true k ((key, w) :: ks))) as R' by (intros k; split; apply (R k)).
  intros k. destruct w; cbn; split; try (by apply remove_lock_entry; [apply R'|]).
  - destruct (R' k) as [-> _]. by rewrite (other_kind false k key).
  - destruct (R' k) as [_ ->]. by rewrite (other_kind true k key).
Qed.

Lemma lock_accounts_represents L keys ks :
  represents L ks -> zlen keys + zlen ks <= U64_MAX ->
  represents (AccountLocks.lock_accounts L keys) (keys ++ ks).
Proof.
  unfold AccountLocks.lock_accounts. revert L ks. induction keys as [|[k w] keys IH]; intros L ks R Hl; [done|].
  rewrite zlen_cons in Hl. pose proof (zlen_nonneg keys). cbn [foldl].
  rewrite <- app_comm_cons, Permutation_middle. apply IH; [|rewrite zlen_cons; lia].
  apply (lock_one_represents L (k, w)); [done|lia].
Qed.

Lemma unlock_accounts_represents L keys ks :
  represents L (keys ++ ks) -> zlen keys + zlen ks <= U64_MAX ->
  represents (AccountLocks.unlock_accounts L keys) ks.
Proof.
  unfold AccountLocks.unlock_accounts. revert L. induction keys as [|[k w] keys IH]; intros L R Hl; [done|].
  rewrite zlen_cons in Hl. cbn [foldl]. apply IH; [|lia].
  apply (unlock_one_represents L (k, w)); [done|]. rewrite zlen_app. lia.
Qed.

(** ** Conflicts *)

(** Two bags of keys that may be held together: a shared key is read-only in
    both. *)
Definition compatible (ks ks' : LockKeys) : Prop :=
  forall k w w', (k, w) ∈ ks -> (k, w') ∈ ks' -> w = false /\ w' = false.

Definition may_lock (held : LockKeys) (x : list Z * bool) : bool :=
  bool_decide ((x.1, true) ∉ held) && (negb x.2 || bool_decide ((x.1, false) ∉ held)).

Definition compatibleb (ks held : LockKeys) : bool := forallb (may_lock held) ks.

Lemma may_lock_iff held k w :
  may_lock held (k, w) = true <-> forall w', (k, w') ∈ held -> w = false /\ w' = false.
Proof.
  unfold may_lock. cbn. rewrite andb_true_iff, orb_true_iff, negb_true_iff, !bool_decide_eq_true.
  split.
  - intros [H1 H2] [] Hin; [done|]. destruct H2 as [->|H2]; done.
  - intros H. split; [intros Hin; by destruct (H _ Hin)|]. destruct w; [|auto]. right.
    intros Hin. by destruct (H _ Hin).
Qed.

Lemma compatibleb_iff ks held : compatibleb ks held = true <-> compatible ks held.
Proof.
  unfold compatibleb, compatible. rewrite forallb_forall. split.
  - intros H k w w' Hk Hh. apply list_elem_of_In in Hk. specialize (H _ Hk).
    rewrite may_lock_iff in H. by apply H.
  - intros H [k w] Hk%list_elem_of_In. apply may_lock_iff. intros w'. by apply H.
Qed.

Lemma compatible_sym ks ks' : compatible ks ks' -> compatible ks' ks.
Proof. intros H k w w' H1 H2. destruct (H k w' w H2 H1). done. Qed.

Lemma compatible_app_r ks ks1 ks2 :
  compatible ks (ks1 ++ ks2) <-> compatible ks ks1 /\ compatible ks ks2.
Proof.
  split.
  - intros H. split; intros k w w' H1 H2; apply (H k w w' H1); apply elem_of_app; auto.
  - intros [H1 H2] k w w' H [?|?]%elem_of_app; [by apply (H1 k)|by apply (H2 k)].
Qed.

Lemma compatible_nil_r ks : compatible ks [].
Proof. by intros k w w' _ ?%not_elem_of_nil. Qed.

Lemma compatible_nil_l ks : compatible [] ks.
Proof. by intros k w w' ?%not_elem_of_nil. Qed.

Lemma is_locked_entry w m ks k :
  (forall k, m !! k = entry (count w k ks)) -> AccountLocks.is_locked m k = bool_decide ((k, w) ∈ ks).
Proof.
  intros H. unfold AccountLocks.is_locked. rewrite H. unfold entry. pose proof (count_nonneg w k ks).
  pose proof (count_pos w k ks) as Hp. case_bool_decide as E.
  - apply Hp in E. rewrite decide_False by lia. by apply Z.ltb_lt.
  - destruct (decide _) as [|Hz]; [done|]. exfalso. apply E, Hp. lia.
Qed.

Lemma can_lock_spec L held keys :
  represents L held ->
  AccountLocks.can_lock_accounts L keys
  = if compatibleb keys held then Ok tt else Err TransactionError.AccountInUse.
Proof.
  intros R. induction keys as [|[k w] keys IH]; [done|].
  cbn [AccountLocks.can_lock_accounts]. change (compatibleb ((k, w) :: keys) held)
    with (may_lock held (k, w) && compatibleb keys held). rewrite IH.
  unfold AccountLocks.can_write_lock, AccountLocks.can_read_lock, AccountLocks.is_locked_write,
    AccountLocks.is_locked_readonly, may_lock.
  rewrite (is_locked_entry true (write_locks L) held), (is_locked_entry false (readonly_locks L) held)
    by (intros k'; apply (R k')).
  cbn. rewrite <- !bool_decide_not. unfold not.
  destruct w; cbn; repeat case_bool_decide; cbn; try done.
Qed.

(** ** Duplicates *)

Lemma any_inserted_twice_spec keys : forall s,
  any_inserted_twice s keys = false <-> NoDup keys /\ forall k, k ∈ keys -> k ∉ s.
Proof.
  induction keys as [|key keys IH]; intros s; cbn.
  { split; [|done]. intros _. split; [apply NoDup_nil_2|]. by intros k ?%not_elem_of_nil. }
  rewrite NoDup_cons. case_bool_decide as E.
  { split; [done|]. intros [_ H]. by destruct (H key (list_elem_of_here _ _)). }
  rewrite IH. split.
  - intros [Hn H]. split_and!; [|done|].
    + intros Hin. apply (H key Hin). set_solver.
    + intros k [->|Hk]%elem_of_cons; [done|]. specialize (H k Hk). set_solver.
  - intros [[Hk Hn] H]. split; [done|]. intros k Hin. specialize (H k (list_elem_of_further _ _ _ Hin)).
    assert (k <> key) by (by intros ->). set_solver.
Qed.

Lemma any_equal_later_spec keys : any_equal_later keys = false <-> NoDup keys.
Proof.
  induction keys as [|key keys IH]; cbn; [split; [intros _; apply NoDup_nil_2|done]|].
  rewrite orb_false_iff, IH, NoDup_cons. f_equiv. split.
  - intros H Hin. apply not_true_iff_false in H. apply H, existsb_exists. exists key.
    split; [by apply list_elem_of_In|by apply bool_decide_eq_true].
  - intros H. apply not_true_iff_false. intros (k & Hk & E)%existsb_exists.
    apply bool_decide_eq_true in E as ->. by apply H, list_elem_of_In.
Qed.

Lemma has_duplicates_spec keys : has_duplicates keys = negb (bool_decide (NoDup keys)).
Proof.
  unfold has_duplicates. case_bool_decide as Hn; cbn.
  - destruct (_ <=? _); [apply any_inserted_twice_spec; set_solver|by apply any_equal_later_spec].
  - destruct (_ <=? _); apply not_false_iff_true; [|by rewrite any_equal_later_spec].
    by intros [? _]%any_inserted_twice_spec.
Qed.

(** ** Which transactions are granted *)

(** The keys of the granted transactions of a batch. *)
Definition granted (b : list (SVMMessage * result TransactionError unit)) : list SVMMessage :=
  (filter (fun x => Accounts.is_ok x.2 = true) b).*1.
Definition granted_keys (b : list (SVMMessage * result TransactionError unit)) : LockKeys :=
  concat (map accounts_with_is_writable (granted b)).

(** What a transaction is told when [held] is held. *)
Definition reference_grant (limit : Z) (held : LockKeys) (tx : SVMMessage)
    (r : result TransactionError unit) : result TransactionError unit :=
  r ;?
  if limit <? zlen (account_keys tx) then Err TransactionError.TooManyAccountLocks
  else if bool_decide (NoDup (account_keys tx)) then
    if compatibleb (accounts_with_is_writable tx) held then Ok tt
    else Err TransactionError.AccountInUse
  else Err TransactionError.AccountLoadedTwice.

(** What a batch is told when [held] is held: [mine] are the keys of the earlier
    transactions of the batch. *)
Fixpoint reference_grants (relax : bool) (limit : Z) (held mine : LockKeys) (txs : list SVMMessage)
    (results : list (result TransactionError unit)) : list (result TransactionError unit) :=
  match txs, results with
  | tx :: txs, r :: results =>
      let r := reference_grant limit (if relax then held else mine ++ held) tx r in
      let mine := if Accounts.is_ok r then accounts_with_is_writable tx ++ mine else mine in
      r :: reference_grants relax limit held mine txs results
  | _, _ => []
  end.

Definition batch_size (txs : list SVMMessage) : Z := zsum (fun tx => zlen (account_keys tx)) txs.

Lemma lock_keys_length tx : zlen (accounts_with_is_writable tx) = zlen (account_keys tx).
Proof. unfold accounts_with_is_writable, zlen. by rewrite length_imap. Qed.

Lemma batch_size_nonneg txs : 0 <= batch_size txs.
Proof. apply zsum_nonneg, Forall_true. intros tx. apply zlen_nonneg. Qed.

Lemma granted_cons_ok tx b : granted ((tx, Ok tt) :: b) = tx :: granted b.
Proof. unfold granted. by rewrite filter_cons_True. Qed.
Lemma granted_cons_err tx e b : granted ((tx, Err e) :: b) = granted b.
Proof. unfold granted. by rewrite filter_cons_False. Qed.

Lemma validated_spec limit L held tx r :
  represents L held ->
  match Accounts.validated_keys limit tx r with
  | Ok keys =>
      keys = accounts_with_is_writable tx /\
      reference_grant limit held tx r
      = if compatibleb keys held then Ok tt else Err TransactionError.AccountInUse
  | Err e => reference_grant limit held tx r = Err e
  end.
Proof.
  intros R. unfold Accounts.validated_keys, reference_grant, validate_account_locks.
  destruct r as [[]|e]; [|done]. cbn. destruct (_ <? _); [done|].
  rewrite has_duplicates_spec. by case_bool_decide.
Qed.

(** Without relaxed locks. *)
Lemma try_lock_each_spec limit held : forall txs results mine L,
  represents L (mine ++ held) -> batch_size txs + zlen (mine ++ held) <= U64_MAX ->
  let '(rs, L') := Accounts.try_lock_each L (Accounts.validate_batch txs results limit) in
  rs = reference_grants false limit held mine txs results /\
  represents L' (granted_keys (zip txs rs) ++ mine ++ held).
Proof.
  induction txs as [|tx txs IH]; intros [|r results] mine L R Hl; try done.
  unfold batch_size in Hl. rewrite zsum_cons in Hl. fold (batch_size txs) in Hl.
  pose proof (batch_size_nonneg txs). pose proof (zlen_nonneg (account_keys tx)).
  change (Accounts.validate_batch (tx :: txs) (r :: results) limit) with
    (Accounts.validated_keys limit tx r :: Accounts.validate_batch txs results limit).
  pose proof (validated_spec limit L (mine ++ held) tx r R) as Hv. cbn [reference_grants].
  destruct (Accounts.validated_keys limit tx r) as [keys|e]; cbn [Accounts.try_lock_each].
  - destruct Hv as [-> ->]. unfold AccountLocks.try_lock_accounts.
    rewrite (can_lock_spec L (mine ++ held)) by done. destruct (compatibleb _ _); cbn [Accounts.is_ok].
    + specialize (IH results (accounts_with_is_writable tx ++ mine)
        (AccountLocks.lock_accounts L (accounts_with_is_writable tx))).
      destruct (Accounts.try_lock_each _ _) as [rs L'].
      destruct IH as [-> R']; [rewrite <- app_assoc; apply lock_accounts_represents;
        rewrite ?lock_keys_length; done || lia|rewrite !zlen_app, lock_keys_length in *; lia|].
      split; [done|]. cbn [zip zip_with]. unfold granted_keys. rewrite granted_cons_ok. cbn [map concat].
      rewrite <- app_assoc in R'. rewrite <- app_assoc. by rewrite Permutation_app_swap_app.
    + specialize (IH results mine L R ltac:(lia)). destruct (Accounts.try_lock_each _ _) as [rs L'].
      destruct IH as [-> R']. split; [done|]. cbn [zip zip_with]. unfold granted_keys.
      by rewrite granted_cons_err.
  - specialize (IH results mine L R ltac:(lia)). destruct (Accounts.try_lock_each _ _) as [rs L'].
    destruct IH as [-> R']. rewrite Hv. split; [done|]. cbn [zip zip_with]. unfold granted_keys.
    by rewrite granted_cons_err.
Qed.

(** With relaxed locks. *)
Lemma lock_available_spec limit held L0 : represents L0 held -> forall txs results mine L,
  represents L (mine ++ held) -> batch_size txs + zlen (mine ++ held) <= U64_MAX ->
  let '(rs, L') := AccountLocks.lock_available L (map (fun validated_keys =>
    match validated_keys with
    | Ok keys => match AccountLocks.can_lock_accounts L0 keys with Err e => Err e | Ok _ => Ok keys end
    | Err e => Err e
    end) (Accounts.validate_batch txs results limit)) in
  rs = reference_grants true limit held mine txs results /\
  represents L' (granted_keys (zip txs rs) ++ mine ++ held).
Proof.
  intros R0. induction txs as [|tx txs IH]; intros [|r results] mine L R Hl; try done.
  unfold batch_size in Hl. rewrite zsum_cons in Hl. fold (batch_size txs) in Hl.
  pose proof (batch_size_nonneg txs). pose proof (zlen_nonneg (account_keys tx)).
  change (Accounts.validate_batch (tx :: txs) (r :: results) limit) with
    (Accounts.validated_keys limit tx r :: Accounts.validate_batch txs results limit).
  pose proof (validated_spec limit L0 held tx r R0) as Hv. cbn [reference_grants map].
  destruct (Accounts.validated_keys limit tx r) as [keys|e].
  - destruct Hv as [-> ->]. rewrite (can_lock_spec L0 held) by done.
    destruct (compatibleb _ _); cbn [Accounts.is_ok AccountLocks.lock_available].
    + specialize (IH results (accounts_with_is_writable tx ++ mine)
        (AccountLocks.lock_accounts L (accounts_with_is_writable tx))).
      destruct (AccountLocks.lock_available _ _) as [rs L'].
      destruct IH as [-> R']; [rewrite <- app_assoc; apply lock_accounts_represents;
        rewrite ?lock_keys_length; done || lia|rewrite !zlen_app, lock_keys_length in *; lia|].
      split; [done|]. cbn [zip zip_with]. unfold granted_keys. rewrite granted_cons_ok. cbn [map concat].
      rewrite <- app_assoc in R'. rewrite <- app_assoc. by rewrite Permutation_app_swap_app.
    + specialize (IH results mine L R ltac:(lia)). destruct (AccountLocks.lock_available _ _) as [rs L'].
      destruct IH as [-> R']. split; [done|]. cbn [zip zip_with]. unfold granted_keys.
      by rewrite granted_cons_err.
  - cbn [AccountLocks.lock_available]. specialize (IH results mine L R ltac:(lia)).
    destruct (AccountLocks.lock_available _ _) as [rs L'].
    destruct IH as [-> R']. rewrite Hv. split; [done|]. cbn [zip zip_with]. unfold granted_keys.
    by rewrite granted_cons_err.
Qed.

Lemma lock_accounts_spec limit relax held txs results L :
  represents L held -> batch_size txs + zlen held <= U64_MAX ->
  let '(rs, L') := Accounts.lock_accounts L txs results limit relax in
  rs = reference_grants relax limit held [] txs results /\
  represents L' (granted_keys (zip txs rs) ++ held).
Proof.
  intros R Hl. unfold Accounts.lock_accounts. destruct relax.
  - by apply (lock_available_spec limit held L R txs results []).
  - by apply (try_lock_each_spec limit held txs results []).
Qed.

(** Releasing a batch. *)
Lemma release_spec b : forall L held,
  represents L (granted_keys b ++ held) -> zlen (granted_keys b ++ held) <= U64_MAX ->
  represents (Accounts.unlock_accounts L b) held.
Proof.
  assert (forall L held, represents L (granted_keys b ++ held) ->
    zlen (granted_keys b ++ held) <= U64_MAX ->
    represents (foldl (fun self '(tx, res) =>
      if Accounts.is_ok res then AccountLocks.unlock_accounts self (accounts_with_is_writable tx)
      else self) L b) held) as Hfold.
  { induction b as [|[tx r] b IH]; intros L held R Hl; [done|]. cbn [foldl]. unfold granted_keys in *.
    destruct r as [[]|e]; cbn [Accounts.is_ok].
    - rewrite granted_cons_ok in R, Hl. cbn [map concat] in R, Hl. rewrite <- app_assoc in R, Hl.
      apply IH; [|rewrite !zlen_app in *; pose proof (zlen_nonneg (accounts_with_is_writable tx)); lia].
      apply unlock_accounts_represents; [done|]. by rewrite <- zlen_app.
    - rewrite granted_cons_err in R, Hl. by apply IH. }
  intros L held R Hl. unfold Accounts.unlock_accounts.
  destruct (existsb _ b) eqn:E; cbn [negb]; [by apply Hfold|].
  assert (granted_keys b = []) as Hnil; [|by rewrite Hnil in R].
  clear R Hl Hfold. unfold granted_keys. induction b as [|[tx [[]|e]] b IH]; [done|done|].
  rewrite granted_cons_err. apply IH. done.
Qed.

(** ** Histories of locking and releasing *)

Abbreviation Batch := (list (SVMMessage * result TransactionError unit)).

Definition held_keys (bs : list Batch) : LockKeys := concat (map granted_keys bs).

(** The batches that hold locks: any of them may be released next.  Fewer than
    2^64 keys are held at any time. *)
Inductive lock_history (limit : Z) (relax : bool) : AccountLocks -> list Batch -> Prop :=
| locks_start : lock_history limit relax AccountLocks.default []
| locks_taken L bs txs results rs L' :
    lock_history limit relax L bs -> batch_size txs + zlen (held_keys bs) <= U64_MAX ->
    Accounts.lock_accounts L txs results limit relax = (rs, L') ->
    lock_history limit relax L' (zip txs rs :: bs)
| locks_released L bs1 b bs2 :
    lock_history limit relax L (bs1 ++ b :: bs2) ->
    lock_history limit relax (Accounts.unlock_accounts L b) (bs1 ++ bs2).

Lemma held_keys_middle bs1 b bs2 :
  held_keys (bs1 ++ b :: bs2) ≡ₚ granted_keys b ++ held_keys (bs1 ++ bs2).
Proof.
  unfold held_keys. rewrite !map_app, !concat_app. cbn. by rewrite Permutation_app_swap_app.
Qed.

Lemma zlen_perm {A} (l l' : list A) : l ≡ₚ l' -> zlen l = zlen l'.
Proof. intros H. unfold zlen. by rewrite H. Qed.

Lemma granted_size txs : forall rs, zlen (granted_keys (zip txs rs)) <= batch_size txs.
Proof.
  induction txs as [|tx txs IH]; intros rs; [done|]. unfold batch_size. rewrite zsum_cons.
  fold (batch_size txs). pose proof (batch_size_nonneg txs). pose proof (zlen_nonneg (account_keys tx)).
  destruct rs as [|r rs]; [change (0 <= zlen (account_keys tx) + batch_size txs); lia|].
  specialize (IH rs). cbn [zip zip_with]. unfold granted_keys in *. destruct r as [[]|e].
  - rewrite granted_cons_ok. cbn [map concat]. rewrite zlen_app, lock_keys_length. lia.
  - rewrite granted_cons_err. lia.
Qed.

Lemma history_represents limit relax L bs :
  lock_history limit relax L bs -> represents L (held_keys bs) /\ zlen (held_keys bs) <= U64_MAX.
Proof.
  induction 1 as [|L bs txs results rs L' _ [R Hl] Hb E|L bs1 b bs2 _ [R Hl]]; [done| |].
  - pose proof (lock_accounts_spec limit relax _ txs results L R Hb) as H. rewrite E in H.
    destruct H as [Hrs R']. split; [done|]. unfold held_keys. cbn [map concat]. rewrite zlen_app.
    fold (held_keys bs). pose proof (granted_size txs rs). lia.
  - rewrite held_keys_middle in R. rewrite (zlen_perm _ _ (held_keys_middle bs1 b bs2)) in Hl.
    split; [by apply release_spec|]. rewrite zlen_app in Hl. pose proof (zlen_nonneg (granted_keys b)). lia.
Qed.

(** ** Separation *)

Definition valid_keys (limit : Z) (tx : SVMMessage) : Prop :=
  zlen (account_keys tx) <= limit /\ NoDup (account_keys tx).

(** The granted transactions of one batch: valid and, unless locks are relaxed,
    without conflicts. *)
Fixpoint batch_separated (limit : Z) (relax : bool) (mine : LockKeys) (b : Batch) : Prop :=
  match b with
  | [] => True
  | (tx, Ok _) :: b =>
      let keys := accounts_with_is_writable tx in
      valid_keys limit tx /\ (relax = false -> compatible keys mine) /\
      batch_separated limit relax (keys ++ mine) b
  | (_, Err _) :: b => batch_separated limit relax mine b
  end.

Fixpoint separated (bs : list Batch) : Prop :=
  match bs with
  | [] => True
  | b :: bs => compatible (granted_keys b) (held_keys bs) /\ separated bs
  end.

Lemma reference_grant_Ok limit held tx r :
  reference_grant limit held tx r = Ok tt ->
  r = Ok tt /\ valid_keys limit tx /\ compatible (accounts_with_is_writable tx) held.
Proof.
  unfold reference_grant, valid_keys. destruct r as [[]|e]; [|done]. cbn.
  destruct (Z.ltb_spec limit (zlen (account_keys tx))); [done|]. case_bool_decide; [|done].
  destruct (compatibleb _ _) eqn:E; [|done]. apply compatibleb_iff in E. done.
Qed.

Lemma grants_separated limit relax held txs : forall results mine,
  let b := zip txs (reference_grants relax limit held mine txs results) in
  batch_separated limit relax mine b /\ compatible (granted_keys b) held.
Proof.
  induction txs as [|tx txs IH]; intros [|r results] mine; try (split; [done|apply compatible_nil_l]).
  cbn [reference_grants]. set (held' := if relax then held else mine ++ held).
  destruct (reference_grant limit held' tx r) as [[]|e] eqn:E; cbn [Accounts.is_ok zip zip_with].
  - apply reference_grant_Ok in E as (_ & Hv & Hc).
    destruct (IH results (accounts_with_is_writable tx ++ mine)) as [H1 H2].
    assert (compatible (accounts_with_is_writable tx) held) as Hh.
    { unfold held' in Hc. destruct relax; [done|]. by apply compatible_app_r in Hc as [_ ?]. }
    split; [split; [done|split; [|done]]|].
    + intros ->. by apply compatible_app_r in Hc as [? _].
    + unfold granted_keys. rewrite granted_cons_ok. cbn [map concat].
      apply compatible_sym, compatible_app_r. split; by apply compatible_sym.
  - destruct (IH results mine) as [H1 H2]. split; [done|]. unfold granted_keys.
    by rewrite granted_cons_err.
Qed.

Lemma compatible_perm ks ks1 ks2 : ks1 ≡ₚ ks2 -> compatible ks ks1 -> compatible ks ks2.
Proof. intros H Hc k w w' H1 H2. apply (Hc k w w' H1). by rewrite H. Qed.

Lemma separated_released bs1 b bs2 : separated (bs1 ++ b :: bs2) -> separated (bs1 ++ bs2).
Proof.
  induction bs1 as [|b' bs1 IH]; cbn; [by intros [_ ?]|]. intros [Hc Hs]. split; [|auto].
  eapply compatible_perm in Hc; [|apply held_keys_middle]. by apply compatible_app_r in Hc as [_ ?].
Qed.

Lemma history_separated limit relax L bs :
  lock_history limit relax L bs -> separated bs /\ Forall (batch_separated limit relax []) bs.
Proof.
  induction 1 as [|L bs txs results rs L' H [Hs Hf] Hb E|L bs1 b bs2 _ [Hs Hf]]; [done| |].
  - apply history_represents in H as [R _].
    pose proof (lock_accounts_spec limit relax _ txs results L R Hb) as H. rewrite E in H.
    destruct H as [-> _]. destruct (grants_separated limit relax (held_keys bs) txs results []).
    split; [done|]. by constructor.
  - split; [by eapply separated_released|]. rewrite !Forall_app, Forall_cons in *. tauto.
Qed.

(** ** Three batches *)

Definition lock_message (keys : list Z) (writable : Z) : SVMMessage :=
  mkMessage 1 [] (map (fun k => replicate 32 k) keys) 0 (fun i => i <? writable) (fun i => i =? 0)
    (replicate 32 9) (zlen keys).

(** The second batch reads what the first one reads and may not write it, and
    wants one account twice; the third one gets what the first released. *)
Definition first_batch : list SVMMessage := [lock_message [1; 2; 3] 2].
Definition second_batch : list SVMMessage :=
  [lock_message [4; 3] 1; lock_message [5; 3] 2; lock_message [6; 6] 1; lock_message [7; 4] 1].
Definition third_batch : list SVMMessage := [lock_message [1; 3] 1].

Abbreviation granted_all l := (map (fun _ => Ok (E := TransactionError) tt) l).

Definition locks_after_first : AccountLocks :=
  (Accounts.lock_accounts AccountLocks.default first_batch (granted_all first_batch) 64 false).2.
Definition second_results : list (result TransactionError unit) :=
  (Accounts.lock_accounts locks_after_first second_batch (granted_all second_batch) 64 false).1.
Definition locks_after_second : AccountLocks :=
  (Accounts.lock_accounts locks_after_first second_batch (granted_all second_batch) 64 false).2.

Lemma lock_history_example :
  lock_history 64 false (Accounts.unlock_accounts locks_after_second (zip first_batch [Ok tt]))
    [zip second_batch second_results].
Proof.
  apply (locks_released _ _ _ [zip second_batch second_results] _ []).
  eapply (locks_taken _ _ locks_after_first _ second_batch (granted_all second_batch)).
  - eapply (locks_taken _ _ AccountLocks.default [] first_batch (granted_all first_batch)).
    + apply locks_start.
    + by vm_compute.
    + vm_compute. reflexivity.
  - by vm_compute.
  - unfold second_results, locks_after_second. by destruct (Accounts.lock_accounts _ _ _ _ _).
Qed.

(** ** Claims *)

(** C26: the lock tables are exact.  However batches are locked and released, in
    any order and with or without relaxed locks: the tables hold for every key
    exactly the reads and writes that the granted transactions of the batches
    in flight asked for, so that they are empty again when every batch is
    released.  A transaction is granted its locks exactly when it asks for at
    most the limit, no key twice, and nothing that conflicts with the batches
    in flight or, unless locks are relaxed, with an earlier granted transaction
    of its own batch; otherwise it gets the error of the first rule it breaks.
    Two batches in flight never conflict. *)
Theorem account_locks_are_exact limit relax L bs :
  lock_history limit relax L bs ->
  represents L (held_keys bs) /\ (bs = [] -> L = AccountLocks.default) /\
  separated bs /\ Forall (batch_separated limit relax []) bs /\
  forall txs results, batch_size txs + zlen (held_keys bs) <= U64_MAX ->
    (Accounts.lock_accounts L txs results limit relax).1
    = reference_grants relax limit (held_keys bs) [] txs results.
Proof.
  intros H. destruct (history_represents _ _ _ _ H) as [R _]. destruct (history_separated _ _ _ _ H) as [S1 S2].
  split_and!; try done; [intros ->; by apply represents_nil|]. intros txs results Hs.
  pose proof (lock_accounts_spec limit relax (held_keys bs) txs results L R Hs) as Hl.
  destruct (Accounts.lock_accounts L txs results limit relax). apply Hl.
Qed.

Lemma account_locks_are_exact_witness :
  second_results = [Ok tt; Err TransactionError.AccountInUse; Err TransactionError.AccountLoadedTwice;
                    Err TransactionError.AccountInUse] /\
  (Accounts.lock_accounts (Accounts.unlock_accounts locks_after_second (zip first_batch [Ok tt]))
     third_batch (granted_all third_batch) 64 false).1 = [Ok tt].
Proof.
  split; [vm_compute; reflexivity|].
  destruct (account_locks_are_exact 64 false _ _ lock_history_example) as (_ & _ & _ & _ & H).
  rewrite (H third_batch (granted_all third_batch)) by (by vm_compute). vm_compute. reflexivity.
Defined.
