(* ===== verification/Blockhashes.v ===== *)
(** * The queue of recent blockhashes
    ([gorchain/accounts-db/src/blockhash_queue.rs])

    A transaction names a recent blockhash, and the queue decides whether it is
    recent enough.  The queue keeps, for every hash, the number of the
    registration that was last to name it, and drops old hashes now and then.
    Along every history of registrations it answers as the list of all
    registrations does, without keeping that list. *)

From stdpp Require Import base numbers list gmap.
From Stdlib Require Import Lia.
From S2P Require Import Prelude Errors Pod TxBytes.
Local Open Scope Z_scope.

Record HashInfo := mkHashInfo {
  info_lamports_per_signature : Z;
  hash_index : Z;
  timestamp : Z;
}.

Record BlockhashQueue := mkQueue {
  last_hash_index : Z;
  queue_last_hash : option (list Z);
  hashes : gmap (list Z) HashInfo;
  max_age : Z;
}.

Module BlockhashQueue.

Definition new (max_age : Z) : BlockhashQueue := mkQueue 0 None ∅ max_age.

(** [expect]: an empty queue has no last hash. *)
Definition last_hash (self : BlockhashQueue) : outcome (list Z) :=
  match queue_last_hash self with Some h => Done h | None => Panicked end.

Definition get_lamports_per_signature (self : BlockhashQueue) (hash : list Z) : option Z :=
  info_lamports_per_signature <$> hashes self !! hash.

Definition is_hash_index_valid (last_hash_index max_age hash_index : Z) : bool :=
  wrapping_sub U64_MAX last_hash_index hash_index <=? max_age.

(** Get the hash info if the age of the hash is within [max_age]. *)
Definition get_hash_info_if_valid (self : BlockhashQueue) (hash : list Z) (max_age : Z)
    : option HashInfo :=
  info ← hashes self !! hash;
  if is_hash_index_valid (last_hash_index self) max_age (hash_index info) then Some info else None.

Definition is_hash_valid_for_age (self : BlockhashQueue) (hash : list Z) (max_age : Z) : bool :=
  if get_hash_info_if_valid self hash max_age is Some _ then true else false.

Definition get_hash_age (self : BlockhashQueue) (hash : list Z) : option Z :=
  (fun info => wrapping_sub U64_MAX (last_hash_index self) (hash_index info)) <$> hashes self !! hash.

(** The wall clock is read when a hash is registered. *)
Definition genesis_hash (self : BlockhashQueue) (hash : list Z) (lamports_per_signature now : Z)
    : BlockhashQueue :=
  mkQueue (last_hash_index self) (Some hash)
    (<[hash := mkHashInfo lamports_per_signature 0 now]> (hashes self)) (max_age self).

Definition register_hash (self : BlockhashQueue) (hash : list Z) (lamports_per_signature now : Z)
    : BlockhashQueue :=
  let last_hash_index := wrapping_add U64_MAX (last_hash_index self) 1 in
  let hashes :=
    if max_age self <=? Z.of_nat (size (hashes self))
    then filter (fun x => is_hash_index_valid last_hash_index (max_age self) (hash_index x.2) = true)
           (hashes self)
    else hashes self in
  mkQueue last_hash_index (Some hash)
    (<[hash := mkHashInfo lamports_per_signature last_hash_index now]> hashes) (max_age self).

End BlockhashQueue.

(** ** The list of registrations *)

(** The registrations of a chain, the latest first: the hash and the price of a
    signature at the time.  The last one is the genesis hash. *)
Abbreviation Registration := (list Z * Z)%type.

(** A queue of capacity [capacity] after the registrations of a history. *)
Inductive registered (capacity : Z) : BlockhashQueue -> list Registration -> Prop :=
| registered_genesis hash price now :
    registered capacity
      (BlockhashQueue.genesis_hash (BlockhashQueue.new capacity) hash price now) [(hash, price)]
| registered_next q history hash price now :
    registered capacity q history -> zlen history < U64_MAX ->
    registered capacity (BlockhashQueue.register_hash q hash price now) ((hash, price) :: history).

(** The latest registration of a hash, with the number of registrations since. *)
Fixpoint latest (hash : list Z) (history : list Registration) : option (Z * Z) :=
  match history with
  | [] => None
  | (h, price) :: history =>
      if decide (h = hash) then Some (0, price)
      else (fun x => (x.1 + 1, x.2)) <$> latest hash history
  end.

Lemma latest_range hash history age price :
  latest hash history = Some (age, price) -> 0 <= age < zlen history.
Proof.
  revert age price. induction history as [|[h p] history IH]; intros age price; cbn; [done|].
  pose proof (zlen_nonneg history). rewrite zlen_cons. case_decide; [intros [= <- <-]; lia|].
  destruct (latest hash history) as [[a p']|]; [|done]. cbn. intros [= <- <-].
  specialize (IH a p' eq_refl). lia.
Qed.

Lemma latest_lookup hash history :
  latest hash history <> None <-> hash ∈ history.*1.
Proof.
  induction history as [|[h p] history IH]; cbn; [split; [done|by intros ?%not_elem_of_nil]|].
  rewrite elem_of_cons. case_decide as E; [naive_solver|]. rewrite fmap_None, IH. naive_solver.
Qed.

(** What the queue keeps of a history. *)
Definition tracks (capacity : Z) (q : BlockhashQueue) (history : list Registration) : Prop :=
  max_age q = capacity /\ last_hash_index q = zlen history - 1 /\ 0 < zlen history <= U64_MAX /\
  queue_last_hash q = fst <$> head history /\
  (forall h info, hashes q !! h = Some info ->
     latest h history
     = Some (last_hash_index q - hash_index info, info_lamports_per_signature info)) /\
  (forall h age price, latest h history = Some (age, price) -> age <= capacity ->
     is_Some (hashes q !! h)).

Lemma tracks_registered capacity q history : registered capacity q history -> tracks capacity q history.
Proof.
  induction 1 as [hash price now|q history hash price now _ (H1 & H2 & H3 & H4 & H5 & H6) Hl].
  - split_and!; try done.
    + intros h info. cbn. rewrite lookup_insert_Some, lookup_empty. intros [[<- <-]|[_ [=]]].
      by rewrite decide_True.
    + intros h age p. cbn. case_decide as E; [|done]. subst. intros _ _.
      rewrite lookup_insert_eq. done.
  - pose proof (zlen_nonneg history). unfold BlockhashQueue.register_hash.
    rewrite H2, wrapping_add_small by lia. unfold tracks. rewrite zlen_cons.
    set (kept := if _ <=? _ then _ else _).
    assert (forall h info, kept !! h = Some info -> hashes q !! h = Some info) as Hsub.
    { intros h info. unfold kept. destruct (_ <=? _); [|done]. by intros [? _]%map_lookup_filter_Some. }
    split_and!; try done; cbn [last_hash_index hashes]; try lia.
    + intros h info. rewrite lookup_insert_Some. intros [[<- <-]|[Hne Hk]].
      * cbn. rewrite decide_True by done. do 2 f_equal. lia.
      * apply Hsub, H5 in Hk. cbn. rewrite decide_False by done. rewrite Hk. cbn. do 2 f_equal. lia.
    + intros h age p. cbn. case_decide as E; [subst; rewrite lookup_insert_eq; done|].
      destruct (latest h history) as [[a p']|] eqn:El; [|done]. cbn. intros [= <- <-] Ha.
      rewrite lookup_insert_ne by done. destruct (H6 h a p' El) as [info Hi]; [lia|].
      pose proof (latest_range _ _ _ _ El) as Hr.
      pose proof (H5 h info Hi) as Hidx. rewrite El in Hidx. injection Hidx as Ea _.
      exists info. unfold kept. destruct (_ <=? _); [|done]. apply map_lookup_filter_Some.
      split; [done|]. unfold BlockhashQueue.is_hash_index_valid. cbn.
      rewrite wrapping_sub_small by lia. apply Z.leb_le. lia.
Qed.

Lemma latest_at hash history age price :
  latest hash history = Some (age, price) -> history !! Z.to_nat age = Some (hash, price).
Proof.
  revert age price. induction history as [|[h p] history IH]; intros age price; cbn; [done|].
  case_decide as E; [intros [= <- <-]; by subst|].
  destruct (latest hash history) as [[a p']|] eqn:El; [|done]. cbn. intros [= <- <-].
  apply latest_range in El as Hr. replace (Z.to_nat (a + 1)) with (S (Z.to_nat a)) by lia. by apply IH.
Qed.

(** A map whose values have different indices within an interval. *)
Lemma size_by_index {V} (m : gmap (list Z) V) (f : V -> Z) lo n :
  0 <= n ->
  (forall k v, m !! k = Some v -> lo <= f v < lo + n) ->
  (forall k k' v v', m !! k = Some v -> m !! k' = Some v' -> f v = f v' -> k = k') ->
  Z.of_nat (size m) <= n.
Proof.
  intros Hn Hr Hi. rewrite <- length_map_to_list.
  enough (length (map_to_list m) <= length (seqZ lo n))%nat by (rewrite length_seqZ in H; lia).
  rewrite <- (length_fmap (fun x => f x.2)). apply submseteq_length, NoDup_submseteq.
  - apply NoDup_fmap_2_strong; [|apply NoDup_map_to_list].
    intros [k v] [k' v'] H1%elem_of_map_to_list H2%elem_of_map_to_list E. cbn in E.
    assert (k = k') as -> by (by eapply Hi). f_equal. rewrite H1 in H2. by injection H2.
  - intros z ([k v] & -> & H%elem_of_map_to_list)%list_elem_of_fmap. apply elem_of_seqZ. by eapply Hr.
Qed.

Lemma queue_size capacity q history :
  registered capacity q history -> 0 <= capacity -> Z.of_nat (size (hashes q)) <= capacity + 1.
Proof.
  intros H Hc. destruct H as [hash price now|q history hash price now H Hl].
  { cbn. rewrite map_size_insert_None, map_size_empty by apply lookup_empty. lia. }
  destruct (tracks_registered _ _ _ H) as (H1 & H2 & H3 & _ & H5 & _).
  unfold BlockhashQueue.register_hash. rewrite H2, wrapping_add_small by lia. cbn [hashes].
  set (kept := if _ <=? _ then _ else _).
  assert (Z.of_nat (size kept) <= capacity) as Hk.
  { unfold kept. destruct (Z.leb_spec (max_age q) (Z.of_nat (size (hashes q)))); [|lia].
    apply (size_by_index _ hash_index (zlen history - capacity)); [done| |].
    - intros k v [Hin Hv]%map_lookup_filter_Some. apply H5, latest_range in Hin.
      unfold BlockhashQueue.is_hash_index_valid in Hv. cbn in Hv.
      rewrite wrapping_sub_small in Hv by lia. apply Z.leb_le in Hv. lia.
    - intros k k' v v' [Hin _]%map_lookup_filter_Some [Hin' _]%map_lookup_filter_Some E.
      apply H5, latest_at in Hin, Hin'. rewrite E in Hin. congruence. }
  assert (size (<[hash := mkHashInfo price (zlen history - 1 + 1) now]> kept) <= S (size kept))%nat as Hs.
  { rewrite map_size_insert. destruct (kept !! hash); unfold id; lia. }
  lia.
Qed.

Lemma latest_take hash history age : 0 <= age ->
  bool_decide (hash ∈ take (S (Z.to_nat age)) history.*1)
  = match latest hash history with Some (n, _) => n <=? age | None => false end.
Proof.
  revert age. induction history as [|[h p] history IH]; intros age Ha; [done|]. cbn [fmap list_fmap take latest].
  destruct (decide (h = hash)) as [->|Hne].
  { rewrite bool_decide_eq_true_2 by apply list_elem_of_here. symmetry. by apply Z.leb_le. }
  assert (hash ∈ h :: take (Z.to_nat age) history.*1 <-> hash ∈ take (Z.to_nat age) history.*1) as E.
  { rewrite elem_of_cons. naive_solver. }
  cbn [fst]. rewrite (bool_decide_ext _ _ E). clear E. destruct (Z.eq_dec age 0) as [->|Hz].
  - cbn [Z.to_nat take]. rewrite bool_decide_eq_false_2 by apply not_elem_of_nil.
    destruct (latest hash history) as [[n p']|] eqn:El; [|done]. apply latest_range in El. cbn.
    symmetry. apply Z.leb_gt. lia.
  - replace (Z.to_nat age) with (S (Z.to_nat (age - 1))) by lia. rewrite IH by lia.
    destruct (latest hash history) as [[n p']|]; [|done]. cbn.
    destruct (Z.leb_spec n (age - 1)), (Z.leb_spec (n + 1) age); lia.
Qed.

Lemma valid_info capacity q history hash age :
  tracks capacity q history -> 0 <= age <= capacity ->
  info_lamports_per_signature <$> BlockhashQueue.get_hash_info_if_valid q hash age
  = match latest hash history with
    | Some (n, price) => if n <=? age then Some price else None
    | None => None
    end.
Proof.
  intros (H1 & H2 & H3 & _ & H5 & H6) Ha. unfold BlockhashQueue.get_hash_info_if_valid.
  destruct (hashes q !! hash) as [info|] eqn:E; cbn.
  - apply H5 in E. rewrite E. apply latest_range in E as Hr.
    unfold BlockhashQueue.is_hash_index_valid. rewrite wrapping_sub_small by lia.
    by destruct (_ <=? age).
  - destruct (latest hash history) as [[n price]|] eqn:El; [|done].
    destruct (Z.leb_spec n age); [|done]. destruct (H6 _ _ _ El) as [? Hs]; [lia|]. congruence.
Qed.

Lemma last_registered capacity q history :
  tracks capacity q history -> exists hash price rest, history = (hash, price) :: rest /\
    BlockhashQueue.last_hash q = Done hash /\
    (0 <= capacity -> BlockhashQueue.get_lamports_per_signature q hash = Some price).
Proof.
  intros (_ & _ & H3 & H4 & H5 & H6). destruct history as [|[hash price] rest]; [unfold zlen in H3; cbn in H3; lia|].
  exists hash, price, rest. split; [done|]. unfold BlockhashQueue.last_hash. rewrite H4. split; [done|].
  intros Hc. unfold BlockhashQueue.get_lamports_per_signature.
  assert (latest hash ((hash, price) :: rest) = Some (0, price)) as El by (cbn; by rewrite decide_True).
  destruct (H6 _ _ _ El Hc) as [info Hi]. rewrite Hi. cbn. apply H5 in Hi. rewrite El in Hi.
  by injection Hi as _ <-.
Qed.

Definition test_registrations : BlockhashQueue * list Registration :=
  foldl (fun '(q, l) (h : Z) => (BlockhashQueue.register_hash q [h] (5000 + h) h, ([h], 5000 + h) :: l))
    (BlockhashQueue.genesis_hash (BlockhashQueue.new 2) [0] 5000 0, [([0], 5000)]) [1; 2; 1; 4; 5].

(** ** Claims *)

(** C27: the queue of blockhashes answers as the full list of registrations.
    After any history the last hash is the last registered one and its price is
    known, so the two unwraps of the bank cannot panic; and for every age up to
    the capacity of the queue a hash is valid exactly when its latest
    registration is at most that many registrations ago, with the price of that
    registration, although old hashes were dropped.  The queue never holds more
    than one hash above its capacity. *)
Theorem recent_blockhashes_are_exact capacity q history hash age :
  registered capacity q history -> 0 <= age <= capacity ->
  BlockhashQueue.last_hash q = Done (from_option fst [] (head history)) /\
  BlockhashQueue.get_lamports_per_signature q (from_option fst [] (head history))
  = snd <$> head history /\
  info_lamports_per_signature <$> BlockhashQueue.get_hash_info_if_valid q hash age
  = match latest hash history with
    | Some (n, price) => if n <=? age then Some price else None
    | None => None
    end /\
  BlockhashQueue.is_hash_valid_for_age q hash age
  = bool_decide (hash ∈ take (S (Z.to_nat age)) history.*1) /\
  Z.of_nat (size (hashes q)) <= capacity + 1.
Proof.
  intros H Ha. pose proof (tracks_registered _ _ _ H) as Ht.
  destruct (last_registered _ _ _ Ht) as (h & p & rest & -> & E1 & E2). cbn [head from_option fst].
  pose proof (valid_info _ _ _ hash age Ht Ha) as Hv. split_and!; [done| |done| |].
  - apply E2. lia.
  - rewrite latest_take by lia. unfold BlockhashQueue.is_hash_valid_for_age.
    destruct (latest hash _) as [[n price]|]; [destruct (n <=? age)|];
      by destruct (BlockhashQueue.get_hash_info_if_valid q hash age).
  - apply (queue_size capacity q _ H). lia.
Qed.

Lemma recent_blockhashes_are_exact_witness :
  BlockhashQueue.is_hash_valid_for_age test_registrations.1 [1] 2 = true /\
  BlockhashQueue.is_hash_valid_for_age test_registrations.1 [2] 2 = false.
Proof.
  assert (registered 2 test_registrations.1 test_registrations.2) as H.
  { unfold test_registrations. cbn [foldl fst snd]. do 5 (apply registered_next; [|done]). constructor. }
  split.
  - destruct (recent_blockhashes_are_exact 2 _ _ [1] 2 H) as (_ & _ & _ & E & _); [done|].
    rewrite E. vm_compute. reflexivity.
  - destruct (recent_blockhashes_are_exact 2 _ _ [2] 2 H) as (_ & _ & _ & E & _); [done|].
    rewrite E. vm_compute. reflexivity.
Defined.
