(* ===== verification/StatusCache.v ===== *)
(** * The cache of processed transactions
    ([gorchain/runtime/src/status_cache.rs])

    The bank remembers the transactions it has processed, by their recent
    blockhash and twenty bytes of their message hash or signature, with the slots
    they were processed in.  The cache forgets a blockhash when enough slots have
    become roots after the last one that used it, and the entries of a slot that
    is dropped.

    Hash maps are finite maps; the loops over one of them visit different keys
    independently, so the order does not matter.  The random position of the
    twenty bytes is an argument of the operation that draws it. *)

From stdpp Require Import base numbers list gmap sets.
From Stdlib Require Import Lia.
From S2P Require Import Prelude Errors Pod TxBytes.
Local Open Scope Z_scope.
Local Open Scope rust_scope.

Definition CACHED_KEY_SIZE : Z := 20.

Section StatusCache.
Context {T : Type}.

(** The forks on which a key was recorded. *)
Abbreviation ForkStatus := (list (Z * T)).
Abbreviation KeyMap := (gmap (list Z) ForkStatus).
(** For every blockhash: the highest slot, the position of the key slices, and
    the statuses. *)
Abbreviation KeyStatusMap := (gmap (list Z) (Z * Z * KeyMap)).
(** The statuses recorded in one slot, by blockhash. *)
Abbreviation Status := (gmap (list Z) (Z * list (list Z * T))).

Record StatusCache := mkCache {
  cache : KeyStatusMap;
  roots : gset Z;
  slot_deltas : gmap Z Status;
}.

Definition default_cache : StatusCache := mkCache ∅ {[ 0 ]} ∅.

(** [key[index..index + CACHED_KEY_SIZE]]. *)
Definition slice_at (key : list Z) (index : Z) : outcome (list Z) :=
  if index + CACHED_KEY_SIZE <=? zlen key
  then Done (take (Z.to_nat CACHED_KEY_SIZE) (drop (Z.to_nat index) key)) else Panicked.

Definition max_key_index (key : list Z) : Z :=
  saturating_sub (zlen key) (CACHED_KEY_SIZE + 1).

Definition key_slice (key : list Z) (index : Z) : outcome (list Z) :=
  slice_at key (Z.min index (max_key_index key)).

Definition get_status (self : StatusCache) (key transaction_blockhash : list Z) (ancestors : gset Z)
    : outcome (option (Z * T)) :=
  match cache self !! transaction_blockhash with
  | None => Done None
  | Some (_, index, keymap) =>
      let* key_slice := key_slice key index in
      match keymap !! key_slice with
      | Some stored_forks =>
          Done (snd <$> list_find (fun x => x.1 ∈ ancestors \/ x.1 ∈ roots self) stored_forks)
      | None => Done None
      end
  end.

(** [get_status_any_blockhash]: the blockhashes in some order. *)
Fixpoint get_status_any (self : StatusCache) (key : list Z) (ancestors : gset Z)
    (blockhashes : list (list Z)) : outcome (option (Z * T)) :=
  match blockhashes with
  | [] => Done None
  | blockhash :: blockhashes =>
      let* status := get_status self key blockhash ancestors in
      match status with
      | Some s => Done (Some s)
      | None => get_status_any self key ancestors blockhashes
      end
  end.
Definition get_status_any_blockhash (self : StatusCache) (key : list Z) (ancestors : gset Z)
    : outcome (option (Z * T)) :=
  get_status_any self key ancestors (map_to_list (cache self)).*1.

(** ** Recording *)

Definition push_delta (transaction_blockhash : list Z) (key_index : Z) (key_slice : list Z) (res : T)
    (entry : Status) : Status :=
  let '(index, l) := default (key_index, []) (entry !! transaction_blockhash) in
  <[transaction_blockhash := (index, l ++ [(key_slice, res)])]> entry.

Definition add_to_slot_delta (self : StatusCache) (transaction_blockhash : list Z) (slot key_index : Z)
    (key_slice : list Z) (res : T) : StatusCache :=
  mkCache (cache self) (roots self)
    (<[slot := push_delta transaction_blockhash key_index key_slice res
                 (default ∅ (slot_deltas self !! slot))]> (slot_deltas self)).

(** Recording a status under a slice: the highest slot goes up, and the fork is
    pushed. *)
Definition push_fork (entry : Z * Z * KeyMap) (slot : Z) (key_slice : list Z) (res : T)
    : Z * Z * KeyMap :=
  let '(max_slot, key_index, hash_map) := entry in
  (Z.max slot max_slot, key_index,
   <[key_slice := default [] (hash_map !! key_slice) ++ [(slot, res)]]> hash_map).

Definition insert (self : StatusCache) (transaction_blockhash key : list Z) (slot : Z) (res : T)
    (random_index : Z) : outcome StatusCache :=
  let entry := default (slot, random_index, ∅) (cache self !! transaction_blockhash) in
  let key_index := Z.min entry.1.2 (max_key_index key) in
  let* key_slice := slice_at key key_index in
  Done (add_to_slot_delta
          (mkCache (<[transaction_blockhash := push_fork entry slot key_slice res]> (cache self))
             (roots self) (slot_deltas self))
          transaction_blockhash slot key_index key_slice res).

Definition insert_with_slice (self : StatusCache) (transaction_blockhash : list Z) (slot key_index : Z)
    (key_slice : list Z) (res : T) : StatusCache :=
  let entry := default (slot, key_index, ∅) (cache self !! transaction_blockhash) in
  add_to_slot_delta
    (mkCache (<[transaction_blockhash := push_fork entry slot key_slice res]> (cache self))
       (roots self) (slot_deltas self))
    transaction_blockhash slot key_index key_slice res.

(** ** Forgetting *)

Definition least (s : gset Z) : option Z :=
  match elements s with [] => None | x :: l => Some (foldl Z.min x l) end.

Definition purge_roots (MAX_CACHE_ENTRIES : Z) (self : StatusCache) : StatusCache :=
  if MAX_CACHE_ENTRIES <? Z.of_nat (size (roots self)) then
    match least (roots self) with
    | Some min =>
        mkCache (filter (fun x => min < x.2.1.1) (cache self)) (roots self ∖ {[ min ]})
          (filter (fun x => min < x.1) (slot_deltas self))
    | None => self
    end
  else self.

Definition add_root (MAX_CACHE_ENTRIES : Z) (self : StatusCache) (fork : Z) : StatusCache :=
  purge_roots MAX_CACHE_ENTRIES (mkCache (cache self) ({[ fork ]} ∪ roots self) (slot_deltas self)).

(** Removes the forks of [slot] under one key slice. *)
Definition clear_key (slot : Z) (all_hash_maps : KeyMap) (key_slice : list Z) : outcome KeyMap :=
  match all_hash_maps !! key_slice with
  | Some key_list =>
      let key_list := filter (fun x => x.1 <> slot) key_list in
      match key_list with
      | [] => Done (delete key_slice all_hash_maps)
      | _ => Done (<[key_slice := key_list]> all_hash_maps)
      end
  | None => Panicked
  end.

Fixpoint clear_keys (slot : Z) (all_hash_maps : KeyMap) (key_list : list (list Z * T))
    : outcome KeyMap :=
  match key_list with
  | [] => Done all_hash_maps
  | (key_slice, _) :: key_list =>
      let* all_hash_maps := clear_key slot all_hash_maps key_slice in
      clear_keys slot all_hash_maps key_list
  end.

Fixpoint clear_blockhashes (slot : Z) (c : KeyStatusMap)
    (deltas : list (list Z * (Z * list (list Z * T)))) : outcome KeyStatusMap :=
  match deltas with
  | [] => Done c
  | (blockhash, (_, key_list)) :: deltas =>
      match c !! blockhash with
      | Some (max_slot, key_index, all_hash_maps) =>
          let* all_hash_maps := clear_keys slot all_hash_maps key_list in
          let c :=
            if decide (all_hash_maps = ∅) then delete blockhash c
            else <[blockhash := (max_slot, key_index, all_hash_maps)]> c in
          clear_blockhashes slot c deltas
      | None => Panicked
      end
  end.

Definition clear_slot_entries (self : StatusCache) (slot : Z) : outcome StatusCache :=
  match slot_deltas self !! slot with
  | None => Done self
  | Some deltas =>
      let* c := clear_blockhashes slot (cache self) (map_to_list deltas) in
      Done (mkCache c (roots self) (delete slot (slot_deltas self)))
  end.

(** Clear for testing. *)
Definition clear (self : StatusCache) : StatusCache :=
  mkCache ((fun v => (v.1, ∅)) <$> cache self) (roots self) ((fun _ => ∅) <$> slot_deltas self).

(** ** Snapshots *)

Abbreviation SlotDelta := (Z * bool * Status)%type.

Definition root_slot_deltas (self : StatusCache) : list SlotDelta :=
  map (fun root => (root, true, default ∅ (slot_deltas self !! root))) (elements (roots self)).

Definition append_one (MAX_CACHE_ENTRIES : Z) (self : StatusCache) (delta : SlotDelta) : StatusCache :=
  let '(slot, is_root, statuses) := delta in
  let self :=
    foldl (fun self '(tx_hash, (key_index, statuses)) =>
             foldl (fun self '(key_slice, res) =>
                      insert_with_slice self tx_hash slot key_index key_slice res) self statuses)
      self (map_to_list statuses) in
  if is_root : bool then add_root MAX_CACHE_ENTRIES self slot else self.

Definition append (MAX_CACHE_ENTRIES : Z) (self : StatusCache) (slot_deltas : list SlotDelta)
    : StatusCache := foldl (append_one MAX_CACHE_ENTRIES) self slot_deltas.

Definition from_slot_deltas (MAX_CACHE_ENTRIES : Z) (slot_deltas : list SlotDelta) : StatusCache :=
  append MAX_CACHE_ENTRIES default_cache slot_deltas.

End StatusCache.
Arguments StatusCache : clear implicits.

(** ** What is recorded *)

Section Facts.
Context {T : Type}.
Implicit Types (c : StatusCache T) (s : Z) (b slice key : list Z) (forks : list (Z * T)).

Lemma key_slice_Done key index : CACHED_KEY_SIZE <= zlen key -> exists slice, key_slice key index = Done slice.
Proof.
  intros H. unfold key_slice, slice_at. rewrite (proj2 (Z.leb_le _ _)); [by eexists|].
  unfold max_key_index, saturating_sub, CACHED_KEY_SIZE in *. lia.
Qed.

(** The forks of a slice, and the slices recorded in a slot, as total
    functions. *)
Definition forks_of c b slice : list (Z * T) :=
  match cache c !! b with Some (_, _, km) => default [] (km !! slice) | None => [] end.
Definition delta_of c s b : list (list Z * T) :=
  match slot_deltas c !! s with Some d => from_option snd [] (d !! b) | None => [] end.

Definition recorded c b slice s : Prop := s ∈ (forks_of c b slice).*1.
Definition in_delta c s b slice : Prop := slice ∈ (delta_of c s b).*1.

(** The forks, the deltas of the slots above [floor] and the highest slots agree,
    and nothing empty is stored. *)
Record cache_wf (floor : Z) c : Prop := {
  wf_delta s b slice : in_delta c s b slice -> floor < s /\ recorded c b slice s;
  wf_recorded s b slice : recorded c b slice s -> floor < s -> in_delta c s b slice;
  wf_nodup s b : NoDup (delta_of c s b).*1;
  wf_nonempty s d b i l : slot_deltas c !! s = Some d -> d !! b = Some (i, l) -> l <> [];
  wf_cache b m i km : cache c !! b = Some (m, i, km) -> km <> ∅ /\
    forall slice forks, km !! slice = Some forks -> forks <> [] /\ Forall (fun x => x.1 <= m) forks;
}.

Lemma default_wf floor : cache_wf floor (default_cache (T := T)).
Proof.
  split; unfold in_delta, recorded, delta_of, forks_of; cbn; setoid_rewrite lookup_empty; cbn; try done.
  - intros s b slice ?%not_elem_of_nil. done.
  - intros s b slice ?%not_elem_of_nil. done.
  - intros. apply NoDup_nil_2.
Qed.

(** A recorded status is found. *)
Lemma get_status_recorded c key b anc slice m i km s :
  cache c !! b = Some (m, i, km) -> key_slice key i = Done slice ->
  recorded c b slice s -> s ∈ anc \/ s ∈ roots c ->
  exists x, get_status c key b anc = Done (Some x).
Proof.
  intros Hc Hk Hr Ha. unfold recorded, forks_of in Hr. rewrite Hc in Hr.
  unfold get_status. rewrite Hc, Hk. cbn [obind].
  destruct (km !! slice) as [forks|]; [|by apply not_elem_of_nil in Hr].
  apply list_elem_of_fmap in Hr as ([s' r] & -> & Hin).
  destruct (list_find_elem_of (fun x => x.1 ∈ anc \/ x.1 ∈ roots c) forks (s', r) Hin Ha) as [[j x] ->].
  by exists x.
Qed.

(** ** Recording *)

Lemma delta_of_pushed c s b idx slice (res : T) s' b' :
  delta_of (add_to_slot_delta c b s idx slice res) s' b' =
  if decide (s' = s /\ b' = b) then delta_of c s b ++ [(slice, res)] else delta_of c s' b'.
Proof.
  unfold delta_of, add_to_slot_delta, push_delta. cbn [slot_deltas].
  destruct (decide (s' = s)) as [->|Hs].
  2: { rewrite lookup_insert_ne by done. by rewrite decide_False by naive_solver. }
  rewrite lookup_insert_eq. destruct (decide (b' = b)) as [->|Hb].
  - rewrite decide_True by done.
    destruct (slot_deltas c !! s) as [d|]; cbn [default from_option id].
    + destruct (d !! b) as [[i l]|]; cbn [default from_option id]; by rewrite lookup_insert_eq.
    + rewrite lookup_empty. cbn. by rewrite lookup_insert_eq.
  - rewrite decide_False by naive_solver.
    destruct (slot_deltas c !! s) as [d|]; cbn [default from_option id].
    + destruct (d !! b) as [[i l]|]; cbn [default from_option id]; by rewrite lookup_insert_ne.
    + rewrite lookup_empty. cbn. by rewrite lookup_insert_ne.
Qed.

Lemma forks_of_pushed c b entry s slice (res : T) rs sd b' slice' :
  entry = default (s, entry.1.2, ∅) (cache c !! b) ->
  forks_of (mkCache (<[b := push_fork entry s slice res]> (cache c)) rs sd) b' slice' =
  if decide (b' = b /\ slice' = slice) then forks_of c b slice ++ [(s, res)] else forks_of c b' slice'.
Proof.
  intros He. unfold forks_of. cbn [cache]. destruct (decide (b' = b)) as [->|Hb].
  2: { rewrite lookup_insert_ne by done. by rewrite decide_False by naive_solver. }
  rewrite lookup_insert_eq. destruct entry as [[m i] km]. cbn [push_fork fst snd] in *.
  assert (match cache c !! b with Some (_, _, km) => default [] (km !! slice') | None => [] end
    = default [] (km !! slice')) as ->.
  { destruct (cache c !! b) as [[[m' i'] km']|]; cbn in He; injection He as ->; [by subst|].
    subst. by rewrite lookup_empty. }
  assert (match cache c !! b with Some (_, _, km) => default [] (km !! slice) | None => [] end
    = default [] (km !! slice)) as ->.
  { destruct (cache c !! b) as [[[m' i'] km']|]; cbn in He; injection He as ->; [by subst|].
    subst. by rewrite lookup_empty. }
  destruct (decide (slice' = slice)) as [->|Hs].
  - by rewrite lookup_insert_eq, decide_True.
  - rewrite lookup_insert_ne by done. by rewrite decide_False by naive_solver.
Qed.

(** Recording a status under a slice that the slot does not have yet. *)
Lemma push_wf floor c b entry s idx slice (res : T) :
  cache_wf floor c -> entry = default (s, entry.1.2, ∅) (cache c !! b) -> floor < s ->
  ~ in_delta c s b slice ->
  cache_wf floor (add_to_slot_delta
    (mkCache (<[b := push_fork entry s slice res]> (cache c)) (roots c) (slot_deltas c)) b s idx slice res).
Proof.
  intros [W1 W2 W3 W4 W5] He Hf Hnew. set (c1 := mkCache _ _ _).
  assert (forall s b, delta_of c1 s b = delta_of c s b) as Hd by done.
  assert (forall b' slice', forks_of (add_to_slot_delta c1 b s idx slice res) b' slice' =
    if decide (b' = b /\ slice' = slice) then forks_of c b slice ++ [(s, res)] else forks_of c b' slice')
    as Hforks by (intros; by apply (forks_of_pushed c b entry s slice res (roots c)
      (slot_deltas (add_to_slot_delta c1 b s idx slice res)))).
  split.
  - intros s' b' slice'. unfold in_delta, recorded. rewrite delta_of_pushed, Hforks, !Hd.
    destruct (decide (s' = s /\ b' = b)) as [[-> ->]|Hne].
    + rewrite fmap_app, elem_of_app. cbn. rewrite list_elem_of_singleton. intros H. split; [done|].
      destruct (decide (b = b /\ slice' = slice)) as [_|Hn].
      * rewrite fmap_app, elem_of_app. right. cbn. by apply list_elem_of_singleton.
      * destruct H as [H| ->]; [by apply W1 in H as []|by destruct Hn].
    + intros H. apply W1 in H as [Hs Hr]. split; [done|]. destruct (decide (b' = b /\ slice' = slice)) as [[-> ->]|];
        [|done]. rewrite fmap_app, elem_of_app. by left.
  - intros s' b' slice'. unfold in_delta, recorded. rewrite delta_of_pushed, Hforks, !Hd. intros H Hs.
    destruct (decide (s' = s /\ b' = b)) as [[-> ->]|Hne].
    + rewrite fmap_app, elem_of_app. cbn. rewrite list_elem_of_singleton.
      destruct (decide (b = b /\ slice' = slice)) as [[_ ->]|Hn]; [by right|]. left. by apply W2.
    + apply W2; [|done]. destruct (decide (b' = b /\ slice' = slice)) as [[-> ->]|]; [|done].
      rewrite fmap_app, elem_of_app in H. cbn in H. rewrite list_elem_of_singleton in H.
      destruct H as [H| ->]; [done|naive_solver].
  - intros s' b'. rewrite delta_of_pushed, !Hd. destruct (decide _) as [_|]; [|apply W3].
    rewrite fmap_app. apply NoDup_app. split; [apply W3|]. split; [|apply NoDup_singleton].
    intros x Hx ->%list_elem_of_singleton. by apply Hnew.
  - intros s' d b' i l. unfold add_to_slot_delta, push_delta. cbn [slot_deltas].
    destruct (decide (s' = s)) as [->|Hs]; [rewrite lookup_insert_eq|rewrite lookup_insert_ne by done; apply W4].
    intros [= <-]. destruct (default (idx, []) _) as [i0 l0]. rewrite lookup_insert_Some.
    intros [[_ [= _ <-]]|[_ H]]; [by destruct l0|].
    change (slot_deltas c1) with (slot_deltas c) in H.
    destruct (slot_deltas c !! s) as [d|] eqn:Ed; cbn in H; [by eapply W4|]. by rewrite lookup_empty in H.
  - intros b' m i km. cbn [cache add_to_slot_delta c1]. rewrite lookup_insert_Some.
    intros [[_ H]|[_ H]]; [|by eapply W5]. destruct entry as [[m0 i0] km0]. cbn [push_fork] in H.
    injection H as <- <- <-. split; [apply insert_non_empty|]. intros slice' forks.
    assert (forall sl fk, km0 !! sl = Some fk -> fk <> [] /\ Forall (fun x => x.1 <= m0) fk) as Hold.
    { intros sl fk Hk. destruct (cache c !! b) as [[[m' i'] km']|] eqn:Ec; cbn in He.
      - injection He as -> -> ->. destruct (W5 b m' i' km' Ec) as [_ Hw]. by eapply Hw.
      - injection He as -> ->. by rewrite lookup_empty in Hk. }
    rewrite lookup_insert_Some. intros [[_ <-]|[_ H]].
    + split; [by destruct (default [] _)|]. apply Forall_app. split; [|repeat constructor; cbn; lia].
      destruct (km0 !! slice) as [fk|] eqn:Ek; [|done]. cbn. destruct (Hold _ _ Ek) as [_ HF].
      eapply Forall_impl; [exact HF|]. cbn. lia.
    + destruct (Hold _ _ H) as [Hn HF]. split; [done|]. eapply Forall_impl; [exact HF|]. cbn. lia.
Qed.

(** ** Roots *)

Lemma foldl_min l : forall x, foldl Z.min x l ∈ x :: l /\ forall y, y ∈ x :: l -> foldl Z.min x l <= y.
Proof.
  induction l as [|z l IH]; intros x; cbn [foldl].
  { split; [apply list_elem_of_here|]. intros y ->%list_elem_of_singleton. done. }
  destruct (IH (Z.min x z)) as [H1 H2]. split.
  - apply elem_of_cons in H1 as [->|H1]; [|by do 2 apply list_elem_of_further].
    destruct (Z.min_spec x z) as [[_ ->]|[_ ->]]; [apply list_elem_of_here|].
    apply list_elem_of_further, list_elem_of_here.
  - intros y Hy. apply elem_of_cons in Hy as [->|Hy].
    { specialize (H2 _ (list_elem_of_here (Z.min x z) l)). lia. }
    apply elem_of_cons in Hy as [->|Hy]; [specialize (H2 _ (list_elem_of_here (Z.min x z) l)); lia|].
    apply H2. by apply list_elem_of_further.
Qed.

Lemma least_Some (rs : gset Z) min : least rs = Some min -> min ∈ rs /\ forall x, x ∈ rs -> min <= x.
Proof.
  unfold least. destruct (elements rs) as [|x l] eqn:E; [done|]. intros [= <-].
  destruct (foldl_min l x) as [H1 H2]. rewrite <- E in H1, H2. split.
  - by apply elem_of_elements.
  - intros y Hy. apply H2. by apply elem_of_elements.
Qed.

(** Dropping the least root and what is not above it. *)
Definition purged min c : StatusCache T :=
  mkCache (filter (fun x => min < x.2.1.1) (cache c)) (roots c ∖ {[ min ]})
    (filter (fun x => min < x.1) (slot_deltas c)).

Lemma purge_roots_cases max c :
  purge_roots max c = c \/
  exists min, purge_roots max c = purged min c /\ max < Z.of_nat (size (roots c)) /\
    min ∈ roots c /\ forall x, x ∈ roots c -> min <= x.
Proof.
  unfold purge_roots. destruct (Z.ltb_spec max (Z.of_nat (size (roots c)))); [|by left].
  destruct (least (roots c)) as [min|] eqn:E; [|by left]. right. exists min.
  apply least_Some in E as []. done.
Qed.

Lemma purged_forks min c b slice :
  forks_of (purged min c) b slice
  = match cache c !! b with Some (m, _, _) => if decide (min < m) then forks_of c b slice else [] | None => [] end.
Proof.
  unfold forks_of. cbn [cache purged]. destruct (cache c !! b) as [[[m i] km]|] eqn:E.
  - destruct (decide (min < m)) as [Hm|Hm].
    + by rewrite (map_lookup_filter_Some_2 _ _ b (m, i, km)).
    + rewrite map_lookup_filter_None_2; [done|]. right. intros x Hx. rewrite E in Hx. by injection Hx as <-.
  - rewrite map_lookup_filter_None_2; [done|by left].
Qed.

Lemma purged_delta min c s b :
  delta_of (purged min c) s b = if decide (min < s) then delta_of c s b else [].
Proof.
  unfold delta_of. cbn [slot_deltas purged]. destruct (slot_deltas c !! s) as [d|] eqn:E.
  - destruct (decide (min < s)) as [Hm|Hm].
    + by rewrite (map_lookup_filter_Some_2 _ _ s d).
    + rewrite map_lookup_filter_None_2; [done|]. by right.
  - rewrite map_lookup_filter_None_2; [|by left]. by destruct (decide _).
Qed.

Lemma recorded_top floor c b slice s :
  cache_wf floor c -> recorded c b slice s ->
  exists m i km, cache c !! b = Some (m, i, km) /\ s <= m.
Proof.
  intros W Hr. unfold recorded, forks_of in Hr.
  destruct (cache c !! b) as [[[m i] km]|] eqn:E; [|by apply not_elem_of_nil in Hr].
  exists m, i, km. split; [done|]. destruct (km !! slice) as [forks|] eqn:Ek;
    [|by apply not_elem_of_nil in Hr]. destruct (wf_cache _ _ W _ _ _ _ E) as [_ Hw].
  destruct (Hw _ _ Ek) as [_ HF]. cbn in Hr. apply list_elem_of_fmap in Hr as (x & -> & Hx).
  rewrite Forall_forall in HF. by apply HF.
Qed.

Lemma purged_wf floor min c : cache_wf floor c -> cache_wf (Z.max floor min) (purged min c).
Proof.
  intros W. pose proof W as [W1 W2 W3 W4 W5]. split.
  - intros s b slice. unfold in_delta. rewrite purged_delta. destruct (decide (min < s)) as [Hm|];
      [|by intros ?%not_elem_of_nil]. intros [Hf Hr]%W1. split; [lia|].
    destruct (recorded_top _ _ _ _ _ W Hr) as (m & i & km & E & Hle).
    unfold recorded. rewrite purged_forks, E, decide_True by lia. done.
  - intros s b slice. unfold recorded, in_delta. rewrite purged_forks, purged_delta. intros Hr Hs.
    rewrite decide_True by lia. apply W2; [|lia]. unfold recorded.
    destruct (cache c !! b) as [[[m i] km]|]; [|by apply not_elem_of_nil in Hr].
    destruct (decide (min < m)); [done|]. by apply not_elem_of_nil in Hr.
  - intros s b. rewrite purged_delta. destruct (decide _); [apply W3|apply NoDup_nil_2].
  - intros s d b i l [H _]%map_lookup_filter_Some. by eapply W4.
  - intros b m i km [H _]%map_lookup_filter_Some. by eapply W5.
Qed.

Lemma roots_irrelevant floor c rs : cache_wf floor c -> cache_wf floor (mkCache (cache c) rs (slot_deltas c)).
Proof. by intros [W1 W2 W3 W4 W5]. Qed.

(** ** Dropping a slot *)

(** The forks without a slot, if any are left. *)
Definition trim s forks : option (list (Z * T)) :=
  match filter (fun x => x.1 <> s) forks with [] => None | l => Some l end.

Lemma trim_id s forks : forks <> [] -> s ∉ forks.*1 -> trim s forks = Some forks.
Proof.
  intros Hn Hs. unfold trim.
  assert (filter (fun x => x.1 <> s) forks = forks) as ->; [|by destruct forks].
  clear Hn. induction forks as [|x forks IH]; [done|]. cbn in Hs. apply not_elem_of_cons in Hs as [H1 H2].
  rewrite filter_cons_True by done. by rewrite IH.
Qed.

Lemma clear_key_spec s (km : gmap (list Z) (list (Z * T))) slice forks :
  km !! slice = Some forks ->
  exists km', clear_key s km slice = Done km' /\
    forall sl, km' !! sl = if decide (sl = slice) then trim s forks else km !! sl.
Proof.
  intros E. unfold clear_key, trim. rewrite E. destruct (filter _ forks) as [|x l].
  - eexists. split; [done|]. intros sl. destruct (decide (sl = slice)) as [->|];
      [by rewrite lookup_delete_eq|by rewrite lookup_delete_ne].
  - eexists. split; [done|]. intros sl. destruct (decide (sl = slice)) as [->|];
      [by rewrite lookup_insert_eq|by rewrite lookup_insert_ne].
Qed.

Lemma clear_keys_spec s (l : list (list Z * T)) : forall km,
  NoDup l.*1 -> (forall slice, slice ∈ l.*1 -> is_Some (km !! slice)) ->
  exists km', clear_keys s km l = Done km' /\
    forall sl, km' !! sl = if decide (sl ∈ l.*1) then km !! sl ≫= trim s else km !! sl.
Proof.
  induction l as [|[slice r] l IH]; intros km Hn Hs.
  { exists km. split; [done|]. intros sl. rewrite decide_False; [done|apply not_elem_of_nil]. }
  cbn in Hn, Hs. apply NoDup_cons in Hn as [Hx Hn].
  destruct (Hs slice (list_elem_of_here _ _)) as [forks Ef].
  destruct (clear_key_spec s km slice forks Ef) as (km1 & E1 & L1).
  destruct (IH km1 Hn) as (km2 & E2 & L2).
  { intros sl Hsl. rewrite L1. rewrite decide_False by (by intros ->). apply Hs.
    by apply list_elem_of_further. }
  exists km2. cbn [clear_keys]. rewrite E1. cbn [obind]. split; [done|]. intros sl. rewrite L2, L1.
  cbn [fmap list_fmap fst]. destruct (decide (sl = slice)) as [->|Hne].
  - rewrite decide_False, decide_True by (done || apply list_elem_of_here). by rewrite Ef.
  - destruct (decide (sl ∈ l.*1)) as [Hin|Hin].
    + rewrite decide_True; [done|]. by apply list_elem_of_further.
    + rewrite decide_False; [done|]. by apply not_elem_of_cons.
Qed.

(** The entry of a blockhash without a slot. *)
Definition forget s (entry : Z * Z * gmap (list Z) (list (Z * T)))
    : option (Z * Z * gmap (list Z) (list (Z * T))) :=
  let '(m, i, km) := entry in
  let km := omap (trim s) km in
  if decide (km = ∅) then None else Some (m, i, km).

(** A blockhash whose forks in the slot are exactly those of the delta. *)
Definition delta_exact s (km : gmap (list Z) (list (Z * T))) (l : list (list Z * T)) : Prop :=
  NoDup l.*1 /\
  forall slice forks, km !! slice = Some forks -> forks <> [] /\ (s ∈ forks.*1 <-> slice ∈ l.*1).

Lemma clear_keys_exact s l km :
  delta_exact s km l -> (forall slice, slice ∈ l.*1 -> is_Some (km !! slice)) ->
  clear_keys s km l = Done (omap (trim s) km).
Proof.
  intros [Hn Hx] Hs. destruct (clear_keys_spec s l km Hn Hs) as (km' & -> & L). f_equal.
  apply map_eq. intros sl. rewrite L, lookup_omap. destruct (decide (sl ∈ l.*1)) as [|Hin]; [done|].
  destruct (km !! sl) as [forks|] eqn:E; [|done]. cbn. destruct (Hx _ _ E) as [H1 H2].
  symmetry. apply trim_id; [done|]. by rewrite H2.
Qed.

Lemma clear_blockhashes_spec s ds : forall (cm : gmap (list Z) (Z * Z * gmap (list Z) (list (Z * T)))),
  NoDup ds.*1 ->
  (forall b i l, (b, (i, l)) ∈ ds -> exists m i' km, cm !! b = Some (m, i', km) /\
     delta_exact s km l /\ forall slice, slice ∈ l.*1 -> is_Some (km !! slice)) ->
  exists cm', clear_blockhashes s cm ds = Done cm' /\
    forall b, cm' !! b = if decide (b ∈ ds.*1) then cm !! b ≫= forget s else cm !! b.
Proof.
  induction ds as [|[b [i l]] ds IH]; intros cm Hn Hd.
  { exists cm. split; [done|]. intros b. rewrite decide_False; [done|apply not_elem_of_nil]. }
  cbn in Hn. apply NoDup_cons in Hn as [Hb Hn].
  destruct (Hd b i l (list_elem_of_here _ _)) as (m & i' & km & E & Hx & Hs).
  cbn [clear_blockhashes]. rewrite E, (clear_keys_exact s l km Hx Hs). cbn [obind].
  set (cm1 := if decide (omap (trim s) km = ∅) then delete b cm else <[b := _]> cm).
  assert (forall b', cm1 !! b' = if decide (b' = b) then forget s (m, i', km) else cm !! b') as L1.
  { intros b'. unfold cm1, forget. destruct (decide (b' = b)) as [->|Hne]; destruct (decide (_ = ∅));
      [by rewrite lookup_delete_eq|by rewrite lookup_insert_eq|by rewrite lookup_delete_ne|
       by rewrite lookup_insert_ne]. }
  destruct (IH cm1 Hn) as (cm2 & E2 & L2).
  { intros b' j l' Hin. rewrite L1, decide_False.
    - apply (Hd b' j). by apply list_elem_of_further.
    - intros ->. apply Hb. by apply (list_elem_of_fmap_2 fst) in Hin. }
  exists cm2. split; [done|]. intros b'. rewrite L2, L1. cbn [fmap list_fmap fst].
  destruct (decide (b' = b)) as [->|Hne].
  - rewrite decide_False, decide_True by (done || apply list_elem_of_here). by rewrite E.
  - destruct (decide (b' ∈ ds.*1)) as [Hin|Hin].
    + rewrite decide_True; [done|]. by apply list_elem_of_further.
    + rewrite decide_False; [done|]. by apply not_elem_of_cons.
Qed.

Lemma forget_id s (m i : Z) (km : gmap (list Z) (list (Z * T))) :
  km <> ∅ -> (forall slice forks, km !! slice = Some forks -> forks <> [] /\ s ∉ forks.*1) ->
  forget s (m, i, km) = Some (m, i, km).
Proof.
  intros Hn Hk. unfold forget. assert (omap (trim s) km = km) as ->; [|by rewrite decide_False].
  apply map_eq. intros sl. rewrite lookup_omap. destruct (km !! sl) as [forks|] eqn:E; [|done]. cbn.
  destruct (Hk _ _ E). by apply trim_id.
Qed.

Lemma forks_lookup c b m i km slice forks :
  cache c !! b = Some (m, i, km) -> km !! slice = Some forks -> forks_of c b slice = forks.
Proof. intros E Ek. unfold forks_of. by rewrite E, Ek. Qed.

Lemma delta_lookup c s d b i l : slot_deltas c !! s = Some d -> d !! b = Some (i, l) -> delta_of c s b = l.
Proof. intros E El. unfold delta_of. by rewrite E, El. Qed.

(** A blockhash without a delta in the slot has nothing to forget. *)
Lemma nothing_to_forget floor c s b m i km :
  cache_wf floor c -> cache c !! b = Some (m, i, km) -> floor < s -> delta_of c s b = [] ->
  forget s (m, i, km) = Some (m, i, km).
Proof.
  intros W E Hs Hd. destruct (wf_cache _ _ W _ _ _ _ E) as [Hn Hw]. apply forget_id; [done|].
  intros slice forks Ek. destruct (Hw _ _ Ek) as [Hne _]. split; [done|]. intros Hin.
  assert (in_delta c s b slice) as Hin'.
  { apply (wf_recorded _ _ W); [|done]. unfold recorded. by rewrite (forks_lookup _ _ _ _ _ _ _ E Ek). }
  unfold in_delta in Hin'. rewrite Hd in Hin'. by apply not_elem_of_nil in Hin'.
Qed.

(** A blockhash with a delta is cached, and the delta is exact. *)
Lemma delta_cached floor c s d b i l :
  cache_wf floor c -> slot_deltas c !! s = Some d -> d !! b = Some (i, l) ->
  floor < s /\ exists m i' km, cache c !! b = Some (m, i', km) /\
    delta_exact s km l /\ forall slice, slice ∈ l.*1 -> is_Some (km !! slice).
Proof.
  intros W Ed Hin. pose proof W as [W1 W2 W3 W4 W5]. pose proof (delta_lookup _ _ _ _ _ _ Ed Hin) as Edl.
  assert (forall slice, slice ∈ l.*1 -> floor < s /\ recorded c b slice s) as Hr
    by (intros slice Hsl; apply W1; unfold in_delta; by rewrite Edl).
  destruct l as [|[sl0 r0] l0] eqn:El; [by destruct (W4 _ _ _ _ _ Ed Hin)|]. rewrite <- El in *.
  destruct (Hr sl0) as [Hf Hr0]; [rewrite El; apply list_elem_of_here|]. split; [done|].
  destruct (recorded_top _ _ _ _ _ W Hr0) as (m & i' & km & E & _). exists m, i', km. split; [done|].
  split; [split|].
  - rewrite <- Edl. apply W3.
  - intros slice forks Ek. destruct (W5 _ _ _ _ E) as [_ Hw]. destruct (Hw _ _ Ek) as [Hne _].
    assert (recorded c b slice s <-> s ∈ forks.*1) as <-
      by (unfold recorded; by rewrite (forks_lookup _ _ _ _ _ _ _ E Ek)).
    split; [done|]. split; [|by intros [_ ?]%Hr]. intros Hs%W2; [|done]. unfold in_delta in Hs. by rewrite Edl in Hs.
  - intros slice Hsl. apply Hr in Hsl as [_ Hsl]. unfold recorded, forks_of in Hsl. rewrite E in Hsl.
    destruct (km !! slice); [done|]. by apply not_elem_of_nil in Hsl.
Qed.

Lemma clear_slot_spec floor c s :
  cache_wf floor c ->
  exists c', clear_slot_entries c s = Done c' /\ roots c' = roots c /\
    slot_deltas c' = delete s (slot_deltas c) /\
    forall b, cache c' !! b = if decide (floor < s) then cache c !! b ≫= forget s else cache c !! b.
Proof.
  intros W. unfold clear_slot_entries. destruct (slot_deltas c !! s) as [d|] eqn:Ed.
  2: { exists c. split; [done|]. split; [done|]. split; [by rewrite delete_id|]. intros b.
       destruct (decide (floor < s)); [|done]. destruct (cache c !! b) as [[[m i] km]|] eqn:E; [|done].
       symmetry. apply (nothing_to_forget floor c s b); try done. unfold delta_of. by rewrite Ed. }
  destruct (clear_blockhashes_spec s (map_to_list d) (cache c)) as (cm & -> & L).
  - apply NoDup_fst_map_to_list.
  - intros b i l Hin%elem_of_map_to_list. by apply (delta_cached floor c s d b i l W Ed Hin).
  - cbn [obind]. eexists. split; [done|]. split; [done|]. split; [done|]. intros b. cbn [cache]. rewrite L.
    destruct (decide (b ∈ (map_to_list d).*1)) as [Hin|Hin].
    + apply list_elem_of_fmap in Hin as ([b' [i l]] & -> & Hin%elem_of_map_to_list). cbn.
      destruct (delta_cached floor c s d b' i l W Ed Hin) as [Hf _]. by rewrite decide_True.
    + destruct (decide (floor < s)) as [Hf|]; [|done]. destruct (cache c !! b) as [[[m i] km]|] eqn:E; [|done].
      symmetry. apply (nothing_to_forget floor c s b); try done. unfold delta_of. rewrite Ed.
      destruct (d !! b) as [[i' l]|] eqn:Eb; [|done]. exfalso. apply Hin.
      apply list_elem_of_fmap. exists (b, (i', l)). split; [done|]. by apply elem_of_map_to_list.
Qed.

Lemma forget_forks floor c s c' b slice :
  cache_wf floor c -> floor < s ->
  cache c' !! b = cache c !! b ≫= forget s ->
  forks_of c' b slice = filter (fun x => x.1 <> s) (forks_of c b slice).
Proof.
  intros W Hs E. unfold forks_of. rewrite E. destruct (cache c !! b) as [[[m i] km]|]; [|done]. cbn.
  assert (default [] (omap (trim s) km !! slice) = filter (fun x => x.1 <> s) (default [] (km !! slice)))
    as Ht.
  { rewrite lookup_omap. destruct (km !! slice) as [forks|]; [|done]. cbn. unfold trim.
    by destruct (filter _ forks). }
  destruct (decide (omap (trim s) km = ∅)) as [Ee|]; [|done]. rewrite <- Ht, Ee. done.
Qed.

Lemma forget_wf floor c s b m i km m' i' km' :
  cache_wf floor c -> cache c !! b = Some (m, i, km) -> forget s (m, i, km) = Some (m', i', km') ->
  km' <> ∅ /\
  forall slice forks, km' !! slice = Some forks -> forks <> [] /\ Forall (fun x => x.1 <= m') forks.
Proof.
  intros W E. unfold forget. destruct (decide _) as [|Hne]; [done|]. intros [= <- <- <-]. split; [done|].
  intros slice forks. rewrite lookup_omap. destruct (km !! slice) as [fk|] eqn:Ek; [|done]. cbn. unfold trim.
  destruct (filter _ fk) as [|x l] eqn:Ef; [done|]. intros [= <-]. split; [done|]. rewrite <- Ef.
  destruct (wf_cache _ _ W _ _ _ _ E) as [_ Hw]. destruct (Hw slice fk Ek) as [_ HF].
  rewrite Forall_forall in HF |- *. intros y [_ Hy]%list_elem_of_filter. by apply HF.
Qed.

Lemma cleared_wf floor c s c' : cache_wf floor c -> clear_slot_entries c s = Done c' -> cache_wf floor c'.
Proof.
  intros W H. destruct (clear_slot_spec floor c s W) as (c1 & E1 & _ & Ed & Ec). rewrite H in E1.
  injection E1 as <-. pose proof W as [W1 W2 W3 W4 W5].
  assert (forall s' b, delta_of c' s' b = if decide (s' = s) then [] else delta_of c s' b) as Hd.
  { intros s' b. unfold delta_of. rewrite Ed. destruct (decide (s' = s)) as [->|];
      [by rewrite lookup_delete_eq|by rewrite lookup_delete_ne]. }
  assert (forall b slice s', floor < s' -> recorded c' b slice s' <-> s' <> s /\ recorded c b slice s') as Hrec.
  { intros b slice s' Hs'. unfold recorded. specialize (Ec b). destruct (decide (floor < s)) as [Hf|Hf].
    - rewrite (forget_forks floor c s c' b slice W Hf Ec), !list_elem_of_fmap.
      setoid_rewrite list_elem_of_filter. naive_solver.
    - unfold forks_of. rewrite Ec. assert (s' <> s) by lia. naive_solver. }
  split.
  - intros s' b slice. unfold in_delta. rewrite Hd. destruct (decide (s' = s)) as [|Hne];
      [by intros ?%not_elem_of_nil|]. intros [? ?]%W1. by rewrite Hrec.
  - intros s' b slice Hr Hs. rewrite Hrec in Hr by done. unfold in_delta. rewrite Hd.
    destruct Hr as [Hne Hr]. rewrite decide_False by done. by apply W2.
  - intros s' b. rewrite Hd. destruct (decide (s' = s)); [apply NoDup_nil_2|apply W3].
  - intros s' d b i l. rewrite Ed. intros [_ Hd']%lookup_delete_Some. by eapply W4.
  - intros b m i km. rewrite Ec. destruct (decide (floor < s)); [|apply W5].
    destruct (cache c !! b) as [[[m0 i0] km0]|] eqn:E; [|done]. cbn [mbind option_bind].
    by apply (forget_wf floor c s b m0 i0 km0).
Qed.

(** ** Answers *)

Definition answer (anc rs : gset Z) forks : option (Z * T) :=
  snd <$> list_find (fun x => x.1 ∈ anc \/ x.1 ∈ rs) forks.

Lemma get_status_answer c key b anc :
  CACHED_KEY_SIZE <= zlen key ->
  get_status c key b anc
  = Done (match cache c !! b with
          | Some (_, i, _) =>
              match key_slice key i with
              | Done slice => answer anc (roots c) (forks_of c b slice)
              | _ => None
              end
          | None => None
          end).
Proof.
  intros Hk. unfold get_status, forks_of. destruct (cache c !! b) as [[[m i] km]|]; [|done].
  destruct (key_slice_Done key i Hk) as [slice ->]. cbn [obind]. by destruct (km !! slice).
Qed.

Lemma answer_without s (anc rs : gset Z) forks :
  s ∉ rs -> answer anc rs (filter (fun x => x.1 <> s) forks) = answer (anc ∖ {[ s ]}) rs forks.
Proof.
  intros Hs. unfold answer. induction forks as [|x forks IH]; [done|].
  destruct (decide (x.1 = s)) as [E|E].
  - rewrite filter_cons_False by auto. rewrite IH. cbn. rewrite decide_False by set_solver.
    by destruct (list_find _ forks) as [[]|].
  - rewrite filter_cons_True by done. cbn.
    destruct (decide (x.1 ∈ anc \/ x.1 ∈ rs)) as [Hin|Hin].
    + by rewrite decide_True by set_solver.
    + rewrite decide_False by set_solver. destruct (list_find _ (filter _ forks)) as [[]|],
        (list_find _ forks) as [[]|]; cbn in *; congruence.
Qed.

Lemma clear_slot_answers floor c s c' key b anc :
  cache_wf floor c -> floor < s -> s ∉ roots c -> CACHED_KEY_SIZE <= zlen key ->
  clear_slot_entries c s = Done c' ->
  get_status c' key b anc = get_status c key b (anc ∖ {[ s ]}).
Proof.
  intros W Hf Hs Hk H. destruct (clear_slot_spec floor c s W) as (c1 & E1 & Er & _ & Ec). rewrite H in E1.
  injection E1 as <-. rewrite !get_status_answer by done. f_equal. specialize (Ec b).
  rewrite decide_True in Ec by done.
  assert (forall slice, forks_of c' b slice = filter (fun x => x.1 <> s) (forks_of c b slice)) as Hfk
    by (intros; by apply (forget_forks floor)).
  destruct (cache c !! b) as [[[m i] km]|] eqn:E; cbn in Ec; [|by rewrite Ec].
  destruct (key_slice_Done key i Hk) as [slice Ek]. rewrite Ek, Er in *.
  rewrite <- answer_without, <- Hfk by done. destruct (decide _) as [Hz|]; rewrite Ec; [|by rewrite Ek].
  unfold forks_of. by rewrite Ec.
Qed.

(** ** Histories *)

(** The highest root dropped so far. *)
Definition purge_floor (max floor : Z) c : Z :=
  if max <? Z.of_nat (size (roots c)) then
    match least (roots c) with Some min => Z.max floor min | None => floor end
  else floor.

(** The states of a cache, with the highest root it has dropped.  A key is only
    recorded in a slot above that root, after it was checked not to be there;
    only slots that are not roots are dropped. *)
Inductive reachable (max : Z) : Z -> StatusCache T -> Prop :=
| reach_start : reachable max (-1) default_cache
| reach_insert floor c b key slot res random c' :
    reachable max floor c -> floor < slot -> get_status c key b {[ slot ]} = Done None ->
    insert c b key slot res random = Done c' -> reachable max floor c'
| reach_root floor c root :
    reachable max floor c ->
    reachable max (purge_floor max floor (mkCache (cache c) ({[ root ]} ∪ roots c) (slot_deltas c)))
      (add_root max c root)
| reach_clear floor c slot c' :
    reachable max floor c -> slot ∉ roots c -> clear_slot_entries c slot = Done c' ->
    reachable max floor c'.

Lemma purge_roots_wf max floor c :
  cache_wf floor c -> cache_wf (purge_floor max floor c) (purge_roots max c).
Proof.
  intros W. unfold purge_floor, purge_roots. destruct (_ <? _); [|done].
  destruct (least (roots c)); [by apply purged_wf|done].
Qed.

Lemma insert_inv c b key slot (res : T) random c' :
  insert c b key slot res random = Done c' ->
  let entry := default (slot, random, ∅) (cache c !! b) in
  exists slice, key_slice key entry.1.2 = Done slice /\
    c' = add_to_slot_delta
      (mkCache (<[b := push_fork entry slot slice res]> (cache c)) (roots c) (slot_deltas c))
      b slot (Z.min entry.1.2 (max_key_index key)) slice res.
Proof.
  unfold insert, key_slice. intros H. destruct (slice_at _ _) as [slice| |]; try done. cbn in H.
  injection H as <-. by exists slice.
Qed.

Lemma reachable_wf max floor c : reachable max floor c -> cache_wf floor c.
Proof.
  induction 1 as [|floor c b key slot res random c' _ W Hf Hnew H|floor c root _ W|floor c slot c' _ W _ H].
  - apply default_wf.
  - apply insert_inv in H as (slice & Ek & ->). apply push_wf; [done|by destruct (cache c !! b)|done|].
    intros Hin. apply (wf_delta _ _ W) in Hin as [_ Hr].
    destruct (recorded_top _ _ _ _ _ W Hr) as (m & i & km & E & _). rewrite E in Ek. cbn in Ek.
    destruct (get_status_recorded c key b {[ slot ]} slice m i km slot E Ek Hr) as [x Hx]; [set_solver|].
    by rewrite Hx in Hnew.
  - apply purge_roots_wf. by apply roots_irrelevant.
  - by eapply cleared_wf.
Qed.

(** What may happen to a cache that should still know [slot]: the slot is not
    dropped, and at most [max] roots are not below it. *)
Inductive later (max slot : Z) : StatusCache T -> StatusCache T -> Prop :=
| later_refl c : later max slot c c
| later_insert c b key s res random c' c'' :
    insert c b key s res random = Done c' -> later max slot c' c'' -> later max slot c c''
| later_root c root c'' :
    Z.of_nat (size (filter (fun r => slot <= r) ({[ root ]} ∪ roots c))) <= max ->
    later max slot (add_root max c root) c'' -> later max slot c c''
| later_clear c s c' c'' :
    s <> slot -> clear_slot_entries c s = Done c' -> later max slot c' c'' -> later max slot c c''.

(** The key is known in the slot. *)
Definition knows c b key slot : Prop :=
  exists m i km slice, cache c !! b = Some (m, i, km) /\ slot <= m /\ key_slice key i = Done slice /\
    recorded c b slice slot.

Lemma knows_insert c b key slot b' key' s (res : T) random c' :
  knows c b key slot -> insert c b' key' s res random = Done c' -> knows c' b key slot.
Proof.
  intros (m & i & km & slice & E & Hm & Hk & Hr) H. apply insert_inv in H as (slice' & _ & ->).
  unfold knows, recorded, forks_of. cbn [cache add_to_slot_delta].
  destruct (decide (b = b')) as [->|Hb].
  - rewrite E. cbn [default from_option id]. cbn [push_fork].
    eexists _, i, _, slice. rewrite lookup_insert_eq. split; [done|]. split; [lia|]. split; [done|].
    unfold recorded, forks_of in Hr. rewrite E in Hr.
    destruct (decide (slice = slice')) as [->|]; [rewrite lookup_insert_eq|by rewrite lookup_insert_ne].
    cbn [default from_option id]. rewrite fmap_app, elem_of_app. by left.
  - exists m, i, km, slice. rewrite lookup_insert_ne by done.
    unfold recorded, forks_of in Hr. rewrite E in Hr. by rewrite E.
Qed.

Lemma knows_root max c b key slot root :
  knows c b key slot ->
  Z.of_nat (size (filter (fun r => slot <= r) ({[ root ]} ∪ roots c))) <= max ->
  knows (add_root max c root) b key slot.
Proof.
  intros (m & i & km & slice & E & Hm & Hk & Hr) Hmax. unfold add_root.
  set (c1 := mkCache (cache c) _ _). destruct (purge_roots_cases max c1) as [->|(min & -> & Hs & _ & Hle)].
  { by exists m, i, km, slice. }
  assert (min < slot) as Hlt.
  { apply Znot_ge_lt. intros Hge. assert (filter (fun r => slot <= r) (roots c1) = roots c1) as Ef.
    { apply set_eq. intros r. rewrite elem_of_filter. split; [tauto|]. intros Hin.
      split; [|done]. specialize (Hle r Hin). lia. }
    change ({[ root ]} ∪ roots c) with (roots c1) in Hmax. rewrite Ef in Hmax. lia. }
  exists m, i, km, slice. unfold recorded. rewrite purged_forks.
  change (cache c1) with (cache c). rewrite E, decide_True by lia.
  split; [|done]. cbn [cache purged]. apply map_lookup_filter_Some_2; [done|]. cbn. lia.
Qed.

(** A slice with a fork of the slot. *)
Definition has_fork (km : gmap (list Z) (list (Z * T))) slice slot : Prop :=
  slot ∈ (default [] (km !! slice)).*1.

Lemma clear_keys_keeps s slot slice l : s <> slot -> forall km km',
  clear_keys s km l = Done km' -> has_fork km slice slot -> has_fork km' slice slot.
Proof.
  intros Hne. induction l as [|[sl r] l IH]; intros km km' H Hf; [by injection H as <-|].
  cbn [clear_keys] in H. destruct (clear_key s km sl) as [km1| |] eqn:E; try done. cbn [obind] in H.
  apply (IH km1); [done|]. destruct (km !! sl) as [forks|] eqn:Es; [|unfold clear_key in E; by rewrite Es in E].
  destruct (clear_key_spec s km sl forks Es) as (km2 & E2 & L). rewrite E in E2. injection E2 as <-.
  unfold has_fork in *. rewrite L. destruct (decide (slice = sl)) as [->|]; [|done]. rewrite Es in Hf.
  cbn in Hf. apply list_elem_of_fmap in Hf as (x & Ex & Hx). unfold trim.
  assert (x ∈ filter (fun x => x.1 <> s) forks) as Hin by (apply list_elem_of_filter; split; [congruence|done]).
  destruct (filter _ forks) as [|y fl]; [by apply not_elem_of_nil in Hin|]. cbn [default from_option id].
  apply list_elem_of_fmap. by exists x.
Qed.

Lemma clear_blockhashes_keeps s slot b slice ds : s <> slot ->
  forall (cm cm' : gmap (list Z) (Z * Z * gmap (list Z) (list (Z * T)))) m i km,
  clear_blockhashes s cm ds = Done cm' -> cm !! b = Some (m, i, km) -> has_fork km slice slot ->
  exists km', cm' !! b = Some (m, i, km') /\ has_fork km' slice slot.
Proof.
  intros Hne. induction ds as [|[b' [j l]] ds IH]; intros cm cm' m i km H E Hf.
  { injection H as <-. by exists km. }
  cbn [clear_blockhashes] in H. destruct (cm !! b') as [[[m' i'] km1]|] eqn:Eb; [|done].
  destruct (clear_keys s km1 l) as [km2| |] eqn:Ek; try done. cbn [obind] in H.
  destruct (decide (b = b')) as [->|Hb].
  - rewrite Eb in E. injection E as -> -> ->. apply (clear_keys_keeps s slot slice l Hne km km2 Ek) in Hf.
    assert (km2 <> ∅) as Hn.
    { intros ->. unfold has_fork in Hf. rewrite lookup_empty in Hf. by apply not_elem_of_nil in Hf. }
    rewrite decide_False in H by done. eapply IH; [exact H| |exact Hf]. by rewrite lookup_insert_eq.
  - eapply IH; [exact H| |exact Hf]. destruct (decide (km2 = ∅));
      [by rewrite lookup_delete_ne|by rewrite lookup_insert_ne].
Qed.

Lemma knows_clear c b key slot s c' :
  knows c b key slot -> s <> slot -> clear_slot_entries c s = Done c' -> knows c' b key slot.
Proof.
  intros (m & i & km & slice & E & Hm & Hk & Hr) Hne H. unfold clear_slot_entries in H.
  unfold recorded, forks_of in Hr. rewrite E in Hr.
  destruct (slot_deltas c !! s) as [d|].
  2: { injection H as <-. exists m, i, km, slice. unfold recorded, forks_of. by rewrite E. }
  destruct (clear_blockhashes s (cache c) (map_to_list d)) as [cm| |] eqn:Ec; try done.
  injection H as <-.
  destruct (clear_blockhashes_keeps s slot b slice _ Hne _ _ _ _ _ Ec E Hr) as (km' & E' & Hf).
  exists m, i, km', slice. unfold recorded, forks_of. cbn [cache]. by rewrite E'.
Qed.

Lemma knows_later max slot b key c c' :
  later max slot c c' -> knows c b key slot -> knows c' b key slot.
Proof.
  induction 1 as [c|c b' key' s res random c' c'' H _ IH|c root c'' H _ IH|c s c' c'' Hne H _ IH]; intros K.
  - done.
  - apply IH. by eapply knows_insert.
  - apply IH. by apply knows_root.
  - apply IH. by eapply knows_clear.
Qed.

Lemma inserted_knows c b key slot (res : T) random c' :
  insert c b key slot res random = Done c' -> knows c' b key slot.
Proof.
  intros H. apply insert_inv in H as (slice & Ek & ->).
  destruct (default (slot, random, ∅) (cache c !! b)) as [[m i] km]. cbn [fst snd push_fork] in *.
  eexists _, i, _, slice. unfold recorded, forks_of. cbn [cache add_to_slot_delta].
  rewrite lookup_insert_eq. split; [done|]. split; [lia|]. split; [done|].
  rewrite lookup_insert_eq. cbn [default from_option id]. rewrite fmap_app, elem_of_app. right.
  cbn. by apply list_elem_of_singleton.
Qed.

Lemma knows_found c b key slot anc :
  knows c b key slot -> slot ∈ anc \/ slot ∈ roots c -> exists x, get_status c key b anc = Done (Some x).
Proof. intros (m & i & km & slice & E & _ & Hk & Hr) Ha. by eapply get_status_recorded. Qed.

End Facts.

(** ** A concrete history *)

Definition test_key (n : Z) : list Z := replicate 32 n.

Definition done_or_default (o : outcome (StatusCache Z)) : StatusCache Z :=
  match o with Done c => c | _ => default_cache end.

Definition test_cache1 : StatusCache Z :=
  Eval vm_compute in done_or_default (insert default_cache [1] (test_key 7) 5 100 3).
Definition test_cache2 : StatusCache Z :=
  Eval vm_compute in done_or_default (insert test_cache1 [1] (test_key 8) 6 101 0).
Definition test_cache : StatusCache Z :=
  Eval vm_compute in done_or_default (insert test_cache2 [2] (test_key 7) 6 102 9).
Definition test_cache4 : StatusCache Z :=
  Eval vm_compute in done_or_default (insert test_cache [2] (test_key 9) 7 103 0).
Definition test_cache5 : StatusCache Z := Eval vm_compute in add_root 2 test_cache4 6.
Definition test_cache6 : StatusCache Z :=
  Eval vm_compute in done_or_default (clear_slot_entries (add_root 2 test_cache5 7) 5).

Lemma test_reachable : reachable 2 (-1) test_cache.
Proof.
  apply (reach_insert 2 (-1) test_cache2 [2] (test_key 7) 6 102 9);
    [|done|vm_compute; reflexivity|vm_compute; reflexivity].
  apply (reach_insert 2 (-1) test_cache1 [1] (test_key 8) 6 101 0);
    [|done|vm_compute; reflexivity|vm_compute; reflexivity].
  apply (reach_insert 2 (-1) default_cache [1] (test_key 7) 5 100 3);
    [constructor|done|vm_compute; reflexivity|vm_compute; reflexivity].
Qed.

Lemma test_later : later 2 7 test_cache4 test_cache6.
Proof.
  apply later_root with 6; [vm_compute; discriminate|].
  change (add_root 2 test_cache4 6) with test_cache5.
  apply later_root with 7; [vm_compute; discriminate|].
  apply later_clear with 5 test_cache6; [done|vm_compute; reflexivity|]. apply later_refl.
Qed.

(** ** Claims *)

(** C28: a processed transaction is remembered.  Once a key is recorded for a
    blockhash in a slot, it is found for every bank that has the slot as an
    ancestor or a root, after any further recording, adding of roots and
    dropping of other slots, as long as no more roots than the cache keeps are
    at or above the slot.  This includes the keys of other lengths that share
    the blockhash, and the loss of old blockhashes with the roots. *)
Theorem processed_transactions_are_remembered {T} max c b key slot (res : T) random c1 c2 anc :
  insert c b key slot res random = Done c1 -> later max slot c1 c2 ->
  slot ∈ anc \/ slot ∈ roots c2 ->
  exists x, get_status c2 key b anc = Done (Some x).
Proof.
  intros H Hl Ha. apply (knows_found _ _ _ slot); [|done]. eapply knows_later; [exact Hl|].
  by eapply inserted_knows.
Qed.

Lemma processed_transactions_are_remembered_witness :
  exists x, get_status test_cache6 (test_key 9) [2] ∅ = Done (Some x).
Proof.
  apply (processed_transactions_are_remembered 2 test_cache [2] (test_key 9) 7 103 0 test_cache4).
  - vm_compute. reflexivity.
  - exact test_later.
  - right. apply (bool_decide_unpack (7 ∈ roots test_cache6)). vm_compute. exact I.
Defined.

(** Dropping a slot removes exactly the slot.  In every reachable state the
    removal of a slot that is not a root finds every map entry it expects, so
    its two panics cannot happen, and every later question about any key and
    blockhash is answered as it was before for a bank without that slot among
    its ancestors. *)
Theorem dropped_slot_is_forgotten {T} max floor (c : StatusCache T) slot :
  reachable max floor c -> floor < slot -> slot ∉ roots c ->
  exists c', clear_slot_entries c slot = Done c' /\ roots c' = roots c /\
    forall key b anc, CACHED_KEY_SIZE <= zlen key ->
      get_status c' key b anc = get_status c key b (anc ∖ {[ slot ]}).
Proof.
  intros H Hf Hs. apply reachable_wf in H as W.
  destruct (clear_slot_spec floor c slot W) as (c' & E & Hr & _). exists c'. split_and!; [done|done|].
  intros key b anc Hk. by apply (clear_slot_answers floor).
Qed.

Lemma dropped_slot_is_forgotten_witness :
  exists c', clear_slot_entries test_cache 6 = Done c' /\
    get_status c' (test_key 7) [2] {[ 5; 6 ]} = Done None /\
    get_status c' (test_key 7) [1] {[ 5; 6 ]} = Done (Some (5, 100)).
Proof.
  destruct (dropped_slot_is_forgotten 2 (-1) test_cache 6 test_reachable) as (c' & E & _ & H).
  - reflexivity.
  - apply (bool_decide_unpack (6 ∉ roots test_cache)). vm_compute. exact I.
  - exists c'. split; [exact E|]. split.
    + refine (eq_trans (H (test_key 7) [2] {[ 5; 6 ]} _) _); [discriminate|vm_compute; reflexivity].
    + refine (eq_trans (H (test_key 7) [1] {[ 5; 6 ]} _) _); [discriminate|vm_compute; reflexivity].
Defined.
