(* ===== verification/BatchLamports.v ===== *)
(** * Lamports across a batch

    What a batch of transactions does to the balances of the bank: the loader's
    cache never changes a balance, a processed transaction costs its payer
    exactly the fee, a failed one changes nothing else, and the accounts that
    the commit stores have the balances of the loader's view.  The sum of all
    balances and collected fees is therefore constant, as long as the nonce
    accounts that were captured when the batch was checked are still current
    when their transactions fail.  The last claim shows that this condition is
    needed. *)

From stdpp Require Import base numbers list gmap.
From Stdlib Require Import Lia.
From S2P Require Import Prelude Errors Pod TxBytes TxFrame TxFormat TxView ComputeBudget Fees.
From S2P Require Import Processing.
Local Open Scope Z_scope.
Local Open Scope rust_scope.
Import AccountLoader Loading Processor.

(** ** Balances of a store *)

Definition nonneg (m : gmap (list Z) AccountSharedData) : Prop :=
  map_Forall (fun _ a => 0 <= lamports a) m.

Lemma balance_insert m k a k' :
  balance (<[k := a]> m) k' = if decide (k' = k) then lamports a else balance m k'.
Proof.
  unfold balance. destruct (decide (k' = k)) as [->|Hne];
    [by rewrite lookup_insert_eq|by rewrite lookup_insert_ne].
Qed.

Lemma balance_delete m k k' :
  balance (delete k m) k' = if decide (k' = k) then 0 else balance m k'.
Proof.
  unfold balance. destruct (decide (k' = k)) as [->|Hne];
    [by rewrite lookup_delete_eq|by rewrite lookup_delete_ne].
Qed.

Lemma total_delete m k : total_lamports m = balance m k + total_lamports (delete k m).
Proof.
  unfold balance. destruct (m !! k) as [a|] eqn:E; cbn.
  - rewrite <- (insert_delete_id m k a E) at 1. by rewrite total_lamports_new by apply lookup_delete_eq.
  - by rewrite delete_id.
Qed.

Lemma total_ext m m' : (forall k, balance m k = balance m' k) -> total_lamports m = total_lamports m'.
Proof.
  revert m'. induction m as [|k a m Hk IH] using map_ind; intros m' H.
  - induction m' as [|k a m' Hk IH] using map_ind; [done|].
    rewrite total_lamports_new by done. pose proof (H k) as Hb. rewrite balance_insert in Hb.
    rewrite decide_True in Hb by done. rewrite <- IH; [unfold balance in Hb; rewrite lookup_empty in Hb; cbn in Hb; lia|].
    intros k'. specialize (H k'). rewrite balance_insert in H.
    destruct (decide (k' = k)) as [->|]; [|done]. unfold balance. by rewrite Hk, lookup_empty.
  - rewrite total_lamports_new, (total_delete m' k) by done. rewrite <- (IH (delete k m')).
    + specialize (H k). rewrite balance_insert, decide_True in H by done. lia.
    + intros k'. specialize (H k'). rewrite balance_insert in H. rewrite balance_delete.
      destruct (decide (k' = k)) as [->|]; [|done]. unfold balance. by rewrite Hk.
Qed.

(** ** The loader's view: its cache over the bank *)

Definition full (l : AccountLoader) : gmap (list Z) AccountSharedData :=
  loaded_accounts l ∪ callbacks l.
Definition bal (l : AccountLoader) (k : list Z) : Z := balance (full l) k.

Lemma full_insert l k a : full (insert_loaded l k a) = <[k := a]> (full l).
Proof. unfold full, insert_loaded. destruct l. cbn. by rewrite insert_union_l. Qed.

(** The account a load of [k] shows: one without lamports does not exist. *)
Definition visible (l : AccountLoader) (k : list Z) : option AccountSharedData :=
  a ← full l !! k; if lamports a =? 0 then None else Some a.

Lemma bal_visible l k : bal l k = from_option lamports 0 (visible l k).
Proof.
  unfold bal, balance, visible. destruct (full l !! k) as [a|]; cbn; [|done].
  by destruct (Z.eqb_spec (lamports a) 0).
Qed.

Lemma visible_insert l k a k' :
  visible (insert_loaded l k a) k' =
  if decide (k' = k) then (if lamports a =? 0 then None else Some a) else visible l k'.
Proof.
  unfold visible. rewrite full_insert. destruct (decide (k' = k)) as [->|Hne];
    [by rewrite lookup_insert_eq|by rewrite lookup_insert_ne].
Qed.

Lemma bal_insert l k a k' :
  bal (insert_loaded l k a) k' = if decide (k' = k) then lamports a else bal l k'.
Proof. unfold bal. by rewrite full_insert, balance_insert. Qed.

(** Loading only fills the cache. *)
Definition same_view (l l' : AccountLoader) : Prop :=
  callbacks l' = callbacks l /\ (forall k, visible l' k = visible l k) /\
  (nonneg (full l) -> nonneg (full l')).

#[export] Instance same_view_preorder : PreOrder same_view.
Proof.
  split; [by intros l|]. intros l1 l2 l3 (A1 & A2 & A3) (B1 & B2 & B3).
  split_and!; [congruence|intros k; by rewrite B2|auto].
Qed.

Lemma same_view_bal l l' k : same_view l l' -> bal l' k = bal l k.
Proof. intros (_ & H & _). by rewrite !bal_visible, H. Qed.

Lemma same_view_total l l' : same_view l l' -> total_lamports (full l') = total_lamports (full l).
Proof. intros H. apply total_ext. intros k. by apply same_view_bal. Qed.

(** A computation that only loads. *)
Definition only_loads {A} (m : L A) : Prop := forall l r l', m l = (r, l') -> same_view l l'.

Lemma only_loads_lret {A} (a : A) : only_loads (lret a).
Proof. by intros l r l' [= <- <-]. Qed.
Lemma only_loads_lfail {A} e : only_loads (lfail (A := A) e).
Proof. by intros l r l' [= <- <-]. Qed.
Lemma only_loads_lift {A} (r : result TransactionError A) : only_loads (lift r).
Proof. by intros l r' l' [= <- <-]. Qed.
Lemma only_loads_lbind {A B} (m : L A) (k : A -> L B) :
  only_loads m -> (forall a, only_loads (k a)) -> only_loads (lbind m k).
Proof.
  intros Hm Hk l r l' H. unfold lbind in H. destruct (m l) as [[a|e] l1] eqn:E.
  - transitivity l1; [by eapply Hm|by eapply Hk].
  - injection H as <- <-. by eapply Hm.
Qed.

(** A load returns the visible account. *)
Lemma load_account_spec k l r l' :
  load_account k l = (r, l') -> same_view l l' /\ r = Ok (visible l k).
Proof.
  unfold load_account, do_load, get_account_shared_data.
  assert (forall a, (if lamports a =? 0 then None else Some a) = visible l k ->
    (nonneg (full l) -> 0 <= lamports a) -> same_view l (insert_loaded l k a)) as Hins.
  { intros a Ha Hn. split_and!; [by destruct l| |].
    - intros k'. rewrite visible_insert. by destruct (decide (k' = k)) as [->|].
    - intros H. rewrite full_insert. apply map_Forall_insert_2; auto. }
  assert (forall a, full l !! k = Some a -> nonneg (full l) -> 0 <= lamports a) as Hnn
    by (intros a E H; exact (H _ _ E)).
  unfold visible in *. unfold full in Hins, Hnn |- *. rewrite lookup_union in *.
  destruct (loaded_accounts l !! k) as [a|] eqn:E1, (callbacks l !! k) as [b|] eqn:E2; cbn in *.
  all: repeat match goal with |- context [?x =? 0] => destruct (x =? 0) eqn:? end; cbn in *.
  all: intros H; injection H as <- <-; (split; [try done; apply Hins; auto|done]).
  all: cbn; rewrite ?Heqb0; done.
Qed.

Lemma only_loads_load_account k : only_loads (load_account k).
Proof. intros l r l' H. by apply load_account_spec in H as [? _]. Qed.

Create HintDb loads.
#[export] Hint Resolve only_loads_lret only_loads_lfail only_loads_lift only_loads_load_account
  : loads.

(** Walks through code that loads. *)
Ltac loads :=
  repeat match goal with
  | |- only_loads (lbind _ _) => apply only_loads_lbind; [|intros ?]
  | |- only_loads (if ?b then _ else _) => destruct b
  | |- only_loads (match ?x with _ => _ end) => destruct x
  | |- only_loads _ => solve [eauto with loads]
  end.

Section Loads.
Context {env : ProcEnv}.

Lemma only_loads_load_transaction_account k :
  only_loads (AccountLoader.load_transaction_account k).
Proof. unfold AccountLoader.load_transaction_account. loads. Qed.
Hint Resolve only_loads_load_transaction_account : loads.

Lemma only_loads_load m k i : only_loads (Loading.load_transaction_account m k i).
Proof. unfold Loading.load_transaction_account. loads. Qed.
Hint Resolve only_loads_load : loads.

Lemma only_loads_count_programdata m limit a size additional :
  only_loads (count_programdata m limit a size additional).
Proof. unfold count_programdata. loads. Qed.
Hint Resolve only_loads_count_programdata : loads.

Lemma only_loads_collect_simd186 m limit k a c :
  only_loads (collect_loaded_account_simd186 m limit k a c).
Proof. unfold collect_loaded_account_simd186. loads. Qed.
Hint Resolve only_loads_collect_simd186 : loads.

Lemma only_loads_collect_all_simd186 m limit keys : forall i c,
  only_loads (collect_all_simd186 m limit i keys c).
Proof. induction keys; intros i c; cbn [collect_all_simd186]; loads. Qed.
Hint Resolve only_loads_collect_all_simd186 : loads.

Lemma only_loads_indices_simd186 l : only_loads (program_indices_simd186 l).
Proof. induction l as [|[p ix] l IH]; cbn [program_indices_simd186]; loads. Qed.
Hint Resolve only_loads_indices_simd186 : loads.

Lemma only_loads_collect_all_old m limit keys : forall i c,
  only_loads (collect_all_old m limit i keys c).
Proof. induction keys; intros i c; cbn [collect_all_old]; loads. Qed.
Hint Resolve only_loads_collect_all_old : loads.

Lemma only_loads_validate_loader limit o size v : only_loads (validate_loader limit o size v).
Proof. unfold validate_loader. loads. Qed.
Hint Resolve only_loads_validate_loader : loads.

Lemma only_loads_indices_old limit l : forall size v,
  only_loads (program_indices_old limit l size v).
Proof. induction l as [|[p ix] l IH]; intros size v; cbn [program_indices_old]; loads. Qed.
Hint Resolve only_loads_indices_old : loads.

Lemma only_loads_accounts m payer limit :
  only_loads (load_transaction_accounts m payer limit).
Proof.
  unfold load_transaction_accounts, load_transaction_accounts_simd186,
    load_transaction_accounts_old. loads.
Qed.

Lemma only_loads_nonce m n d : only_loads (validate_transaction_nonce m n d).
Proof. unfold validate_transaction_nonce. loads. Qed.
Hint Resolve only_loads_nonce : loads.

Lemma only_loads_fee_payer m c : only_loads (validate_transaction_fee_payer m c).
Proof. unfold validate_transaction_fee_payer. loads. Qed.
Hint Resolve only_loads_fee_payer : loads.

Lemma only_loads_validate m c d : only_loads (validate_transaction_nonce_and_fee_payer m c d).
Proof. unfold validate_transaction_nonce_and_fee_payer. loads. Qed.

End Loads.

Lemma lbind_Ok {A B} (m : L A) (k : A -> L B) l b l' :
  lbind m k l = (Ok b, l') <-> exists a l1, m l = (Ok a, l1) /\ k a l1 = (Ok b, l').
Proof.
  unfold lbind. destruct (m l) as [[a|e] l1]; split.
  - intros H. by exists a, l1.
  - by intros (a' & l2 & [= <- <-] & H).
  - done.
  - by intros (a' & l2 & ? & ?).
Qed.

Lemma loader_lift_Ok {A} (r : result TransactionError A) l a l' :
  lift r l = (Ok a, l') <-> r = Ok a /\ l' = l.
Proof. unfold lift. split; [intros [= -> ->]|intros [-> ->]]; done. Qed.

(** Decomposes the success of code that loads. *)
Ltac inv_loads :=
  repeat match goal with
  | H : lbind _ _ _ = (Ok _, _) |- _ =>
      let a := fresh "x" in let l := fresh "l" in let E := fresh "Hx" in
      apply lbind_Ok in H as (a & l & E & H); cbn beta in H
  | H : lift _ _ = (Ok _, _) |- _ => apply loader_lift_Ok in H as [H ?]; subst
  | H : lret _ _ = (Ok _, _) |- _ => injection H as ? ?; subst
  | H : lfail _ _ = (Ok _, _) |- _ => discriminate H
  | x : (_ * _)%type |- _ => destruct x
  end.

Section Values.
Context {env : ProcEnv}.

(** An account loaded for a key: with the balance of the view, except that the
    instructions sysvar is made up and empty. *)
Definition loaded_as (l : AccountLoader) (k : list Z) (x : TransactionAccount) : Prop :=
  x.1 = k /\ lamports x.2 = if decide (k = instructions_sysvar_id) then 0 else bal l k.

Lemma loaded_as_view l l' k x : same_view l l' -> loaded_as l' k x -> loaded_as l k x.
Proof.
  intros H [H1 H2]. split; [done|]. rewrite H2, (same_view_bal _ _ _ H). done.
Qed.

Lemma exempt_status_lamports a :
  lamports (Rent.update_rent_exempt_status_for_account a) = lamports a /\
  data (Rent.update_rent_exempt_status_for_account a) = data a /\
  owner (Rent.update_rent_exempt_status_for_account a) = owner a /\
  executable (Rent.update_rent_exempt_status_for_account a) = executable a.
Proof. unfold Rent.update_rent_exempt_status_for_account. destruct (_ && _); by destruct a. Qed.

Lemma load_transaction_account_value k l o l' :
  AccountLoader.load_transaction_account k l = (Ok o, l') ->
  same_view l l' /\ loaded_account <$> o = visible l k.
Proof.
  unfold AccountLoader.load_transaction_account. intros H. inv_loads.
  apply load_account_spec in Hx as [Hs [= ->]]. split; [done|]. by destruct (visible l k).
Qed.

Lemma load_value m k i l x l' :
  Loading.load_transaction_account m k i l = (Ok x, l') ->
  same_view l l' /\ loaded_as l k (k, loaded_account x).
Proof.
  unfold Loading.load_transaction_account, loaded_as. case_bool_decide as Hk.
  - intros H. inv_loads. split; [done|]. by rewrite decide_True.
  - rewrite decide_False by done. intros H. inv_loads.
    apply load_transaction_account_value in Hx as [Hs Hb]. rewrite bal_visible, <- Hb.
    destruct x0 as [a|]; inv_loads; [|done]. split; [done|]. split; [done|]. cbn.
    destruct (message_is_writable m i); [|done]. cbn. apply exempt_status_lamports.
Qed.

Lemma collect_all_simd186_value m limit keys : forall i c l c' l',
  collect_all_simd186 m limit i keys c l = (Ok c', l') ->
  exists xs, collected_accounts c' = collected_accounts c ++ xs /\ Forall2 (loaded_as l) keys xs.
Proof.
  induction keys as [|k keys IH]; intros i c l c' l' H; cbn [collect_all_simd186] in H; inv_loads.
  { exists []. by rewrite app_nil_r. }
  apply load_value in Hx as [Hs Hv].
  pose proof (only_loads_collect_simd186 _ _ _ _ _ _ _ _ Hx0) as Hs'.
  unfold collect_loaded_account_simd186 in Hx0. inv_loads.
  apply IH in H as (xs & -> & Hxs). exists ((k, loaded_account x) :: xs).
  split; [cbn; by rewrite <- app_assoc|]. constructor; [done|].
  eapply Forall2_impl; [exact Hxs|]. intros k' x'. apply loaded_as_view. by etrans.
Qed.

Lemma collect_all_old_value m limit keys : forall i c l c' l',
  collect_all_old m limit i keys c l = (Ok c', l') ->
  exists xs, c'.1 = c.1 ++ xs /\ Forall2 (loaded_as l) keys xs.
Proof.
  induction keys as [|k keys IH]; intros i c l c' l' H; cbn [collect_all_old] in H.
  { injection H as <- <-. exists []. by rewrite app_nil_r. }
  apply lbind_Ok in H as (x & l1 & Hx & H). apply lbind_Ok in H as (c1 & l2 & Hc & H).
  apply loader_lift_Ok in Hc as [Hc ->]. unfold collect_loaded_account_old in Hc. inv_ok.
  apply load_value in Hx as [Hs Hv]. apply IH in H as (xs & -> & Hxs).
  exists ((k, loaded_account x) :: xs). split; [cbn; by rewrite <- app_assoc|]. constructor; [done|].
  eapply Forall2_impl; [exact Hxs|]. intros k' x'. by apply loaded_as_view.
Qed.

Lemma load_accounts_value m payer limit l la l' :
  load_transaction_accounts m payer limit l = (Ok la, l') ->
  exists xs, accounts la = (Message.fee_payer m, loaded_account payer) :: xs /\
    Forall2 (loaded_as l) (tail (account_keys m)) xs.
Proof.
  unfold load_transaction_accounts. destruct formalize_loaded_transaction_data_size.
  - unfold load_transaction_accounts_simd186. intros H. inv_loads.
    pose proof (only_loads_collect_simd186 _ _ _ _ _ _ _ _ Hx0) as Hs.
    unfold collect_loaded_account_simd186 in Hx0. inv_loads.
    apply collect_all_simd186_value in Hx1 as (xs & -> & Hxs). exists xs. split; [done|].
    eapply Forall2_impl; [exact Hxs|]. intros k' x'. by apply loaded_as_view.
  - unfold load_transaction_accounts_old. intros H.
    apply lbind_Ok in H as (c & l1 & Hc & H). apply loader_lift_Ok in Hc as [Hc ->].
    unfold collect_loaded_account_old in Hc. inv_ok. apply lbind_Ok in H as (c & l2 & Hx & H).
    apply collect_all_old_value in Hx as (xs & E & Hxs). destruct c as [acc size]. cbn in E. subst.
    apply lbind_Ok in H as ([idx sz] & l3 & _ & H). injection H as <- <-. by exists xs.
Qed.

End Values.

(** ** What the runtime promises about one instruction

    A successful instruction keeps the list of accounts and the lamports of those
    that are read-only or only invoked, and lamports are 64-bit integers.  The
    data of a read-only account may change: the runtime itself writes into the
    instructions sysvar. *)

Definition untouchable (m : SVMMessage) (i : Z) : bool :=
  negb (message_is_writable m i)
  || (Message.is_invoked m i && negb (Message.is_instruction_account m i)).

Definition respects (m : SVMMessage) (acc acc' : list TransactionAccount) : Prop :=
  acc'.*1 = acc.*1 /\ Forall (fun x => is_u64 (lamports x.2)) acc' /\
  forall i x, acc !! i = Some x -> untouchable m (Z.of_nat i) = true ->
    exists x', acc' !! i = Some x' /\ lamports x'.2 = lamports x.2.

Class ProcLaws (env : ProcEnv) : Prop := {
  proc_fee_laws :: FeeLaws proc_fees;
  run_instruction_respects m index ix p ctx acc ctx' acc' :
    Forall (fun x => is_u64 (lamports x.2)) acc ->
    run_instruction m index ix p ctx acc = (Ok tt, ctx', acc') -> respects m acc acc';
}.

Abbreviation lamports_sum := (zsum (fun x : TransactionAccount => lamports x.2)).

Lemma lamports_sum_Some acc s0 s :
  foldl (fun sum x => s ← sum; checked_add U128_MAX s (lamports x.2)) (Some s0) acc = Some s ->
  s = s0 + lamports_sum acc.
Proof.
  revert s0. induction acc as [|[k a] acc IH]; intros s0; [cbn; intros [= <-]; lia|].
  rewrite zsum_cons. cbn [foldl mbind option_bind snd]. unfold checked_add at 2.
  destruct (_ <=? _).
  - intros H. apply IH in H. lia.
  - clear. assert (forall acc : list TransactionAccount,
      foldl (fun sum x => s ← sum; checked_add U128_MAX s (lamports x.2)) None acc = None) as ->; [|done].
    intros l. by induction l.
Qed.

Lemma lamports_sum_None acc s0 :
  0 <= s0 -> Forall (fun x : TransactionAccount => 0 <= lamports x.2) acc ->
  s0 + lamports_sum acc <= U128_MAX ->
  is_Some (foldl (fun sum x => s ← sum; checked_add U128_MAX s (lamports x.2)) (Some s0) acc).
Proof.
  intros H0 Hacc. revert s0 H0. induction Hacc as [|[k a] acc Ha Hacc IH]; intros s0 H0 Hs; [done|].
  rewrite zsum_cons in Hs. cbn in Ha, Hs. cbn [foldl mbind option_bind snd].
  pose proof (zsum_nonneg _ _ Hacc). unfold checked_add at 2.
  rewrite (proj2 (Z.leb_le _ _)) by lia. apply IH; lia.
Qed.

Section Execution.
Context {env : ProcEnv} {laws : ProcLaws env}.

Lemma respects_refl m acc : Forall (fun x => is_u64 (lamports x.2)) acc -> respects m acc acc.
Proof. intros H. unfold respects. split_and!; try done. intros i x Hx _. by exists x. Qed.

Lemma respects_trans m a1 a2 a3 : respects m a1 a2 -> respects m a2 a3 -> respects m a1 a3.
Proof.
  intros (A1 & A2 & A3) (B1 & B2 & B3). split_and!; [congruence|done|].
  intros i x Hx Hu. destruct (A3 i x Hx Hu) as (y & Hy & <-). by apply B3.
Qed.

Lemma process_message_respects m instructions : forall index indices ctx acc acc',
  Forall (fun x => is_u64 (lamports x.2)) acc ->
  process_message m index instructions indices ctx acc = (Ok tt, acc') -> respects m acc acc'.
Proof.
  induction instructions as [|ix l IH]; intros index indices ctx acc acc' Hu H; cbn in H.
  { injection H as <-. by apply respects_refl. }
  destruct indices as [|p indices]; [injection H as <-; by apply respects_refl|].
  destruct (run_instruction m index ix p ctx acc) as [[[[]|e] ctx1] acc1] eqn:E; [|done].
  apply run_instruction_respects in E; [|done]. eapply respects_trans; [exact E|].
  eapply IH; [|exact H]. apply E.
Qed.

Lemma execute_success m loaded :
  let t := execute_loaded_transaction m loaded in
  let acc := transaction_accounts loaded in
  execution_status t = Ok tt ->
  Forall (fun x => is_u64 (lamports x.2)) acc -> lamports_sum acc <= U128_MAX ->
  respects m acc (transaction_accounts (loaded_transaction t)) /\
  lamports_sum (transaction_accounts (loaded_transaction t)) = lamports_sum acc.
Proof.
  intros t acc Hst Hu Hs. unfold t in *. clear t. unfold execute_loaded_transaction in *.
  fold acc in Hst |- *.
  destruct (process_message m 0 (program_instructions m) (transaction_program_indices loaded)
    (new_invoke_context m) acc) as [[[]|e] acc'] eqn:E; [|done]. cbn [qbind execution_status] in Hst.
  apply process_message_respects in E; [|done].
  replace (transaction_accounts (loaded_transaction _)) with acc' by (by destruct loaded).
  split; [done|].
  destruct (lamports_sum_None acc 0) as [s0 E0]; [lia| |lia|].
  { eapply Forall_impl; [exact Hu|]. intros x [? _]. done. }
  destruct (verify_changes _ _ _ _) as [[]|]; [|done]. unfold transaction_accounts_lamports_sum in Hst.
  rewrite E0 in Hst. apply lamports_sum_Some in E0. cbn [default] in Hst.
  destruct (foldl _ _ acc') as [s|] eqn:E1; [|done]. apply lamports_sum_Some in E1.
  change (id s0) with s0 in Hst. destruct (Z.eqb_spec s0 s); [lia|done].
Qed.

End Execution.

(** ** Storing accounts *)

Lemma insert_all_full l xs : full (insert_all l xs) = store_accounts (full l) xs.
Proof.
  unfold insert_all, store_accounts. revert l. induction xs as [|[k a] xs IH]; intros l; [done|].
  cbn [foldl]. by rewrite IH, full_insert.
Qed.

Lemma insert_all_callbacks l xs : callbacks (insert_all l xs) = callbacks l.
Proof.
  revert l. induction xs as [|[k a] xs IH]; intros l; [done|]. cbn. rewrite IH. by destruct l.
Qed.

Lemma insert_all_nonneg l xs :
  nonneg (full l) -> Forall (fun x => 0 <= lamports x.2) xs -> nonneg (full (insert_all l xs)).
Proof.
  intros Hl Hx. revert l Hl. induction Hx as [|[k a] xs Ha Hx IH]; intros l Hl; [done|].
  apply IH. rewrite full_insert. by apply map_Forall_insert_2.
Qed.

Lemma insert_all_bal l xs k : k ∉ xs.*1 -> bal (insert_all l xs) k = bal l k.
Proof.
  revert l. induction xs as [|[k' a] xs IH]; intros l H; [done|]. cbn in H |- *.
  apply not_elem_of_cons in H as [H1 H2]. rewrite IH by done. by rewrite bal_insert, decide_False.
Qed.

(** The change of the sum of all balances. *)
Abbreviation gain l := (zsum (fun x : TransactionAccount => lamports x.2 - bal l x.1)).

Lemma gain_ext l l' xs : Forall (fun x => bal l x.1 = bal l' x.1) xs -> gain l xs = gain l' xs.
Proof. intros H. apply zsum_ext. eapply Forall_impl; [exact H|]. intros x E. cbn. by rewrite E. Qed.

Lemma insert_all_total l xs :
  NoDup xs.*1 -> total_lamports (full (insert_all l xs)) = total_lamports (full l) + gain l xs.
Proof.
  revert l. induction xs as [|[k a] xs IH]; intros l Hn; [cbn; lia|].
  cbn in Hn. apply NoDup_cons in Hn as [Hk Hn]. cbn [insert_all foldl].
  change (foldl _ (insert_loaded l k a) xs) with (insert_all (insert_loaded l k a) xs).
  rewrite IH by done. rewrite zsum_cons. cbn [fst snd].
  rewrite (gain_ext (insert_loaded l k a) l).
  - rewrite full_insert, total_lamports_insert. unfold bal. lia.
  - apply Forall_forall. intros x Hx. rewrite bal_insert, decide_False; [done|].
    intros E. apply Hk. rewrite <- E. by apply list_elem_of_fmap_2.
Qed.

Lemma store_accounts_balance db db' xs :
  (forall k, balance db k = balance db' k) ->
  forall k, balance (store_accounts db xs) k = balance (store_accounts db' xs) k.
Proof.
  revert db db'. induction xs as [|[k a] xs IH]; intros db db' H; [done|]. cbn. apply IH.
  intros k'. by rewrite !balance_insert, H.
Qed.

(** ** The accounts a successful transaction changes *)

Lemma changed_sublist m post : forall i, changed_accounts m i post `sublist_of` post.
Proof.
  induction post as [|[k a] post IH]; intros i; cbn [changed_accounts]; [done|].
  destruct (i <? _); [|apply sublist_nil_l]. destruct (negb _); [by apply sublist_cons|].
  destruct (_ && _); [by apply sublist_cons|]. by apply sublist_skip.
Qed.

Lemma changed_writable m post : forall i x,
  0 <= i -> x ∈ changed_accounts m i post ->
  exists j, post !! j = Some x /\ message_is_writable m (i + Z.of_nat j) = true.
Proof.
  induction post as [|[k a] post IH]; intros i x Hi; cbn [changed_accounts];
    [by intros ?%not_elem_of_nil|].
  assert (x ∈ changed_accounts m (i + 1) post -> exists j, ((k, a) :: post) !! j = Some x /\
    message_is_writable m (i + Z.of_nat j) = true) as Hrec.
  { intros H. apply IH in H as (j & Hj & Hw); [|lia]. exists (S j). split; [done|].
    by replace (i + Z.of_nat (S j)) with (i + 1 + Z.of_nat j) by lia. }
  destruct (i <? _); [|by intros ?%not_elem_of_nil].
  destruct (message_is_writable m i) eqn:Ew; cbn [negb]; [|done].
  destruct (_ && _); [done|]. intros [->|H]%elem_of_cons; [|by apply Hrec].
  exists O. split; [done|]. by rewrite Z.add_0_r.
Qed.

Lemma changed_gain m fee l : forall post pre i,
  post.*1 = pre.*1 -> 0 <= i -> i + zlen post <= zlen (account_keys m) ->
  (forall j x, pre !! j = Some x -> untouchable m (i + Z.of_nat j) = true ->
     exists x', post !! j = Some x' /\ lamports x'.2 = lamports x.2) ->
  (forall j x, pre !! j = Some x -> untouchable m (i + Z.of_nat j) = false ->
     lamports x.2 = bal l x.1 - if decide (i + Z.of_nat j = 0) then fee else 0) ->
  (i = 0 -> post <> [] /\ untouchable m 0 = false) ->
  gain l (changed_accounts m i post)
  = lamports_sum post - lamports_sum pre - if decide (i = 0) then fee else 0.
Proof.
  induction post as [|[k a] post IH]; intros pre i Hk Hi Hn Hsame Hval H0; destruct pre as [|[k' b] pre];
    try done.
  { cbn. destruct (decide (i = 0)) as [E|]; [|done]. by destruct (H0 E). }
  cbn in Hk. injection Hk as <- Hk. rewrite zlen_cons in Hn. pose proof (zlen_nonneg post).
  assert (gain l (changed_accounts m (i + 1) post) = lamports_sum post - lamports_sum pre) as Hrec.
  { rewrite (IH pre (i + 1) Hk); [rewrite decide_False by lia; lia|lia|lia| | |lia].
    - intros j x Hj Hu. apply (Hsame (S j) x Hj). by replace (i + Z.of_nat (S j)) with (i + 1 + Z.of_nat j) by lia.
    - intros j x Hj Hu. replace (i + 1 + Z.of_nat j) with (i + Z.of_nat (S j)) in * by lia.
      by apply (Hval (S j)). }
  rewrite !zsum_cons. cbn [changed_accounts fst snd]. rewrite (proj2 (Z.ltb_lt _ _)) by lia.
  specialize (Hsame O (k, b) eq_refl). specialize (Hval O (k, b) eq_refl). rewrite Z.add_0_r in *.
  cbn [fst snd] in *. unfold untouchable in *.
  clear IH. destruct (negb (message_is_writable m i)) eqn:E1; cbn [orb] in *;
    [|destruct (Message.is_invoked m i && negb (Message.is_instruction_account m i)) eqn:E2].
  - destruct (Hsame eq_refl) as (x' & [= <-] & Ha). cbn in Ha.
    destruct (decide (i = 0)) as [->|]; [destruct (H0 eq_refl) as [_ Hz]; by rewrite E1 in Hz|lia].
  - destruct (Hsame eq_refl) as (x' & [= <-] & Ha). cbn in Ha.
    destruct (decide (i = 0)) as [->|]; [destruct (H0 eq_refl) as [_ Hz]; by rewrite E1, E2 in Hz|lia].
  - rewrite zsum_cons. cbn [fst snd]. specialize (Hval eq_refl). destruct (decide (i = 0)); lia.
Qed.

(** ** Transactions *)

Section Transactions.
Context {env : ProcEnv} {laws : ProcLaws env}.

(** What sanitization, locking and the reserved keys guarantee of a message:
    at most 256 different keys, a writable fee payer that is not invoked, and
    a read-only instructions sysvar. *)
Definition message_ok (m : SVMMessage) : Prop :=
  NoDup (account_keys m) /\ 0 < zlen (account_keys m) <= 256 /\
  message_is_writable m 0 = true /\
  Forall (fun x => program_id_index x.2 <> 0) (program_instructions m) /\
  (forall i, account_keys m !! i = Some instructions_sysvar_id ->
     message_is_writable m (Z.of_nat i) = false).

Definition writes (m : SVMMessage) (k : list Z) : Prop :=
  exists i, account_keys m !! i = Some k /\ message_is_writable m (Z.of_nat i) = true.

(** What the check of the transaction guarantees: fees are unsigned, and a
    nonce account is one that the transaction may write. *)
Definition checked_ok (m : SVMMessage) (c : CheckedTransactionDetails) : Prop :=
  (forall fd limit, compute_budget_and_limits c = Ok (fd, limit) ->
     0 <= transaction_fee fd /\ 0 <= prioritization_fee fd) /\
  (forall n, checked_nonce c = Some n -> writes m (nonce_address n)).

Definition tx_ok (tx : CheckedMessage) : Prop :=
  forall c, tx.2 = Ok c -> message_ok tx.1 /\ checked_ok tx.1 c.

(** The captured nonce account has the lamports it has now. *)
Definition nonce_current (tx : CheckedMessage) (l : AccountLoader) : Prop :=
  forall c n, tx.2 = Ok c -> checked_nonce c = Some n ->
    lamports (nonce_account n) = bal l (nonce_address n).

Lemma message_payer m : message_ok m ->
  account_keys m = Message.fee_payer m :: tail (account_keys m) /\ untouchable m 0 = false /\
  writes m (Message.fee_payer m) /\ Message.fee_payer m <> instructions_sysvar_id.
Proof.
  intros (_ & Hn & Hw & Hp & Hs). unfold Message.fee_payer, writes.
  destruct (account_keys m) as [|k keys] eqn:E; [cbn in Hn; unfold zlen in Hn; cbn in Hn; lia|].
  cbn. split; [done|]. split; [|split].
  - unfold untouchable. rewrite Hw. cbn [negb orb]. apply andb_false_intro1.
    unfold Message.is_invoked. cbn. apply not_true_iff_false. intros Hx%existsb_exists.
    destruct Hx as (x & Hin & Hz). rewrite Forall_forall in Hp. apply (Hp x).
    + by apply list_elem_of_In.
    + by apply Z.eqb_eq.
  - by exists O.
  - intros ->. specialize (Hs O eq_refl). change (Z.of_nat 0) with 0 in Hs. by rewrite Hw in Hs.
Qed.

(** A validated transaction: the payer's visible account was charged exactly
    the fee, and the accounts to keep are made of it. *)
Lemma validate_value m c d l v l' :
  checked_ok m c ->
  validate_transaction_nonce_and_fee_payer m c d l = (Ok v, l') ->
  exists fd limit a paid,
    compute_budget_and_limits c = Ok (fd, limit) /\ validated_fee_details v = fd /\
    visible l (Message.fee_payer m) = Some a /\ 0 <= total_fee fd <= lamports a /\
    paid = (Rent.update_rent_exempt_status_for_account a)<|lamports := lamports a - total_fee fd|> /\
    loaded_account (loaded_fee_payer_account v) = paid /\
    validated_rollback_accounts v
    = RollbackAccounts.new (checked_nonce c) (Message.fee_payer m) paid (rent_epoch a).
Proof.
  intros [Hfee _] H. unfold validate_transaction_nonce_and_fee_payer in H.
  apply lbind_Ok in H as ([] & l1 & Hn & H).
  assert (same_view l l1) as Hs.
  { destruct (checked_nonce c); [by eapply only_loads_nonce|by injection Hn as <-]. }
  unfold validate_transaction_fee_payer in H.
  apply lbind_Ok in H as ([fd limit] & l2 & Hc & H). apply loader_lift_Ok in Hc as [Hc ->].
  apply lbind_Ok in H as (o & l3 & Ho & H). apply load_transaction_account_value in Ho as [_ Hv].
  destruct o as [x|]; [|done]. cbn in Hv. destruct Hs as (_ & Hs & _). rewrite Hs in Hv.
  apply lbind_Ok in H as (paid & l4 & Hp & H). apply loader_lift_Ok in Hp as [Hp ->].
  injection H as <- <-. destruct (Hfee fd limit Hc) as [F1 F2].
  assert (0 <= total_fee fd) as Ht by (rewrite total_fee_spec; unfold saturating_add; lia).
  rewrite validate_fee_payer_spec in Hp by done. unfold fee_payer_reference in Hp.
  destruct (exempt_status_lamports (loaded_account x)) as (E1 & _).
  destruct (decide (_ = 0)); [done|].
  destruct (get_system_account_kind _) as [kind|]; [|done].
  destruct (decide (_ < _)) as [|Hge]; [done|]. destruct (decide (_ /\ _)); [done|].
  injection Hp as <-. rewrite E1 in Hge |- *.
  eexists fd, limit, (loaded_account x), _. split_and!; try done.
  assert (0 <= balance_to_keep kind); [|lia].
  destruct kind; cbn; [done|]. pose proof (minimum_balance_range nonce_state_size) as []. lia.
Qed.

(** The accounts kept when the transaction fails cost the payer the fee. *)
Lemma rollback_gain m c l paid epoch fee :
  message_ok m -> checked_ok m c -> nonneg (full l) ->
  (forall n, checked_nonce c = Some n -> lamports (nonce_account n) = bal l (nonce_address n)) ->
  lamports paid = bal l (Message.fee_payer m) - fee -> 0 <= lamports paid ->
  let xs := RollbackAccounts.iter
    (RollbackAccounts.new (checked_nonce c) (Message.fee_payer m) paid epoch) in
  NoDup xs.*1 /\ gain l xs = - fee /\ Forall (fun x => 0 <= lamports x.2) xs /\
  Forall (fun x => writes m x.1) xs.
Proof.
  intros Hm [_ Hn] Hnn Hcur Hp H0. destruct (message_payer m Hm) as (_ & _ & Hw & _).
  unfold RollbackAccounts.new. destruct (checked_nonce c) as [n|].
  - specialize (Hcur n eq_refl). specialize (Hn n eq_refl).
    assert (0 <= bal l (nonce_address n)) as Hb by (by apply balance_le_total).
    case_bool_decide as E; cbn.
    + split_and!; [apply NoDup_singleton| |repeat constructor..]; try done; destruct paid; cbn in *; lia.
    + split_and!; [|lia|repeat constructor; cbn; lia || done|repeat constructor; done].
      apply NoDup_cons. split; [by rewrite list_elem_of_singleton|apply NoDup_singleton].
  - cbn. split_and!; [apply NoDup_singleton| |repeat constructor..]; try done; destruct paid; cbn in *; lia.
Qed.

(** The accounts loaded for a message, the charged payer first. *)
Definition loaded_for (l : AccountLoader) (m : SVMMessage) (paid : AccountSharedData)
    (pre : list TransactionAccount) : Prop :=
  exists xs, pre = (Message.fee_payer m, paid) :: xs /\ Forall2 (loaded_as l) (tail (account_keys m)) xs.

Lemma loaded_for_keys l m paid pre :
  message_ok m -> loaded_for l m paid pre -> pre.*1 = account_keys m.
Proof.
  intros Hm (xs & -> & Hxs). destruct (message_payer m Hm) as (-> & _). cbn. f_equal.
  induction Hxs as [|k x keys xs [E _] _ IH]; [done|]. cbn. by rewrite E, IH.
Qed.

Lemma loaded_for_u64 l m paid pre :
  nonneg (full l) -> total_lamports (full l) <= U64_MAX -> is_u64 (lamports paid) ->
  loaded_for l m paid pre -> Forall (fun x => is_u64 (lamports x.2)) pre.
Proof.
  intros Hn Ht Hp (xs & -> & Hxs). constructor; [done|].
  induction Hxs as [|k x keys xs [_ E] _ IH]; [done|]. constructor; [|done].
  pose proof (balance_le_total _ k Hn) as Hb. fold (bal l k) in Hb. unfold is_u64. rewrite E.
  destruct (decide _); lia.
Qed.

(** The accounts changed by a successful transaction cost the payer the fee:
    the instructions may move lamports, but not make or lose any. *)
Lemma success_gain l m paid pre post fee :
  message_ok m -> loaded_for l m paid pre -> respects m pre post ->
  lamports_sum post = lamports_sum pre -> lamports paid = bal l (Message.fee_payer m) - fee ->
  let xs := changed_accounts m 0 post in
  NoDup xs.*1 /\ gain l xs = - fee /\ Forall (fun x => 0 <= lamports x.2) xs /\
  Forall (fun x => writes m x.1) xs.
Proof.
  intros Hm Hl (R1 & R2 & R3) Hsum Hp xs. pose proof (loaded_for_keys _ _ _ _ Hm Hl) as Hk.
  destruct (message_payer m Hm) as (Ek & Hu & _ & Hns). pose proof Hm as (Hnd & Hn & _ & _ & Hsys).
  assert (post.*1 = account_keys m) as Hpk by congruence.
  assert (xs `sublist_of` post) as Hsub by apply changed_sublist.
  split_and!.
  - eapply sublist_NoDup; [|by apply (fmap_sublist fst)]. by rewrite Hpk.
  - unfold xs. rewrite (changed_gain m fee l post pre 0); try done.
    + rewrite decide_True by done. lia.
    + unfold zlen. rewrite <- Hpk, length_fmap. lia.
    + destruct Hl as (ys & -> & Hys). intros j x Hj Hj0. rewrite Z.add_0_l in *. destruct j as [|j].
      { injection Hj as <-. cbn. by rewrite Hp. }
      rewrite decide_False by lia. cbn in Hj.
      destruct (Forall2_lookup_r _ _ _ _ _ Hys Hj) as (k & Hkj & [<- Ev]). rewrite Ev, Z.sub_0_r.
      destruct (decide (x.1 = instructions_sysvar_id)) as [E|]; [|done].
      assert (account_keys m !! S j = Some instructions_sysvar_id) as Hx by (rewrite Ek; cbn; by rewrite <- E).
      apply Hsys in Hx. unfold untouchable in Hj0. by rewrite Hx in Hj0.
    + intros _. split; [|done]. intros ->. destruct Hl as (ys & -> & _). done.
  - apply Forall_forall. intros x Hx. apply changed_writable in Hx as (j & Hj & _); [|lia].
    by apply (Forall_lookup_1 _ _ _ _ R2) in Hj as [? _].
  - apply Forall_forall. intros x Hx. apply changed_writable in Hx as (j & Hj & Hw); [|lia].
    exists j. split; [|done]. rewrite <- Hpk, list_lookup_fmap. by rewrite Hj.
Qed.

(** Storing such accounts over the view. *)
Lemma stored_view l l1 m xs fee :
  same_view l l1 -> nonneg (full l) -> NoDup xs.*1 -> gain l xs = - fee ->
  Forall (fun x => 0 <= lamports x.2) xs -> Forall (fun x => writes m x.1) xs ->
  nonneg (full (insert_all l1 xs)) /\
  total_lamports (full (insert_all l1 xs)) = total_lamports (full l) - fee /\
  forall k, ~ writes m k -> bal (insert_all l1 xs) k = bal l k.
Proof.
  intros Hs Hn Hnd Hg Hnn Hw. split_and!.
  - apply insert_all_nonneg; [|done]. by apply Hs.
  - rewrite insert_all_total by done. rewrite (same_view_total _ _ Hs).
    rewrite (gain_ext l1 l), Hg; [lia|]. apply Forall_true. intros x. by apply same_view_bal.
  - intros k Hk. rewrite insert_all_bal; [by apply same_view_bal|].
    intros (x & -> & Hx)%list_elem_of_fmap. rewrite Forall_forall in Hw. by apply Hk, Hw.
Qed.

Definition charged (r : TransactionProcessingResult) : Z :=
  match r with Ok t => total_fee (fee_details_of t) | Err _ => 0 end.

Definition fees_wf (r : TransactionProcessingResult) : Prop :=
  match r with
  | Ok t => 0 <= transaction_fee (fee_details_of t) /\ 0 <= prioritization_fee (fee_details_of t)
  | Err _ => True
  end.

(** One transaction: the view only changes at writable keys, by the accounts
    that will be stored, and the sum of its balances by the fee. *)
Definition step_ok (m : SVMMessage) (l l' : AccountLoader) (r : TransactionProcessingResult)
    : Prop :=
  (exists l1, same_view l l1 /\ l' = insert_all l1 (accounts_to_store m r)) /\
  nonneg (full l') /\ total_lamports (full l') = total_lamports (full l) - charged r /\
  (forall k, ~ writes m k -> bal l' k = bal l k) /\ fees_wf r /\
  Forall (fun x => writes m x.1) (accounts_to_store m r).

Lemma step_ok_error m l l1 e : nonneg (full l) -> same_view l l1 -> step_ok m l l1 (Err e).
Proof.
  intros Hn Hs. split_and!; [by exists l1|by apply Hs| |by intros; apply same_view_bal|done|done].
  rewrite (same_view_total _ _ Hs). cbn. lia.
Qed.

(** Accounts whose storing costs the fee and only touches writable keys. *)
Definition costs (l : AccountLoader) (m : SVMMessage) (fee : Z) (xs : list TransactionAccount)
    : Prop :=
  NoDup xs.*1 /\ gain l xs = - fee /\ Forall (fun x => 0 <= lamports x.2) xs /\
  Forall (fun x => writes m x.1) xs.

Lemma step_ok_stored m l l1 l' t :
  l' = insert_all l1 (accounts_to_store m (Ok t)) ->
  nonneg (full l) -> same_view l l1 -> fees_wf (Ok t) ->
  costs l m (charged (Ok t)) (accounts_to_store m (Ok t)) -> step_ok m l l' (Ok t).
Proof.
  intros -> Hn Hs Hf (H1 & H2 & H3 & H4).
  destruct (stored_view l l1 m _ _ Hs Hn H1 H2 H3 H4) as (A & B & C).
  split_and!; [by exists l1|done..].
Qed.

(** A validated transaction: the payer has paid, and the accounts kept for the
    case of failure cost the fee. *)
Definition paid_by (l : AccountLoader) (m : SVMMessage) (v : ValidatedTransactionDetails) : Prop :=
  let fd := validated_fee_details v in
  let paid := loaded_account (loaded_fee_payer_account v) in
  0 <= transaction_fee fd /\ 0 <= prioritization_fee fd /\
  lamports paid = bal l (Message.fee_payer m) - total_fee fd /\ 0 <= lamports paid /\
  0 <= total_fee fd /\
  costs l m (total_fee fd) (RollbackAccounts.iter (validated_rollback_accounts v)).

Lemma validated_paid next m c l v l1 :
  message_ok m -> checked_ok m c -> nonce_current (m, Ok c) l -> nonneg (full l) ->
  validate_transaction_nonce_and_fee_payer m c next l = (Ok v, l1) -> paid_by l m v.
Proof.
  intros Hm Hc Hcur Hn Ev.
  destruct (validate_value _ _ _ _ _ _ Hc Ev)
    as (fd & lim & a & paid & Ef & Efd & Ea & Hfee & Ep & Epaid & Erb).
  assert (lamports paid = bal l (Message.fee_payer m) - total_fee fd) as Hpaid.
  { rewrite bal_visible, Ea, Ep. cbn. by destruct (Rent.update_rent_exempt_status_for_account a). }
  assert (lamports a = bal l (Message.fee_payer m)) as Hbal by (by rewrite bal_visible, Ea).
  destruct (proj1 Hc fd lim Ef) as [F1 F2]. unfold paid_by. rewrite Efd, Epaid, Erb.
  split_and!; try done; try lia. apply rollback_gain; try done; [|lia].
  intros n Hnn. by apply (Hcur c n).
Qed.

Lemma executed_ok m l l2 v la :
  message_ok m -> nonneg (full l) -> total_lamports (full l) <= U64_MAX ->
  same_view l l2 -> paid_by l m v ->
  loaded_for l m (loaded_account (loaded_fee_payer_account v)) (accounts la) ->
  let t := execute_loaded_transaction m
    (mkLoadedTransaction (accounts la) (program_indices la) (validated_fee_details v)
       (validated_rollback_accounts v) (loaded_accounts_data_size la)) in
  step_ok m l (update_accounts_for_executed_tx m t l2) (Ok (ExecutedTx t)).
Proof.
  intros Hm Hn Ht Hs (F1 & F2 & Hp & H0 & Hf & Hroll) Hlf t.
  pose proof (balance_le_total _ (Message.fee_payer m) Hn) as Hle.
  fold (bal l (Message.fee_payer m)) in Hle.
  assert (fee_details_of (ExecutedTx t) = validated_fee_details v /\
    loaded_rollback_accounts (loaded_transaction t) = validated_rollback_accounts v) as [Efd Erb].
  { unfold t, execute_loaded_transaction. by destruct (process_message _ _ _ _ _ _). }
  eapply (step_ok_stored m l l2); [|done|done|unfold fees_wf; by rewrite Efd|].
  { unfold update_accounts_for_executed_tx, was_successful. cbn.
    destruct (execution_status t) as [[]|]; done. }
  unfold charged. rewrite Efd. cbn. destruct (execution_status t) as [[]|e] eqn:Est;
    [|by rewrite Erb].
  pose proof (loaded_for_u64 l m (loaded_account (loaded_fee_payer_account v)) _ Hn Ht
    ltac:(unfold is_u64; lia) Hlf) as Hu.
  assert (lamports_sum (accounts la) <= U128_MAX) as Hsum.
  { etrans; [apply (zsum_le _ (fun _ => U64_MAX))|].
    - eapply Forall_impl; [exact Hu|]. by intros x [_ ?].
    - rewrite zsum_const. pose proof (loaded_for_keys _ _ _ _ Hm Hlf) as Hk.
      destruct Hm as (_ & Hz & _). rewrite <- Hk in Hz. unfold zlen in Hz.
      rewrite length_fmap in Hz. lia. }
  destruct (execute_success m _ Est Hu Hsum) as [Hr Hb].
  by apply (success_gain l m _ _ _ _ Hm Hlf Hr Hb).
Qed.

Lemma process_transaction_ok next tx l r l' :
  tx_ok tx -> nonce_current tx l -> nonneg (full l) -> total_lamports (full l) <= U64_MAX ->
  process_transaction next tx.1 tx.2 l = Some (r, l') -> step_ok tx.1 l l' r.
Proof.
  destruct tx as [m c]. intros Hok Hcur Hn Ht H. cbn [fst snd] in *.
  unfold process_transaction in H. destruct c as [c|e]; [|injection H as <- <-; by apply step_ok_error].
  destruct (Hok c eq_refl) as [Hm Hc]. cbn [fst] in Hm, Hc.
  destruct (validate_transaction_nonce_and_fee_payer m c next l) as [[v|e] l1] eqn:Ev.
  2: { injection H as <- <-. apply step_ok_error; [done|]. by eapply only_loads_validate. }
  pose proof (only_loads_validate _ _ _ _ _ _ Ev) as Hs1.
  apply validated_paid in Ev; [|done|done|done|done]. unfold load_transaction in H.
  destruct (load_transaction_accounts m (loaded_fee_payer_account v) (loaded_accounts_bytes_limit v) l1)
    as [[la|e] l2] eqn:El; pose proof (only_loads_accounts _ _ _ _ _ _ El) as Hs2.
  - destruct (program_cache_full m); [done|]. injection H as <- <-.
    apply executed_ok; try done; [by etrans|].
    apply load_accounts_value in El as (xs & E & Hxs). exists xs. split; [done|].
    eapply Forall2_impl; [exact Hxs|]. intros k x. by apply loaded_as_view.
  - injection H as <- <-. destruct Ev as (F1 & F2 & _ & _ & _ & Hroll).
    by eapply (step_ok_stored m l l2); [|done|etrans| |].
Qed.

(** ** Batches *)

(** A transaction that passed its checks may write the account. *)
Definition may_write (tx : CheckedMessage) (k : list Z) : Prop :=
  (exists c, tx.2 = Ok c) /\ writes tx.1 k.

Lemma process_transaction_keeps next tx l r l' :
  tx_ok tx -> nonce_current tx l -> nonneg (full l) -> total_lamports (full l) <= U64_MAX ->
  process_transaction next tx.1 tx.2 l = Some (r, l') ->
  forall k, ~ may_write tx k -> bal l' k = bal l k.
Proof.
  intros Hok Hcur Hn Ht E k Hw. destruct (tx.2) as [c|e] eqn:Ec; [|by injection E as <- <-].
  rewrite <- Ec in E. apply (process_transaction_ok next tx l r l' Hok Hcur Hn Ht E).
  intros H. apply Hw. split; [by exists c|done].
Qed.

(** A result touches writable accounts only, and only of a transaction that
    passed its checks. *)
Definition result_ok (tx : CheckedMessage) (r : TransactionProcessingResult) : Prop :=
  Forall (fun x => writes tx.1 x.1) (accounts_to_store tx.1 r) /\
  forall t, r = Ok t -> exists c, tx.2 = Ok c.

Lemma process_transaction_checked next m c l r l' t :
  process_transaction next m c l = Some (r, l') -> r = Ok t -> exists c', c = Ok c'.
Proof. destruct c as [c|e]; [by exists c|]. cbn. intros [= <- _]. done. Qed.

(** Every nonce account was captured with the lamports it has in the store, and
    no earlier transaction of the batch may write it: what exclusive locks
    guarantee. *)
Definition nonces_undisturbed (store : list Z -> Z) (txs : list CheckedMessage) : Prop :=
  forall pre m c n post, txs = pre ++ (m, Ok c) :: post -> checked_nonce c = Some n ->
    lamports (nonce_account n) = store (nonce_address n) /\
    Forall (fun tx => ~ may_write tx (nonce_address n)) pre.

Lemma nonces_undisturbed_step store store' tx txs :
  nonces_undisturbed store (tx :: txs) ->
  (forall k, ~ may_write tx k -> store' k = store k) -> nonces_undisturbed store' txs.
Proof.
  intros H Hs pre m c n post -> Hn. destruct (H (tx :: pre) m c n post eq_refl Hn) as [H1 H2].
  apply Forall_cons in H2 as [Hw H2]. split; [|done]. by rewrite Hs.
Qed.

Lemma process_batch_ok next txs : forall l rs l',
  Forall tx_ok txs -> nonces_undisturbed (bal l) txs -> nonneg (full l) ->
  total_lamports (full l) <= U64_MAX ->
  process_batch next txs l = Some (rs, l') ->
  nonneg (full l') /\ total_lamports (full l') = total_lamports (full l) - zsum charged rs /\
  Forall fees_wf rs /\ Forall2 result_ok txs rs /\
  forall k, bal l' k = balance (store_accounts (full l) (collect_accounts_to_store txs.*1 rs)) k.
Proof.
  induction txs as [|tx txs IH]; intros l rs l' Hok Hnon Hn Ht H.
  { injection H as <- <-. split_and!; try done. cbn. lia. }
  apply Forall_cons in Hok as [Hok Hoks]. cbn [process_batch] in H. destruct tx as [m c].
  destruct (process_transaction next m c l) as [[r l1]|] eqn:E; [|done]. cbn in H.
  destruct (process_batch next txs l1) as [[rs' l2]|] eqn:E2; [|done]. cbn in H.
  injection H as <- <-.
  assert (nonce_current (m, c) l) as Hcur.
  { intros c' n E1 E3. cbn in E1. subst c. by apply (Hnon [] m c' n txs eq_refl E3). }
  pose proof (process_transaction_keeps next (m, c) l r l1 Hok Hcur Hn Ht E) as Hmw.
  destruct (process_transaction_ok next (m, c) l r l1 Hok Hcur Hn Ht E)
    as ((l0 & Hs & ->) & Hn1 & Ht1 & _ & Hf & Hw).
  cbn [fst snd] in *.
  assert (0 <= charged r) as Hc.
  { destruct r as [t|]; [|done]. cbn in Hf |- *. rewrite total_fee_spec. unfold saturating_add. lia. }
  destruct (IH _ rs' l2 Hoks (nonces_undisturbed_step _ _ _ _ Hnon Hmw) Hn1 ltac:(lia) E2)
    as (A & B & C & F & D).
  split_and!; [done|rewrite zsum_cons; lia|by constructor| |].
  { constructor; [|done]. split; [done|]. intros t ->. by eapply process_transaction_checked. }
  intros k. rewrite D. unfold collect_accounts_to_store. cbn. unfold store_accounts.
  rewrite foldl_app. apply store_accounts_balance. intros k'. rewrite insert_all_full.
  apply store_accounts_balance. intros k''. by apply same_view_bal.
Qed.

(** ** Commit *)

Definition result_fees (r : TransactionProcessingResult) : FeeDetails :=
  match r with Ok t => fee_details_of t | Err _ => fee_details_default end.

Abbreviation sum_tf := (zsum (fun r => transaction_fee (result_fees r))).
Abbreviation sum_pf := (zsum (fun r => prioritization_fee (result_fees r))).

Lemma result_fees_nonneg rs : Forall fees_wf rs -> 0 <= sum_tf rs /\ 0 <= sum_pf rs.
Proof.
  intros H. split; apply zsum_nonneg; (eapply Forall_impl; [exact H|]);
    intros [t|e]; cbn; unfold fees_wf; lia.
Qed.

(** Without saturation the charges are the two parts of the fees. *)
Lemma charged_parts rs :
  Forall fees_wf rs -> zsum charged rs < U64_MAX -> zsum charged rs = sum_tf rs + sum_pf rs.
Proof.
  induction 1 as [|r rs Hr Hrs IH]; [done|]. rewrite !zsum_cons. intros Hlt.
  assert (forall r, fees_wf r -> 0 <= charged r) as Hpos.
  { intros [t|e]; cbn; [|lia]. rewrite total_fee_spec. unfold saturating_add. lia. }
  assert (0 <= zsum charged rs) by (apply zsum_nonneg; by eapply Forall_impl).
  pose proof (Hpos r Hr). rewrite IH by lia.
  destruct r as [t|e]; cbn in Hlt, Hr |- *; [|lia]. rewrite total_fee_spec in *.
  unfold saturating_add in *. lia.
Qed.

Lemma fold_fees rs : forall acc,
  Forall fees_wf rs -> 0 <= transaction_fee acc -> 0 <= prioritization_fee acc ->
  transaction_fee acc + sum_tf rs <= U64_MAX -> prioritization_fee acc + sum_pf rs <= U64_MAX ->
  foldl (fun acc r => match r with Ok t => accumulate_details acc (fee_details_of t) | Err _ => acc end)
    acc rs = mkFeeDetails (transaction_fee acc + sum_tf rs) (prioritization_fee acc + sum_pf rs).
Proof.
  induction rs as [|r rs IH]; intros acc Hf H1 H2 H3 H4.
  { cbn. rewrite !Z.add_0_r. by destruct acc. }
  apply Forall_cons in Hf as [Hr Hf]. destruct (result_fees_nonneg rs Hf).
  rewrite !zsum_cons in *. cbn [foldl]. destruct r as [t|e]; cbn in Hr, H3, H4 |- *.
  - rewrite accumulate_details_spec. unfold saturating_add. rewrite !Z.min_r by lia.
    rewrite IH; cbn; try done; try lia. f_equal; lia.
  - rewrite IH; try done; lia.
Qed.

Lemma balance_nonneg m : nonneg m <-> forall k, 0 <= balance m k.
Proof.
  split; [intros H k; by apply balance_le_total|]. intros H k a E. specialize (H k).
  unfold balance in H. by rewrite E in H.
Qed.

Lemma errors_only n e txs : zsum charged (replicate n (Err e)) = 0 /\
  collect_accounts_to_store txs (replicate n (Err e)) = [] /\
  sum_tf (replicate n (Err e)) = 0 /\ sum_pf (replicate n (Err e)) = 0.
Proof.
  unfold collect_accounts_to_store. revert txs.
  induction n as [|n IH]; intros txs; cbn [replicate]; [by destruct txs|].
  rewrite !zsum_cons. destruct (IH (tail txs)) as (-> & E & -> & ->).
  split_and!; try done. destruct txs; [done|]. cbn. apply E.
Qed.

(** A batch is processed to its end or abandoned as a whole. *)
Lemma results_cases next txs db :
  let rs := load_and_execute_sanitized_transactions next txs db in
  (exists l', process_batch next txs (AccountLoader.new db) = Some (rs, l')) \/
  rs = replicate (length txs) (Err TransactionError.ProgramCacheHitMaxLimit).
Proof.
  unfold load_and_execute_sanitized_transactions. destruct builtins_fill_program_cache; [by right|].
  destruct (process_batch next txs _) as [[rs l']|]; [left; by exists l'|by right].
Qed.

(** The results of a batch, complete or abandoned. *)
Lemma batch_results next txs db :
  Forall tx_ok txs -> nonces_undisturbed (balance db) txs -> nonneg db -> total_lamports db <= U64_MAX ->
  let rs := load_and_execute_sanitized_transactions next txs db in
  let db' := store_accounts db (collect_accounts_to_store txs.*1 rs) in
  nonneg db' /\ total_lamports db' = total_lamports db - zsum charged rs /\ Forall fees_wf rs /\
  Forall2 result_ok txs rs.
Proof.
  intros Hok Hnon Hn Ht rs db'.
  assert (full (AccountLoader.new db) = db) as Hfull by (unfold full; cbn; by rewrite (left_id_L ∅ (∪))).
  destruct (results_cases next txs db) as [(l' & E)|E].
  - destruct (process_batch_ok next txs (AccountLoader.new db) rs l') as (A & B & C & F & D); try done.
    { unfold bal. by rewrite Hfull. }
    { by rewrite Hfull. }
    { by rewrite Hfull. }
    rewrite Hfull in B, D. split_and!; [|rewrite <- B; apply total_ext; intros k; symmetry; apply D|done|done].
    apply balance_nonneg. intros k. unfold db'. rewrite <- D. by apply balance_le_total.
  - unfold db', rs in *. rewrite E. destruct (errors_only (length txs) TransactionError.ProgramCacheHitMaxLimit txs.*1)
      as (-> & -> & _). split_and!; [done|cbn; lia|by apply Forall_replicate|].
    clear. induction txs; constructor; [by split|done].
Qed.

(** Committing results whose storing costs what they charge. *)
Lemma commit_ok txs rs b tf pf :
  collector_fee_details b = mkCollector tf pf -> 0 <= tf -> 0 <= pf ->
  let db' := store_accounts (bank_accounts b) (collect_accounts_to_store txs rs) in
  nonneg db' -> total_lamports db' = total_lamports (bank_accounts b) - zsum charged rs ->
  Forall fees_wf rs -> total_lamports (bank_accounts b) + tf + pf < U64_MAX ->
  let b' := commit_transactions txs rs b in
  exists tf' pf', collector_fee_details b' = mkCollector tf' pf' /\ tf <= tf' /\ pf <= pf' /\
    nonneg (bank_accounts b') /\
    total_lamports (bank_accounts b') + tf' + pf' = total_lamports (bank_accounts b) + tf + pf /\
    capitalization b' = capitalization b /\ collector_id b' = collector_id b.
Proof.
  intros Hc H1 H2 db' A B C Ht b'. destruct b as [db col c cap rw]. cbn in Hc, A, B, Ht, db'. subst c.
  unfold b', commit_transactions, filter_program_errors_and_collect_fee_details. cbn.
  pose proof (total_lamports_nonneg _ A) as Hpos. destruct (result_fees_nonneg rs C) as [P1 P2].
  pose proof (charged_parts rs C ltac:(lia)) as Hparts.
  rewrite fold_fees by (done || cbn; lia). exists (tf + sum_tf rs), (pf + sum_pf rs).
  unfold Distribution.accumulate, saturating_add. cbn. fold db'. split_and!; try done; try lia.
  f_equal; lia.
Qed.

Lemma execute_and_commit_ok next txs b tf pf :
  collector_fee_details b = mkCollector tf pf -> 0 <= tf -> 0 <= pf ->
  Forall tx_ok txs -> nonces_undisturbed (balance (bank_accounts b)) txs ->
  nonneg (bank_accounts b) -> total_lamports (bank_accounts b) + tf + pf < U64_MAX ->
  let b' := execute_and_commit next txs b in
  exists tf' pf', collector_fee_details b' = mkCollector tf' pf' /\ tf <= tf' /\ pf <= pf' /\
    nonneg (bank_accounts b') /\
    total_lamports (bank_accounts b') + tf' + pf' = total_lamports (bank_accounts b) + tf + pf /\
    capitalization b' = capitalization b /\ collector_id b' = collector_id b.
Proof.
  intros Hc H1 H2 Hok Hnon Hn Ht.
  destruct (batch_results next txs (bank_accounts b) Hok Hnon Hn ltac:(lia)) as (A & B & C & _).
  by apply commit_ok.
Qed.

(** The batches of a block, each with its nonces undisturbed. *)
Inductive block_run : Bank -> Bank -> Prop :=
| block_end b : block_run b b
| block_batch next txs b b' :
    Forall tx_ok txs -> nonces_undisturbed (balance (bank_accounts b)) txs ->
    block_run (execute_and_commit next txs b) b' -> block_run b b'.

Lemma block_run_ok b b' : block_run b b' -> forall tf pf,
  collector_fee_details b = mkCollector tf pf -> 0 <= tf -> 0 <= pf ->
  nonneg (bank_accounts b) -> total_lamports (bank_accounts b) + tf + pf < U64_MAX ->
  exists tf' pf', collector_fee_details b' = mkCollector tf' pf' /\ 0 <= tf' /\ 0 <= pf' /\
    nonneg (bank_accounts b') /\
    total_lamports (bank_accounts b') + tf' + pf' = total_lamports (bank_accounts b) + tf + pf /\
    capitalization b' = capitalization b.
Proof.
  induction 1 as [b|next txs b b' Hok Hnon _ IH]; intros tf pf Hc H1 H2 Hn Ht.
  { by exists tf, pf. }
  destruct (execute_and_commit_ok next txs b tf pf) as (tf1 & pf1 & E & L1 & L2 & Hn1 & T1 & C1 & _);
    try done.
  destruct (IH tf1 pf1 E ltac:(lia) ltac:(lia) Hn1 ltac:(lia)) as (tf2 & pf2 & E2 & P1 & P2 & Hn2 & T2 & C2).
  exists tf2, pf2. split_and!; try done; lia.
Qed.

(** ** Transactions without effect *)

Definition live (a : AccountSharedData) : option AccountSharedData :=
  if lamports a =? 0 then None else Some a.

Definition succeeded (t : ProcessedTransaction) : bool :=
  match t with ExecutedTx t => was_successful t | FeesOnlyTx _ => false end.

(** What a failed transaction leaves behind: the payer's account [a] short of
    the fee, and the nonce account as it was captured when the transaction was
    checked. *)
Definition failure_view (l : AccountLoader) (m : SVMMessage) (c : CheckedTransactionDetails)
    (a : AccountSharedData) (fee : Z) (k : list Z) : option AccountSharedData :=
  let payer := Message.fee_payer m in
  let paid := a<|lamports := lamports a - fee|> in
  match checked_nonce c with
  | None => if decide (k = payer) then live paid else visible l k
  | Some n =>
      let paid := paid<|rent_epoch := rent_epoch (Rent.update_rent_exempt_status_for_account a)|> in
      if decide (k = payer) then
        live (if decide (payer = nonce_address n) then paid<|data := data (nonce_account n)|> else paid)
      else if decide (k = nonce_address n) then live (nonce_account n) else visible l k
  end.

(** The payer's account [a] afterwards. *)
Definition charged_payer (payer : list Z) (c : CheckedTransactionDetails) (a : AccountSharedData) (fee : Z)
    : AccountSharedData :=
  let paid := a<|lamports := lamports a - fee|> in
  match checked_nonce c with
  | None => paid
  | Some n =>
      let paid := paid<|rent_epoch := rent_epoch (Rent.update_rent_exempt_status_for_account a)|> in
      if decide (payer = nonce_address n) then paid<|data := data (nonce_account n)|> else paid
  end.

(** The nonce account is as it was when it was captured, up to the data, which
    are those of the advanced nonce. *)
Definition captured (l : AccountLoader) (n : NonceInfo) : Prop :=
  exists a d, visible l (nonce_address n) = Some a /\ nonce_account n = a<|data := d|>.

Lemma captured_balance db n :
  captured (AccountLoader.new db) n -> lamports (nonce_account n) = balance db (nonce_address n).
Proof.
  intros (a & d & Ea & ->). change (lamports (a<|data := d|>)) with (lamports a).
  transitivity (bal (AccountLoader.new db) (nonce_address n)); [by rewrite bal_visible, Ea|].
  unfold bal, full. cbn. by rewrite (left_id_L ∅ (∪)).
Qed.

Lemma failure_payer l m c a fee :
  failure_view l m c a fee (Message.fee_payer m) = live (charged_payer (Message.fee_payer m) c a fee).
Proof. unfold failure_view, charged_payer. by destruct (checked_nonce c); rewrite !(decide_True _ _ eq_refl). Qed.

Lemma failure_nonce l m c a fee n :
  checked_nonce c = Some n -> nonce_address n <> Message.fee_payer m -> captured l n ->
  exists b, visible l (nonce_address n) = Some b /\
    failure_view l m c a fee (nonce_address n) = Some (b<|data := data (nonce_account n)|>).
Proof.
  intros En Hne (b & d & Eb & Ea). exists b. split; [done|]. unfold failure_view.
  rewrite En, decide_False, (decide_True _ _ eq_refl), Ea by done. unfold visible in Eb.
  destruct (full l !! _) as [x|]; [|done]. cbn in Eb. destruct (Z.eqb_spec (lamports x) 0); [done|].
  injection Eb as ->. unfold live. destruct b. cbn in *. by rewrite (proj2 (Z.eqb_neq _ _)).
Qed.

Lemma failure_other l m c a fee k :
  k <> Message.fee_payer m -> (forall n, checked_nonce c = Some n -> k <> nonce_address n) ->
  failure_view l m c a fee k = visible l k.
Proof.
  intros Hk Hn. unfold failure_view. destruct (checked_nonce c) as [n|]; rewrite decide_False by done; [|done].
  by rewrite decide_False by (by apply Hn).
Qed.

Lemma rollback_view l l1 m c a fee :
  same_view l l1 ->
  let paid := (Rent.update_rent_exempt_status_for_account a)<|lamports := lamports a - fee|> in
  let xs := RollbackAccounts.iter
    (RollbackAccounts.new (checked_nonce c) (Message.fee_payer m) paid (rent_epoch a)) in
  forall k, visible (insert_all l1 xs) k = failure_view l m c a fee k.
Proof.
  intros (_ & Hs & _) paid xs k.
  assert (paid = a<|lamports := lamports a - fee|>
    <|rent_epoch := rent_epoch (Rent.update_rent_exempt_status_for_account a)|>) as Hp.
  { unfold paid, Rent.update_rent_exempt_status_for_account. destruct a. by destruct (_ && _). }
  unfold xs, failure_view, RollbackAccounts.new. destruct (checked_nonce c) as [n|].
  - rewrite Hp. case_bool_decide as E; cbn [RollbackAccounts.iter insert_all foldl];
      rewrite !visible_insert, Hs.
    + rewrite <- E, (decide_True _ _ eq_refl). by destruct (decide (k = _)).
    + destruct (decide (k = nonce_address n)) as [->|], (decide (_ = Message.fee_payer m)) as [Ek|];
        try done. by destruct (decide (Message.fee_payer m = nonce_address n)).
  - cbn [RollbackAccounts.iter insert_all foldl]. rewrite visible_insert, Hs, Hp.
    by destruct a.
Qed.

Lemma process_transaction_view next m c l r l' :
  checked_ok m c -> process_transaction next m (Ok c) l = Some (r, l') ->
  match r with
  | Err _ => same_view l l'
  | Ok t => succeeded t = false ->
      exists fd limit a, compute_budget_and_limits c = Ok (fd, limit) /\ fee_details_of t = fd /\
        visible l (Message.fee_payer m) = Some a /\ 0 <= total_fee fd <= lamports a /\
        (forall k, visible l' k = failure_view l m c a (total_fee fd) k) /\
        exists l1, same_view l l1 /\ l' = insert_all l1 (accounts_to_store m r)
  end.
Proof.
  intros Hc H. unfold process_transaction in H.
  destruct (validate_transaction_nonce_and_fee_payer m c next l) as [[v|e] l1] eqn:Ev;
    pose proof (only_loads_validate _ _ _ _ _ _ Ev) as Hs1; [|by injection H as <- <-].
  destruct (validate_value _ _ _ _ _ _ Hc Ev)
    as (fd & lim & a & paid & Ef & Efd & Ea & Hfee & Ep & Epaid & Erb). unfold load_transaction in H.
  destruct (load_transaction_accounts m (loaded_fee_payer_account v) (loaded_accounts_bytes_limit v) l1)
    as [[la|e] l2] eqn:El; pose proof (only_loads_accounts _ _ _ _ _ _ El) as Hs2;
    (assert (same_view l l2) as Hs by (by etrans)).
  - destruct (program_cache_full m); [done|]. injection H as <- <-. intros Hno.
    set (t := execute_loaded_transaction _ _) in *.
    assert (fee_details_of (ExecutedTx t) = fd /\
      loaded_rollback_accounts (loaded_transaction t) = validated_rollback_accounts v) as [Efd' Erb'].
    { unfold t, execute_loaded_transaction. rewrite <- Efd. by destruct (process_message _ _ _ _ _ _). }
    exists fd, lim, a. unfold update_accounts_for_executed_tx. cbn in Hno. rewrite Hno.
    unfold update_accounts_for_failed_tx. split_and!; try done; try lia.
    + rewrite Erb', Erb, Ep. by apply rollback_view.
    + exists l2. split; [done|]. unfold was_successful in Hno. cbn. by destruct (execution_status t).
  - injection H as <- <-. intros _. exists fd, lim, a. unfold update_accounts_for_failed_tx. cbn.
    split_and!; try done; try lia; [|by exists l2]. rewrite Erb, Ep. by apply rollback_view.
Qed.

End Transactions.

(** ** Concrete environment

    A program that moves as many lamports as its first data byte says, in
    thousands, between two accounts it may write, and fails otherwise. *)

Definition test_move (m : SVMMessage) (ix : list Z * SVMInstruction) (acc : list TransactionAccount)
    : result InstructionError unit * list TransactionAccount :=
  match ix_account_indexes ix.2, ix_data ix.2 with
  | [from; to], [n] =>
      match acc !! Z.to_nat from, acc !! Z.to_nat to with
      | Some (k, a), Some (k', b) =>
          let n := n * 1000 in
          if (0 <=? n) && (n <=? lamports a) && (lamports b + n <=? U64_MAX) && negb (from =? to)
             && (0 <=? from) && (0 <=? to) && negb (untouchable m from) && negb (untouchable m to)
          then (Ok tt, <[Z.to_nat to := (k', b<|lamports := lamports b + n|>)]>
                         (<[Z.to_nat from := (k, a<|lamports := lamports a - n|>)]> acc))
          else (Err InstructionError.InvalidArgument, acc)
      | _, _ => (Err InstructionError.InvalidArgument, acc)
      end
  | _, _ => (Err InstructionError.InvalidArgument, acc)
  end.

(** Every instruction uses 150 units of the meter, and the index of the last one
    is kept in the data of accounts of the instructions sysvar. *)
Definition test_run (m : SVMMessage) (index : Z) (ix : list Z * SVMInstruction) (program meter : Z)
    (acc : list TransactionAccount)
    : result InstructionError unit * Z * list TransactionAccount :=
  let acc := map (fun x : TransactionAccount =>
    if bool_decide (x.1 = test_id 22) then (x.1, x.2<|data := [index]|>) else x) acc in
  if meter <? 150 then (Err InstructionError.InvalidArgument, 0, acc)
  else let (r, acc) := test_move m ix acc in (r, meter - 150, acc).

Definition test_proc : ProcEnv :=
  {| proc_fees := test_fees; native_loader_id := test_id 20; sysvar_id := test_id 21;
     instructions_sysvar_id := test_id 22; PROGRAM_OWNERS := [test_id 2; test_id 4];
     construct_instructions_data := fun _ => []; upgradeable_program := fun _ => None;
     nonce_state := fun a =>
       if zlen (data a) =? 80 then Some (NonceInitialized (take 32 (data a)) (test_id 91)) else None;
     formalize_loaded_transaction_data_size := true; 
     builtins_fill_program_cache := false; program_cache_full := fun _ => false;
     InvokeContext := Z; new_invoke_context := fun _ => 200000; run_instruction := test_run |}.

Lemma set_lamports_respects m acc i x n :
  Forall (fun x => is_u64 (lamports x.2)) acc -> acc !! Z.to_nat i = Some x -> 0 <= i ->
  untouchable m i = false -> is_u64 n ->
  respects m acc (<[Z.to_nat i := (x.1, x.2<|lamports := n|>)]> acc).
Proof.
  intros Hu Hx Hi Hw Hn. split_and!.
  - apply list_eq. intros j. rewrite !list_lookup_fmap.
    destruct (decide (j = Z.to_nat i)) as [->|]; [|by rewrite list_lookup_insert_ne].
    by rewrite list_lookup_insert_eq, Hx by (by eapply lookup_lt_Some).
  - apply Forall_insert; [done|]. by destruct x as [k []].
  - intros j y Hj Ht. rewrite list_lookup_insert_ne; [by exists y|]. intros <-.
    rewrite Z2Nat.id in Ht by done. by rewrite Ht in Hw.
Qed.

Lemma change_data_respects m (f : TransactionAccount -> list Z) acc :
  Forall (fun x => is_u64 (lamports x.2)) acc ->
  respects m acc (map (fun x => if bool_decide (x.1 = test_id 22) then (x.1, x.2<|data := f x|>) else x) acc).
Proof.
  intros Hu. split_and!.
  - rewrite <- list_fmap_compose. apply list_fmap_ext. intros i x _. cbn. by case_bool_decide.
  - apply Forall_map. eapply Forall_impl; [exact Hu|]. intros x Hx. cbn. by case_bool_decide; [destruct x as [k []]|].
  - intros i x Hx _. rewrite list_lookup_fmap, Hx. eexists. split; [done|].
    case_bool_decide; [by destruct x as [k []]|done].
Qed.

Lemma test_move_respects m ix acc acc' :
  Forall (fun x => is_u64 (lamports x.2)) acc -> test_move m ix acc = (Ok tt, acc') -> respects m acc acc'.
Proof.
  destruct ix as [k0 ix]. intros Hu H. unfold test_move in H. cbn -[untouchable] in H.
  destruct (ix_account_indexes ix) as [|from [|to []]], (ix_data ix) as [|n []]; try done.
  destruct (acc !! Z.to_nat from) as [[k a]|] eqn:Ef; [|done].
  destruct (acc !! Z.to_nat to) as [[k' b]|] eqn:Et; [|done].
  destruct (_ && _) eqn:E; [|done]. injection H as <-.
  repeat (apply andb_prop in E as [E ?]). rewrite ?Z.leb_le, ?negb_true_iff, ?Z.eqb_neq in *.
  pose proof (Forall_lookup_1 _ _ _ _ Hu Ef) as [A1 A2].
  pose proof (Forall_lookup_1 _ _ _ _ Hu Et) as [B1 B2]. cbn in *.
  pose proof (set_lamports_respects m acc from (k, a) (lamports a - n * 1000) Hu Ef) as R.
  eapply respects_trans; [apply R; try done; split; cbn; lia|].
  apply (set_lamports_respects m _ to (k', b)); try done; [by apply R; try done; split; cbn; lia| |].
  - rewrite list_lookup_insert_ne by lia. done.
  - split; cbn; lia.
Qed.

Lemma test_proc_laws : ProcLaws test_proc.
Proof.
  split; [exact test_fees_laws|]. intros m index ix p meter acc ctx' acc' Hu H.
  cbn in H. unfold test_run in H. destruct (_ <? 150); [done|].
  pose proof (change_data_respects m (fun _ => [index]) acc Hu) as R.
  set (acc1 := map _ acc) in *. destruct (test_move m ix acc1) as [r acc2] eqn:E. injection H as -> _ ->.
  eapply respects_trans; [exact R|]. eapply test_move_respects; [apply R|exact E].
Qed.

Definition test_message (payer : list Z) (d : list Z) : SVMMessage :=
  mkMessage 1 [(test_id 30, mkSVMInstruction 2 [0; 1] d)] [payer; test_id 92; test_id 30] 0
    (fun i => i <? 2) (fun i => i =? 0) (test_id 66) 3.

Definition test_nonce (n hash : Z) : AccountSharedData :=
  mkShared n (test_id hash ++ replicate 48 0) pubkey_default false U64_MAX.

(** A payment of 1000000 lamports into the nonce account, and a transaction on
    that nonce account that fails. *)
Definition test_deposit : CheckedMessage :=
  (test_message (test_id 90) [1000], Ok (mkChecked None (Ok (mkFeeDetails 5000 0, 1000000)))).
Definition test_nonce_tx (captured : Z) : CheckedMessage :=
  (test_message (test_id 91) [],
   Ok (mkChecked (Some (mkNonce (test_id 92) (test_nonce captured 77)))
         (Ok (mkFeeDetails 5000 0, 1000000)))).

Definition test_start : Bank :=
  mkBank {[ test_id 90 := test_wallet 5000000; test_id 91 := test_wallet 7000000;
            test_id 92 := test_nonce 2000000 76;
            test_id 30 := mkShared 1 [] (test_id 20) true 0 ]}
    (test_id 91) (mkCollector 0 0) 14000001 [].

Lemma test_message_ok payer d :
  payer = test_id 90 \/ payer = test_id 91 -> @message_ok test_proc (test_message payer d).
Proof.
  intros H. assert (NoDup [payer; test_id 92; test_id 30]) as Hn.
  { destruct H as [-> | ->]; refine (bool_decide_unpack (NoDup _) _); by vm_compute. }
  split_and!; try done; [by repeat constructor|].
  intros [|[|[|i]]]; destruct H as [-> | ->]; done.
Qed.

Lemma test_deposit_ok : @tx_ok test_proc test_deposit.
Proof.
  intros c [= <-]. split; [apply test_message_ok; auto|]. split; [|done]. by intros fd lim [= <- <-].
Qed.

Lemma test_nonce_tx_ok n : @tx_ok test_proc (test_nonce_tx n).
Proof.
  intros c [= <-]. split; [apply test_message_ok; auto|]. split; [by intros fd lim [= <- <-]|].
  intros n' [= <-]. by exists 1%nat.
Qed.

Definition test_middle : Bank :=
  @execute_and_commit test_proc (test_id 77) [test_deposit] test_start.
Definition test_end : Bank :=
  @execute_and_commit test_proc (test_id 77) [test_nonce_tx 3000000] test_middle.

Lemma test_block : @block_run test_proc test_start test_end.
Proof.
  apply (block_batch (test_id 77) [test_deposit]); [apply Forall_singleton, test_deposit_ok| |].
  { intros [|? pre] m c n post E Hn; [|by destruct pre]. injection E as <- <- <-. done. }
  apply (block_batch (test_id 77) [test_nonce_tx 3000000]);
    [apply Forall_singleton, test_nonce_tx_ok| |].
  { intros [|? pre] m c n post E Hn; [|by destruct pre]. injection E as <- <- <-. injection Hn as <-.
    by vm_compute. }
  apply block_end.
Qed.

Lemma test_start_nonneg : nonneg (bank_accounts test_start).
Proof. refine (bool_decide_unpack (map_Forall _ _) _). by vm_compute. Qed.

Lemma test_end_fees :
  collector_fee_details test_end = mkCollector 10000 0 /\ capitalization test_end = 14000001.
Proof. split; by vm_compute. Qed.

Lemma test_failure :
  let _ := test_proc in
  let l := AccountLoader.new (bank_accounts test_middle) in
  exists t l', process_transaction (test_id 77) (test_nonce_tx 3000000).1 (test_nonce_tx 3000000).2 l
    = Some (Ok t, l') /\ succeeded t = false /\
    visible l (Message.fee_payer (test_nonce_tx 3000000).1) = Some (test_wallet 7000000).
Proof. vm_compute. eexists _, _. split; [reflexivity|split; reflexivity]. Qed.

(** ** Claims *)

(** The lamports of a block are conserved.  Start from a bank whose
    capitalization counts the lamports of all its accounts, execute and commit
    any number of batches of checked transactions, and distribute the collected
    fees.  Before the distribution the balances and the collected fees add up to
    the capitalization; the distribution does not panic, and afterwards the
    capitalization counts the lamports of all accounts again (up to the
    priority fees of a block without signature fees).  This holds whatever
    the programs do within the rules of the runtime, for successful and failed
    transactions, nonce transactions and abandoned batches, as long as no
    nonce account is written earlier in the batch of its transaction. *)
Theorem block_conserves_lamports {env : ProcEnv} {laws : ProcLaws env} b b1 :
  collector_fee_details b = mkCollector 0 0 -> nonneg (bank_accounts b) ->
  total_lamports (bank_accounts b) = capitalization b -> capitalization b < U64_MAX ->
  block_run b b1 ->
  exists tf pf, collector_fee_details b1 = mkCollector tf pf /\ 0 <= tf /\ 0 <= pf /\
    total_lamports (bank_accounts b1) + tf + pf = capitalization b1 /\
    (tf * DEFAULT_BURN_PERCENT <= U64_MAX ->
     exists b2, Distribution.distribute_transaction_fee_details b1 = Done b2 /\
       total_lamports (bank_accounts b2) + (if decide (tf = 0) then pf else 0) = capitalization b2).
Proof.
  intros Hc Hn Ht Hcap Hrun.
  destruct (block_run_ok b b1 Hrun 0 0 Hc) as (tf & pf & E & H1 & H2 & Hn1 & Ht1 & Ec); try done; [lia|].
  exists tf, pf. split_and!; try done; [lia|]. intros Hb.
  destruct (Fees.distribute_spec b1 tf pf) as (b2 & E2 & T2 & _); try done; try lia. by exists b2.
Qed.

Lemma block_conserves_lamports_witness :
  let _ := test_proc in
  exists tf pf, collector_fee_details test_end = mkCollector tf pf /\
    total_lamports (bank_accounts test_end) + tf + pf = 14000001 /\
    exists b2, Distribution.distribute_transaction_fee_details test_end = Done b2 /\
      total_lamports (bank_accounts b2) = capitalization b2.
Proof.
  destruct (@block_conserves_lamports test_proc test_proc_laws test_start test_end)
    as (tf & pf & E & _ & _ & Ht & Hd); [reflexivity|exact test_start_nonneg|by vm_compute|by vm_compute|exact test_block|].
  destruct test_end_fees as [Ef Ec]. rewrite Ef in E |- *. injection E as <- <-.
  exists 10000, 0. rewrite Ec in Ht. split; [reflexivity|]. split; [exact Ht|]. destruct Hd as (b2 & E2 & T2); [done|].
  exists b2. split; [exact E2|]. rewrite <- T2. cbn. by rewrite Z.add_0_r.
Defined.

(** C18: what a transaction that fails changes.  A refused transaction leaves
    every account as it was.  A processed one whose accounts could not be loaded,
    or whose execution failed at any point, takes exactly the fee from its payer,
    who had it.  Nothing else in the payer's account changes, except that a
    transaction with a nonce marks it as exempt from rent and, if it pays from
    its nonce account, writes the advanced nonce there.  A separate nonce account
    that is as it was when the transaction was checked changes only in its data,
    to those of the advanced nonce.  Every other account is as it was, in the
    loader's view and in what is stored. *)
Theorem failed_transaction_only_pays {env : ProcEnv} {laws : ProcLaws env} next m c l r l' :
  checked_ok m c -> process_transaction next m (Ok c) l = Some (r, l') ->
  match r with
  | Err _ => forall k, visible l' k = visible l k
  | Ok t => succeeded t = false ->
      let payer := Message.fee_payer m in
      exists fd limit a, compute_budget_and_limits c = Ok (fd, limit) /\ fee_details_of t = fd /\
        visible l payer = Some a /\ 0 <= total_fee fd <= lamports a /\
        visible l' payer = live (charged_payer payer c a (total_fee fd)) /\
        (forall n, checked_nonce c = Some n -> nonce_address n <> payer -> captured l n ->
           exists b, visible l (nonce_address n) = Some b /\
             visible l' (nonce_address n) = Some (b<|data := data (nonce_account n)|>)) /\
        (forall k, k <> payer -> (forall n, checked_nonce c = Some n -> k <> nonce_address n) ->
           visible l' k = visible l k) /\
        exists l1, (forall k, visible l1 k = visible l k) /\
          l' = insert_all l1 (accounts_to_store m r)
  end.
Proof.
  intros Hc H. apply process_transaction_view in H; [|done]. destruct r as [t|e]; [|by apply H].
  intros Hno payer. destruct (H Hno) as (fd & lim & a & H1 & H2 & H3 & H4 & H5 & l1 & Hs & E).
  exists fd, lim, a. split_and!; try done; try lia; [rewrite H5; apply failure_payer| | |].
  - intros n En Hne Hcap. rewrite H5. by apply failure_nonce.
  - intros k Hk Hn. rewrite H5. by apply failure_other.
  - exists l1. split; [apply Hs|done].
Qed.

Lemma failed_transaction_only_pays_witness :
  let _ := test_proc in
  let m := (test_nonce_tx 3000000).1 in
  exists t l', process_transaction (test_id 77) m (test_nonce_tx 3000000).2
      (AccountLoader.new (bank_accounts test_middle)) = Some (Ok t, l') /\ succeeded t = false /\
    visible l' (test_id 91) = Some (test_wallet 6995000) /\
    visible l' (test_id 92) = Some (test_nonce 3000000 77) /\
    visible l' (test_id 90) = visible (AccountLoader.new (bank_accounts test_middle)) (test_id 90).
Proof.
  destruct test_failure as (t & l' & E & Hno & Ep). exists t, l'. split; [exact E|].
  split; [exact Hno|].
  destruct (@failed_transaction_only_pays test_proc test_proc_laws _ _ _ _ _ _
    (proj2 (test_nonce_tx_ok 3000000 _ eq_refl)) E Hno) as (fd & lim & a & E1 & _ & Ea & _ & Hp & Hn & Ho & _).
  rewrite Ep in Ea. injection Ea as <-. injection E1 as <- <-. split; [|split].
  - refine (eq_trans Hp _). vm_compute. reflexivity.
  - destruct (Hn _ eq_refl) as (b & Eb & Ea); [discriminate| |].
    + exists (test_nonce 3000000 76), (data (test_nonce 3000000 77)). split; vm_compute; reflexivity.
    + refine (eq_trans Ea _). vm_compute in Eb. injection Eb as <-. vm_compute. reflexivity.
  - apply Ho; [discriminate|]. intros n [= <-]. discriminate.
Defined.

(** C38: the condition on nonce accounts is needed.  The accounts kept for a
    failed nonce transaction hold the nonce account as it was when the batch was
    checked.  When locks within a batch are relaxed, an earlier transaction of
    the batch may pay into the nonce account, and the failure of the nonce
    transaction undoes the payment: here 1000000 lamports leave their payer and
    reach no account, while every transaction is well formed and the programs
    follow the rules of the runtime. *)
Theorem stale_nonce_loses_lamports :
  exists (env : ProcEnv) (txs : list CheckedMessage) (next : list Z) (b : Bank),
    ProcLaws env /\ Forall tx_ok txs /\ nonneg (bank_accounts b) /\
    collector_fee_details b = mkCollector 0 0 /\
    total_lamports (bank_accounts b) = capitalization b /\
    Forall (fun tx : CheckedMessage => forall c n, tx.2 = Ok c -> checked_nonce c = Some n ->
      lamports (nonce_account n) = balance (bank_accounts b) (nonce_address n)) txs /\
    let b' := execute_and_commit next txs b in
    total_lamports (bank_accounts b') + Distribution.total_transaction_fee (collector_fee_details b')
    = capitalization b' - 1000000.
Proof.
  exists test_proc, [test_deposit; test_nonce_tx 2000000], (test_id 77), test_start.
  split_and!; [exact test_proc_laws| | |done|by vm_compute| |by vm_compute].
  - apply Forall_cons. split; [apply test_deposit_ok|apply Forall_singleton, test_nonce_tx_ok].
  - apply test_start_nonneg.
  - apply Forall_cons. split; [|apply Forall_singleton]; [by intros c n [= <-]|]. intros c n [= <-] [= <-]. by vm_compute.
Qed.
