(* ===== verification/WireMessage.v ===== *)
(** * Messages that arrive on the wire

    The message that the runtime works on is read from the bytes of a packet:
    the view sanitizes the bytes, the lookups are resolved, and the message is
    taken from the resolved view
    ([gorchain/runtime-transaction/src/runtime_transaction/transaction_view.rs]).
    This file states what every such message satisfies; the bank's theorems
    start from it. *)

From stdpp Require Import base numbers list gmap.
From Stdlib Require Import Lia.
From S2P Require Import Prelude Errors Pod TxBytes TxFrame TxFormat TxView ComputeBudget Fees.
From S2P Require Import Processing BatchLamports.
Local Open Scope Z_scope.
Local Open Scope rust_scope.

(** A message read from sanitized bytes.  Nobody can sign for a reserved key, so
    that the fee payer is not one. *)
Definition from_wire {keys : AccountKeysEnv} (reserved : gset (list Z)) (m : SVMMessage) : Prop :=
  exists bytes view loaded rv,
    bytes_wf bytes /\ zlen bytes <= U16_MAX /\
    SanitizedTransactionView.try_new_sanitized bytes = Some (Done (Ok view)) /\
    ResolvedTransactionView.try_new view loaded reserved = Some (Done (Ok rv)) /\
    Message.message_of rv = Some (Done m) /\
    forall payer, account_keys m !! 0%nat = Some payer -> payer ∉ reserved.

(** ** What holds of such a message *)

Section Wire.
Context {env : ProcEnv}.

(** Everything that [message_ok] asks for except that the keys differ, which the
    locks check. *)
Definition message_shape (m : SVMMessage) : Prop :=
  0 < zlen (account_keys m) <= 256 /\ message_is_writable m 0 = true /\
  Forall (fun x => program_id_index x.2 <> 0) (program_instructions m) /\
  (forall i, account_keys m !! i = Some instructions_sysvar_id ->
     message_is_writable m (Z.of_nat i) = false) /\
  Forall (fun x => Forall (fun i => 0 <= i) (ix_account_indexes x.2)) (program_instructions m).

Definition fees_unsigned (m : SVMMessage) : Prop :=
  forall lamports_per_signature enable, is_u64 lamports_per_signature ->
    exists r, Fee.limits_and_fee m lamports_per_signature enable = Done r /\
      forall limits fd, r = Ok (limits, fd) -> 0 <= transaction_fee fd /\ 0 <= prioritization_fee fd.

Definition wire_ok (m : SVMMessage) : Prop := message_shape m /\ fees_unsigned m.

Lemma message_shape_ok m : message_shape m -> NoDup (account_keys m) -> message_ok m.
Proof. intros (H1 & H2 & H3 & H4 & _) Hn. unfold message_ok. tauto. Qed.

End Wire.

Lemma encoded_indexes t :
  bytes_wf (encode t) -> Forall (fun ix => Forall (fun i => 0 <= i) (ix_account_indexes ix)) (t_instructions t).
Proof.
  unfold encode. rewrite !bytes_wf_app. intros (_ & _ & _ & _ & Hi & _).
  unfold enc_instructions in Hi. apply bytes_wf_app in Hi as [_ Hi].
  induction (t_instructions t) as [|ix l IH]; [constructor|]. cbn [map concat] in Hi.
  apply bytes_wf_app in Hi as [Hix Hi]. constructor; [|by apply IH].
  unfold enc_instruction in Hix. apply Forall_cons in Hix as [_ Hix].
  apply Forall_app in Hix as [_ Hix]. apply Forall_app in Hix as [Hix _].
  eapply Forall_impl; [exact Hix|]. unfold is_byte. lia.
Qed.

Lemma sanitized_inv bytes view :
  bytes_wf bytes -> zlen bytes <= U16_MAX ->
  SanitizedTransactionView.try_new_sanitized bytes = Some (Done (Ok view)) ->
  exists t, transaction_ok t /\ sane t /\ bytes = encode t /\ view = the_view bytes t.
Proof.
  intros Hwf Hu. assert (zlen bytes <= ISIZE_MAX) as Hlen by (unfold ISIZE_MAX; lia).
  unfold SanitizedTransactionView.try_new_sanitized, TransactionView.try_new_unsanitized.
  destruct (TransactionFrame.try_new bytes) as [f|e] eqn:E; cbn [qbind]; [|done].
  destruct (parse_inv bytes Hwf Hlen f E) as (t & Hok & Henc & ->).
  destruct (sanitize_sane bytes Hwf Hu t Hok Henc) as (r & Hr & Hiff & _). unfold the_view in Hr.
  rewrite Hr. destruct r as [[]|e]; [|done]. intros [= <-]. exists t. split_and!; try done. by apply Hiff.
Qed.

Section FromWire.
Context {env : ProcEnv} {laws : ProcLaws env} {keys : AccountKeysEnv} {klaws : AccountKeysLaws keys}.

Section Sane.
Context (bytes : list Z) (Hwf : bytes_wf bytes) (Hu : zlen bytes <= U16_MAX).
Context (t : Transaction) (Hok : transaction_ok t) (Hsane : sane t) (Henc : bytes = encode t).
Context (loaded : option LoadedAddresses) (reserved : gset (list Z)) (rv : ResolvedTransactionView).
Context (Hrv : ResolvedTransactionView.try_new (the_view bytes t) loaded reserved = Some (Done (Ok rv))).

Lemma resolved_loaded : ResolvedTransactionView.check_resolved (the_view bytes t) loaded = Ok tt.
Proof.
  clear -Hrv. unfold ResolvedTransactionView.try_new in Hrv.
  destruct (ResolvedTransactionView.check_resolved _ _) as [[]|e]; done.
Qed.

(** The message that such a view gives. *)
Lemma resolved_message :
  exists m, Message.message_of rv = Some (Done m) /\
    num_transaction_signatures m = h_num_required_signatures (t_header t) /\
    program_instructions m = with_programs t /\ account_keys m = all_keys t loaded /\
    message_is_writable m = ResolvedTransactionView.is_writable rv.
Proof.
  pose proof resolved_loaded as Hl.
  destruct (resolved_cache bytes Hwf Hu t Hok Hsane Henc loaded reserved Hl) as (c & E & _).
  rewrite E in Hrv. injection Hrv as <-. unfold the_view. eexists. split.
  { rewrite Henc. apply wire_message; [done|done|by rewrite <- Henc|by rewrite <- Henc]. }
  cbn. split_and!; try reflexivity. apply account_keys_order.
Qed.

Lemma resolved_writable j k :
  all_keys t loaded !! j = Some k ->
  ResolvedTransactionView.is_writable rv (Z.of_nat j)
  = ResolvedTransactionView.is_requested_write (the_view bytes t) (Z.of_nat j)
    && negb (bool_decide (k ∈ reserved))
    && (ResolvedTransactionView.is_loader_present (all_keys t loaded)
        || negb (invoked (t_instructions t) j)).
Proof.
  intros Hk. destruct (resolved_cache bytes Hwf Hu t Hok Hsane Henc loaded reserved resolved_loaded)
    as (c & E & _ & C1 & _). rewrite E in Hrv. injection Hrv as <-.
  unfold ResolvedTransactionView.is_writable. cbn. by rewrite Nat2Z.id, (C1 j k Hk).
Qed.

Lemma not_invoked_payer : invoked (t_instructions t) 0 = false.
Proof.
  apply not_true_iff_false. unfold invoked. intros (ix & Hix & E)%existsb_exists.
  apply bool_decide_eq_true in E. destruct Hsane as (_ & _ & _ & _ & _ & Hi & _).
  rewrite Forall_forall in Hi. apply list_elem_of_In in Hix. destruct (Hi ix Hix) as [[? _] _]. lia.
Qed.

Lemma resolved_shape m :
  Message.message_of rv = Some (Done m) -> instructions_sysvar_id ∈ reserved ->
  (forall payer, account_keys m !! 0%nat = Some payer -> payer ∉ reserved) -> message_shape m.
Proof.
  intros Em Hsys Hpay. destruct resolved_message as (m' & Em' & _ & Ep & Ek & Ew).
  rewrite Em in Em'. injection Em' as <-. rewrite Ek in Hpay.
  pose proof (all_keys_length bytes Hwf Hu t Hok Hsane Henc loaded resolved_loaded) as Hlen.
  pose proof (sane_header bytes Hwf t Hok Hsane Henc) as Hh.
  assert (0 < zlen (all_keys t loaded) <= 256) as Hz by (rewrite Hlen; unfold total_accounts; lia).
  unfold message_shape. rewrite Ek, Ew, Ep. split_and!; try lia.
  - destruct (all_keys t loaded !! 0%nat) as [k|] eqn:E0.
    2: { apply lookup_ge_None in E0. unfold zlen in Hz. lia. }
    rewrite (resolved_writable 0 k E0 : ResolvedTransactionView.is_writable rv 0 = _), not_invoked_payer.
    rewrite bool_decide_false by (by apply Hpay). rewrite orb_true_r, !andb_true_r.
    apply (is_requested_write_iff bytes Hwf Hu t Hok Hsane Henc); [lia|]. left. lia.
  - apply Forall_fmap. destruct Hsane as (_ & _ & _ & _ & _ & Hi & _).
    eapply Forall_impl; [exact Hi|]. intros ix [? _]. cbn. lia.
  - intros i Hk. rewrite (resolved_writable i _ Hk), (bool_decide_true (_ ∈ _)) by done.
    by rewrite andb_false_r.
  - apply Forall_fmap. apply encoded_indexes. by rewrite <- Henc.
Qed.

Lemma resolved_fees m : Message.message_of rv = Some (Done m) -> fees_unsigned m.
Proof.
  intros Em lps enable Hl. destruct resolved_message as (m' & Em' & Es & Ep & _).
  rewrite Em in Em'. injection Em' as <-.
  pose proof Hwf as Hwf'. rewrite Henc in Hwf'.
  destruct (wire_programs t Hok Hsane Hwf') as (Hn & Hk & Hp & Hd & _).
  destruct (encoded_bytes t Hwf') as (B1 & _). unfold is_byte in B1.
  unfold Fee.limits_and_fee. rewrite Ep, (process_spec _ _ Hn Hk Hp). cbn [obind].
  destruct (reference_limits (with_programs t)) as [lim|e] eqn:E; [|by eexists].
  apply reference_limits_range in E as (_ & Hunits & Hprice & _).
  rewrite prioritization_fee_spec by (done || lia).
  assert (zlen (with_programs t) <= U16_MAX) as Hlen.
  { unfold with_programs, zlen. rewrite length_fmap. destruct Hok as (_ & _ & _ & _ & Hi & _).
    unfold is_len, zlen in Hi. lia. }
  rewrite signature_fee_spec; rewrite ?Ep, ?Es; [|done|done|lia|done]. cbn [obind].
  eexists. split; [done|]. intros limits fd [= <- <-]. cbn.
  pose proof (div_ceil_nonneg (compute_unit_price lim * compute_unit_limit lim) 1000000) as Hpos.
  assert (forall p, 0 <= precompile_signatures p (with_programs t)) as Hsig.
  { intros p. by apply (precompile_count_spec p _ 0); [|done|lia]. }
  unfold signatures_to_pay, is_u64 in *. pose proof (Hsig ed25519_id). pose proof (Hsig secp256k1_id).
  pose proof (Hsig secp256r1_id). destruct enable; split; nia.
Qed.

End Sane.

Lemma from_wire_ok reserved m :
  instructions_sysvar_id ∈ reserved -> from_wire reserved m -> wire_ok m.
Proof.
  intros Hsys (bytes & view & loaded & rv & Hwf & Hu & Ev & Erv & Em & Hpay).
  destruct (sanitized_inv bytes view Hwf Hu Ev) as (t & Hok & Hsane & Henc & ->).
  split; [by eapply resolved_shape|by eapply resolved_fees].
Qed.

End FromWire.
