(* ===== verification/Admission.v ===== *)
(** * Admitting transactions to a bank

    What happens to a locked batch before it is executed: the checks of age,
    nonce, fee and repetition ([gorchain/runtime/src/bank/check_transactions.rs],
    [gorchain/svm-transaction/src/svm_message.rs]), and the functions of the bank
    that put locking, checking, executing and committing together
    ([gorchain/runtime/src/bank.rs]).

    The layout of nonce accounts and the hash behind a durable nonce belong to
    other crates and are arguments. *)

From stdpp Require Import base numbers list gmap.
From Stdlib Require Import Lia.
From S2P Require Import Prelude Errors Pod TxBytes TxFrame TxFormat TxView ComputeBudget Fees.
From S2P Require Import Processing Locks Blockhashes StatusCache BatchLamports WireMessage.
Local Open Scope Z_scope.
Local Open Scope rust_scope.
Import AccountLoader Loading Processor.

Record NonceData := mkNonceData {
  nonce_authority : list Z;
  nonce_durable_nonce : list Z;
  nonce_lamports_per_signature : Z;
}.

(** ** The environment of a bank

    [verify_nonce_account] reads an initialized nonce account whose stored nonce
    is the given hash; [set_nonce_state] writes an initialized state into an
    account; [from_blockhash] derives the next durable nonce. *)
Class AdmissionEnv := {
  admission_proc :: ProcEnv;
  verify_nonce_account : AccountSharedData -> list Z -> option NonceData;
  set_nonce_state : AccountSharedData -> NonceData -> option AccountSharedData;
  from_blockhash : list Z -> list Z;
  message_hash : SVMMessage -> list Z;
  signature : SVMMessage -> list Z;
  require_static_nonce_account : bool;
  enable_secp256r1_precompile : bool;
  relax_intrabatch_account_locks : bool;
}.

(** Writing the state of an account changes its data only. *)
Class AdmissionLaws (env : AdmissionEnv) : Prop := {
  admission_laws :: ProcLaws admission_proc;
  set_nonce_state_data a d a' : set_nonce_state a d = Some a' -> exists x, a' = a<|data := x|>;
}.

(** ** The nonce of a message *)
Module Nonce.

Definition NONCED_TX_MARKER_IX_INDEX : nat := 0.
Definition SERIALIZED_ADVANCE_NONCE_ACCOUNT : list Z := [4; 0; 0; 0].

Section Nonce.
Context {env : AdmissionEnv}.

(** [get_durable_nonce]: the first account of a leading instruction that
    advances a nonce. *)
Definition get_durable_nonce (m : SVMMessage) (require_static_nonce_account : bool)
    : option (list Z) :=
  ix ← snd <$> program_instructions m !! NONCED_TX_MARKER_IX_INDEX;
  program_id ← account_keys m !! Z.to_nat (program_id_index ix);
  if negb (bool_decide (program_id = system_id)) then None
  else if negb (bool_decide (take 4 (ix_data ix) = SERIALIZED_ADVANCE_NONCE_ACCOUNT)) then None
  else
    index ← head (ix_account_indexes ix);
    if (require_static_nonce_account && (num_static_account_keys m <=? index))
       || negb (message_is_writable m index)
    then None else account_keys m !! Z.to_nat index.

Definition get_ix_signers (m : SVMMessage) (index : nat) : list (list Z) :=
  match program_instructions m !! index with
  | Some (_, ix) =>
      omap (fun i => if message_is_signer m i then account_keys m !! Z.to_nat i else None)
        (ix_account_indexes ix)
  | None => []
  end.

(** [get_account_with_fixed_root]: an account without lamports does not exist. *)
Definition get_account_with_fixed_root (db : gmap (list Z) AccountSharedData) (k : list Z)
    : option AccountSharedData :=
  a ← db !! k; if lamports a =? 0 then None else Some a.

Definition load_message_nonce_account (db : gmap (list Z) AccountSharedData) (m : SVMMessage)
    : option (list Z * AccountSharedData * NonceData) :=
  nonce_address ← get_durable_nonce m require_static_nonce_account;
  nonce_account ← get_account_with_fixed_root db nonce_address;
  nonce_data ← verify_nonce_account nonce_account (message_recent_blockhash m);
  if existsb (fun signer => bool_decide (signer = nonce_authority nonce_data))
       (get_ix_signers m NONCED_TX_MARKER_IX_INDEX)
  then Some (nonce_address, nonce_account, nonce_data) else None.

Definition check_load_and_advance_message_nonce_account (db : gmap (list Z) AccountSharedData)
    (m : SVMMessage) (next_durable_nonce : list Z) (next_lamports_per_signature : Z)
    : option (NonceInfo * Z) :=
  if bool_decide (message_recent_blockhash m = next_durable_nonce) then None
  else
    x ← load_message_nonce_account db m;
    let '(nonce_address, nonce_account, nonce_data) := x in
    nonce_account ← set_nonce_state nonce_account
      (mkNonceData (nonce_authority nonce_data) next_durable_nonce next_lamports_per_signature);
    Some (mkNonce nonce_address nonce_account, nonce_lamports_per_signature nonce_data).

End Nonce.
End Nonce.

(** ** Checks *)
Module Check.

Abbreviation BankStatusCache := (StatusCache (result TransactionError unit)).

Section Check.
Context {env : AdmissionEnv}.

(** With a zero price of a signature, which tests use, there is no fee. *)
Definition checked_transactions_details_with_test_override (nonce : option NonceInfo)
    (lamports_per_signature : Z)
    (compute_budget_and_limits : result TransactionError (FeeDetails * Z))
    : CheckedTransactionDetails :=
  let compute_budget_and_limits :=
    if lamports_per_signature =? 0 then
      match compute_budget_and_limits with
      | Ok (_, limit) => Ok (fee_details_default, limit)
      | Err e => Err e
      end
    else compute_budget_and_limits in
  mkChecked nonce compute_budget_and_limits.

Definition check_transaction_age (db : gmap (list Z) AccountSharedData) (m : SVMMessage)
    (max_age : Z) (next_durable_nonce : list Z) (hash_queue : BlockhashQueue)
    (next_lamports_per_signature : Z)
    (compute_budget : result TransactionError (FeeDetails * Z))
    : result TransactionError CheckedTransactionDetails :=
  match BlockhashQueue.get_hash_info_if_valid hash_queue (message_recent_blockhash m) max_age with
  | Some hash_info =>
      Ok (checked_transactions_details_with_test_override None
            (info_lamports_per_signature hash_info) compute_budget)
  | None =>
      match Nonce.check_load_and_advance_message_nonce_account db m next_durable_nonce
              next_lamports_per_signature with
      | Some (nonce, previous_lamports_per_signature) =>
          Ok (checked_transactions_details_with_test_override (Some nonce)
                previous_lamports_per_signature compute_budget)
      | None => Err TransactionError.BlockhashNotFound
      end
  end.

(** One transaction of [check_age_and_compute_budget_limits]. *)
Definition check_one (db : gmap (list Z) AccountSharedData) (lamports_per_signature max_age : Z)
    (next_durable_nonce : list Z) (hash_queue : BlockhashQueue) (next_lamports_per_signature : Z)
    (m : SVMMessage) (lock_res : result TransactionError unit)
    : outcome (result TransactionError CheckedTransactionDetails) :=
  match lock_res with
  | Ok _ =>
      let* limits := Fee.limits_and_fee m lamports_per_signature enable_secp256r1_precompile in
      let compute_budget_and_limits :=
        match limits with
        | Ok (limits, fee_details) => Ok (fee_details, loaded_accounts_bytes limits)
        | Err e => Err e
        end in
      Done (check_transaction_age db m max_age next_durable_nonce hash_queue
              next_lamports_per_signature compute_budget_and_limits)
  | Err e => Done (Err e)
  end.

Fixpoint check_all (check : SVMMessage -> result TransactionError unit ->
      outcome (result TransactionError CheckedTransactionDetails))
    (txs : list SVMMessage) (lock_results : list (result TransactionError unit))
    : outcome (list (result TransactionError CheckedTransactionDetails)) :=
  match txs, lock_results with
  | tx :: txs, lock_res :: lock_results =>
      let* r := check tx lock_res in
      let* rs := check_all check txs lock_results in
      Done (r :: rs)
  | _, _ => Done []
  end.

Definition check_age_and_compute_budget_limits (db : gmap (list Z) AccountSharedData)
    (lamports_per_signature : Z) (hash_queue : BlockhashQueue) (txs : list SVMMessage)
    (lock_results : list (result TransactionError unit)) (max_age : Z)
    : outcome (list (result TransactionError CheckedTransactionDetails)) :=
  let* last_blockhash := BlockhashQueue.last_hash hash_queue in
  let next_durable_nonce := from_blockhash last_blockhash in
  match BlockhashQueue.get_lamports_per_signature hash_queue last_blockhash with
  | None => Panicked
  | Some next_lamports_per_signature =>
      check_all (check_one db lamports_per_signature max_age next_durable_nonce hash_queue
                   next_lamports_per_signature) txs lock_results
  end.

Definition is_transaction_already_processed (m : SVMMessage) (status_cache : BankStatusCache)
    (ancestors : gset Z) : outcome bool :=
  let* status := get_status status_cache (message_hash m) (message_recent_blockhash m) ancestors in
  Done (if status is Some _ then true else false).

Fixpoint check_status_cache (status_cache : BankStatusCache) (ancestors : gset Z)
    (txs : list SVMMessage) (lock_results : list (result TransactionError CheckedTransactionDetails))
    : outcome (list (result TransactionError CheckedTransactionDetails)) :=
  match txs, lock_results with
  | tx :: txs, Ok c :: lock_results =>
      let* processed := is_transaction_already_processed tx status_cache ancestors in
      let* rs := check_status_cache status_cache ancestors txs lock_results in
      Done ((if processed : bool then Err TransactionError.AlreadyProcessed else Ok c) :: rs)
  | _ :: txs, Err e :: lock_results =>
      let* rs := check_status_cache status_cache ancestors txs lock_results in
      Done (Err e :: rs)
  | _, _ => Done []
  end.

End Check.
End Check.

(** ** The bank

    The parts of a bank that transactions go through. *)
Record LiveBank := mkLive {
  bank : Bank;
  account_locks : AccountLocks;
  blockhash_queue : BlockhashQueue;
  status_cache : Check.BankStatusCache;
  bank_slot : Z;
  ancestors : gset Z;
  lamports_per_signature : Z;
  transaction_account_lock_limit : Z;
  freeze_started : bool;
}.
#[export] Instance eta_LiveBank : Eta LiveBank := fun b =>
  mkLive (bank b) (account_locks b) (blockhash_queue b) (status_cache b) (bank_slot b) (ancestors b)
    (lamports_per_signature b) (transaction_account_lock_limit b) (freeze_started b).

Module LiveBank.

Section LiveBank.
Context {env : AdmissionEnv}.

(** ** Locking *)

Definition prepare_sanitized_batch_with_results (self : LiveBank) (transactions : list SVMMessage)
    (transaction_results : list (result TransactionError unit))
    : outcome (TransactionBatch * LiveBank) :=
  let (lock_results, locks) :=
    BankLocks.try_lock_accounts_with_results message_hash (transaction_account_lock_limit self)
      relax_intrabatch_account_locks (account_locks self) transactions transaction_results in
  let* batch := TransactionBatch.new lock_results transactions in
  Done (batch, self<|account_locks := locks|>).

Definition prepare_sanitized_batch (self : LiveBank) (txs : list SVMMessage)
    : outcome (TransactionBatch * LiveBank) :=
  prepare_sanitized_batch_with_results self txs (map (fun _ => Ok tt) txs).

(** The end of a batch's life. *)
Definition drop_batch (self : LiveBank) (batch : TransactionBatch) : LiveBank :=
  self<|account_locks := (TransactionBatch.drop batch (account_locks self)).2|>.

(** ** Checking and executing *)

Definition check_transactions (self : LiveBank) (sanitized_txs : list SVMMessage)
    (lock_results : list (result TransactionError unit)) (max_age : Z)
    : outcome (list (result TransactionError CheckedTransactionDetails)) :=
  let* lock_results :=
    Check.check_age_and_compute_budget_limits (bank_accounts (bank self)) (lamports_per_signature self)
      (blockhash_queue self) sanitized_txs lock_results max_age in
  Check.check_status_cache (status_cache self) (ancestors self) sanitized_txs lock_results.

Definition last_blockhash_and_lamports_per_signature (self : LiveBank) : outcome (list Z * Z) :=
  let* last_hash := BlockhashQueue.last_hash (blockhash_queue self) in
  match BlockhashQueue.get_lamports_per_signature (blockhash_queue self) last_hash with
  | Some last_lamports_per_signature => Done (last_hash, last_lamports_per_signature)
  | None => Panicked
  end.

(** [load_and_execute_transactions]: the environment's blockhash gives the nonce
    that the nonces of the batch advance to. *)
Definition load_and_execute_transactions (self : LiveBank) (batch : TransactionBatch) (max_age : Z)
    : outcome (list TransactionProcessingResult) :=
  let* check_results :=
    check_transactions self (sanitized_txs batch) (lock_results batch) max_age in
  let* blockhash := last_blockhash_and_lamports_per_signature self in
  Done (load_and_execute_sanitized_transactions (from_blockhash blockhash.1)
          (zip (sanitized_txs batch) check_results) (bank_accounts (bank self))).

(** ** Committing *)

(** The status of a processed transaction. *)
Definition status (t : ProcessedTransaction) : result TransactionError unit :=
  match t with
  | ExecutedTx t => execution_status t
  | FeesOnlyTx t => Err (load_error t)
  end.

(** [random] stands for the position that the cache draws for a new
    blockhash. *)
Fixpoint update_statuses (random : list Z -> Z) (slot : Z) (cache : Check.BankStatusCache)
    (l : list (SVMMessage * TransactionProcessingResult)) : outcome Check.BankStatusCache :=
  match l with
  | [] => Done cache
  | (tx, Ok processed_tx) :: l =>
      let blockhash := message_recent_blockhash tx in
      let* cache := insert cache blockhash (message_hash tx) slot (status processed_tx)
                      (random blockhash) in
      let* cache := insert cache blockhash (signature tx) slot (status processed_tx)
                      (random blockhash) in
      update_statuses random slot cache l
  | (_, Err _) :: l => update_statuses random slot cache l
  end.

Definition update_transaction_statuses (random : list Z -> Z) (self : LiveBank)
    (sanitized_txs : list SVMMessage) (processing_results : list TransactionProcessingResult)
    : outcome LiveBank :=
  if negb (zlen sanitized_txs =? zlen processing_results) then Panicked
  else
    let* cache := update_statuses random (bank_slot self) (status_cache self)
                    (zip sanitized_txs processing_results) in
    Done (self<|status_cache := cache|>).

(** [commit_transactions]: the accounts, the statuses and the fees. *)
Definition commit_transactions (random : list Z -> Z) (self : LiveBank)
    (sanitized_txs : list SVMMessage) (processing_results : list TransactionProcessingResult)
    : outcome LiveBank :=
  if freeze_started self then Panicked
  else
    let* self' := update_transaction_statuses random self sanitized_txs processing_results in
    Done (self'<|bank := Processor.commit_transactions sanitized_txs processing_results (bank self)|>).

(** [do_load_execute_and_commit_transactions_with_pre_commit_callback]: the
    callback may stop the commit. *)
Definition load_execute_and_commit_transactions (random : list Z -> Z)
    (pre_commit_callback : list TransactionProcessingResult -> result TransactionError unit)
    (self : LiveBank) (batch : TransactionBatch) (max_age : Z)
    : outcome (result TransactionError (list TransactionProcessingResult * LiveBank)) :=
  let* processing_results := load_and_execute_transactions self batch max_age in
  match pre_commit_callback processing_results with
  | Err e => Done (Err e)
  | Ok _ =>
      let* self := commit_transactions random self (sanitized_txs batch) processing_results in
      Done (Ok (processing_results, self))
  end.

Definition register_recent_blockhash (self : LiveBank) (blockhash : list Z) (rate timestamp : Z)
    : LiveBank :=
  self<|blockhash_queue := BlockhashQueue.register_hash (blockhash_queue self) blockhash rate timestamp|>.

End LiveBank.
End LiveBank.

(** ** What the checks establish *)

Section Checked.
Context {env : AdmissionEnv} {laws : AdmissionLaws env}.

Lemma durable_nonce_writable m b k :
  message_shape m -> Nonce.get_durable_nonce m b = Some k -> writes m k.
Proof.
  intros (_ & _ & _ & _ & Hi). unfold Nonce.get_durable_nonce.
  destruct (program_instructions m !! _) as [[p ix]|] eqn:E; [|done]. cbn.
  destruct (account_keys m !! _); [|done]. cbn. destruct (negb _); [done|]. destruct (negb _); [done|].
  destruct (head (ix_account_indexes ix)) as [i|] eqn:Eh; [|done]. cbn.
  destruct (message_is_writable m i) eqn:Ew; [|by rewrite orb_true_r].
  destruct (_ || _); [done|]. intros Hk. exists (Z.to_nat i). split; [done|].
  pose proof (Forall_lookup_1 _ _ _ _ Hi E) as Hpos. cbn in Hpos.
  destruct (ix_account_indexes ix); [done|]. injection Eh as ->. apply Forall_inv in Hpos.
  by rewrite Z2Nat.id.
Qed.

Lemma nonce_captured db m next rate n previous :
  message_shape m ->
  Nonce.check_load_and_advance_message_nonce_account db m next rate = Some (n, previous) ->
  writes m (nonce_address n) /\ captured (AccountLoader.new db) n.
Proof.
  intros Hm. unfold Nonce.check_load_and_advance_message_nonce_account. case_bool_decide; [done|].
  unfold Nonce.load_message_nonce_account.
  destruct (Nonce.get_durable_nonce m _) as [k|] eqn:Ek; [|done]. cbn.
  unfold Nonce.get_account_with_fixed_root. destruct (db !! k) as [a|] eqn:Ea; [|done]. cbn.
  destruct (lamports a =? 0) eqn:El; [done|]. cbn. destruct (verify_nonce_account _ _) as [d|]; [|done]. cbn.
  destruct (existsb _ _); [|done]. cbn.
  destruct (set_nonce_state a _) as [a'|] eqn:Es; [|done]. cbn. intros [= <- _]. cbn.
  apply set_nonce_state_data in Es as [x ->]. split; [by eapply durable_nonce_writable|].
  exists a, x. split; [|done]. unfold visible, full. cbn. by rewrite (left_id_L ∅ (∪)), Ea; cbn; rewrite El.
Qed.

(** One transaction that passed the checks. *)
Definition admitted (self : LiveBank) (m : SVMMessage) (lock : result TransactionError unit)
    (r : result TransactionError CheckedTransactionDetails) : Prop :=
  forall c, r = Ok c ->
    lock = Ok tt /\
    Check.is_transaction_already_processed m (status_cache self) (ancestors self) = Done false /\
    checked_ok m c /\
    forall n, checked_nonce c = Some n ->
      captured (AccountLoader.new (bank_accounts (bank self))) n.

Lemma override_fees nonce rate r fd limit :
  compute_budget_and_limits (Check.checked_transactions_details_with_test_override nonce rate r)
  = Ok (fd, limit) -> fd = fee_details_default \/ r = Ok (fd, limit).
Proof.
  unfold Check.checked_transactions_details_with_test_override. cbn.
  destruct (_ =? _); [|auto]. destruct r as [[fd' l]|e]; [|done]. intros [= <- <-]. auto.
Qed.

Lemma check_one_ok db rate age next queue nrate m lock c :
  wire_ok m -> is_u64 rate ->
  Check.check_one db rate age next queue nrate m lock = Done (Ok c) ->
  lock = Ok tt /\ checked_ok m c /\
  forall n, checked_nonce c = Some n -> captured (AccountLoader.new db) n.
Proof.
  intros [Hm Hf] Hr. unfold Check.check_one. destruct lock as [[]|e]; [|done].
  destruct (Hf rate enable_secp256r1_precompile Hr) as (r & -> & Hpos). cbn [obind].
  set (budget := match r with Ok (limits, fee_details) => _ | Err e => _ end).
  assert (forall nonce rate, checked_nonce
      (Check.checked_transactions_details_with_test_override nonce rate budget) = nonce /\
    forall fd limit, compute_budget_and_limits
      (Check.checked_transactions_details_with_test_override nonce rate budget) = Ok (fd, limit) ->
    0 <= transaction_fee fd /\ 0 <= prioritization_fee fd) as Hover.
  { intros nonce rate'. split; [done|]. intros fd limit [->|E]%override_fees; [done|].
    unfold budget in E. destruct r as [[lim fd']|]; [|done]. injection E as <- <-. by eapply Hpos. }
  unfold Check.check_transaction_age.
  destruct (BlockhashQueue.get_hash_info_if_valid _ _ _) as [info|].
  - intros [= <-]. destruct (Hover None (info_lamports_per_signature info)) as [Hn Hfee].
    split_and!; [done|split; [exact Hfee|by rewrite Hn]|by rewrite Hn].
  - destruct (Nonce.check_load_and_advance_message_nonce_account _ _ _ _) as [[n p]|] eqn:En; [|done].
    apply nonce_captured in En as [Hw Hl]; [|done]. intros [= <-].
    destruct (Hover (Some n) p) as [Hn Hfee].
    split_and!; [done|split; [exact Hfee|]|]; rewrite Hn; intros n' [= <-]; done.
Qed.

Lemma check_all_spec check : forall txs locks rs,
  length txs = length locks -> Check.check_all check txs locks = Done rs ->
  Forall3 (fun m lock r => check m lock = Done r) txs locks rs.
Proof.
  induction txs as [|m txs IH]; intros [|lock locks] rs Hl; cbn; try done.
  { intros [= <-]. constructor. }
  destruct (check m lock) as [r| |] eqn:E; try done. cbn.
  destruct (Check.check_all check txs locks) as [rs'| |] eqn:E'; try done. intros [= <-].
  constructor; [done|]. apply IH; [by injection Hl|done].
Qed.

Lemma check_status_spec cache anc : forall txs rs rs',
  length txs = length rs -> Check.check_status_cache cache anc txs rs = Done rs' ->
  Forall3 (fun m r r' => forall c, r' = Ok c ->
    r = Ok c /\ Check.is_transaction_already_processed m cache anc = Done false) txs rs rs'.
Proof.
  induction txs as [|m txs IH]; intros [|r rs] rs' Hl; cbn; try done.
  { intros [= <-]. constructor. }
  injection Hl as Hl. destruct r as [c|e].
  - destruct (Check.is_transaction_already_processed m cache anc) as [p| |] eqn:E; try done. cbn.
    destruct (Check.check_status_cache cache anc txs rs) as [rs''| |] eqn:E'; try done. intros [= <-].
    constructor; [|by apply IH]. intros c'. by destruct p; [|intros [= <-]].
  - destruct (Check.check_status_cache cache anc txs rs) as [rs''| |] eqn:E'; try done. intros [= <-].
    constructor; [done|by apply IH].
Qed.

Lemma Forall3_length {A B C} (P : A -> B -> C -> Prop) l k k' :
  Forall3 P l k k' -> length l = length k /\ length l = length k'.
Proof. induction 1 as [|???????? [IH1 IH2]]; [done|]. cbn. lia. Qed.

Lemma check_transactions_admitted self txs locks age rs :
  length txs = length locks -> Forall wire_ok txs -> is_u64 (lamports_per_signature self) ->
  LiveBank.check_transactions self txs locks age = Done rs ->
  Forall3 (admitted self) txs locks rs.
Proof.
  intros Hl Hw Hr. unfold LiveBank.check_transactions, Check.check_age_and_compute_budget_limits.
  destruct (BlockhashQueue.last_hash (blockhash_queue self)) as [h| |]; try done. cbn [obind].
  destruct (BlockhashQueue.get_lamports_per_signature _ _) as [nrate|]; [|done].
  destruct (Check.check_all _ txs locks) as [rs1| |] eqn:E1; try done. cbn [obind]. intros E2.
  apply check_all_spec in E1; [|done]. destruct (Forall3_length _ _ _ _ E1) as [_ Hl1].
  apply check_status_spec in E2; [|done]. clear Hl Hl1. revert rs Hw E2.
  induction E1 as [|m lock r txs locks rs1 E1 _ IH]; intros rs Hw E2; inversion E2; subst; [constructor|].
  apply Forall_cons in Hw as [Hm Hw]. constructor; [|by apply IH].
  intros c ->. match goal with H : forall c, _ |- _ => destruct (H c eq_refl) as [-> Hs] end.
  destruct (check_one_ok _ _ _ _ _ _ _ _ _ Hm Hr E1) as (-> & Hc & Hn). by split_and!.
Qed.

End Checked.
