(* ===== verification/Concurrency.v ===== *)
(** * Concurrent batches on one bank

    Threads lock, check, execute, commit and release batches of transactions on
    one bank in any order ([gorchain/runtime/src/bank.rs],
    [gorchain/core/src/banking_stage/consumer.rs] and the replay code use the
    functions of [Admission] this way).  This file models the interleaving as a
    step relation and proves what the locks, the checks and the status cache
    give together: lamports are conserved, and no message is processed twice. *)

From stdpp Require Import base numbers list gmap.
From Stdlib Require Import Lia.
From S2P Require Import Prelude Errors Pod TxBytes TxFrame TxFormat TxView ComputeBudget Fees.
From S2P Require Import Processing Locks Blockhashes StatusCache BatchLamports WireMessage Admission.
Local Open Scope Z_scope.
Local Open Scope rust_scope.
Import AccountLoader Loading Processor.

(** ** The steps *)

Inductive Phase : Type :=
| Locked
| Executed (results : list TransactionProcessingResult)
| Committed.

Record Flight := mkFlight {
  flight_batch : TransactionBatch;
  flight_phase : Phase;
}.

Abbreviation flight_txs f := (sanitized_txs (flight_batch f)).
Abbreviation flight_pairs f := (TransactionBatch.txs_and_results (flight_batch f)).

(** A bank, the batches that hold locks on it, and the messages it has committed
    so far. *)
Record System := mkSystem {
  sys_bank : LiveBank;
  flights : list Flight;
  ledger : list SVMMessage;
}.

Definition processed (txs : list SVMMessage) (rs : list TransactionProcessingResult)
    : list SVMMessage :=
  omap (fun x => match x.2 with Ok _ => Some x.1 | Err _ => None end) (zip txs rs).

Section Concurrency.
Context {env : AdmissionEnv} {keys : AccountKeysEnv}.
Context (reserved : gset (list Z)).

(** A batch may be released at any point: when it was committed, when its
    recording failed, or when it is not executed at all.  Fewer than 2^64 keys
    are held at any time.  A step is one call: the check and execution of a batch
    read one state of the bank, and its commit is not interleaved with others. *)
Inductive sys_step : System -> System -> Prop :=
| step_lock b fs log txs results batch b' :
    Forall (from_wire reserved) txs ->
    batch_size txs + zlen (held_keys (map (fun f => flight_pairs f) fs)) <= U64_MAX ->
    LiveBank.prepare_sanitized_batch_with_results b txs results = Done (batch, b') ->
    sys_step (mkSystem b fs log) (mkSystem b' (mkFlight batch Locked :: fs) log)
| step_execute b fs1 batch fs2 log max_age rs :
    LiveBank.load_and_execute_transactions b batch max_age = Done rs ->
    sys_step (mkSystem b (fs1 ++ mkFlight batch Locked :: fs2) log)
      (mkSystem b (fs1 ++ mkFlight batch (Executed rs) :: fs2) log)
| step_commit b fs1 batch rs fs2 log random b' :
    LiveBank.commit_transactions random b (sanitized_txs batch) rs = Done b' ->
    sys_step (mkSystem b (fs1 ++ mkFlight batch (Executed rs) :: fs2) log)
      (mkSystem b' (fs1 ++ mkFlight batch Committed :: fs2) (log ++ processed (sanitized_txs batch) rs))
| step_release b fs1 f fs2 log :
    sys_step (mkSystem b (fs1 ++ f :: fs2) log)
      (mkSystem (LiveBank.drop_batch b (flight_batch f)) (fs1 ++ fs2) log)
| step_register b fs log hash rate now :
    sys_step (mkSystem b fs log) (mkSystem (LiveBank.register_recent_blockhash b hash rate now) fs log).

Inductive sys_run : System -> System -> Prop :=
| run_end s : sys_run s s
| run_step s s' s'' : sys_step s s' -> sys_run s' s'' -> sys_run s s''.

End Concurrency.

(** ** Storing accounts *)

Lemma store_accounts_cons db x xs : store_accounts db (x :: xs) = store_accounts (<[x.1 := x.2]> db) xs.
Proof. by destruct x. Qed.

Lemma store_elsewhere xs : forall db k, k ∉ xs.*1 -> balance (store_accounts db xs) k = balance db k.
Proof.
  induction xs as [|x xs IH]; intros db k Hk; [done|]. cbn in Hk. apply not_elem_of_cons in Hk as [H1 H2].
  rewrite store_accounts_cons, IH by done. unfold balance. by rewrite lookup_insert_ne.
Qed.

Lemma store_there xs : forall db db' k, k ∈ xs.*1 ->
  balance (store_accounts db xs) k = balance (store_accounts db' xs) k.
Proof.
  induction xs as [|x xs IH]; intros db db' k Hk; [by apply not_elem_of_nil in Hk|].
  rewrite !store_accounts_cons. destruct (decide (k ∈ xs.*1)) as [Hin|Hin]; [by apply IH|].
  rewrite !store_elsewhere by done. cbn in Hk. apply elem_of_cons in Hk as [->|]; [|done].
  unfold balance. by rewrite !lookup_insert_eq.
Qed.

(** What storing adds depends on the stored keys only. *)
Lemma store_delta xs : forall db db',
  (forall k, k ∈ xs.*1 -> balance db' k = balance db k) ->
  total_lamports (store_accounts db' xs) - total_lamports db'
  = total_lamports (store_accounts db xs) - total_lamports db.
Proof.
  induction xs as [|x xs IH]; intros db db' H; [cbn; lia|]. rewrite !store_accounts_cons.
  assert (balance db' x.1 = balance db x.1) as Hx by (apply H; apply list_elem_of_here).
  pose proof (total_lamports_insert db x.1 x.2). pose proof (total_lamports_insert db' x.1 x.2).
  enough (total_lamports (store_accounts (<[x.1 := x.2]> db') xs) - total_lamports (<[x.1 := x.2]> db')
    = total_lamports (store_accounts (<[x.1 := x.2]> db) xs) - total_lamports (<[x.1 := x.2]> db)) by lia.
  apply IH. intros k Hk. rewrite !balance_insert. destruct (decide (k = x.1)); [done|].
  apply H. by apply list_elem_of_further.
Qed.

(** Results whose storing costs what they charge stay so when other accounts
    change. *)
Definition affordable (db : gmap (list Z) AccountSharedData) (xs : list TransactionAccount)
    (fees : Z) : Prop :=
  nonneg (store_accounts db xs) /\
  total_lamports (store_accounts db xs) = total_lamports db - fees.

Lemma affordable_stable db db' xs fees :
  affordable db xs fees -> nonneg db' -> (forall k, k ∈ xs.*1 -> balance db' k = balance db k) ->
  affordable db' xs fees.
Proof.
  intros [H1 H2] Hn H. split; [|pose proof (store_delta xs db db' H); lia].
  apply balance_nonneg. intros k. destruct (decide (k ∈ xs.*1)) as [Hk|Hk].
  - rewrite (store_there xs db' db k Hk). by apply balance_nonneg.
  - rewrite store_elsewhere by done. by apply balance_nonneg.
Qed.

(** ** Locks of a batch *)

Lemma writes_locked m k : writes m k <-> (k, true) ∈ accounts_with_is_writable m.
Proof.
  unfold writes, accounts_with_is_writable. rewrite list_elem_of_lookup. setoid_rewrite list_lookup_imap.
  split.
  - intros (i & Hk & Hw). exists i. rewrite Hk. cbn. by rewrite Hw.
  - intros (i & Hi). destruct (account_keys m !! i) as [k'|] eqn:E; [|done]. cbn in Hi.
    injection Hi as -> Hw. by exists i.
Qed.

Lemma granted_in (b : Batch) m : m ∈ granted b <-> (m, Ok tt) ∈ b.
Proof.
  unfold granted. rewrite list_elem_of_fmap. setoid_rewrite list_elem_of_filter. split.
  - by intros ([m' [[]|e]] & -> & Hr & Hin).
  - intros H. by exists (m, Ok tt).
Qed.

Lemma granted_locked (b : Batch) m x :
  m ∈ granted b -> x ∈ accounts_with_is_writable m -> x ∈ granted_keys b.
Proof.
  intros Hm Hx. unfold granted_keys. apply list_elem_of_In, in_concat.
  exists (accounts_with_is_writable m). split; [|by apply list_elem_of_In].
  apply in_map. by apply list_elem_of_In.
Qed.

Lemma separated_middle bs1 b bs2 :
  separated (bs1 ++ b :: bs2) -> compatible (granted_keys b) (held_keys (bs1 ++ bs2)).
Proof.
  induction bs1 as [|b1 bs1 IH]; cbn; [by intros [? _]|]. intros [Hc Hs].
  unfold held_keys. cbn. apply compatible_app_r. split; [|by apply IH].
  apply compatible_sym. eapply compatible_perm in Hc; [|apply held_keys_middle].
  by apply compatible_app_r in Hc as [? _].
Qed.

Lemma separated_pair bs1 b bs2 b' :
  separated (bs1 ++ b :: bs2) -> b' ∈ bs1 ++ bs2 -> compatible (granted_keys b) (granted_keys b').
Proof.
  intros Hs Hb. apply separated_middle in Hs. intros k w w' H1 H2. apply (Hs k w w' H1).
  unfold held_keys. apply list_elem_of_In, in_concat. exists (granted_keys b').
  split; [|by apply list_elem_of_In]. apply in_map. by apply list_elem_of_In.
Qed.

(** Without relaxed locks, two granted transactions of a batch do not conflict. *)
Lemma batch_separated_mine limit (b : Batch) : forall mine i m,
  batch_separated limit false mine b -> b !! i = Some (m, Ok tt) ->
  valid_keys limit m /\ compatible (accounts_with_is_writable m) mine.
Proof.
  induction b as [|[m' [[]|e]] b IH]; intros mine i m Hs Hi; [done| |].
  - destruct Hs as (Hv & Hc & Hs). destruct i as [|i].
    + injection Hi as <-. split; [done|by apply Hc].
    + destruct (IH _ i m Hs Hi) as [Hv' Hc']. split; [done|]. by apply compatible_app_r in Hc' as [_ ?].
  - destruct i as [|i]; [done|]. by eapply IH.
Qed.

Lemma batch_separated_pair limit (b : Batch) : forall mine i j m m',
  batch_separated limit false mine b -> b !! i = Some (m, Ok tt) -> b !! j = Some (m', Ok tt) ->
  (i < j)%nat -> compatible (accounts_with_is_writable m') (accounts_with_is_writable m).
Proof.
  induction b as [|[m0 r] b IH]; intros mine i j m m' Hs Hi Hj Hlt; [done|].
  destruct j as [|j]; [lia|]. cbn in Hj. destruct i as [|i].
  - injection Hi as -> ->. destruct Hs as (_ & _ & Hs).
    destruct (batch_separated_mine _ _ _ _ _ Hs Hj) as [_ Hc]. by apply compatible_app_r in Hc as [? _].
  - destruct r as [[]|e]; [destruct Hs as (_ & _ & Hs)|]; (eapply IH; [exact Hs|exact Hi|exact Hj|lia]).
Qed.

Lemma batch_separated_valid limit relax (b : Batch) : forall mine i m,
  batch_separated limit relax mine b -> b !! i = Some (m, Ok tt) -> valid_keys limit m.
Proof.
  induction b as [|[m' [[]|e]] b IH]; intros mine i m Hs Hi; [done| |].
  - destruct Hs as (Hv & _ & Hs). destruct i as [|i]; [by injection Hi as <-|by eapply IH].
  - destruct i as [|i]; [done|]. by eapply IH.
Qed.

(** ** Executing a batch *)

Section Steps.
Context {env : AdmissionEnv} {laws : AdmissionLaws env}.

(** A processed transaction had its locks and was not processed before. *)
Definition fresh (self : LiveBank) (m : SVMMessage) (lock : result TransactionError unit)
    (r : TransactionProcessingResult) : Prop :=
  forall t, r = Ok t -> lock = Ok tt /\
    Check.is_transaction_already_processed m (status_cache self) (ancestors self) = Done false.

Lemma process_batch_checked next txs : forall l rs l',
  process_batch next txs l = Some (rs, l') ->
  Forall2 (fun tx r => forall t, r = Ok t -> exists c, tx.2 = Ok c) txs rs.
Proof.
  induction txs as [|[m c] txs IH]; intros l rs l' H; [injection H as <- <-; constructor|].
  cbn [process_batch] in H. destruct (process_transaction next m c l) as [[r l1]|] eqn:E; [|done].
  cbn in H. destruct (process_batch next txs l1) as [[rs' l2]|] eqn:E2; [|done]. cbn in H.
  injection H as <- <-. constructor; [|by eapply IH]. intros t ->. by eapply process_transaction_checked.
Qed.

Lemma results_checked next txs db :
  Forall2 (fun tx r => forall t, r = Ok t -> exists c, tx.2 = Ok c) txs
    (load_and_execute_sanitized_transactions next txs db).
Proof.
  destruct (results_cases next txs db) as [(l' & E)| ->]; [by eapply process_batch_checked|].
  clear. induction txs; constructor; done.
Qed.

Lemma execute_inv self batch age rs :
  length (sanitized_txs batch) = length (lock_results batch) -> Forall wire_ok (sanitized_txs batch) ->
  is_u64 (lamports_per_signature self) ->
  LiveBank.load_and_execute_transactions self batch age = Done rs ->
  exists checks next, Forall3 (admitted self) (sanitized_txs batch) (lock_results batch) checks /\
    rs = load_and_execute_sanitized_transactions next (zip (sanitized_txs batch) checks)
           (bank_accounts (bank self)).
Proof.
  intros Hl Hw Hr. unfold LiveBank.load_and_execute_transactions.
  destruct (LiveBank.check_transactions _ _ _ _) as [checks| |] eqn:E; try done. cbn [obind].
  destruct (LiveBank.last_blockhash_and_lamports_per_signature self) as [h| |]; try done. cbn [obind].
  intros [= <-]. exists checks, (from_blockhash h.1). split; [|done]. by eapply check_transactions_admitted.
Qed.

Lemma executed_fresh self txs locks checks : forall rs,
  Forall3 (admitted self) txs locks checks ->
  Forall2 (fun tx r => forall t, r = Ok t -> exists c, tx.2 = Ok c) (zip txs checks) rs ->
  Forall3 (fresh self) txs locks rs.
Proof.
  intros rs H. revert rs. induction H as [|m lock r txs locks checks Ha _ IH]; intros rs H2.
  { inversion H2. constructor. }
  inversion H2 as [|? r' ? rs' Hr Hrs]; subst. constructor; [|by apply IH].
  intros t ->. destruct (Hr t eq_refl) as [c Hc]. cbn in Hc. destruct (Ha c Hc) as (H1 & H3 & _). done.
Qed.

Lemma processed_sublist self txs locks rs :
  Forall3 (fresh self) txs locks rs -> processed txs rs `sublist_of` granted (zip txs locks).
Proof.
  induction 1 as [|m lock r txs locks rs Hf _ IH]; [done|].
  change (zip (m :: txs) (lock :: locks)) with ((m, lock) :: zip txs locks).
  destruct r as [t|e]; [change (processed (m :: txs) (Ok t :: rs)) with (m :: processed txs rs)|
    change (processed (m :: txs) (Err e :: rs)) with (processed txs rs)].
  - destruct (Hf t eq_refl) as [-> _]. rewrite granted_cons_ok. by constructor.
  - destruct lock as [[]|e']; [rewrite granted_cons_ok; by constructor|by rewrite granted_cons_err].
Qed.

Lemma processed_fresh self txs locks rs m :
  Forall3 (fresh self) txs locks rs -> m ∈ processed txs rs ->
  Check.is_transaction_already_processed m (status_cache self) (ancestors self) = Done false.
Proof.
  induction 1 as [|m' lock r txs locks rs Hf _ IH]; [by intros ?%not_elem_of_nil|]. unfold processed. cbn.
  fold (processed txs rs). destruct r as [t|e]; [|done].
  intros [->|H]%elem_of_cons; [by apply (Hf t)|by apply IH].
Qed.

(** Exclusive locks keep the nonce accounts of a batch undisturbed. *)
Lemma locked_batch_ok self limit txs locks checks :
  Forall3 (admitted self) txs locks checks -> Forall wire_ok txs ->
  batch_separated limit false [] (zip txs locks) ->
  Forall tx_ok (zip txs checks) /\
  nonces_undisturbed (balance (bank_accounts (bank self))) (zip txs checks).
Proof.
  intros Ha Hw Hs.
  assert (forall i m c, zip txs checks !! i = Some (m, Ok c) ->
    zip txs locks !! i = Some (m, Ok tt) /\ wire_ok m /\ admitted self m (Ok tt) (Ok c)) as Hi.
  { intros i m c H. apply lookup_zip_Some in H as [H1 H2].
    destruct (Forall3_lookup_l _ _ _ _ _ _ Ha H1) as (lock & r & E1 & E2 & Had). rewrite H2 in E2.
    injection E2 as <-. destruct (Had c eq_refl) as [-> _]. split_and!; [by apply lookup_zip_Some| |done].
    by apply (Forall_lookup_1 _ _ _ _ Hw H1). }
  split.
  - apply Forall_lookup. intros i [m r] Hx c Hc. cbn in Hc. subst r.
    destruct (Hi i m c Hx) as (Hl & [Hm _] & Had). destruct (Had c eq_refl) as (_ & _ & Hc & _).
    split; [|done]. apply message_shape_ok; [done|]. by eapply batch_separated_valid.
  - intros pre m c n post E Hn.
    assert (zip txs checks !! length pre = Some (m, Ok c)) as Hj by (rewrite E; by apply list_lookup_middle).
    destruct (Hi _ _ _ Hj) as (Hl & [Hm _] & Had). destruct (Had c eq_refl) as (_ & _ & Hc & Hnl).
    split; [by apply captured_balance, Hnl|]. apply Forall_lookup. intros i [m' r] Hx [[c' Hr] Hw']. cbn in Hr, Hw'. subst r.
    assert (zip txs checks !! i = Some (m', Ok c')) as Hx' by (rewrite E; by apply lookup_app_l_Some).
    destruct (Hi _ _ _ Hx') as (Hl' & _). pose proof (lookup_lt_Some _ _ _ Hx) as Hlt.
    pose proof (batch_separated_pair _ _ _ _ _ _ _ Hs Hl' Hl Hlt) as Hcompat.
    destruct (Hcompat (nonce_address n) true true); [|by apply writes_locked|done].
    apply writes_locked. by apply Hc.
Qed.

(** ** Locking a batch *)

Lemma payer_locked m : wire_ok m -> exists k, (k, true) ∈ accounts_with_is_writable m.
Proof.
  intros [(Hz & Hw & _) _]. destruct (account_keys m) as [|k ks] eqn:E; [unfold zlen in Hz; cbn in Hz; lia|].
  exists k. apply writes_locked. exists O. by rewrite E.
Qed.

Lemma exclusive_nodup limit (b : Batch) : forall mine,
  Forall wire_ok b.*1 -> batch_separated limit false mine b ->
  NoDup (granted b) /\ forall m, m ∈ granted b -> compatible (accounts_with_is_writable m) mine.
Proof.
  induction b as [|[m [[]|e]] b IH]; intros mine Hw Hs.
  - split; [apply NoDup_nil_2|by intros m ?%not_elem_of_nil].
  - destruct Hs as (_ & Hc & Hs). cbn in Hw. apply Forall_cons in Hw as [Hm Hw].
    destruct (IH _ Hw Hs) as [H1 H2]. rewrite granted_cons_ok. split.
    + apply NoDup_cons. split; [|done]. intros Hin. apply H2, compatible_app_r in Hin as [Hin _].
      destruct (payer_locked m Hm) as [k Hk]. by destruct (Hin k true true Hk Hk).
    + intros m' [->|Hin]%elem_of_cons; [by apply Hc|]. by apply H2, compatible_app_r in Hin as [_ ?].
  - rewrite granted_cons_err. cbn in Hw. apply Forall_cons in Hw as [_ Hw]. by apply IH.
Qed.

Lemma relaxed_nodup limit held : forall txs results mine seen,
  let b := zip txs (reference_grants true limit held mine txs
                      (BankLocks.refuse_repeated message_hash seen txs results)) in
  NoDup (message_hash <$> granted b) /\ forall m, m ∈ granted b -> message_hash m ∉ seen.
Proof.
  assert (NoDup (message_hash <$> granted []) /\
    forall (seen : gset (list Z)) m, m ∈ granted [] -> message_hash m ∉ seen) as [Hn Hs].
  { split; [apply NoDup_nil_2|by intros ? m ?%not_elem_of_nil]. }
  induction txs as [|m txs IH]; intros [|[[]|e] results] mine seen; try (split; [done|apply Hs]).
  - cbn [BankLocks.refuse_repeated]. case_bool_decide as E; cbn [reference_grants].
    + cbn [reference_grant qbind Accounts.is_ok zip zip_with]. rewrite granted_cons_err. apply IH.
    + destruct (reference_grant limit held m (Ok tt)) as [[]|e]; cbn [Accounts.is_ok zip zip_with].
      * destruct (IH results (accounts_with_is_writable m ++ mine) ({[ message_hash m ]} ∪ seen))
          as [H1 H2]. rewrite granted_cons_ok. split.
        -- cbn. apply NoDup_cons. split; [|done]. intros (m' & E' & Hin)%list_elem_of_fmap.
           apply (H2 m' Hin). set_solver.
        -- intros m' [->|Hin]%elem_of_cons; [done|]. specialize (H2 m' Hin). set_solver.
      * rewrite granted_cons_err. destruct (IH results mine ({[ message_hash m ]} ∪ seen)) as [H1 H2].
        split; [done|]. intros m' Hin. specialize (H2 m' Hin). set_solver.
  - cbn [BankLocks.refuse_repeated reference_grants reference_grant qbind Accounts.is_ok zip zip_with].
    rewrite granted_cons_err. apply IH.
Qed.

Definition locks_of (b : LiveBank) (bs : list Batch) : Prop :=
  lock_history (transaction_account_lock_limit b) relax_intrabatch_account_locks (account_locks b) bs.

Lemma prepare_inv b bs txs results batch b' :
  locks_of b bs -> Forall wire_ok txs -> batch_size txs + zlen (held_keys bs) <= U64_MAX ->
  LiveBank.prepare_sanitized_batch_with_results b txs results = Done (batch, b') ->
  sanitized_txs batch = txs /\ needs_unlock batch = true /\
  length txs = length (lock_results batch) /\ NoDup (granted (TransactionBatch.txs_and_results batch)) /\
  b' = b<|account_locks := account_locks b'|> /\
  locks_of b' (TransactionBatch.txs_and_results batch :: bs).
Proof.
  intros H Hw Hsize. unfold LiveBank.prepare_sanitized_batch_with_results, BankLocks.try_lock_accounts_with_results.
  set (res := if relax_intrabatch_account_locks then _ else _).
  destruct (Accounts.lock_accounts (account_locks b) txs res _ _) as [rs L'] eqn:E.
  unfold TransactionBatch.new. destruct (Z.eqb_spec (zlen rs) (zlen txs)) as [El|]; [|done].
  cbn. intros [= <- <-]. unfold TransactionBatch.txs_and_results. cbn.
  assert (length txs = length rs) as Hl by (unfold zlen in El; lia).
  pose proof (locks_taken _ _ _ _ _ _ _ _ H Hsize E) as H'.
  split_and!; try done. destruct (history_represents _ _ _ _ H) as [R _].
  pose proof (lock_accounts_spec (transaction_account_lock_limit b) relax_intrabatch_account_locks _ txs res _ R Hsize) as Hspec.
  rewrite E in Hspec. destruct Hspec as [Ers _].
  apply history_separated in H' as [_ Hf]. apply Forall_inv in Hf. unfold res in *. clear E H R res.
  destruct relax_intrabatch_account_locks.
  - rewrite Ers. apply (NoDup_fmap_1 message_hash).
    apply (relaxed_nodup _ (held_keys bs) txs results [] ∅).
  - eapply exclusive_nodup; [|exact Hf]. rewrite fst_zip by lia. done.
Qed.

(** ** Committing a batch *)

Abbreviation known self := (fun m =>
  knows (status_cache self) (message_recent_blockhash m) (message_hash m) (bank_slot self)).

Lemma known_processed self m :
  bank_slot self ∈ ancestors self -> known self m ->
  Check.is_transaction_already_processed m (status_cache self) (ancestors self) = Done true.
Proof.
  intros Hs Hk. unfold Check.is_transaction_already_processed.
  destruct (knows_found _ _ _ _ (ancestors self) Hk (or_introl Hs)) as [x ->]. done.
Qed.

Lemma update_statuses_knows random slot : forall l c c',
  LiveBank.update_statuses random slot c l = Done c' ->
  (forall b key s, knows c b key s -> knows c' b key s) /\
  forall m t, (m, Ok t) ∈ l -> knows c' (message_recent_blockhash m) (message_hash m) slot.
Proof.
  induction l as [|[m [t|e]] l IH]; intros c c' H; cbn in H.
  - injection H as <-. split; [done|]. by intros m t ?%not_elem_of_nil.
  - destruct (insert c _ _ _ _ _) as [c1| |] eqn:E1; try done. cbn in H.
    destruct (insert c1 _ _ _ _ _) as [c2| |] eqn:E2; try done. cbn in H.
    destruct (IH c2 c' H) as [H1 H2]. split.
    + intros b key s Hk. apply H1. eapply knows_insert; [|exact E2]. by eapply knows_insert.
    + intros m' t' [[= -> ->]|Hin]%elem_of_cons; [|by eapply H2].
      apply H1. eapply knows_insert; [|exact E2]. by eapply inserted_knows.
  - destruct (IH c c' H) as [H1 H2]. split; [done|].
    intros m' t' [?|Hin]%elem_of_cons; [done|by eapply H2].
Qed.

Lemma commit_inv random self txs rs self' :
  LiveBank.commit_transactions random self txs rs = Done self' ->
  self' = self<|status_cache := status_cache self'|>
              <|bank := Processor.commit_transactions txs rs (bank self)|> /\
  (forall m, known self m -> known self' m) /\
  forall m, m ∈ processed txs rs -> known self' m.
Proof.
  unfold LiveBank.commit_transactions, LiveBank.update_transaction_statuses.
  destruct (freeze_started self); [done|]. destruct (negb _); [done|].
  destruct (LiveBank.update_statuses _ _ _ _) as [c'| |] eqn:E; try done. cbn. intros [= <-].
  split; [done|]. apply update_statuses_knows in E as [H1 H2]. split; [intros m; apply H1|].
  intros m Hm. unfold processed in Hm. apply list_elem_of_omap in Hm as ([m' [t|e]] & Hin & [= ->]).
  by eapply H2.
Qed.

(** ** The invariant *)

Definition flight_ok (f : Flight) : Prop :=
  needs_unlock (flight_batch f) = true /\
  length (flight_txs f) = length (lock_results (flight_batch f)) /\
  Forall wire_ok (flight_txs f) /\ NoDup (granted (flight_pairs f)).

(** What was executed and not committed yet. *)
Definition unseen (log : list SVMMessage) (f : Flight) : Prop :=
  match flight_phase f with
  | Executed rs =>
      processed (flight_txs f) rs `sublist_of` granted (flight_pairs f) /\
      Forall (fun m => m ∉ log) (processed (flight_txs f) rs)
  | _ => True
  end.

Record inv (s : System) : Prop := {
  inv_locks : locks_of (sys_bank s) (map (fun f => flight_pairs f) (flights s));
  inv_flights : Forall flight_ok (flights s);
  inv_rate : is_u64 (lamports_per_signature (sys_bank s));
  inv_slot : bank_slot (sys_bank s) ∈ ancestors (sys_bank s);
  inv_nodup : NoDup (ledger s);
  inv_known : Forall (known (sys_bank s)) (ledger s);
  inv_unseen : Forall (unseen (ledger s)) (flights s);
}.

(** Batches that hold locks at the same time share no granted message. *)
Lemma granted_disjoint b fs1 f fs2 f' m :
  locks_of b (map (fun f => flight_pairs f) (fs1 ++ f :: fs2)) -> flight_ok f -> f' ∈ fs1 ++ fs2 ->
  m ∈ granted (flight_pairs f) -> m ∈ granted (flight_pairs f') -> False.
Proof.
  intros H (_ & _ & Hw & _) Hin H1 H2. apply history_separated in H as [Hs _].
  rewrite map_app in Hs. cbn in Hs. apply (separated_pair _ _ _ (flight_pairs f')) in Hs.
  2: { rewrite <- map_app. apply list_elem_of_In, in_map_iff. exists f'. split; [done|]. by apply list_elem_of_In. }
  assert (wire_ok m) as Hm.
  { apply granted_in, list_elem_of_lookup in H1 as [i Hi]. apply lookup_zip_Some in Hi as [Hi _].
    by apply (Forall_lookup_1 _ _ _ _ Hw Hi). }
  destruct (payer_locked m Hm) as [k Hk].
  by destruct (Hs k true true (granted_locked _ _ _ H1 Hk) (granted_locked _ _ _ H2 Hk)).
Qed.

Lemma inv_execute b fs1 batch fs2 log age rs :
  LiveBank.load_and_execute_transactions b batch age = Done rs ->
  inv (mkSystem b (fs1 ++ mkFlight batch Locked :: fs2) log) ->
  inv (mkSystem b (fs1 ++ mkFlight batch (Executed rs) :: fs2) log).
Proof.
  intros E [I1 I2 I3 I4 I5 I6 I7]. cbn in *.
  apply Forall_app in I2 as [F1 [F2 F3]%Forall_cons]. apply Forall_app in I7 as [U1 [_ U3]%Forall_cons].
  destruct F2 as (N1 & N2 & N3 & N4). cbn in N1, N2, N3, N4.
  destruct (execute_inv _ _ _ _ N2 N3 I3 E) as (checks & next & Ha & ->).
  pose proof (executed_fresh b _ _ _ _ Ha (results_checked next _ (bank_accounts (bank b)))) as Hf.
  split; cbn; try done.
  - rewrite map_app in *. exact I1.
  - apply Forall_app. split; [done|]. by constructor.
  - apply Forall_app. split; [done|]. constructor; [|done]. split; cbn.
    + by eapply processed_sublist.
    + apply Forall_forall. intros m Hm Hin. rewrite Forall_forall in I6.
      pose proof (processed_fresh _ _ _ _ _ Hf Hm) as Hfalse.
      by rewrite (known_processed b m I4 (I6 m Hin)) in Hfalse.
Qed.

Lemma inv_commit b fs1 batch rs fs2 log random b' :
  LiveBank.commit_transactions random b (sanitized_txs batch) rs = Done b' ->
  inv (mkSystem b (fs1 ++ mkFlight batch (Executed rs) :: fs2) log) ->
  inv (mkSystem b' (fs1 ++ mkFlight batch Committed :: fs2) (log ++ processed (sanitized_txs batch) rs)).
Proof.
  intros E [I1 I2 I3 I4 I5 I6 I7]. cbn in *. apply commit_inv in E as (Eb & K1 & K2).
  apply Forall_app in I2 as [F1 [F2 F3]%Forall_cons]. apply Forall_app in I7 as [U1 [[S1 S2] U3]%Forall_cons].
  cbn in S1, S2. pose proof F2 as (N1 & N2 & N3 & N4). cbn in N1, N2, N3, N4.
  assert (forall f', f' ∈ fs1 ++ fs2 -> unseen log f' ->
    unseen (log ++ processed (sanitized_txs batch) rs) f') as Hstable.
  { intros f' Hin. unfold unseen. destruct (flight_phase f') as [|rs'|]; [done| |done].
    intros [T1 T2]. split; [done|]. rewrite Forall_forall in T2 |- *. intros m Hm.
    rewrite elem_of_app. intros [Hl|Hp]; [by apply (T2 m)|].
    apply (granted_disjoint b fs1 (mkFlight batch (Executed rs)) fs2 f' m I1 F2 Hin).
    - exact (elem_of_sublist _ _ _ Hp S1).
    - exact (elem_of_sublist _ _ _ Hm T1). }
  split; cbn.
  - rewrite Eb. rewrite map_app in *. exact I1.
  - apply Forall_app. split; [done|]. by constructor.
  - by rewrite Eb.
  - by rewrite Eb.
  - apply NoDup_app. split_and!; [done| |by eapply sublist_NoDup].
    intros m Hl Hp. rewrite Forall_forall in S2. by apply (S2 m).
  - apply Forall_app. split; apply Forall_forall; [|done]. intros m Hm. apply K1.
    rewrite Forall_forall in I6. by apply I6.
  - rewrite Forall_forall in U1. rewrite Forall_forall in U3.
    apply Forall_app. split; [|constructor; [done|]]; apply Forall_forall; intros f Hf.
    + apply Hstable; [apply elem_of_app; by left|by apply U1].
    + apply Hstable; [apply elem_of_app; by right|by apply U3].
Qed.

Lemma inv_release b fs1 f fs2 log :
  inv (mkSystem b (fs1 ++ f :: fs2) log) ->
  inv (mkSystem (LiveBank.drop_batch b (flight_batch f)) (fs1 ++ fs2) log).
Proof.
  intros [I1 I2 I3 I4 I5 I6 I7]. cbn in *.
  apply Forall_app in I2 as [F1 [F2 F3]%Forall_cons]. apply Forall_app in I7 as [U1 [_ U3]%Forall_cons].
  destruct F2 as (N1 & _). unfold LiveBank.drop_batch, TransactionBatch.drop. rewrite N1.
  split; cbn; try done.
  - unfold locks_of in *. cbn. rewrite map_app in *. cbn in I1. by apply locks_released in I1.
  - by apply Forall_app.
  - by apply Forall_app.
Qed.

Section Run.
Context {keys : AccountKeysEnv} {klaws : AccountKeysLaws keys}.
Context (reserved : gset (list Z)) (Hsys : instructions_sysvar_id ∈ reserved).

Lemma inv_step s s' : sys_step reserved s s' -> inv s -> inv s'.
Proof.
  destruct 1 as [b fs log txs results batch b' Hw Hsize E|b fs1 batch fs2 log age rs E
    |b fs1 batch rs fs2 log random b' E|b fs1 f fs2 log|b fs log hash rate now].
  - intros [I1 I2 I3 I4 I5 I6 I7]. cbn in *.
    assert (Forall wire_ok txs) as Hok.
    { eapply Forall_impl; [exact Hw|]. intros m. by apply from_wire_ok. }
    destruct (prepare_inv _ _ _ _ _ _ I1 Hok Hsize E) as (<- & N1 & N2 & N3 & Eb & Hl).
    split; cbn; try done; try (by rewrite Eb); by constructor.
  - by eapply inv_execute.
  - by eapply inv_commit.
  - apply inv_release.
  - intros [I1 I2 I3 I4 I5 I6 I7]. by split.
Qed.

Lemma inv_run s s' : sys_run reserved s s' -> inv s -> inv s'.
Proof. induction 1 as [s|s s' s'' H _ IH]; [done|]. intros Hi. by apply IH, (inv_step s s'). Qed.

(** ** Lamports *)

Abbreviation accounts_of b := (bank_accounts (bank b)).

(** Executed results that can still be committed: they write locked accounts
    only, and cost what they charge. *)
Definition committable (db : gmap (list Z) AccountSharedData) (f : Flight) : Prop :=
  match flight_phase f with
  | Executed rs =>
      let xs := collect_accounts_to_store (flight_txs f) rs in
      affordable db xs (zsum charged rs) /\ Forall fees_wf rs /\
      forall k, k ∈ xs.*1 -> (k, true) ∈ granted_keys (flight_pairs f)
  | _ => True
  end.

Definition money (cap : Z) (s : System) : Prop :=
  let b := bank (sys_bank s) in
  exists tf pf, collector_fee_details b = mkCollector tf pf /\ 0 <= tf /\ 0 <= pf /\
    nonneg (bank_accounts b) /\ total_lamports (bank_accounts b) + tf + pf = cap /\
    capitalization b = cap /\ Forall (committable (bank_accounts b)) (flights s).

Lemma committable_stable db db' f :
  nonneg db' -> (forall k, (k, true) ∈ granted_keys (flight_pairs f) -> balance db' k = balance db k) ->
  committable db f -> committable db' f.
Proof.
  intros Hn H. unfold committable. destruct (flight_phase f) as [|rs|]; [done| |done].
  intros (Ha & Hf & Hk). split; [|done]. eapply affordable_stable; [exact Ha|done|].
  intros k Hin. by apply H, Hk.
Qed.

Lemma stored_keys txs locks checks : forall rs k,
  Forall3 (fun m lock r => forall c, r = Ok c -> lock = Ok tt) txs locks checks ->
  Forall2 result_ok (zip txs checks) rs ->
  k ∈ (collect_accounts_to_store txs rs).*1 -> (k, true) ∈ granted_keys (zip txs locks).
Proof.
  intros rs k H. revert rs. induction H as [|m lock r txs locks checks Hc _ IH]; intros rs H2 Hk.
  { inversion H2; subst. by apply not_elem_of_nil in Hk. }
  inversion H2 as [|? r' ? rs' [Hw Ho] Hrs]; subst. unfold collect_accounts_to_store in Hk. cbn in Hk.
  rewrite fmap_app in Hk. apply elem_of_app in Hk as [Hk|Hk].
  - apply list_elem_of_fmap in Hk as (x & -> & Hx). rewrite Forall_forall in Hw.
    destruct r' as [t|e]; [|by apply not_elem_of_nil in Hx]. destruct (Ho t eq_refl) as [c Ec]. cbn in Ec.
    rewrite (Hc c Ec). apply (granted_locked _ m); [apply granted_in; apply list_elem_of_here|].
    apply writes_locked. by apply Hw.
  - specialize (IH rs' Hrs Hk). cbn [zip zip_with]. unfold granted_keys.
    destruct lock as [[]|e]; [rewrite granted_cons_ok|by rewrite granted_cons_err].
    cbn [map concat]. apply elem_of_app. by right.
Qed.

Section Exclusive.
Context (Hexcl : relax_intrabatch_account_locks = false).

Lemma money_execute cap b fs1 batch fs2 log age rs :
  cap < U64_MAX -> LiveBank.load_and_execute_transactions b batch age = Done rs ->
  inv (mkSystem b (fs1 ++ mkFlight batch Locked :: fs2) log) ->
  money cap (mkSystem b (fs1 ++ mkFlight batch Locked :: fs2) log) ->
  money cap (mkSystem b (fs1 ++ mkFlight batch (Executed rs) :: fs2) log).
Proof.
  intros Hcap E [I1 I2 I3 I4 _ _ _] (tf & pf & H1 & H2 & H3 & Hn & Ht & Hc & Hf). cbn in *.
  exists tf, pf. split_and!; try done. cbn.
  apply Forall_app in I2 as [_ [(_ & N2 & N3 & _) _]%Forall_cons]. cbn in N2, N3.
  apply Forall_app in Hf as [Hf1 [_ Hf2]%Forall_cons].
  apply Forall_app. split; [done|]. constructor; [|done].
  destruct (execute_inv _ _ _ _ N2 N3 I3 E) as (checks & next & Ha & ->).
  apply history_separated in I1 as [_ Hs]. rewrite map_app in Hs. apply Forall_app in Hs as [_ Hs].
  apply Forall_inv in Hs. cbn in Hs. rewrite Hexcl in Hs.
  destruct (locked_batch_ok b _ _ _ _ Ha N3 Hs) as [Hok Hnon].
  destruct (batch_results next _ (accounts_of b) Hok Hnon Hn ltac:(lia)) as (A & B & C & D).
  destruct (Forall3_length _ _ _ _ Ha) as [_ Hl]. rewrite fst_zip in A, B by lia.
  unfold committable. cbn. split_and!; [done..|]. intros k. apply (stored_keys _ _ checks); [|done].
  eapply Forall3_impl; [exact Ha|]. intros m lock r Had c ->. by apply (Had c).
Qed.

Lemma money_commit cap b fs1 batch rs fs2 log random b' :
  cap < U64_MAX -> LiveBank.commit_transactions random b (sanitized_txs batch) rs = Done b' ->
  inv (mkSystem b (fs1 ++ mkFlight batch (Executed rs) :: fs2) log) ->
  money cap (mkSystem b (fs1 ++ mkFlight batch (Executed rs) :: fs2) log) ->
  money cap (mkSystem b' (fs1 ++ mkFlight batch Committed :: fs2)
    (log ++ processed (sanitized_txs batch) rs)).
Proof.
  intros Hcap E [I1 _ _ _ _ _ _] (tf & pf & H1 & H2 & H3 & Hn & Ht & Hc & Hf). cbn in *.
  apply commit_inv in E as (Eb & _). apply Forall_app in Hf as [Hf1 [[[A B] [C D]] Hf2]%Forall_cons].
  cbn in A, B, C, D.
  destruct (commit_ok (sanitized_txs batch) rs (bank b) tf pf) as (tf' & pf' & E1 & L1 & L2 & Hn' & T' & Ec & _);
    try done; [lia|].
  exists tf', pf'. rewrite Eb. cbn. split_and!; try done; try lia; [cbn in T'; lia|].
  assert (forall f', f' ∈ fs1 ++ fs2 -> committable (accounts_of b) f' ->
    committable (bank_accounts (Processor.commit_transactions (sanitized_txs batch) rs (bank b))) f') as Hst.
  { intros f' Hin. apply committable_stable; [done|]. intros k Hk. cbn. apply store_elsewhere. intros Hx.
    apply history_separated in I1 as [Hs _]. rewrite map_app in Hs. cbn in Hs.
    apply (separated_pair _ _ _ (flight_pairs f')) in Hs.
    - by destruct (Hs k true true (D k Hx) Hk).
    - rewrite <- map_app. apply list_elem_of_In, in_map_iff. exists f'. split; [done|]. by apply list_elem_of_In. }
  rewrite Forall_forall in Hf1, Hf2. apply Forall_app. split; [|constructor; [done|]];
    apply Forall_forall; intros f Hin; apply Hst; auto; apply elem_of_app; auto.
Qed.

Lemma money_step cap s s' : cap < U64_MAX -> sys_step reserved s s' -> inv s -> money cap s -> money cap s'.
Proof.
  intros Hcap. destruct 1 as [b fs log txs results batch b' Hw Hsize E|b fs1 batch fs2 log age rs E
    |b fs1 batch rs fs2 log random b' E|b fs1 f fs2 log|b fs log hash rate now].
  - intros [I1 _ _ _ _ _ _] (tf & pf & H1 & H2 & H3 & Hn & Ht & Hc & Hf). cbn in *.
    assert (Forall wire_ok txs) as Hok.
    { eapply Forall_impl; [exact Hw|]. intros m. by apply from_wire_ok. }
    destruct (prepare_inv _ _ _ _ _ _ I1 Hok Hsize E) as (_ & _ & _ & _ & Eb & _).
    exists tf, pf. rewrite Eb. cbn. split_and!; try done. by constructor.
  - by eapply money_execute.
  - by eapply money_commit.
  - intros _ (tf & pf & H1 & H2 & H3 & Hn & Ht & Hc & Hf). cbn in *. exists tf, pf. split_and!; try done.
    cbn. rewrite Forall_app, Forall_cons in Hf. apply Forall_app. tauto.
  - intros _ (tf & pf & H). exists tf, pf. exact H.
Qed.

Lemma money_run cap s s' : cap < U64_MAX -> sys_run reserved s s' -> inv s -> money cap s -> money cap s'.
Proof.
  intros Hcap. induction 1 as [s|s s' s'' H _ IH]; [done|]. intros Hi Hm.
  apply IH; [by apply (inv_step s s')|by apply (money_step cap s s')].
Qed.

End Exclusive.

End Run.

End Steps.

(** ** Two batches on a bank *)

Definition test_hash (m : SVMMessage) : list Z :=
  take 32 (concat (map (fun x => ix_data x.2) (program_instructions m)) ++ concat (account_keys m)).

Definition test_admission : AdmissionEnv :=
  {| admission_proc := test_proc;
     verify_nonce_account := fun a hash =>
       if bool_decide (take 32 (data a) = hash) then Some (mkNonceData (test_id 91) hash 5000) else None;
     set_nonce_state := fun a d => Some (a<|data := nonce_durable_nonce d ++ drop 32 (data a)|>);
     from_blockhash := fun h => h; message_hash := test_hash;
     signature := fun m => test_hash m ++ test_hash m;
     require_static_nonce_account := true; enable_secp256r1_precompile := true;
     relax_intrabatch_account_locks := false |}.

Lemma test_admission_laws : AdmissionLaws test_admission.
Proof. split; [exact test_proc_laws|]. intros a d a' [= <-]. by eexists. Qed.

Definition test_reserved : gset (list Z) := {[ test_id 22 ]}.

(** A payment on the wire, and its message. *)
Definition payment (payer to amount : Z) : Transaction :=
  mkTransaction [replicate 64 payer] (mkHeader Legacy 1 0 1) [test_id payer; test_id to; test_id 30]
    (test_id 66) [mkSVMInstruction 2 [0; 1] [amount]] [].

Definition message_on_wire (bytes : list Z) : option SVMMessage :=
  match SanitizedTransactionView.try_new_sanitized bytes with
  | Some (Done (Ok view)) =>
      match ResolvedTransactionView.try_new view None test_reserved with
      | Some (Done (Ok rv)) =>
          match Message.message_of rv with Some (Done m) => Some m | _ => None end
      | _ => None
      end
  | _ => None
  end.

Lemma message_on_wire_ok bytes m :
  bytes_wf bytes -> zlen bytes <= U16_MAX -> message_on_wire bytes = Some m ->
  (forall payer, account_keys m !! 0%nat = Some payer -> payer ∉ test_reserved) ->
  from_wire test_reserved m.
Proof.
  intros Hwf Hu H Hp. unfold message_on_wire in H.
  destruct (SanitizedTransactionView.try_new_sanitized bytes) as [[[view|]| |]|] eqn:E1; try done.
  destruct (ResolvedTransactionView.try_new view None test_reserved) as [[[rv|]| |]|] eqn:E2; try done.
  destruct (Message.message_of rv) as [[m'| |]|] eqn:E3; try done. injection H as <-.
  exists bytes, view, None, rv. split_and!; done.
Qed.

Definition test_payment_1 : SVMMessage :=
  Eval vm_compute in default (test_message (test_id 90) []) (message_on_wire (encode (payment 90 92 200))).
Definition test_payment_2 : SVMMessage :=
  Eval vm_compute in default (test_message (test_id 90) []) (message_on_wire (encode (payment 91 93 100))).

Lemma test_payments_wire : from_wire test_reserved test_payment_1 /\ from_wire test_reserved test_payment_2.
Proof.
  split; [apply (message_on_wire_ok (encode (payment 90 92 200)))|
    apply (message_on_wire_ok (encode (payment 91 93 100)))].
  1, 5: refine (bool_decide_unpack (bytes_wf _) _); vm_compute; exact I.
  1, 4: vm_compute; discriminate.
  1, 3: vm_compute; reflexivity.
  all: intros payer [= <-]; apply not_elem_of_singleton; discriminate.
Qed.

(** Steps as actions that can be run. *)
Inductive Action : Type :=
| Lock (txs : list SVMMessage)
| Execute (i : nat)
| Commit (i : nat)
| Release (i : nat)
| RegisterHash (hash : list Z).

Definition perform {env : AdmissionEnv} (a : Action) (s : System) : option System :=
  let '(mkSystem b fs log) := s in
  match a with
  | Lock txs =>
      if batch_size txs + zlen (held_keys (map (fun f => flight_pairs f) fs)) <=? U64_MAX then
        match LiveBank.prepare_sanitized_batch_with_results b txs (map (fun _ => Ok tt) txs) with
        | Done (batch, b') => Some (mkSystem b' (mkFlight batch Locked :: fs) log)
        | _ => None
        end
      else None
  | Execute i =>
      match fs !! i with
      | Some (mkFlight batch Locked) =>
          match LiveBank.load_and_execute_transactions b batch 150 with
          | Done rs => Some (mkSystem b (take i fs ++ mkFlight batch (Executed rs) :: drop (S i) fs) log)
          | _ => None
          end
      | _ => None
      end
  | Commit i =>
      match fs !! i with
      | Some (mkFlight batch (Executed rs)) =>
          match LiveBank.commit_transactions (fun _ => 5) b (sanitized_txs batch) rs with
          | Done b' =>
              Some (mkSystem b' (take i fs ++ mkFlight batch Committed :: drop (S i) fs)
                      (log ++ processed (sanitized_txs batch) rs))
          | _ => None
          end
      | _ => None
      end
  | Release i =>
      match fs !! i with
      | Some f => Some (mkSystem (LiveBank.drop_batch b (flight_batch f)) (take i fs ++ drop (S i) fs) log)
      | None => None
      end
  | RegisterHash hash => Some (mkSystem (LiveBank.register_recent_blockhash b hash 5000 0) fs log)
  end.

Fixpoint perform_all {env : AdmissionEnv} (l : list Action) (s : System) : option System :=
  match l with
  | [] => Some s
  | a :: l => s' ← perform a s; perform_all l s'
  end.

Definition locks_wire {keys : AccountKeysEnv} (reserved : gset (list Z)) (a : Action) : Prop :=
  match a with Lock txs => Forall (from_wire reserved) txs | _ => True end.

Lemma perform_step {env : AdmissionEnv} {keys : AccountKeysEnv} reserved a s s' :
  locks_wire reserved a -> perform a s = Some s' -> sys_step reserved s s'.
Proof.
  destruct s as [b fs log]. intros Hw. destruct a as [txs|i|i|i|hash]; cbn in Hw |- *.
  - destruct (Z.leb_spec (batch_size txs + zlen (held_keys (map (fun f => flight_pairs f) fs))) U64_MAX); [|done].
    destruct (LiveBank.prepare_sanitized_batch_with_results _ _ _) as [[batch b']| |] eqn:E; try done.
    intros [= <-]. by eapply step_lock.
  - destruct (fs !! i) as [[batch [| |]]|] eqn:Ei; try done.
    destruct (LiveBank.load_and_execute_transactions _ _ _) as [rs| |] eqn:E; try done. intros [= <-].
    rewrite <- (take_drop_middle fs i _ Ei) at 1. by eapply step_execute.
  - destruct (fs !! i) as [[batch [|rs|]]|] eqn:Ei; try done.
    destruct (LiveBank.commit_transactions _ _ _ _) as [b'| |] eqn:E; try done. intros [= <-].
    rewrite <- (take_drop_middle fs i _ Ei) at 1. by eapply step_commit.
  - destruct (fs !! i) as [f|] eqn:Ei; [|done]. intros [= <-].
    rewrite <- (take_drop_middle fs i _ Ei) at 1. by eapply step_release.
  - intros [= <-]. apply step_register.
Qed.

Lemma perform_run {env : AdmissionEnv} {keys : AccountKeysEnv} reserved l : forall s s',
  Forall (locks_wire reserved) l -> perform_all l s = Some s' -> sys_run reserved s s'.
Proof.
  induction l as [|a l IH]; intros s s' Hw; cbn; [intros [= <-]; apply run_end|].
  apply Forall_cons in Hw as [Ha Hw]. destruct (perform a s) as [s1|] eqn:E; [|done]. cbn.
  intros H. eapply run_step; [by apply (perform_step reserved a)|by apply IH].
Qed.

Definition test_live : LiveBank :=
  mkLive
    (mkBank {[ test_id 90 := test_wallet 5000000; test_id 91 := test_wallet 7000000;
               test_id 92 := test_wallet 1000000; test_id 93 := test_wallet 2000000;
               test_id 30 := mkShared 1 [] (test_id 20) true 0 ]}
       (test_id 91) (mkCollector 0 0) 15000001 [])
    AccountLocks.default
    (BlockhashQueue.genesis_hash (BlockhashQueue.new 300) (test_id 66) 5000 0)
    default_cache 7 {[ 7 ]} 5000 64 false.

(** Two payments are executed at the same time and committed in the other order;
    a second try of the first one finds its accounts in use, and a third one is
    refused because it was processed. *)
Definition test_script : list Action :=
  [Lock [test_payment_1]; Lock [test_payment_2; test_payment_1]; Execute 1; Execute 0;
   RegisterHash (test_id 67); Commit 0; Commit 1; Release 0; Release 0;
   Lock [test_payment_1]; Execute 0; Commit 0; Release 0].

Definition test_system : System := mkSystem test_live [] [].
Definition test_final : System :=
  default test_system (perform_all (env := test_admission) test_script test_system).

Lemma test_script_wire : Forall (locks_wire test_reserved) test_script.
Proof. destruct test_payments_wire. repeat constructor; done. Qed.

Lemma test_script_run :
  perform_all (env := test_admission) test_script test_system = Some test_final.
Proof.
  unfold test_final. destruct (perform_all test_script test_system) eqn:E; [done|].
  assert (match perform_all (env := test_admission) test_script test_system with
    Some _ => true | None => false end = true) as H by (vm_compute; reflexivity). by rewrite E in H.
Qed.

Lemma test_run : let _ := test_admission in sys_run test_reserved test_system test_final.
Proof. apply (perform_run test_reserved test_script); [exact test_script_wire|exact test_script_run]. Qed.

Lemma test_final_values :
  collector_fee_details (bank (sys_bank test_final)) = mkCollector 10000 0 /\
  capitalization (bank (sys_bank test_final)) = 15000001 /\ length (ledger test_final) = 2%nat.
Proof. split_and!; vm_compute; reflexivity. Qed.

(** A bank without batches in flight. *)
Definition idle (s : System) : Prop :=
  flights s = [] /\ ledger s = [] /\ account_locks (sys_bank s) = AccountLocks.default /\
  is_u64 (lamports_per_signature (sys_bank s)) /\ bank_slot (sys_bank s) ∈ ancestors (sys_bank s).

Lemma test_idle : idle test_system.
Proof. split_and!; done. Qed.

Lemma idle_inv {env : AdmissionEnv} s : idle s -> inv s.
Proof.
  destruct s as [b fs log]. intros (Hf & Hl & Hk & Hr & Hs). cbn in *. subst. split; cbn; try done.
  - unfold locks_of. rewrite Hk. apply locks_start.
  - apply NoDup_nil_2.
Qed.

(** ** Claims *)

(** C11: concurrent batches conserve lamports.  Start with an idle bank whose
    capitalization counts the lamports of all its accounts, without relaxed
    locks.  Let threads lock, check and execute, commit and release any number
    of batches of messages read from the wire, in any interleaving, with
    executions based on accounts that other batches have changed since, with
    batches abandoned at any point and new blockhashes registered in between.
    Then after every step the balances and the collected fees add up to the
    capitalization and no balance is negative.  If the burned share of the
    signature fees fits into 64 bits, distributing the fees does not panic, and
    the capitalization then counts all lamports, except that the priority fees of
    a block without signature fees are missing from the accounts. *)
Theorem concurrent_batches_conserve_lamports {env : AdmissionEnv} {laws : AdmissionLaws env}
    {keys : AccountKeysEnv} {klaws : AccountKeysLaws keys} reserved s s' :
  relax_intrabatch_account_locks = false -> instructions_sysvar_id ∈ reserved -> idle s ->
  let b := bank (sys_bank s) in
  collector_fee_details b = mkCollector 0 0 -> nonneg (bank_accounts b) ->
  total_lamports (bank_accounts b) = capitalization b -> capitalization b < U64_MAX ->
  sys_run reserved s s' ->
  let b' := bank (sys_bank s') in
  exists tf pf, collector_fee_details b' = mkCollector tf pf /\ 0 <= tf /\ 0 <= pf /\
    nonneg (bank_accounts b') /\
    total_lamports (bank_accounts b') + tf + pf = capitalization b /\
    capitalization b' = capitalization b /\
    (tf * DEFAULT_BURN_PERCENT <= U64_MAX ->
     exists b2, Distribution.distribute_transaction_fee_details b' = Done b2 /\
       total_lamports (bank_accounts b2) + (if decide (tf = 0) then pf else 0) = capitalization b2).
Proof.
  intros Hx Hsys Hi b Hc Hn Ht Hcap Hrun b'.
  assert (money (capitalization b) s) as Hm.
  { exists 0, 0. split_and!; try done; [fold b; lia|]. destruct Hi as (-> & _). constructor. }
  destruct (money_run reserved Hsys Hx _ s s' Hcap Hrun (idle_inv s Hi) Hm)
    as (tf & pf & E & H1 & H2 & Hn' & Ht' & Ec & _).
  exists tf, pf. split_and!; try done. intros Hb.
  destruct (Fees.distribute_spec b' tf pf) as (b2 & E2 & T2 & _); try done; try (unfold b'; lia).
  by exists b2.
Qed.

Lemma concurrent_batches_conserve_lamports_witness :
  let _ := test_admission in
  let b' := bank (sys_bank test_final) in
  total_lamports (bank_accounts b') + 10000 + 0 = 15000001 /\
  exists b2, Distribution.distribute_transaction_fee_details b' = Done b2 /\
    total_lamports (bank_accounts b2) = capitalization b2.
Proof.
  destruct (@concurrent_batches_conserve_lamports test_admission test_admission_laws sample_keys_env
    sample_keys_laws test_reserved test_system test_final) as (tf & pf & E & _ & _ & _ & Ht & _ & Hd).
  - reflexivity.
  - apply elem_of_singleton. reflexivity.
  - exact test_idle.
  - reflexivity.
  - refine (bool_decide_unpack (map_Forall _ _) _). by vm_compute.
  - by vm_compute.
  - by vm_compute.
  - exact test_run.
  - destruct test_final_values as (Ef & _). rewrite Ef in E. injection E as <- <-. split; [exact Ht|].
    destruct Hd as (b2 & E2 & T2); [done|]. exists b2. split; [exact E2|].
    rewrite <- T2. cbn. by rewrite Z.add_0_r.
Defined.

(** C12: no message is processed twice.  Whatever the interleaving of locking,
    executing, committing and releasing batches on a bank, with or without
    relaxed locks, and although the same message may be submitted any number of
    times, in one batch or in several: the messages that were committed as
    processed are all different, and every later check on that bank refuses
    each of them. *)
Theorem no_message_processed_twice {env : AdmissionEnv} {laws : AdmissionLaws env}
    {keys : AccountKeysEnv} {klaws : AccountKeysLaws keys} reserved s s' :
  instructions_sysvar_id ∈ reserved -> idle s -> sys_run reserved s s' ->
  NoDup (ledger s') /\
  forall m txs locks age rs i r, m ∈ ledger s' -> length txs = length locks ->
    Forall (from_wire reserved) txs ->
    LiveBank.check_transactions (sys_bank s') txs locks age = Done rs ->
    txs !! i = Some m -> rs !! i = Some r -> exists e, r = Err e.
Proof.
  intros Hsys Hi Hrun. destruct (inv_run reserved Hsys s s' Hrun (idle_inv s Hi)) as [_ _ I3 I4 I5 I6 _].
  split; [done|]. intros m txs locks age rs i r Hm Hl Hw E Ht Hr. destruct r as [c|e]; [|by exists e].
  assert (Forall wire_ok txs) as Hok.
  { eapply Forall_impl; [exact Hw|]. intros x. by apply from_wire_ok. }
  apply check_transactions_admitted in E; [|done..].
  destruct (Forall3_lookup_l _ _ _ _ _ _ E Ht) as (lock & r & _ & E2 & Had). rewrite Hr in E2.
  injection E2 as <-. destruct (Had c eq_refl) as (_ & Hfalse & _). rewrite Forall_forall in I6.
  by rewrite (known_processed _ m I4 (I6 m Hm)) in Hfalse.
Qed.

Lemma no_message_processed_twice_witness :
  let _ := test_admission in
  NoDup (ledger test_final) /\ length (ledger test_final) = 2%nat.
Proof.
  split; [|apply test_final_values].
  apply (@no_message_processed_twice test_admission test_admission_laws sample_keys_env sample_keys_laws
    test_reserved test_system test_final).
  - apply elem_of_singleton. reflexivity.
  - exact test_idle.
  - exact test_run.
Defined.
