(* ===== verification/Merkle.v ===== *)
(** * The Merkle tree of an entry

    The model of [gorchain/merkle-tree/src/merkle_tree.rs]: building the tree
    level by level into one vector, its root, and paths from a leaf to the
    root.  The hash function belongs to another crate and is an argument; the
    theorems about forgery give a collision of it.  Indexes and lengths are
    natural numbers: they stay below three times the number of items, which
    fits the address space. *)

From stdpp Require Import base numbers list.
From Stdlib Require Import Lia.
From S2P Require Import Prelude Errors Pod TxBytes.
Local Open Scope nat_scope.

(** [solana_sha256_hasher]: the hash of the concatenation of some slices. *)
Class HashEnv := {
  hashv : list (list Z) -> list Z;
  hash_default : list Z;
}.

Definition LEAF_PREFIX : list Z := [0%Z].
Definition INTERMEDIATE_PREFIX : list Z := [1%Z].

Record MerkleTree := mkTree {
  leaf_count : nat;
  nodes : list (list Z);
}.

Record ProofEntry := mkProofEntry {
  target : list Z;
  left_sibling : option (list Z);
  right_sibling : option (list Z);
}.

(** [usize::div_ceil]. *)
Definition div_ceil_nat (a b : nat) : nat := if 0 <? a mod b then a / b + 1 else a / b.

Definition index {A} (l : list A) (i : nat) : outcome A :=
  match l !! i with Some x => Done x | None => Panicked end.

Module Merkle.

Section Merkle.
Context {sha : HashEnv}.

Definition hash_leaf (d : list Z) : list Z := hashv [LEAF_PREFIX; d].
Definition hash_intermediate (l r : list Z) : list Z := hashv [INTERMEDIATE_PREFIX; l; r].

(** [ProofEntry::new]: exactly one sibling. *)
Definition proof_entry_new (target : list Z) (left_sibling right_sibling : option (list Z))
    : outcome ProofEntry :=
  match left_sibling, right_sibling with
  | None, Some _ | Some _, None => Done (mkProofEntry target left_sibling right_sibling)
  | _, _ => Panicked
  end.

Fixpoint verify (self : list ProofEntry) (candidate : list Z) : bool :=
  match self with
  | [] => true
  | pe :: self =>
      let lsib := default candidate (left_sibling pe) in
      let rsib := default candidate (right_sibling pe) in
      let hash := hash_intermediate lsib rsib in
      if bool_decide (hash = target pe) then verify self hash else false
  end.

Definition next_level_len (level_len : nat) : nat :=
  if level_len =? 1 then 0 else div_ceil_nat level_len 2.

(** The inner loop of [new]: the nodes [i ..] of a level, [todo] of them. *)
Fixpoint push_level (nodes : list (list Z)) (prev_level_start prev_level_len i todo : nat)
    : outcome (list (list Z)) :=
  match todo with
  | 0 => Done nodes
  | S todo =>
      let prev_level_idx := 2 * i in
      let* lsib := index nodes (prev_level_start + prev_level_idx) in
      let* rsib :=
        if prev_level_idx + 1 <? prev_level_len
        then index nodes (prev_level_start + prev_level_idx + 1)
        else index nodes (prev_level_start + prev_level_idx) in
      push_level (nodes ++ [hash_intermediate lsib rsib]) prev_level_start prev_level_len (i + 1) todo
  end.

(** The outer loop of [new]; [None] when the fuel is used up. *)
Fixpoint push_levels (fuel : nat) (nodes : list (list Z))
    (level_len level_start prev_level_len prev_level_start : nat) : option (outcome (list (list Z))) :=
  if level_len =? 0 then Some (Done nodes)
  else
    match fuel with
    | 0 => None
    | S fuel =>
        match push_level nodes prev_level_start prev_level_len 0 level_len with
        | Done nodes =>
            push_levels fuel nodes (next_level_len level_len) (level_start + level_len) level_len
              level_start
        | Undefined => Some Undefined
        | Panicked => Some Panicked
        end
    end.

(** A level is shorter than the one below it: as many rounds as items are
    enough. *)
Definition new (items : list (list Z)) : option (outcome MerkleTree) :=
  let n := length items in
  match push_levels n (map hash_leaf items) (next_level_len n) n n 0 with
  | Some (Done nodes) => Some (Done (mkTree n nodes))
  | Some Undefined => Some Undefined
  | Some Panicked => Some Panicked
  | None => None
  end.

Definition get_root (self : MerkleTree) : option (list Z) := last (nodes self).

(** The siblings of a node of a level. *)
Definition siblings (level : list (list Z)) (node_index : nat)
    : outcome (option (list Z) * option (list Z)) :=
  if node_index mod 2 =? 0 then
    let* rsib :=
      if node_index + 1 <? length level then index level (node_index + 1) else index level node_index in
    Done (None, Some rsib)
  else
    let* lsib := index level (node_index - 1) in
    Done (Some lsib, None).

(** The loop of [find_path]; [None] when the fuel is used up. *)
Fixpoint climb (fuel : nat) (nodes : list (list Z)) (level_len level_start node_index : nat)
    (lsib rsib : option (list Z)) (path : list ProofEntry) : option (outcome (list ProofEntry)) :=
  if level_len =? 0 then Some (Done path)
  else
    match fuel with
    | 0 => None
    | S fuel =>
        if length nodes <? level_start + level_len then Some Panicked
        else
          let level := take level_len (drop level_start nodes) in
          let step :=
            let* target := index level node_index in
            let* path :=
              match lsib, rsib with
              | None, None => Done path
              | _, _ =>
                  let* entry := proof_entry_new target lsib rsib in
                  Done (path ++ [entry])
              end in
            let* sibs := siblings level node_index in
            Done (path, sibs) in
          match step with
          | Done (path, (lsib, rsib)) =>
              climb fuel nodes (next_level_len level_len) (level_start + level_len) (node_index / 2)
                lsib rsib path
          | Undefined => Some Undefined
          | Panicked => Some Panicked
          end
    end.

Definition find_path (self : MerkleTree) (index : nat) : option (outcome (option (list ProofEntry))) :=
  if leaf_count self <=? index then Some (Done None)
  else
    match climb (S (leaf_count self)) (nodes self) (leaf_count self) 0 index None None [] with
    | Some (Done path) => Some (Done (Some path))
    | Some Undefined => Some Undefined
    | Some Panicked => Some Panicked
    | None => None
    end.

End Merkle.
End Merkle.

(** ** The levels of a tree *)

Section Levels.
Context {sha : HashEnv}.
Import Merkle.

Fixpoint parents (l : list (list Z)) : list (list Z) :=
  match l with
  | x :: y :: l => hash_intermediate x y :: parents l
  | [x] => [hash_intermediate x x]
  | [] => []
  end.

(** All levels from [l] up to the root. *)
Fixpoint levels (n : nat) (l : list (list Z)) : list (list (list Z)) :=
  match n with
  | 0 => []
  | S n => match l with [] => [] | [x] => [[x]] | _ => l :: levels n (parents l) end
  end.

(** Induction two elements at a time. *)
Lemma pairs_ind (P : list (list Z) -> Prop) :
  P [] -> (forall x, P [x]) -> (forall x y l, P l -> P (x :: y :: l)) -> forall l, P l.
Proof.
  intros H0 H1 H2 l. enough (P l /\ forall x, P (x :: l)) by tauto.
  induction l as [|y l [IH1 IH2]]; [by split|]. split; [apply IH2|]. intros x. by apply H2.
Qed.

Lemma div2_SS n : (n + 2) / 2 = n / 2 + 1.
Proof. replace (n + 2) with (n + 1 * 2) by lia. by rewrite Nat.div_add. Qed.

Lemma div_ceil_2 n : div_ceil_nat n 2 = (n + 1) / 2.
Proof.
  unfold div_ceil_nat. pose proof (Nat.div_mod n 2 ltac:(lia)) as E.
  pose proof (Nat.mod_upper_bound n 2 ltac:(lia)).
  destruct (Nat.ltb_spec 0 (n mod 2)).
  - apply (Nat.div_unique (n + 1) 2 (n / 2 + 1) 0); lia.
  - apply (Nat.div_unique (n + 1) 2 (n / 2) 1); lia.
Qed.

Lemma parents_length l : length (parents l) = div_ceil_nat (length l) 2.
Proof.
  induction l as [|x|x y l IH] using pairs_ind; [done|done|]. cbn [parents length]. rewrite IH, !div_ceil_2.
  replace (S (S (length l)) + 1) with ((length l + 1) + 2) by lia. rewrite div2_SS. lia.
Qed.

Lemma next_level_length l : 2 <= length l -> next_level_len (length l) = length (parents l).
Proof.
  intros H. unfold next_level_len. rewrite (proj2 (Nat.eqb_neq _ _)) by lia. by rewrite parents_length.
Qed.

Lemma parents_shorter l : 2 <= length l -> 1 <= length (parents l) < length l.
Proof.
  intros H. rewrite parents_length, div_ceil_2. split.
  - apply Nat.div_le_lower_bound; lia.
  - apply Nat.div_lt_upper_bound; lia.
Qed.

Lemma parents_lookup l : forall i x,
  l !! (2 * i) = Some x ->
  parents l !! i = Some (hash_intermediate x (default x (l !! (2 * i + 1)))).
Proof.
  induction l as [|y|y z l IH] using pairs_ind; intros i x H; [done| |].
  - destruct i as [|i]; [by injection H as ->|]. replace (2 * S i) with (S (2 * i + 1)) in H by lia. done.
  - destruct i as [|i]; [by injection H as ->|]. replace (2 * S i) with (S (S (2 * i))) in H by lia.
    replace (2 * S i + 1) with (S (S (2 * i + 1))) by lia. cbn. by apply IH.
Qed.

Lemma even_index l i : i < length (parents l) -> 2 * i < length l.
Proof.
  rewrite parents_length, div_ceil_2. intros H. pose proof (Nat.div_mod (length l + 1) 2 ltac:(lia)).
  pose proof (Nat.mod_upper_bound (length l + 1) 2 ltac:(lia)). lia.
Qed.

Lemma half_index l i : i < length l -> i / 2 < length (parents l).
Proof.
  intros H. rewrite parents_length, div_ceil_2. pose proof (Nat.div_mod (length l + 1) 2 ltac:(lia)).
  pose proof (Nat.mod_upper_bound (length l + 1) 2 ltac:(lia)). apply Nat.div_lt_upper_bound; lia.
Qed.

(** ** Building *)

Lemma index_lookup {A} (l : list A) i x : l !! i = Some x -> index l i = Done x.
Proof. unfold index. by intros ->. Qed.

Lemma push_level_spec level start todo : forall nodes i,
  (forall j x, level !! j = Some x -> nodes !! (start + j) = Some x) ->
  i + todo = length (parents level) ->
  push_level nodes start (length level) i todo = Done (nodes ++ drop i (parents level)).
Proof.
  induction todo as [|todo IH]; intros nodes i Hn Hi; cbn [push_level].
  { rewrite drop_ge by lia. by rewrite app_nil_r. }
  pose proof (even_index level i ltac:(lia)) as He.
  destruct (lookup_lt_is_Some_2 level (2 * i) He) as [x Hx].
  rewrite (index_lookup _ _ x) by (by apply Hn). cbn [obind].
  pose proof (parents_lookup level i x Hx) as Hp.
  assert ((if 2 * i + 1 <? length level then index nodes (start + 2 * i + 1) else Done x)
    = Done (default x (level !! (2 * i + 1)))) as ->.
  { destruct (Nat.ltb_spec (2 * i + 1) (length level)) as [Hlt|Hge].
    - destruct (lookup_lt_is_Some_2 level (2 * i + 1) Hlt) as [y Hy]. rewrite Hy.
      apply index_lookup. replace (start + 2 * i + 1) with (start + (2 * i + 1)) by lia. by apply Hn.
    - by rewrite (lookup_ge_None_2 level) by lia. }
  cbn [obind]. rewrite IH.
  - rewrite <- app_assoc. f_equal. f_equal. by rewrite (drop_S _ _ _ Hp), (Nat.add_1_r i).
  - intros j y Hj. apply lookup_app_l_Some. by apply Hn.
  - lia.
Qed.

Lemma push_levels_spec fuel : forall pre level,
  length level <= fuel ->
  push_levels fuel (pre ++ level) (next_level_len (length level)) (length (pre ++ level)) (length level)
    (length pre) = Some (Done (pre ++ concat (levels fuel level))).
Proof.
  induction fuel as [|fuel IH]; intros pre level Hf.
  { destruct level; [|cbn in Hf; lia]. cbn. done. }
  destruct (decide (2 <= length level)) as [H2|H2].
  2: { destruct level as [|x [|]]; cbn; [done|done|cbn in H2; lia]. }
  pose proof (parents_shorter level H2) as Hp. cbn [push_levels]. rewrite next_level_length by done.
  rewrite (proj2 (Nat.eqb_neq _ _)) by lia. rewrite (push_level_spec level (length pre)).
  - rewrite drop_0, <- app_length. rewrite IH by lia. do 2 f_equal. rewrite <- app_assoc. f_equal.
    destruct level as [|x [|y l]]; [cbn in H2; lia..|]. done.
  - intros j x Hj. rewrite lookup_app_r by lia. by replace (length pre + j - length pre) with j by lia.
  - lia.
Qed.

Lemma new_spec items :
  new items = Some (Done (mkTree (length items) (concat (levels (length items) (map hash_leaf items))))).
Proof.
  unfold new. pose proof (push_levels_spec (length items) [] (map hash_leaf items)) as H.
  cbn [app length] in H. rewrite !length_map in H. rewrite H by done. done.
Qed.

(** ** Paths *)

Abbreviation Siblings := (option (list Z) * option (list Z))%type.

Definition ref_siblings (l : list (list Z)) (i : nat) (x : list Z) : Siblings :=
  if i mod 2 =? 0 then (None, Some (default x (l !! (i + 1)))) else (l !! (i - 1), None).

(** The path from the node [i] of the level [l] upwards. *)
Fixpoint ref_path (n : nat) (l : list (list Z)) (i : nat) (sibs : Siblings) : list ProofEntry :=
  match n, l !! i with
  | S n, Some x =>
      match sibs with (None, None) => [] | (a, b) => [mkProofEntry x a b] end ++
      if length l <=? 1 then [] else ref_path n (parents l) (i / 2) (ref_siblings l i x)
  | _, _ => []
  end.

Definition siblings_ok (sibs : Siblings) : Prop :=
  sibs = (None, None) \/ (exists a, sibs = (Some a, None)) \/ exists b, sibs = (None, Some b).

Lemma odd_pred i : i mod 2 <> 0 -> 1 <= i /\ i = 2 * (i / 2) + 1.
Proof.
  intros H. pose proof (Nat.div_mod i 2 ltac:(lia)). pose proof (Nat.mod_upper_bound i 2 ltac:(lia)). lia.
Qed.

Lemma siblings_spec l i x :
  l !! i = Some x -> siblings l i = Done (ref_siblings l i x) /\ siblings_ok (ref_siblings l i x).
Proof.
  intros Hx. unfold siblings, ref_siblings. pose proof (lookup_lt_Some _ _ _ Hx) as Hlt.
  destruct (Nat.eqb_spec (i mod 2) 0) as [E|E].
  - split; [|right; right; by eexists]. destruct (Nat.ltb_spec (i + 1) (length l)) as [H|H].
    + destruct (lookup_lt_is_Some_2 l (i + 1) H) as [y Hy]. by rewrite (index_lookup _ _ y), Hy.
    + by rewrite (index_lookup _ _ x), (lookup_ge_None_2 l (i + 1)) by (done || lia).
  - destruct (odd_pred i E) as [H1 _]. destruct (lookup_lt_is_Some_2 l (i - 1) ltac:(lia)) as [y Hy].
    rewrite (index_lookup _ _ y), Hy by done. split; [done|]. right. left. by eexists.
Qed.

(** The parent of a node is the hash of the node and its sibling. *)
Lemma sibling_hash l i x :
  l !! i = Some x ->
  parents l !! (i / 2)
  = Some (hash_intermediate (default x (ref_siblings l i x).1) (default x (ref_siblings l i x).2)).
Proof.
  intros Hx. unfold ref_siblings. destruct (Nat.eqb_spec (i mod 2) 0) as [E|E]; cbn [fst snd default from_option id].
  - pose proof (Nat.div_mod i 2 ltac:(lia)) as Hd. assert (2 * (i / 2) = i) as Hi by lia.
    rewrite (parents_lookup l (i / 2) x) by (by rewrite Hi). by rewrite Hi.
  - destruct (odd_pred i E) as [H1 Hd]. pose proof (lookup_lt_Some _ _ _ Hx) as Hlt.
    destruct (lookup_lt_is_Some_2 l (i - 1) ltac:(lia)) as [y Hy]. rewrite Hy.
    assert (2 * (i / 2) = i - 1) as Hi by lia.
    rewrite (parents_lookup l (i / 2) y) by (by rewrite Hi). rewrite Hi.
    replace (i - 1 + 1) with i by lia. by rewrite Hx.
Qed.

Lemma levels_cons n l x :
  l !! 0 = Some x -> levels (S n) l = l :: (if length l <=? 1 then [] else levels n (parents l)).
Proof. destruct l as [|y [|z l]]; [done|done|]. done. Qed.

Lemma climb_spec n : forall pre l i sibs path,
  1 <= length l <= n -> i < length l -> siblings_ok sibs ->
  climb n (pre ++ concat (levels n l)) (length l) (length pre) i sibs.1 sibs.2 path
  = Some (Done (path ++ ref_path n l i sibs)).
Proof.
  induction n as [|n IH]; intros pre l i sibs path Hl Hi Hs; [lia|].
  destruct (lookup_lt_is_Some_2 l 0 ltac:(lia)) as [x0 H0].
  destruct (lookup_lt_is_Some_2 l i Hi) as [x Hx].
  rewrite (levels_cons n l x0 H0). cbn [climb concat ref_path]. rewrite (proj2 (Nat.eqb_neq _ _)) by lia.
  rewrite Hx. rewrite (proj2 (Nat.ltb_ge _ _)) by (rewrite !length_app; lia).
  rewrite drop_app_length, take_app_length, (index_lookup _ _ x Hx). cbn [obind].
  destruct (siblings_spec l i x Hx) as [Es Hok]. rewrite Es. clear Es.
  set (e := match sibs with (None, None) => [] | (a, b) => [mkProofEntry x a b] end).
  assert ((match sibs.1, sibs.2 with
    | None, None => Done path
    | _, _ => let* entry := proof_entry_new x sibs.1 sibs.2 in Done (path ++ [entry])
    end) = Done (path ++ e)) as ->.
  { unfold e. destruct Hs as [->|[[a ->]|[b ->]]]; cbn; [by rewrite app_nil_r|done..]. }
  cbn [obind]. destruct (ref_siblings l i x) as [a b] eqn:Er.
  destruct (Nat.leb_spec (length l) 1) as [H1|H2].
  - assert (length l = 1) as E1 by lia. rewrite E1. cbn [next_level_len Nat.eqb].
    rewrite !app_nil_r. by destruct n.
  - rewrite next_level_length by lia. pose proof (parents_shorter l ltac:(lia)).
    specialize (IH (pre ++ l) (parents l) (i / 2) (a, b) (path ++ e)). rewrite <- app_length.
    cbn [fst snd] in IH. rewrite app_assoc, IH; [by rewrite <- app_assoc|lia|by apply half_index|done].
Qed.

(** ** Verifying a path *)

Lemma ref_path_verify n : forall l i x sibs candidate,
  length l <= n -> l !! i = Some x -> siblings_ok sibs ->
  (sibs = (None, None) /\ candidate = x \/
   sibs <> (None, None) /\ hash_intermediate (default candidate sibs.1) (default candidate sibs.2) = x) ->
  verify (ref_path n l i sibs) candidate = true.
Proof.
  induction n as [|n IH]; intros l i x sibs candidate Hl Hx Hs Hc; [done|]. cbn [ref_path]. rewrite Hx.
  assert (verify (if length l <=? 1 then [] else ref_path n (parents l) (i / 2) (ref_siblings l i x)) x = true)
    as Hrest.
  { destruct (Nat.leb_spec (length l) 1); [done|]. pose proof (parents_shorter l ltac:(lia)).
    destruct (siblings_spec l i x Hx) as [_ Hok]. eapply IH; [lia|by apply sibling_hash|done|].
    right. split; [|done]. unfold ref_siblings. destruct (Nat.eqb_spec (i mod 2) 0) as [|E]; [done|].
    destruct (odd_pred i E) as [H1 _]. pose proof (lookup_lt_Some _ _ _ Hx) as Hlt.
    by destruct (lookup_lt_is_Some_2 l (i - 1) ltac:(lia)) as [y ->]. }
  destruct Hc as [[-> ->]|[Hne Hh]]; [done|].
  destruct Hs as [->|[[a ->]|[b ->]]]; [done|..]; cbn in Hh |- *; by rewrite bool_decide_true, Hh.
Qed.

Definition path_end (p : list ProofEntry) (leaf : list Z) : list Z := default leaf (target <$> last p).

Lemma last_app_default {A B} (f : A -> B) l k d :
  default d (f <$> last (l ++ k)) = default (default d (f <$> last l)) (f <$> last k).
Proof. rewrite last_app. by destruct (last k). Qed.

Lemma ref_path_root n : forall l i x sibs,
  length l <= n -> l !! i = Some x -> siblings_ok sibs ->
  last (concat (levels n l)) = Some (path_end (ref_path n l i sibs) x).
Proof.
  induction n as [|n IH]; intros l i x sibs Hl Hx Hs.
  { apply lookup_lt_Some in Hx. lia. }
  pose proof (lookup_lt_Some _ _ _ Hx) as Hi. destruct (lookup_lt_is_Some_2 l 0 ltac:(lia)) as [x0 H0].
  rewrite (levels_cons n l x0 H0). cbn [ref_path concat]. rewrite Hx. unfold path_end.
  rewrite last_app_default.
  assert (default x (target <$> last (match sibs with (None, None) => [] | (a, b) => [mkProofEntry x a b] end))
    = x) as -> by (by destruct sibs as [[] []]).
  destruct (Nat.leb_spec (length l) 1) as [H1|H2].
  - destruct l as [|y []]; [done| |cbn in H1; lia]. destruct i; [|done]. injection Hx as ->. done.
  - pose proof (parents_shorter l ltac:(lia)). destruct (siblings_spec l i x Hx) as [_ Hok].
    rewrite last_app, (IH (parents l) (i / 2) _ (ref_siblings l i x) ltac:(lia) (sibling_hash l i x Hx) Hok).
    f_equal. unfold path_end.
    enough (is_Some (last (ref_path n (parents l) (i / 2) (ref_siblings l i x)))) as [p ->] by done.
    destruct n as [|n]; [lia|]. cbn [ref_path]. rewrite (sibling_hash l i x Hx).
    destruct Hok as [E|[[a E]|[b E]]]; [|rewrite E, last_app; cbn; by destruct (last _); eexists..].
    exfalso. unfold ref_siblings in E. destruct (Nat.eqb_spec (i mod 2) 0) as [|Eo]; [done|].
    destruct (odd_pred i Eo) as [H1 _]. by destruct (lookup_lt_is_Some_2 l (i - 1) ltac:(lia)) as [y Hy]; rewrite Hy in E.
Qed.

End Levels.

(** ** Forgery gives a collision *)

(** A hash has 32 bytes. *)
Class HashLaws (sha : HashEnv) : Prop := {
  hashv_length x : length (hashv x) = 32;
}.

Section Binding.
Context {sha : HashEnv} {laws : HashLaws sha}.
Import Merkle.

Definition collision : Prop := exists x y, concat x <> concat y /\ hashv x = hashv y.

Abbreviation is_hash := (fun h : list Z => length h = 32).

Lemma hashv_inj x y : hashv x = hashv y -> concat x = concat y \/ collision.
Proof. intros H. destruct (decide (concat x = concat y)); [by left|]. right. by exists x, y. Qed.

Lemma leaf_inj d d' : hash_leaf d = hash_leaf d' -> d = d' \/ collision.
Proof.
  intros [H|H]%hashv_inj; [|by right]. left. cbn in H. rewrite !app_nil_r in H. by injection H.
Qed.

Lemma intermediate_inj l r l' r' :
  is_hash l -> is_hash l' -> hash_intermediate l r = hash_intermediate l' r' ->
  (l = l' /\ r = r') \/ collision.
Proof.
  intros Hl Hl' [H|H]%hashv_inj; [|by right]. left. cbn in H. injection H as H.
  rewrite !app_nil_r in H. apply app_inj_1 in H; [done|]. congruence.
Qed.

Lemma forged_candidate n l i x candidate :
  2 <= length l <= n -> l !! i = Some x -> Forall is_hash l -> is_hash candidate ->
  verify (ref_path n l i (None, None)) candidate = true -> candidate = x \/ collision.
Proof.
  intros Hl Hx Hh Hc H. destruct n as [|[|n]]; [lia..|]. cbn [ref_path] in H. rewrite Hx in H. cbn [app] in H.
  rewrite (proj2 (Nat.leb_gt _ _)) in H by lia. rewrite (sibling_hash l i x Hx) in H.
  pose proof (Forall_lookup_1 _ _ _ _ Hh Hx) as Hxh. cbn in Hxh.
  destruct (siblings_spec l i x Hx) as [_ [E|[[a E]|[b E]]]]; rewrite E in H; cbn in H.
  - exfalso. unfold ref_siblings in E. destruct (Nat.eqb_spec (i mod 2) 0) as [|Eo]; [done|].
    destruct (odd_pred i Eo) as [H1 _]. pose proof (lookup_lt_Some _ _ _ Hx).
    destruct (lookup_lt_is_Some_2 l (i - 1) ltac:(lia)) as [y Hy]. by rewrite Hy in E.
  - case_bool_decide as Eq; [|done].
    assert (is_hash a) as Ha.
    { unfold ref_siblings in E. destruct (i mod 2 =? 0); [done|]. injection E as E.
      by apply (Forall_lookup_1 _ _ _ _ Hh E). }
    apply intermediate_inj in Eq as [[_ ->]|]; [by left|by right|done|done].
  - case_bool_decide as Eq; [|done]. apply intermediate_inj in Eq as [[-> _]|]; [by left|by right|done|done].
Qed.

Lemma parents_hashes l : Forall is_hash (parents l).
Proof.
  induction l as [|x|x y l IH] using pairs_ind; cbn; [done| |];
    (constructor; [apply hashv_length|done]).
Qed.

Lemma parents_inj l : forall l',
  length l = length l' -> Forall is_hash l -> Forall is_hash l' -> parents l = parents l' ->
  l = l' \/ collision.
Proof.
  induction l as [|x|x y l IH] using pairs_ind; intros l' Hl H H' E.
  - left. by destruct l'.
  - destruct l' as [|x' [|]]; [done| |done]. apply Forall_inv in H, H'. injection E as E.
    apply intermediate_inj in E as [[-> _]|]; auto.
  - destruct l' as [|x' [|y' l']]; [done|done|]. injection E as E1 E2. injection Hl as Hl.
    do 2 (apply Forall_cons in H as [? H]; apply Forall_cons in H' as [? H']).
    apply intermediate_inj in E1 as [[-> ->]|]; [|by right|done|done].
    destruct (IH l' Hl H H' E2) as [->|]; auto.
Qed.

Lemma levels_last n l :
  2 <= length l -> last (concat (levels (S n) l)) = last (l ++ concat (levels n (parents l))).
Proof. intros H. destruct l as [|x [|y l]]; [cbn in H; lia..|]. done. Qed.

Lemma levels_top n l : 1 <= length l <= n -> is_Some (last (concat (levels n l))).
Proof.
  intros H. destruct (lookup_lt_is_Some_2 l 0 ltac:(lia)) as [x Hx].
  rewrite (ref_path_root n l 0 x (None, None)); [by eexists|lia|done|by left].
Qed.

Lemma root_inj n : forall l l',
  length l = length l' -> 1 <= length l <= n -> Forall is_hash l -> Forall is_hash l' ->
  last (concat (levels n l)) = last (concat (levels n l')) -> l = l' \/ collision.
Proof.
  induction n as [|n IH]; intros l l' Hl Hn H H' E; [lia|].
  destruct (decide (2 <= length l)) as [H2|H2].
  2: { destruct l as [|x [|]], l' as [|x' [|]]; cbn in *; try lia. injection E as ->. by left. }
  rewrite !levels_last in E by lia. rewrite !last_app in E.
  pose proof (parents_shorter l H2) as Hp. pose proof (parents_shorter l' ltac:(lia)) as Hp'.
  destruct (levels_top n (parents l) ltac:(lia)) as [r Hr].
  destruct (levels_top n (parents l') ltac:(lia)) as [r' Hr']. rewrite Hr, Hr' in E.
  destruct (IH (parents l) (parents l')) as [Ep|]; [|lia|apply parents_hashes..|congruence| |by right].
  - rewrite !parents_length. congruence.
  - by apply parents_inj.
Qed.

Lemma levels_fuel n : forall m l, length l <= n -> length l <= m -> levels n l = levels m l.
Proof.
  induction n as [|n IH]; intros m l Hn Hm.
  { destruct l; [|cbn in Hn; lia]. by destruct m. }
  destruct l as [|x [|y l]]; [by destruct m|destruct m; [cbn in Hm; lia|done]|].
  destruct m as [|m]; [cbn in Hm; lia|]. cbn [levels]. f_equal.
  pose proof (parents_shorter (x :: y :: l) ltac:(cbn; lia)). apply IH; lia.
Qed.

(** The hash of an item that is repeated at the end is computed already. *)
Lemma parents_repeat l x :
  last l = Some x -> length l mod 2 = 1 -> parents (l ++ [x]) = parents l.
Proof.
  induction l as [|y|y z l IH] using pairs_ind; intros Hl Hm; [done|by injection Hl as ->|].
  destruct l as [|w l]; [done|]. cbn [app parents]. f_equal. apply IH; [done|].
  change (length (y :: z :: w :: l)) with (S (S (length (w :: l)))) in Hm.
  replace (S (S (length (w :: l)))) with (length (w :: l) + 1 * 2) in Hm by lia.
  by rewrite Nat.Div0.mod_add in Hm.
Qed.

Lemma leaves_inj items : forall items',
  map hash_leaf items = map hash_leaf items' -> items = items' \/ collision.
Proof.
  induction items as [|x items IH]; intros [|y items'] E; try done; [by left|].
  injection E as E1 E2. apply leaf_inj in E1 as [->|]; [|by right]. destruct (IH items' E2) as [->|]; auto.
Qed.

Lemma repeated_root l x n :
  last l = Some x -> length l mod 2 = 1 -> 3 <= length l <= n ->
  last (concat (levels (S n) (l ++ [x]))) = last (concat (levels n l)).
Proof.
  intros Hl Hm Hn. rewrite (levels_fuel n (S n)) by lia.
  rewrite !levels_last by (rewrite ?length_app; lia). rewrite parents_repeat by done.
  pose proof (parents_shorter l ltac:(lia)). rewrite !last_app.
  by destruct (levels_top n (parents l) ltac:(lia)) as [r ->].
Qed.

End Binding.

Section Height.
Context {sha : HashEnv}.
Import Merkle.

Lemma log2_up_half n : 2 <= n -> Nat.log2_up n = S (Nat.log2_up ((n + 1) / 2)).
Proof.
  intros H. set (h := (n + 1) / 2).
  assert (n <= 2 * h <= n + 1) as Hh.
  { unfold h. pose proof (Nat.div_mod (n + 1) 2 ltac:(lia)). pose proof (Nat.mod_upper_bound (n + 1) 2 ltac:(lia)). lia. }
  destruct (decide (h = 1)) as [E|E].
  { rewrite E. replace n with 2 by lia. done. }
  apply Nat.log2_up_unique; [lia|]. pose proof (Nat.log2_up_spec h ltac:(lia)) as [H1 H2].
  replace (pred (S (Nat.log2_up h))) with (S (pred (Nat.log2_up h))).
  - rewrite !Nat.pow_succ_r'. lia.
  - pose proof (Nat.log2_up_pos h ltac:(lia)). lia.
Qed.

Lemma ref_path_length n : forall l i sibs,
  length l <= n -> i < length l -> siblings_ok sibs ->
  length (ref_path n l i sibs)
  = Nat.log2_up (length l) + match sibs with (None, None) => 0 | _ => 1 end.
Proof.
  induction n as [|n IH]; intros l i sibs Hl Hi Hs; [lia|].
  destruct (lookup_lt_is_Some_2 l i Hi) as [x Hx]. cbn [ref_path]. rewrite Hx, length_app.
  assert (length (match sibs with (None, None) => [] | (a, b) => [mkProofEntry x a b] end)
    = match sibs with (None, None) => 0 | _ => 1 end) as -> by (by destruct sibs as [[] []]).
  enough (length (if length l <=? 1 then [] else ref_path n (parents l) (i / 2) (ref_siblings l i x))
    = Nat.log2_up (length l)) by lia.
  destruct (Nat.leb_spec (length l) 1); [by replace (length l) with 1 by lia|].
  pose proof (parents_shorter l ltac:(lia)). destruct (siblings_spec l i x Hx) as [_ Hok].
  rewrite IH; [|lia|by apply half_index|done]. rewrite parents_length, div_ceil_2.
  rewrite (log2_up_half (length l)) by lia.
  enough ((match ref_siblings l i x with (None, None) => 0 | _ => 1 end) = 1) by lia.
  unfold ref_siblings. destruct (Nat.eqb_spec (i mod 2) 0) as [|E]; [done|].
  destruct (odd_pred i E) as [H1 _]. by destruct (lookup_lt_is_Some_2 l (i - 1) ltac:(lia)) as [y ->].
Qed.

Lemma find_path_spec items i :
  i < length items ->
  exists tree path, new items = Some (Done tree) /\ find_path tree i = Some (Done (Some path)) /\
    path = ref_path (S (length items)) (map hash_leaf items) i (None, None) /\
    get_root tree = last (concat (levels (S (length items)) (map hash_leaf items))).
Proof.
  intros Hi. rewrite new_spec. eexists _, _. split; [done|]. unfold find_path, get_root. cbn [leaf_count nodes].
  rewrite (proj2 (Nat.leb_gt _ _)) by lia.
  assert (levels (length items) (map hash_leaf items) = levels (S (length items)) (map hash_leaf items)) as ->
    by (apply levels_fuel; rewrite length_map; lia).
  pose proof (climb_spec (S (length items)) [] (map hash_leaf items) i (None, None) []) as H.
  rewrite length_map in H. cbn [app length fst snd] in H. rewrite H; [done|lia|lia|by left].
Qed.

End Height.

(** ** A hash function for examples *)

Definition test_mix (l : list Z) : Z := foldl (fun a b => (a * 31 + b + 7) mod 65521)%Z 1%Z l.
Definition test_sha : HashEnv :=
  {| hashv x := replicate 31 0%Z ++ [test_mix (concat x)]; hash_default := replicate 32 0%Z |}.
Lemma test_sha_laws : HashLaws test_sha.
Proof. by split. Qed.

Definition test_items : list (list Z) := [[1]; [2]; [3]; [4]; [5]]%Z.

(** ** Claims *)

(** C32: every leaf of a Merkle tree has a path that verifies.  Building a tree
    from any items ends without panic, and for every item the path that the
    tree gives ends without panic too, verifies the leaf's hash, leads to the
    root of the tree, and has as many entries as the tree is high.  An index
    beyond the items has no path. *)
Theorem merkle_paths_verify {sha : HashEnv} items :
  exists tree, Merkle.new items = Some (Done tree) /\
    (forall i item, items !! i = Some item ->
       exists path, Merkle.find_path tree i = Some (Done (Some path)) /\
         Merkle.verify path (Merkle.hash_leaf item) = true /\
         Merkle.get_root tree = Some (path_end path (Merkle.hash_leaf item)) /\
         length path = Nat.log2_up (length items)) /\
    (forall i, length items <= i -> Merkle.find_path tree i = Some (Done None)).
Proof.
  eexists. split; [apply new_spec|]. split.
  - intros i item Hi. pose proof (lookup_lt_Some _ _ _ Hi) as Hlt.
    assert (map Merkle.hash_leaf items !! i = Some (Merkle.hash_leaf item)) as Hx.
    { change (map Merkle.hash_leaf items) with (Merkle.hash_leaf <$> items). by rewrite list_lookup_fmap, Hi. }
    destruct (find_path_spec items i Hlt) as (tree & path & E & Ef & -> & Er). rewrite new_spec in E.
    injection E as <-. eexists. split; [exact Ef|]. split_and!.
    + eapply ref_path_verify; [rewrite length_map; lia|exact Hx|by left|by left].
    + rewrite Er. eapply ref_path_root; [rewrite length_map; lia|done|by left].
    + rewrite ref_path_length; [rewrite length_map; lia|rewrite length_map; lia|rewrite length_map; lia|by left].
  - intros i Hi. unfold Merkle.find_path. cbn. by rewrite (proj2 (Nat.leb_le _ _)).
Qed.

(** C33: a Merkle root stands for its items.  If two trees of equally many items
    have the same root, or if the path of an item verifies another hash, then
    the items are the same, or the hash function has a collision: two byte
    strings with one hash.  The number of items has to be known: an odd list of
    at least three items has the same root as the list with its last item
    repeated, and the empty path of a single item accepts every hash. *)
Theorem merkle_root_binds_items {sha : HashEnv} {laws : HashLaws sha} items tree :
  Merkle.new items = Some (Done tree) ->
  (forall items' tree', Merkle.new items' = Some (Done tree') -> 1 <= length items ->
     length items = length items' -> Merkle.get_root tree = Merkle.get_root tree' ->
     items = items' \/ collision) /\
  (forall i item path candidate, 2 <= length items -> items !! i = Some item ->
     Merkle.find_path tree i = Some (Done (Some path)) -> length candidate = 32 ->
     Merkle.verify path candidate = true -> candidate = Merkle.hash_leaf item \/ collision) /\
  (forall item tree', 3 <= length items -> length items mod 2 = 1 -> last items = Some item ->
     Merkle.new (items ++ [item]) = Some (Done tree') -> Merkle.get_root tree' = Merkle.get_root tree) /\
  (forall candidate path, length items = 1 -> Merkle.find_path tree 0 = Some (Done (Some path)) ->
     Merkle.verify path candidate = true).
Proof.
  rewrite new_spec. intros [= <-].
  assert (forall l, Forall (fun h => length h = 32) (map Merkle.hash_leaf l)) as Hh.
  { intros l. apply Forall_fmap, Forall_true. intros x. apply hashv_length. }
  assert (forall l : list (list Z), length (map Merkle.hash_leaf l) = length l) as Hlen
    by (intros; apply length_map).
  split_and!.
  - intros items' tree'. rewrite new_spec. intros [= <-] H1 Hl E. unfold Merkle.get_root in E. cbn in E.
    rewrite <- Hl in E.
    destruct (root_inj (length items) (map Merkle.hash_leaf items) (map Merkle.hash_leaf items')) as [Em|];
      [rewrite !Hlen; lia|rewrite Hlen; lia|done|done|done| |by right].
    by apply leaves_inj.
  - intros i item path candidate H2 Hi Hp Hc Hv. pose proof (lookup_lt_Some _ _ _ Hi) as Hlt.
    destruct (find_path_spec items i Hlt) as (tree & path' & E & Ef & Epath & _). rewrite new_spec in E.
    injection E as <-. rewrite Hp in Ef. injection Ef as <-. rewrite Epath in Hv.
    eapply forged_candidate; [|idtac|idtac|exact Hc|exact Hv]; [rewrite Hlen; lia| |done].
    change (map Merkle.hash_leaf items) with (Merkle.hash_leaf <$> items). by rewrite list_lookup_fmap, Hi.
  - intros item tree' H3 Hm Hlast. rewrite new_spec. intros [= <-]. unfold Merkle.get_root. cbn [nodes].
    rewrite map_app, length_app, Nat.add_1_r. apply repeated_root; rewrite ?Hlen; try done.
    change (map Merkle.hash_leaf items) with (Merkle.hash_leaf <$> items). by rewrite fmap_last, Hlast.
  - intros candidate path H1 Hp. destruct (find_path_spec items 0 ltac:(lia)) as (tree & path' & E & Ef & Epath & _).
    rewrite new_spec in E. injection E as <-. rewrite Hp in Ef. injection Ef as <-. rewrite Epath.
    destruct items as [|x []]; done.
Qed.

Lemma merkle_root_binds_items_witness :
  let _ := test_sha in
  exists tree tree', Merkle.new test_items = Some (Done tree) /\
    Merkle.new (test_items ++ [[5%Z]]) = Some (Done tree') /\
    Merkle.get_root tree' = Merkle.get_root tree.
Proof.
  eexists _, _. split; [apply new_spec|]. split; [apply new_spec|].
  eapply (@merkle_root_binds_items test_sha test_sha_laws test_items); [apply new_spec| | | |apply new_spec].
  - cbn. lia.
  - reflexivity.
  - reflexivity.
Defined.
