(* ===== verification/Poh.v ===== *)
(** * Proof of history and the entries of the ledger

    The model of [gorchain/entry/src/poh.rs] and [gorchain/entry/src/entry.rs]:
    the generator of the hash chain, the entries that record transactions and
    ticks in it, and the three verifiers of a list of entries: one by one on the
    CPU, in groups by vector instructions, and on the GPU.

    The hash functions, the vector and GPU kernels and the type of transactions
    belong to other crates or libraries and are arguments.  Wall-clock times are
    left out.  Overflow of a counter panics, as in a checked build; the theorems
    show that it does not happen. *)

From stdpp Require Import base numbers list.
From Stdlib Require Import Lia.
From S2P Require Import Prelude Errors Pod TxBytes ComputeBudget Merkle.
Local Open Scope Z_scope.
Local Open Scope rust_scope.

(** The kernels hash every given hash the given number of times: the vector one
    in place on a buffer of 32-byte hashes, the GPU one on a list. *)
Class PohEnv := {
  poh_sha :: HashEnv;
  sha_hash : list Z -> list Z;
  poh_verify_many_simd : list Z -> list Z -> list Z;
  poh_verify_many : list (list Z) -> list Z -> list (list Z);
  VersionedTransaction : Type;
  tx_signatures : VersionedTransaction -> list (list Z);
}.

Definition HASH_BYTES : Z := 32.
Definition LOW_POWER_MODE : Z := U64_MAX.

Definition plain_sub (a b : Z) : outcome Z := if b <=? a then Done (a - b) else Panicked.

Record PohState := mkPoh {
  poh_hash : list Z;
  poh_num_hashes : Z;
  hashes_per_tick : Z;
  remaining_hashes : Z;
  tick_number : Z;
}.
#[export] Instance eta_PohState : Eta PohState := fun p =>
  mkPoh (poh_hash p) (poh_num_hashes p) (hashes_per_tick p) (remaining_hashes p) (tick_number p).

Record PohEntry := mkPohEntry {
  pe_num_hashes : Z;
  pe_hash : list Z;
}.

(** ** The generator *)
Module Poh.

Section Poh.
Context {env : PohEnv}.

Definition hash_times (n : Z) (h : list Z) : list Z := Nat.iter (Z.to_nat n) sha_hash h.

Definition new_with_slot_info (hash : list Z) (hashes_per_tick : option Z) (tick_number : Z)
    : outcome PohState :=
  let hashes_per_tick := default LOW_POWER_MODE hashes_per_tick in
  if negb (1 <? hashes_per_tick) then Panicked
  else Done (mkPoh hash 0 hashes_per_tick hashes_per_tick tick_number).

Definition new (hash : list Z) (hashes_per_tick : option Z) : outcome PohState :=
  new_with_slot_info hash hashes_per_tick 0.

Definition reset (self : PohState) (hash : list Z) (hashes_per_tick : option Z) : outcome PohState :=
  new_with_slot_info hash hashes_per_tick 0.

(** [hash]: true when the caller needs to tick next. *)
Definition hash (self : PohState) (max_num_hashes : Z) : outcome (bool * PohState) :=
  let* most := plain_sub (remaining_hashes self) 1 in
  let num_hashes := Z.min most max_num_hashes in
  let* total := plain_add U64_MAX (poh_num_hashes self) num_hashes in
  let* remaining := plain_sub (remaining_hashes self) num_hashes in
  if negb (0 <? remaining) then Panicked
  else Done (remaining =? 1,
             self<|poh_hash := hash_times num_hashes (poh_hash self)|>
                 <|poh_num_hashes := total|><|remaining_hashes := remaining|>).

Definition record (self : PohState) (mixin : list Z) : outcome (option PohEntry * PohState) :=
  if remaining_hashes self =? 1 then Done (None, self)
  else
    let hash := hashv [poh_hash self; mixin] in
    let* num_hashes := plain_add U64_MAX (poh_num_hashes self) 1 in
    let* remaining := plain_sub (remaining_hashes self) 1 in
    Done (Some (mkPohEntry num_hashes hash),
          self<|poh_hash := hash|><|poh_num_hashes := 0|><|remaining_hashes := remaining|>).

(** The closure of [record_batches] over the mixins. *)
Fixpoint mix_in (hash : list Z) (num_hashes : Z) (mixins : list (list Z))
    : list PohEntry * list Z :=
  match mixins with
  | [] => ([], hash)
  | mixin :: mixins =>
      let hash := hashv [hash; mixin] in
      let (entries, last) := mix_in hash 1 mixins in
      (mkPohEntry num_hashes hash :: entries, last)
  end.

(** [record_batches]: the entries are cleared only when all mixins fit. *)
Definition record_batches (self : PohState) (mixins : list (list Z)) (entries : list PohEntry)
    : outcome (bool * list PohEntry * PohState) :=
  let num_mixins := zlen mixins in
  if num_mixins =? 0 then Panicked
  else
    let* needed := plain_add U64_MAX num_mixins 1 in
    if remaining_hashes self <? needed then Done (false, entries, self)
    else
      let* num_hashes := plain_add U64_MAX (poh_num_hashes self) 1 in
      let (entries, hash) := mix_in (poh_hash self) num_hashes mixins in
      let* remaining := plain_sub (remaining_hashes self) num_mixins in
      Done (true, entries,
            self<|poh_hash := hash|><|poh_num_hashes := 0|><|remaining_hashes := remaining|>).

Definition tick (self : PohState) : outcome (option PohEntry * PohState) :=
  let hash := sha_hash (poh_hash self) in
  let* num_hashes := plain_add U64_MAX (poh_num_hashes self) 1 in
  let* remaining := plain_sub (remaining_hashes self) 1 in
  let self := self<|poh_hash := hash|><|poh_num_hashes := num_hashes|><|remaining_hashes := remaining|> in
  if negb (hashes_per_tick self =? LOW_POWER_MODE) && negb (remaining =? 0) then Done (None, self)
  else
    let* ticks := plain_add U64_MAX (tick_number self) 1 in
    Done (Some (mkPohEntry num_hashes hash),
          self<|remaining_hashes := hashes_per_tick self|><|poh_num_hashes := 0|>
              <|tick_number := ticks|>).

End Poh.
End Poh.

(** [unwrap] of an optional entry. *)
Definition entry_hash (r : option PohEntry * PohState) : outcome (list Z) :=
  match r.1 with Some e => Done (pe_hash e) | None => Panicked end.

(** ** Entries *)

Record Entry {env : PohEnv} := mkEntry {
  e_num_hashes : Z;
  e_hash : list Z;
  e_transactions : list VersionedTransaction;
}.

(** The last step of verifying an entry. *)
Inductive VerifyAction : Type :=
| Mixin (h : list Z)
| TickAction
| NoAction.

Module Entry.

Section Entry.
Context {env : PohEnv}.

Definition is_tick (self : Entry) : bool := match e_transactions self with [] => true | _ => false end.

Definition hash_transactions (transactions : list VersionedTransaction) : outcome (list Z) :=
  match Merkle.new (concat (map tx_signatures transactions)) with
  | Some (Done tree) => Done (default hash_default (Merkle.get_root tree))
  | _ => Panicked
  end.

Definition next_hash (start_hash : list Z) (num_hashes : Z) (transactions : list VersionedTransaction)
    : outcome (list Z) :=
  match transactions with
  | [] =>
      if num_hashes =? 0 then Done start_hash
      else
        let* poh := Poh.new start_hash None in
        let* r := Poh.hash poh (saturating_sub num_hashes 1) in
        let* r := Poh.tick r.2 in
        entry_hash r
  | _ =>
      let* poh := Poh.new start_hash None in
      let* r := Poh.hash poh (saturating_sub num_hashes 1) in
      let* mixin := hash_transactions transactions in
      let* r := Poh.record r.2 mixin in
      entry_hash r
  end.

(** [Entry::new]: transactions need at least one hash. *)
Definition new (prev_hash : list Z) (num_hashes : Z) (transactions : list VersionedTransaction)
    : outcome Entry :=
  let num_hashes :=
    if (num_hashes =? 0) && negb (match transactions with [] => true | _ => false end) then 1
    else num_hashes in
  let* hash := next_hash prev_hash num_hashes transactions in
  Done (mkEntry _ num_hashes hash transactions).

Definition verify (self : Entry) (start_hash : list Z) : outcome bool :=
  let* ref_hash := next_hash start_hash (e_num_hashes self) (e_transactions self) in
  Done (bool_decide (e_hash self = ref_hash)).

Definition next_versioned_entry (prev_hash : list Z) (num_hashes : Z)
    (transactions : list VersionedTransaction) : outcome Entry :=
  if (0 <? num_hashes) || match transactions with [] => true | _ => false end then
    let* hash := next_hash prev_hash num_hashes transactions in
    Done (mkEntry _ num_hashes hash transactions)
  else Panicked.

Fixpoint create_ticks (num_ticks : nat) (hashes_per_tick : Z) (hash : list Z) : outcome (list Entry) :=
  match num_ticks with
  | O => Done []
  | S num_ticks =>
      let* entry := new hash hashes_per_tick [] in
      let* entries := create_ticks num_ticks hashes_per_tick (e_hash entry) in
      Done (entry :: entries)
  end.

End Entry.
End Entry.

(** ** Lists of entries *)

Inductive EntryVerificationStatus : Type := Failure | Success | Pending.

Definition status_of (b : bool) : EntryVerificationStatus := if b then Success else Failure.

(** [all] with a predicate that may panic. *)
Fixpoint all_done {A} (p : A -> outcome bool) (l : list A) : outcome bool :=
  match l with
  | [] => Done true
  | x :: l =>
      let* b := p x in
      if b then all_done p l else Done false
  end.

(** [chunks]: the last chunk may be shorter. *)
Fixpoint chunks {A} (fuel : nat) (n : nat) (l : list A) : list (list A) :=
  match fuel, l with
  | S fuel, _ :: _ => take n l :: chunks fuel n (drop n l)
  | _, _ => []
  end.

(** [buffer[start..end].copy_from_slice(src)]. *)
Definition copy_from_slice (buffer : list Z) (start stop : Z) (src : list Z) : outcome (list Z) :=
  if (start <=? stop) && (stop <=? zlen buffer) && (zlen src =? stop - start)
  then Done (take (Z.to_nat start) buffer ++ src ++ drop (Z.to_nat stop) buffer)
  else Panicked.

(** [Vec::resize] to a length that is not shorter. *)
Definition resize (l : list Z) (n : nat) (x : Z) : list Z := l ++ replicate (n - length l) x.

Module EntrySlice.

Section EntrySlice.
Context {env : PohEnv}.

Definition genesis (start_hash : list Z) : Entry := mkEntry _ 0 start_hash [].

(** ** One by one *)

Definition verify_cpu_generic (self : list Entry) (start_hash : list Z)
    : outcome EntryVerificationStatus :=
  let* res := all_done (fun x => Entry.verify x.2 (e_hash x.1)) (zip (genesis start_hash :: self) self) in
  Done (status_of res).

(** ** With vector instructions *)

Definition compare_hashes (computed_hash : list Z) (ref_entry : Entry) : outcome bool :=
  let* actual :=
    match e_transactions ref_entry with
    | _ :: _ =>
        let* tx_hash := Entry.hash_transactions (e_transactions ref_entry) in
        let* poh := Poh.new computed_hash None in
        let* r := Poh.record poh tx_hash in
        entry_hash r
    | [] =>
        if 0 <? e_num_hashes ref_entry then
          let* poh := Poh.new computed_hash None in
          let* r := Poh.tick poh in
          entry_hash r
        else Done computed_hash
    end in
  Done (bool_decide (actual = e_hash ref_entry)).

(** The hashes before the entries, written into one buffer. *)
Fixpoint fill (len i : Z) (entries : list Entry) (hashes_bytes : list Z) : outcome (list Z) :=
  match entries with
  | [] => Done hashes_bytes
  | entry :: entries =>
      if i <? len then
        let start := i * HASH_BYTES in
        let* hashes_bytes := copy_from_slice hashes_bytes start (start + HASH_BYTES) (e_hash entry) in
        fill len (i + 1) entries hashes_bytes
      else fill len (i + 1) entries hashes_bytes
  end.

(** Comparing the entries of one chunk. *)
Definition compare_chunk (chunk : list Z) (entries : list Entry) : outcome bool :=
  all_done (fun x =>
    let start := Z.of_nat x.1 * HASH_BYTES in
    if start + HASH_BYTES <=? zlen chunk
    then compare_hashes (take (Z.to_nat HASH_BYTES) (drop (Z.to_nat start) chunk)) x.2
    else Panicked) (imap pair entries).

Definition verify_cpu_x86_simd (self : list Entry) (start_hash : list Z) (simd_len : nat)
    : outcome EntryVerificationStatus :=
  let len := length self in
  let aligned_len := (div_ceil_nat len simd_len * simd_len)%nat in
  let* hashes_bytes :=
    fill (zlen self) 0 (genesis start_hash :: self)
      (replicate (Z.to_nat HASH_BYTES * aligned_len) 0) in
  let hashes_chunked := chunks (length hashes_bytes) (simd_len * Z.to_nat HASH_BYTES) hashes_bytes in
  let num_hashes := resize (map (fun e => saturating_sub (e_num_hashes e) 1) self) aligned_len 0 in
  let num_hashes := chunks (length num_hashes) simd_len num_hashes in
  let* res :=
    all_done (fun x =>
      let '(i, (chunk, num_hashes)) := x in
      if negb ((simd_len =? 8)%nat || (simd_len =? 16)%nat) then Panicked
      else
        let chunk := poh_verify_many_simd chunk num_hashes in
        let entry_start := (i * simd_len)%nat in
        let entry_end := Nat.min (entry_start + simd_len) len in
        if (entry_end <? entry_start)%nat then Panicked
        else compare_chunk chunk (take (entry_end - entry_start) (drop entry_start self)))
      (imap pair (zip hashes_chunked num_hashes)) in
  Done (status_of res).

(** [has_simd] stands for the loaded library, [has_avx2] and [has_avx512] for the
    features of the processor. *)
Definition verify_cpu (has_simd has_avx2 has_avx512 : bool) (self : list Entry) (start_hash : list Z)
    : outcome EntryVerificationStatus :=
  if has_simd then
    if has_avx512 && (128 <=? zlen self) then verify_cpu_x86_simd self start_hash 16
    else if has_avx2 && (48 <=? zlen self) then verify_cpu_x86_simd self start_hash 8
    else verify_cpu_generic self start_hash
  else verify_cpu_generic self start_hash.

(** ** On the GPU *)

Definition verification (entry : Entry) : outcome (VerifyAction * list Z) :=
  match e_transactions entry with
  | [] => Done (if e_num_hashes entry =? 0 then NoAction else TickAction, e_hash entry)
  | _ =>
      let* mixin := Entry.hash_transactions (e_transactions entry) in
      Done (Mixin mixin, e_hash entry)
  end.

Fixpoint verifications (self : list Entry) : outcome (list (VerifyAction * list Z)) :=
  match self with
  | [] => Done []
  | entry :: self =>
      let* v := verification entry in
      let* vs := verifications self in
      Done (v :: vs)
  end.

(** The check of one hash in [finish_verify]. *)
Definition check_verification (x : list Z * (VerifyAction * list Z)) : outcome bool :=
  let '(h, (action, expected)) := x in
  let* actual :=
    match action with
    | Mixin mixin =>
        let* poh := Poh.new h None in
        let* r := Poh.record poh mixin in
        entry_hash r
    | TickAction =>
        let* poh := Poh.new h None in
        let* r := Poh.tick poh in
        entry_hash r
    | NoAction => Done h
    end in
  Done (bool_decide (actual = expected)).

Definition verify_gpu (self : list Entry) (start_hash : list Z) : outcome EntryVerificationStatus :=
  let hashes := take (length self) (map (fun e => e_hash e) (genesis start_hash :: self)) in
  let num_hashes := map (fun e => saturating_sub (e_num_hashes e) 1) self in
  let* vs := verifications self in
  let* res := all_done check_verification (zip (poh_verify_many hashes num_hashes) vs) in
  Done (status_of res).

(** ** Counts *)

Fixpoint verify_tick_hash_count (self : list Entry) (tick_hash_count hashes_per_tick : Z) : bool * Z :=
  if hashes_per_tick =? 0 then (true, tick_hash_count)
  else
    match self with
    | [] => (tick_hash_count <? hashes_per_tick, tick_hash_count)
    | entry :: self =>
        let tick_hash_count := saturating_add U64_MAX tick_hash_count (e_num_hashes entry) in
        if Entry.is_tick entry then
          if negb (tick_hash_count =? hashes_per_tick) then (false, tick_hash_count)
          else verify_tick_hash_count self 0 hashes_per_tick
        else verify_tick_hash_count self tick_hash_count hashes_per_tick
    end.

Definition tick_count (self : list Entry) : Z := zlen (filter (fun e => Entry.is_tick e = true) self).

End EntrySlice.
End EntrySlice.

(** ** What an entry should contain *)

(** What the kernels and the hash function document. *)
Class PohLaws (env : PohEnv) : Prop := {
  poh_sha_laws :: HashLaws poh_sha;
  sha_hash_length h : length (sha_hash h) = 32%nat;
  simd_hashes hs ns :
    Forall (fun h => length h = 32%nat) hs -> length hs = length ns ->
    length hs = 8%nat \/ length hs = 16%nat ->
    poh_verify_many_simd (concat hs) ns = concat (zip_with Poh.hash_times ns hs);
  gpu_hashes hs ns :
    length hs = length ns -> poh_verify_many hs ns = zip_with Poh.hash_times ns hs;
}.

Section Facts.
Context {env : PohEnv}.

Abbreviation is_hash := (fun h : list Z => length h = 32%nat).

(** The mixin of some transactions. *)
Definition mixin_of (txs : list VersionedTransaction) : list Z :=
  match Merkle.new (concat (map tx_signatures txs)) with
  | Some (Done tree) => default hash_default (Merkle.get_root tree)
  | _ => hash_default
  end.

Lemma hash_transactions_spec txs : Entry.hash_transactions txs = Done (mixin_of txs).
Proof. unfold Entry.hash_transactions, mixin_of. by rewrite new_spec. Qed.

(** The hash that ends an entry: after the given number of hashes, the last one
    with the transactions mixed in. *)
Definition expected (start : list Z) (n : Z) (txs : list VersionedTransaction) : list Z :=
  match txs with
  | [] => Poh.hash_times n start
  | _ => hashv [Poh.hash_times (n - 1) start; mixin_of txs]
  end.

(** Every entry ends with the expected hash after the one before. *)
Fixpoint valid_chain (start : list Z) (entries : list Entry) : bool :=
  match entries with
  | [] => true
  | e :: entries =>
      bool_decide (e_hash e = expected start (e_num_hashes e) (e_transactions e)) &&
      valid_chain (e_hash e) entries
  end.

(** Counts below the largest one. *)
Definition counted (e : Entry) : Prop := 0 <= e_num_hashes e < U64_MAX.

Lemma hash_times_succ n h : 0 <= n -> Poh.hash_times (n + 1) h = sha_hash (Poh.hash_times n h).
Proof.
  intros H. unfold Poh.hash_times. replace (Z.to_nat (n + 1)) with (S (Z.to_nat n)) by lia. done.
Qed.

Lemma hash_times_add n m h :
  0 <= n -> 0 <= m -> Poh.hash_times (n + m) h = Poh.hash_times m (Poh.hash_times n h).
Proof.
  intros Hn Hm. unfold Poh.hash_times. replace (Z.to_nat (n + m)) with (Z.to_nat m + Z.to_nat n)%nat by lia.
  apply Nat.iter_add.
Qed.

(** No hash comes before the last one of an entry without hashes. *)
Lemma hash_times_before n h : Poh.hash_times (saturating_sub n 1) h = Poh.hash_times (n - 1) h.
Proof. unfold Poh.hash_times, saturating_sub. f_equal. lia. Qed.

Lemma plain_add_Done a b : a + b <= U64_MAX -> plain_add U64_MAX a b = Done (a + b).
Proof. intros H. unfold plain_add. by rewrite (proj2 (Z.leb_le _ _)). Qed.
Lemma plain_sub_Done a b : b <= a -> plain_sub a b = Done (a - b).
Proof. intros H. unfold plain_sub. by rewrite (proj2 (Z.leb_le _ _)). Qed.

Definition start_poh (h : list Z) : PohState := mkPoh h 0 U64_MAX U64_MAX 0.

(** Hashing in low power mode. *)
Lemma hash_low_power h n :
  0 <= n < U64_MAX ->
  Poh.hash (start_poh h) n
  = Done (U64_MAX - n =? 1, mkPoh (Poh.hash_times n h) n U64_MAX (U64_MAX - n) 0).
Proof.
  intros Hn. unfold Poh.hash. cbn [remaining_hashes poh_num_hashes start_poh].
  rewrite plain_sub_Done by lia. cbn [obind]. rewrite Z.min_r by lia.
  rewrite plain_add_Done, plain_sub_Done by lia. cbn [obind].
  rewrite (proj2 (Z.ltb_lt _ _)) by lia. done.
Qed.

Lemma tick_low_power h n r :
  0 <= n < U64_MAX -> 1 <= r ->
  (let* x := Poh.tick (mkPoh h n U64_MAX r 0) in entry_hash x) = Done (sha_hash h).
Proof.
  intros Hn Hr. unfold Poh.tick. cbn [remaining_hashes poh_num_hashes poh_hash tick_number].
  rewrite plain_add_Done, plain_sub_Done by lia. cbn [obind]. done.
Qed.

Lemma record_low_power h n r mixin :
  0 <= n < U64_MAX -> 1 < r ->
  (let* x := Poh.record (mkPoh h n U64_MAX r 0) mixin in entry_hash x) = Done (hashv [h; mixin]).
Proof.
  intros Hn Hr. unfold Poh.record. cbn [remaining_hashes poh_num_hashes poh_hash].
  rewrite (proj2 (Z.eqb_neq _ _)) by lia. by rewrite plain_add_Done, plain_sub_Done by lia.
Qed.

Lemma next_hash_spec s n txs :
  0 <= n < U64_MAX -> Entry.next_hash s n txs = Done (expected s n txs).
Proof.
  intros Hn. unfold Entry.next_hash, expected.
  change (Poh.new s None) with (Done (start_poh s)). cbn [obind].
  destruct txs as [|tx txs].
  - destruct (Z.eqb_spec n 0) as [->|H0]; [done|]. unfold saturating_sub. rewrite Z.max_r by lia.
    rewrite hash_low_power by lia. cbn [obind snd]. rewrite tick_low_power by lia.
    rewrite <- hash_times_succ by lia. do 2 f_equal. lia.
  - rewrite hash_low_power by (unfold saturating_sub; lia). cbn [obind snd].
    rewrite hash_transactions_spec. cbn [obind].
    rewrite record_low_power by (unfold saturating_sub; lia). by rewrite hash_times_before.
Qed.

(** ** One by one *)

Lemma all_done_spec {A} (p : A -> outcome bool) (q : A -> bool) l :
  Forall (fun x => p x = Done (q x)) l -> all_done p l = Done (forallb q l).
Proof.
  induction 1 as [|x l Hx _ IH]; [done|]. cbn. rewrite Hx. cbn. by destruct (q x).
Qed.

Lemma generic_spec entries : forall start,
  Forall counted entries ->
  EntrySlice.verify_cpu_generic entries start = Done (status_of (valid_chain start entries)).
Proof.
  intros start Hc. unfold EntrySlice.verify_cpu_generic.
  assert (forall g, all_done (fun x => Entry.verify x.2 (e_hash x.1)) (zip (g :: entries) entries)
    = Done (valid_chain (e_hash g) entries)) as H; [|by rewrite H].
  induction Hc as [|e entries He _ IH]; intros g; [done|]. cbn [zip zip_with all_done fst snd].
  unfold Entry.verify at 1. rewrite next_hash_spec by done. cbn [obind valid_chain].
  case_bool_decide; [apply IH|done].
Qed.

(** ** In groups *)

(** The check of an entry against the hash before its last step. *)
Definition check_entry (computed : list Z) (e : Entry) : bool :=
  bool_decide (match e_transactions e with
    | [] => if 0 <? e_num_hashes e then sha_hash computed else computed
    | txs => hashv [computed; mixin_of txs]
    end = e_hash e).

Lemma compare_hashes_spec computed e :
  EntrySlice.compare_hashes computed e = Done (check_entry computed e).
Proof.
  unfold EntrySlice.compare_hashes, check_entry.
  change (Poh.new computed None) with (Done (start_poh computed)).
  destruct (e_transactions e) as [|tx txs] eqn:E.
  - destruct (0 <? e_num_hashes e); [|done]. cbn [obind].
    pose proof (tick_low_power computed 0 U64_MAX) as H. unfold start_poh. rewrite H by lia. done.
  - rewrite hash_transactions_spec. cbn [obind].
    pose proof (record_low_power computed 0 U64_MAX (mixin_of (tx :: txs))) as H. unfold start_poh.
    rewrite H by lia. done.
Qed.

Lemma check_entry_spec start e :
  counted e ->
  check_entry (Poh.hash_times (saturating_sub (e_num_hashes e) 1) start) e
  = bool_decide (e_hash e = expected start (e_num_hashes e) (e_transactions e)).
Proof.
  intros [H0 _]. unfold check_entry, expected. rewrite hash_times_before. apply bool_decide_ext.
  destruct (e_transactions e); [|split; by intros ->].
  destruct (Z.ltb_spec 0 (e_num_hashes e)) as [H|H].
  - rewrite <- hash_times_succ by lia. replace (e_num_hashes e - 1 + 1) with (e_num_hashes e) by lia.
    split; by intros ->.
  - assert (e_num_hashes e = 0) as -> by lia. split; intros E; symmetry; exact E.
Qed.

(** The hashes before the entries, and the checks of all of them. *)
Definition previous (start : list Z) (entries : list Entry) : list (list Z) :=
  take (length entries) (start :: map (fun e => e_hash e) entries).
Definition steps (entries : list Entry) : list Z :=
  map (fun e => saturating_sub (e_num_hashes e) 1) entries.

Lemma previous_cons start e entries :
  previous start (e :: entries) = start :: previous (e_hash e) entries.
Proof. done. Qed.

Lemma previous_length start entries : length (previous start entries) = length entries.
Proof. unfold previous. rewrite length_take. cbn. rewrite length_map. lia. Qed.

Lemma chain_checks entries : forall start,
  Forall counted entries ->
  forallb (fun x => check_entry x.1 x.2)
    (zip (zip_with Poh.hash_times (steps entries) (previous start entries)) entries)
  = valid_chain start entries.
Proof.
  intros start Hc. revert start. induction Hc as [|e entries He _ IH]; intros start; [done|].
  rewrite previous_cons. cbn [steps map zip_with zip forallb fst snd valid_chain].
  rewrite check_entry_spec by done. f_equal. apply IH.
Qed.

(** ** On the GPU *)

Lemma verification_spec h e :
  counted e ->
  exists v, EntrySlice.verification e = Done v /\
    EntrySlice.check_verification (h, v) = Done (check_entry h e).
Proof.
  intros [H0 _]. unfold EntrySlice.verification, EntrySlice.check_verification, check_entry.
  change (Poh.new h None) with (Done (start_poh h)).
  destruct (e_transactions e) as [|tx txs] eqn:E.
  - eexists. split; [done|]. destruct (Z.eqb_spec (e_num_hashes e) 0) as [->|Hn]; [done|].
    rewrite (proj2 (Z.ltb_lt _ _)) by lia. cbn [obind].
    pose proof (tick_low_power h 0 U64_MAX) as H. unfold start_poh. by rewrite H by lia.
  - rewrite hash_transactions_spec. cbn [obind]. eexists. split; [done|]. cbn [obind].
    pose proof (record_low_power h 0 U64_MAX (mixin_of (tx :: txs))) as H. unfold start_poh.
    by rewrite H by lia.
Qed.

Lemma verifications_spec hs : forall entries,
  Forall counted entries -> length hs = length entries ->
  exists vs, EntrySlice.verifications entries = Done vs /\
    all_done EntrySlice.check_verification (zip hs vs)
    = Done (forallb (fun x => check_entry x.1 x.2) (zip hs entries)).
Proof.
  induction hs as [|h hs IH]; intros [|e entries] Hc Hl; try done; [by exists []|].
  apply Forall_cons in Hc as [He Hc]. injection Hl as Hl.
  destruct (verification_spec h e He) as (v & Ev & Ech). destruct (IH entries Hc Hl) as (vs & Evs & Eall).
  exists (v :: vs). cbn [EntrySlice.verifications]. rewrite Ev, Evs. split; [done|].
  cbn [zip zip_with all_done forallb fst snd]. rewrite Ech. cbn [obind]. by destruct (check_entry h e).
Qed.

Lemma zip_with_length_eq {A B C} (f : A -> B -> C) l k :
  length l = length k -> length (zip_with f l k) = length k.
Proof. intros H. rewrite length_zip_with. lia. Qed.

Lemma steps_length entries : length (steps entries) = length entries.
Proof. apply length_map. Qed.

Lemma gpu_spec {laws : PohLaws env} entries start :
  Forall counted entries ->
  EntrySlice.verify_gpu entries start = Done (status_of (valid_chain start entries)).
Proof.
  intros Hc. unfold EntrySlice.verify_gpu. cbn [map EntrySlice.genesis e_hash].
  fold (previous start entries) (steps entries).
  rewrite gpu_hashes by (by rewrite previous_length, steps_length).
  destruct (verifications_spec (zip_with Poh.hash_times (steps entries) (previous start entries)) entries Hc)
    as (vs & -> & Eall).
  { rewrite zip_with_length_eq; by rewrite ?previous_length, ?steps_length. }
  cbn [obind]. rewrite Eall, chain_checks by done. done.
Qed.

(** ** With vector instructions *)

Lemma hashes_length hs : Forall is_hash hs -> length (concat hs) = (length hs * 32)%nat.
Proof.
  induction 1 as [|h hs Hh _ IH]; [done|]. cbn [concat length]. rewrite length_app, IH. lia.
Qed.

Lemma take_hashes n : forall hs, Forall is_hash hs -> take (n * 32) (concat hs) = concat (take n hs).
Proof.
  induction n as [|n IH]; intros hs H; [done|]. destruct H as [|h hs Hh H]; [by rewrite take_nil|].
  cbn [concat take]. replace (S n * 32)%nat with (length h + n * 32)%nat by lia.
  by rewrite take_app_add, IH.
Qed.

Lemma drop_hashes n : forall hs, Forall is_hash hs -> drop (n * 32) (concat hs) = concat (drop n hs).
Proof.
  induction n as [|n IH]; intros hs H; [done|]. destruct H as [|h hs Hh H]; [by rewrite drop_nil|].
  cbn [concat drop]. replace (S n * 32)%nat with (length h + n * 32)%nat by lia.
  by rewrite drop_app_add, IH.
Qed.

Lemma chunks_hashes n : (0 < n)%nat -> forall fuel fuel' hs,
  Forall is_hash hs -> (length hs * 32 <= fuel)%nat -> (length hs <= fuel')%nat ->
  chunks fuel (n * 32) (concat hs) = map (@concat Z) (chunks fuel' n hs).
Proof.
  intros Hn fuel. induction fuel as [|fuel IH]; intros fuel' hs H Hf Hf'.
  { destruct hs; [|cbn in Hf; lia]. by destruct fuel'. }
  destruct H as [|h hs Hh H]; [by destruct fuel'|]. destruct fuel' as [|fuel']; [cbn in Hf'; lia|].
  assert (exists b bs, concat (h :: hs) = b :: bs) as (b & bs & E).
  { cbn [concat]. destruct h as [|b h]; [done|]. by eexists _, _. }
  cbn [chunks map]. rewrite E, <- E. rewrite take_hashes, drop_hashes by (by constructor).
  f_equal. cbn [length] in Hf, Hf'. apply IH.
  - by apply Forall_drop; constructor.
  - rewrite length_drop. cbn [length]. lia.
  - rewrite length_drop. cbn [length]. lia.
Qed.

Lemma copy_hash done h rest :
  Forall is_hash done -> is_hash h -> (32 <= length rest)%nat ->
  copy_from_slice (concat done ++ rest) (zlen done * HASH_BYTES) (zlen done * HASH_BYTES + HASH_BYTES) h
  = Done (concat (done ++ [h]) ++ drop 32 rest).
Proof.
  intros Hd Hh Hr. pose proof (hashes_length done Hd) as Hl. unfold copy_from_slice, zlen, HASH_BYTES.
  rewrite length_app, Hl, Hh.
  rewrite (proj2 (Z.leb_le _ _)), (proj2 (Z.leb_le _ _)), (proj2 (Z.eqb_eq _ _)) by lia. cbn [andb].
  replace (Z.to_nat (Z.of_nat (length done) * 32)) with (length (concat done)) by lia.
  replace (Z.to_nat (Z.of_nat (length done) * 32 + 32)) with (length (concat done) + 32)%nat by lia.
  rewrite take_app_length, drop_app_add, concat_app. cbn [concat]. by rewrite app_nil_r, <- app_assoc.
Qed.

Lemma fill_spec len entries : forall done rest,
  Forall is_hash done -> Forall is_hash (map (fun e => e_hash e) entries) ->
  (length done <= len)%nat ->
  (Nat.min (len - length done) (length entries) * 32 <= length rest)%nat ->
  EntrySlice.fill (Z.of_nat len) (zlen done) entries (concat done ++ rest)
  = Done (concat (done ++ take (len - length done) (map (fun e => e_hash e) entries)) ++
          drop (Nat.min (len - length done) (length entries) * 32) rest).
Proof.
  assert (forall len entries i b, len <= i -> EntrySlice.fill len i entries b = Done b) as Hstop.
  { clear. intros len entries. induction entries as [|e entries IH]; intros i b Hi; [done|].
    cbn. rewrite (proj2 (Z.ltb_ge _ _)) by lia. apply IH. lia. }
  induction entries as [|e entries IH]; intros done rest Hd He Hl Hr.
  { cbn [map length]. rewrite Nat.min_0_r, take_nil, app_nil_r. done. }
  cbn [map length] in He, Hr |- *. apply Forall_cons in He as [Hh He].
  destruct (decide (length done = len)) as [E|E].
  { rewrite Hstop by (unfold zlen; lia). rewrite E, Nat.sub_diag. cbn. by rewrite app_nil_r. }
  cbn [EntrySlice.fill]. rewrite (proj2 (Z.ltb_lt _ _)) by (unfold zlen; lia).
  rewrite copy_hash by (done || lia). cbn [obind].
  assert (zlen done + 1 = zlen (done ++ [e_hash e])) as ->
    by (unfold zlen; rewrite length_app; cbn; lia).
  rewrite IH; rewrite ?length_app; cbn [length].
  - rewrite <- app_assoc, drop_drop.
    replace (len - length done)%nat with (S (len - (length done + 1))) by lia.
    done.
  - apply Forall_app. split; [done|]. by constructor.
  - done.
  - lia.
  - rewrite length_drop. lia.
Qed.

Lemma take_zip_with {A B C} (f : A -> B -> C) n : forall l k,
  take n (zip_with f l k) = zip_with f (take n l) (take n k).
Proof. induction n as [|n IH]; intros [|x l] [|y k]; try done. cbn. by rewrite IH. Qed.

Lemma drop_zip_with {A B C} (f : A -> B -> C) n : forall l k,
  drop n (zip_with f l k) = zip_with f (drop n l) (drop n k).
Proof.
  induction n as [|n IH]; intros [|x l] [|y k]; try done; cbn; [by destruct (drop n l)|apply IH].
Qed.

Lemma forallb_zip_split {A B} (f : A * B -> bool) n l k :
  forallb f (zip l k) = forallb f (zip (take n l) (take n k)) && forallb f (zip (drop n l) (drop n k)).
Proof.
  rewrite <- forallb_app. f_equal. rewrite <- take_zip_with, <- drop_zip_with. by rewrite take_drop.
Qed.

Lemma hash_times_length {laws : PohLaws env} n h : is_hash h -> is_hash (Poh.hash_times n h).
Proof.
  intros H. unfold Poh.hash_times. destruct (Z.to_nat n); [done|]. cbn. apply sha_hash_length.
Qed.

Definition compare_at (chunk : list Z) (x : nat * Entry) : outcome bool :=
  let start := Z.of_nat x.1 * HASH_BYTES in
  if start + HASH_BYTES <=? zlen chunk
  then EntrySlice.compare_hashes (take (Z.to_nat HASH_BYTES) (drop (Z.to_nat start) chunk)) x.2
  else Panicked.

Lemma compare_at_spec R k r e :
  Forall is_hash R -> R !! k = Some r -> compare_at (concat R) (k, e) = Done (check_entry r e).
Proof.
  intros HR Hr. pose proof (lookup_lt_Some _ _ _ Hr).
  assert (is_hash r) as Hh by (by apply (Forall_lookup_1 _ _ _ _ HR Hr)). cbn in Hh.
  unfold compare_at, zlen, HASH_BYTES. cbn [fst snd]. rewrite hashes_length by done.
  rewrite (proj2 (Z.leb_le _ _)) by lia.
  replace (Z.to_nat (Z.of_nat k * 32)) with (k * 32)%nat by lia.
  rewrite drop_hashes, (drop_S _ _ _ Hr) by done. cbn [concat].
  change (Z.to_nat 32) with 32%nat. rewrite <- Hh at 1. by rewrite take_app_length, compare_hashes_spec.
Qed.

Lemma compare_chunk_spec R : forall entries,
  Forall is_hash R -> (length entries <= length R)%nat ->
  EntrySlice.compare_chunk (concat R) entries
  = Done (forallb (fun x => check_entry x.1 x.2) (zip R entries)).
Proof.
  intros entries HR Hl. change (EntrySlice.compare_chunk (concat R) entries)
    with (all_done (compare_at (concat R)) (imap (fun j e => ((0 + j)%nat, e)) entries)).
  rewrite <- (drop_0 R) at 2. assert (0 + length entries <= length R)%nat as Hk by lia. clear Hl.
  revert Hk. generalize 0%nat. induction entries as [|e entries IH]; intros k Hk.
  { cbn. by destruct (drop k R). }
  cbn [length] in Hk. destruct (lookup_lt_is_Some_2 R k ltac:(lia)) as [r Hr].
  rewrite (drop_S _ _ _ Hr), imap_cons. cbn [all_done fst snd zip zip_with forallb].
  rewrite Nat.add_0_r, (compare_at_spec R k r e HR Hr). cbn [obind].
  destruct (check_entry r e); [|done]. cbn [andb]. rewrite <- (IH (S k)) by lia.
  f_equal. apply imap_ext. intros j e' _. cbn. f_equal. lia.
Qed.

Section Simd.
Context {laws : PohLaws env} (self : list Entry) (n : nat) (Hn : n = 8%nat \/ n = 16%nat).

(** One chunk of the loop. *)
Definition verify_chunk (x : nat * (list Z * list Z)) : outcome bool :=
  let '(i, (chunk, num_hashes)) := x in
  if negb ((n =? 8)%nat || (n =? 16)%nat) then Panicked
  else
    let chunk := poh_verify_many_simd chunk num_hashes in
    let entry_start := (i * n)%nat in
    let entry_end := Nat.min (entry_start + n) (length self) in
    if (entry_end <? entry_start)%nat then Panicked
    else EntrySlice.compare_chunk chunk (take (entry_end - entry_start) (drop entry_start self)).

Lemma verify_chunk_spec i L N :
  Forall is_hash L -> length L = n -> length N = n -> (i * n <= length self)%nat ->
  verify_chunk (i, (concat L, N))
  = Done (forallb (fun x => check_entry x.1 x.2)
            (zip (zip_with Poh.hash_times N L) (take n (drop (i * n) self)))).
Proof.
  intros HL Hl HN Hi. unfold verify_chunk.
  assert (negb ((n =? 8)%nat || (n =? 16)%nat) = false) as -> by (destruct Hn as [->| ->]; done).
  rewrite (proj2 (Nat.ltb_ge _ _)) by lia. rewrite simd_hashes by (done || congruence || by rewrite Hl).
  assert (take (Nat.min (i * n + n) (length self) - i * n) (drop (i * n) self) = take n (drop (i * n) self)) as ->.
  { destruct (decide (i * n + n <= length self)%nat).
    - f_equal. lia.
    - rewrite !take_ge by (rewrite length_drop; lia). done. }
  apply compare_chunk_spec.
  - clear -HL laws. revert N. induction HL as [|h L Hh _ IH]; intros [|m N]; cbn; try done.
    constructor; [by apply hash_times_length|apply IH].
  - rewrite length_zip_with, length_take. lia.
Qed.

Lemma chunks_all c : forall i fuel fuel' L N,
  Forall is_hash L -> length L = (c * n)%nat -> length N = (c * n)%nat ->
  (length L <= fuel)%nat -> (length N <= fuel')%nat ->
  (c = 0%nat \/ (i + c - 1) * n < length self)%nat -> (length self <= (i + c) * n)%nat ->
  all_done verify_chunk
    (imap (fun j x => ((i + j)%nat, x)) (zip (map (@concat Z) (chunks fuel n L)) (chunks fuel' n N)))
  = Done (forallb (fun x => check_entry x.1 x.2) (zip (zip_with Poh.hash_times N L) (drop (i * n) self))).
Proof.
  assert (0 < n)%nat as Hpos by (destruct Hn; lia).
  induction c as [|c IH]; intros i fuel fuel' L N HL Hl HN Hf Hf' Hlow Hhigh.
  { destruct L, N; try done. by destruct fuel. }
  destruct L as [|h L0] eqn:EL; [cbn in Hl; lia|]. destruct N as [|m N0] eqn:EN; [cbn in HN; lia|].
  rewrite <- EL, <- EN in *.
  destruct fuel as [|fuel]; [rewrite EL in Hf; cbn in Hf; lia|].
  destruct fuel' as [|fuel']; [rewrite EN in Hf'; cbn in Hf'; lia|].
  assert (chunks (S fuel) n L = take n L :: chunks fuel n (drop n L)) as -> by (by rewrite EL).
  assert (chunks (S fuel') n N = take n N :: chunks fuel' n (drop n N)) as -> by (by rewrite EN).
  cbn [map zip zip_with]. rewrite imap_cons. cbn [all_done]. rewrite Nat.add_0_r.
  rewrite (forallb_zip_split _ n). rewrite take_zip_with, drop_zip_with, drop_drop.
  rewrite verify_chunk_spec; [|by apply Forall_take|rewrite length_take; lia|rewrite length_take; lia|nia].
  cbn [obind]. destruct (forallb _ _); [|done]. cbn [andb].
  specialize (IH (S i) fuel fuel' (drop n L) (drop n N)). rewrite <- Nat.add_comm.
  replace (n + i * n)%nat with (S i * n)%nat by lia. rewrite <- IH.
  - f_equal. apply imap_ext. intros j x _. cbn. f_equal. lia.
  - by apply Forall_drop.
  - rewrite length_drop. lia.
  - rewrite length_drop. lia.
  - rewrite length_drop. lia.
  - rewrite length_drop. lia.
  - destruct c; [by left|]. right. destruct Hlow as [|Hlow]; [done|].
    replace (S i + S c - 1)%nat with (i + S (S c) - 1)%nat by lia. done.
  - replace (S i + c)%nat with (i + S c)%nat by lia. done.
Qed.

End Simd.

Lemma div_ceil_cover len n :
  (0 < n)%nat -> let c := div_ceil_nat len n in
  (len <= c * n)%nat /\ (c = 0%nat \/ (c - 1) * n < len)%nat.
Proof.
  intros Hn. unfold div_ceil_nat. pose proof (Nat.div_mod len n ltac:(lia)) as E.
  pose proof (Nat.mod_upper_bound len n ltac:(lia)) as Hm.
  destruct (Nat.ltb_spec 0 (len mod n)); cbn zeta.
  - split; [nia|]. right. rewrite Nat.add_sub. nia.
  - destruct (len / n)%nat as [|q]; [split; [lia|by left]|]. split; [nia|]. right. nia.
Qed.

Lemma zeros_hashes k : concat (replicate k (replicate 32 0)) = replicate (k * 32) 0.
Proof.
  induction k as [|k IH]; [done|].
  change (concat (replicate (S k) (replicate 32 0)))
    with (replicate 32 0 ++ concat (replicate k (replicate 32 0))).
  by rewrite IH, <- replicate_add.
Qed.

Lemma fill_buffer start entries aligned :
  is_hash start -> Forall is_hash (map (fun e => e_hash e) entries) -> (length entries <= aligned)%nat ->
  EntrySlice.fill (zlen entries) 0 (EntrySlice.genesis start :: entries)
    (replicate (Z.to_nat HASH_BYTES * aligned) 0)
  = Done (concat (previous start entries ++ replicate (aligned - length entries) (replicate 32 0))).
Proof.
  intros Hs He Ha.
  pose proof (fill_spec (length entries) (EntrySlice.genesis start :: entries) []
    (replicate (Z.to_nat HASH_BYTES * aligned) 0)) as H.
  cbn [length concat app map] in H. rewrite Nat.sub_0_r in H. change (zlen (@nil (list Z))) with 0 in H.
  unfold zlen. rewrite H.
  - change (take (length entries) (e_hash (EntrySlice.genesis start) :: map (fun e => e_hash e) entries))
      with (previous start entries).
    rewrite drop_replicate, concat_app, zeros_hashes. do 3 f_equal. unfold HASH_BYTES. lia.
  - done.
  - by constructor.
  - lia.
  - rewrite length_replicate. unfold HASH_BYTES. lia.
Qed.

Lemma zip_longer {A B} (l l' : list A) (k : list B) : length l = length k -> zip (l ++ l') k = zip l k.
Proof.
  intros H. rewrite <- (app_nil_r k) at 1. rewrite zip_with_app by done. destruct l'; cbn; by rewrite app_nil_r.
Qed.

Lemma previous_hashes start entries :
  is_hash start -> Forall is_hash (map (fun e => e_hash e) entries) -> Forall is_hash (previous start entries).
Proof. intros Hs He. apply Forall_take. by constructor. Qed.

Lemma simd_spec {laws : PohLaws env} n entries start :
  n = 8%nat \/ n = 16%nat -> Forall counted entries ->
  is_hash start -> Forall is_hash (map (fun e => e_hash e) entries) ->
  EntrySlice.verify_cpu_x86_simd entries start n = Done (status_of (valid_chain start entries)).
Proof.
  intros Hn Hc Hs He. assert (0 < n)%nat as Hpos by (destruct Hn; lia).
  destruct (div_ceil_cover (length entries) n Hpos) as [Hhigh Hlow].
  unfold EntrySlice.verify_cpu_x86_simd. set (c := div_ceil_nat (length entries) n) in *. cbn zeta in Hhigh, Hlow.
  rewrite fill_buffer by done. cbn [obind].
  set (L := previous start entries ++ replicate (c * n - length entries) (replicate 32 0)).
  change (map (fun e => saturating_sub (e_num_hashes e) 1) entries) with (steps entries).
  set (N := resize (steps entries) (c * n) 0).
  assert (Forall is_hash L) as HL.
  { apply Forall_app. split; [by apply previous_hashes|]. by apply Forall_replicate. }
  assert (length L = (c * n)%nat) as Hl by (unfold L; rewrite length_app, previous_length, length_replicate; lia).
  assert (length N = (c * n)%nat) as HN.
  { unfold N, resize. rewrite length_app, length_replicate, steps_length. lia. }
  change (Z.to_nat HASH_BYTES) with 32%nat.
  rewrite (chunks_hashes n Hpos _ (length L)) by (done || rewrite hashes_length by done; lia).
  pose proof (chunks_all entries n Hn c 0 (length L) (length N) L N HL Hl HN ltac:(done) ltac:(done)) as H.
  cbn [Nat.add Nat.mul drop] in H. specialize (H Hlow Hhigh).
  change (imap (fun j x => (j, x))) with (imap (@pair nat (list Z * list Z))) in H.
  unfold verify_chunk in H. rewrite H. cbn [obind]. do 2 f_equal.
  unfold N, L, resize. rewrite zip_with_app by (by rewrite previous_length, steps_length).
  rewrite zip_longer, chain_checks; [done|done|].
  rewrite zip_with_length_eq; by rewrite ?previous_length, ?steps_length.
Qed.

(** ** Made entries *)

(** Entries that were made after a hash verify against it, also in a chain. *)
Lemma new_entry_verifies prev n txs :
  0 <= n < U64_MAX ->
  exists e, Entry.new prev n txs = Done e /\ counted e /\ e_transactions e = txs /\
    valid_chain prev [e] = true /\ Entry.verify e prev = Done true.
Proof.
  intros Hn. unfold Entry.new. set (k := if (n =? 0) && _ then 1 else n).
  assert (0 <= k < U64_MAX) as Hk by (unfold k; destruct (_ && _); lia).
  rewrite next_hash_spec by done. cbn [obind]. eexists. split; [done|]. split; [done|]. split; [done|].
  cbn. unfold Entry.verify. cbn [e_num_hashes e_transactions e_hash].
  rewrite next_hash_spec by done. cbn. by rewrite !bool_decide_true.
Qed.

Lemma create_ticks_verify n hpt : 0 <= hpt < U64_MAX -> forall h,
  exists entries, Entry.create_ticks n hpt h = Done entries /\ length entries = n /\
    Forall counted entries /\ Forall (fun e => e_transactions e = []) entries /\
    valid_chain h entries = true.
Proof.
  intros Hh. induction n as [|n IH]; intros h; [by exists []|]. cbn [Entry.create_ticks].
  destruct (new_entry_verifies h hpt [] Hh) as (e & -> & Hc & Ht & Hv & _). cbn [obind].
  destruct (IH (e_hash e)) as (entries & -> & Hl & Hf & Hts & Hvs). cbn [obind].
  exists (e :: entries). cbn in Hv |- *. rewrite andb_true_r in Hv. rewrite Hv, Hvs. split; [done|].
  split; [by rewrite Hl|]. split_and!; [by constructor|by constructor|done].
Qed.

End Facts.

(** ** The verifiers agree *)

(** A concrete hash function and kernels that follow it. *)
Definition test_hash (h : list Z) : list Z := @hashv test_sha [h].
Definition test_times (n : Z) (h : list Z) : list Z := Nat.iter (Z.to_nat n) test_hash h.
Definition test_poh : PohEnv := {|
  poh_sha := test_sha;
  sha_hash := test_hash;
  poh_verify_many_simd buffer ns := concat (zip_with test_times ns (chunks (length buffer) 32 buffer));
  poh_verify_many hs ns := zip_with test_times ns hs;
  VersionedTransaction := list (list Z);
  tx_signatures tx := tx;
|}.

Lemma chunks_one {A} (l : list (list A)) fuel :
  (length l <= fuel)%nat -> map (@concat A) (chunks fuel 1 l) = l.
Proof.
  revert fuel. induction l as [|x l IH]; intros fuel H; [by destruct fuel|].
  destruct fuel as [|fuel]; [cbn in H; lia|]. cbn. rewrite app_nil_r, drop_0, IH by (cbn in H; lia). done.
Qed.

Lemma test_poh_laws : PohLaws test_poh.
Proof.
  split; [exact test_sha_laws|done| |done]. intros hs ns Hhs _ _.
  cbn [poh_verify_many_simd test_poh]. f_equal. rewrite (hashes_length hs Hhs).
  pose proof (chunks_hashes 1 ltac:(lia) (length hs * 32) (length hs) hs Hhs ltac:(lia) ltac:(lia)) as E.
  change (1 * 32)%nat with 32%nat in E. by rewrite E, chunks_one.
Qed.

(** C31: the ways of verifying entries (one by one on the processor, in groups of
    eight or sixteen by vector instructions, on the GPU, and the choice among
    them by the features of the processor) never panic on entries whose counts
    are below the largest number, and all accept exactly the lists in which
    every entry ends with the hash that its number of hashes and its
    transactions give after the entry before. *)
Theorem entry_verifiers_agree {env : PohEnv} {laws : PohLaws env} (entries : list Entry) (start : list Z)
    (has_simd has_avx2 has_avx512 : bool) :
  Forall counted entries -> Forall (fun h => length h = 32%nat) (start :: map (fun e => e_hash e) entries) ->
  let answer := Done (status_of (valid_chain start entries)) in
  EntrySlice.verify_cpu has_simd has_avx2 has_avx512 entries start = answer /\
  EntrySlice.verify_cpu_generic entries start = answer /\
  EntrySlice.verify_cpu_x86_simd entries start 8 = answer /\
  EntrySlice.verify_cpu_x86_simd entries start 16 = answer /\
  EntrySlice.verify_gpu entries start = answer.
Proof.
  intros Hc [Hs He]%Forall_cons answer.
  pose proof (generic_spec entries start Hc) as Hg.
  pose proof (simd_spec 8 entries start (or_introl eq_refl) Hc Hs He) as H8.
  pose proof (simd_spec 16 entries start (or_intror eq_refl) Hc Hs He) as H16.
  split_and!; try done; [|by apply gpu_spec].
  unfold EntrySlice.verify_cpu. destruct has_simd; [|done]. by do 2 (destruct (_ && _); [done|]).
Qed.

Definition test_start : list Z := replicate 32 1.
Definition test_chain : list (@Entry test_poh) :=
  let e1 := mkEntry test_poh 3 (test_times 3 test_start) [] in
  let h2 := @hashv test_sha [test_times 1 (e_hash e1); @mixin_of test_poh [[[1; 2]]; [[3]]]] in
  [e1; mkEntry test_poh 2 h2 [[[1; 2]]; [[3]]]; mkEntry test_poh 1 (test_times 1 h2) []].

Lemma entry_verifiers_agree_witness :
  @EntrySlice.verify_cpu_x86_simd test_poh test_chain test_start 8 = Done Success /\
  @EntrySlice.verify_gpu test_poh (rev test_chain) test_start = Done Failure.
Proof.
  pose proof (@entry_verifiers_agree test_poh test_poh_laws test_chain test_start true true false) as H1.
  pose proof (@entry_verifiers_agree test_poh test_poh_laws (rev test_chain) test_start true true false) as H2.
  destruct H1 as (_ & _ & H1 & _); [by repeat (constructor; [unfold counted; cbn; lia|])| |].
  { by repeat (constructor; [vm_compute; reflexivity|]). }
  destruct H2 as (_ & _ & _ & _ & H2); [by repeat (constructor; [unfold counted; cbn; lia|])| |].
  { by repeat (constructor; [vm_compute; reflexivity|]). }
  rewrite H1, H2. split; vm_compute; reflexivity.
Defined.
