(* ===== verification/PohRecorder.v ===== *)
(** * The recorder: proof of history for a leader's banks

    The model of [gorchain/poh/src/poh_recorder.rs]: the state machine that
    drives the hash chain, caches ticks until a bank may use them, and sends the
    entries of the working bank to the ledger.  Metrics, wall-clock waiting and
    the clear-bank signal are left out.

    The leader schedule and the block store are other components and appear as
    arguments; [connected i] says whether somebody still receives the [i]-th entry
    of the channel. *)

From stdpp Require Import base numbers list.
From Stdlib Require Import Lia.
From S2P Require Import Prelude Errors Pod TxBytes ComputeBudget Merkle Poh.
Local Open Scope Z_scope.
Local Open Scope rust_scope.

Definition GRACE_TICKS_FACTOR : Z := 2.
Definition MAX_GRACE_SLOTS : Z := 2.

Inductive PohRecorderError : Type :=
| MaxHeightReached
| MinHeightNotReached
| SendError.

Definition plain_mul (max a b : Z) : outcome Z := if a * b <=? max then Done (a * b) else Panicked.

(** What the recorder reads of a bank. *)
Record BankInfo := mkBankInfo {
  bi_slot : Z;
  bi_tick_height : Z;
  bi_max_tick_height : Z;
  bi_ticks_per_slot : Z;
  bi_hashes_per_tick : option Z;
  bi_last_blockhash : list Z;
  bi_collector_id : list Z;
}.

Record WorkingBank := mkWorkingBank {
  wb_bank : BankInfo;
  min_tick_height : Z;
  max_tick_height : Z;
  transaction_index : option Z;
}.
#[export] Instance eta_WorkingBank : Eta WorkingBank := fun w =>
  mkWorkingBank (wb_bank w) (min_tick_height w) (max_tick_height w) (transaction_index w).

(** [next_leader_slot] is the schedule's answer for a collector after a slot,
    [slot_leader_at] the leader of a slot; [has_existing_shreds_for_slot] asks
    the block store; [NUM_CONSECUTIVE_LEADER_SLOTS] belongs to the clock crate. *)
Class RecorderEnv := {
  recorder_poh :: PohEnv;
  next_leader_slot : list Z -> Z -> option (Z * Z);
  slot_leader_at : Z -> option (list Z);
  has_existing_shreds_for_slot : Z -> bool;
  NUM_CONSECUTIVE_LEADER_SLOTS : Z;
  connected : nat -> bool;
}.

Inductive PohLeaderStatus : Type :=
| NotReached
| Reached (poh_slot parent_slot : Z).

(** The entries of one record. *)
Definition entries_of {env : PohEnv} (entries : list PohEntry)
    (transaction_batches : list (list VersionedTransaction)) : list Entry :=
  zip_with (fun e txs => mkEntry _ (pe_num_hashes e) (pe_hash e) txs) entries transaction_batches.

Section Recorder.
Context {env : RecorderEnv}.

(** [sent] holds what went to the working bank's channel, and [registered] the
    ticks that were registered with a bank. *)
Record PohRecorder := mkRecorder {
  poh : PohState;
  tick_height : Z;
  start_bank : BankInfo;
  start_bank_active_descendants : list Z;
  start_tick_height : Z;
  tick_cache : list (Entry * Z);
  working_bank : option WorkingBank;
  shared_working_bank : option BankInfo;
  sent : list (Z * (Entry * Z));
  registered : list (Z * list Z);
  leader_first_tick_height : option Z;
  leader_last_tick_height : Z;
  grace_ticks : Z;
  ticks_per_slot : Z;
  delay_leader_block_for_pending_fork : bool;
  track_transaction_indexes : bool;
}.

#[export] Instance eta_PohRecorder : Eta PohRecorder := fun r =>
  mkRecorder (poh r) (tick_height r) (start_bank r) (start_bank_active_descendants r)
    (start_tick_height r) (tick_cache r) (working_bank r) (shared_working_bank r) (sent r)
    (registered r) (leader_first_tick_height r) (leader_last_tick_height r) (grace_ticks r)
    (ticks_per_slot r) (delay_leader_block_for_pending_fork r) (track_transaction_indexes r).

Abbreviation start_slot r := (bi_slot (start_bank r)).

(** ** Leader slots *)

(** What [SharedLeaderFirstTickHeight] loads after a store: one number stands for
    no height. *)
Definition SHARED_LEADER_FIRST_TICK_HEIGHT_NONE : Z := U64_MAX.
Definition shared_leader_height (tick_height : option Z) : option Z :=
  let v := default SHARED_LEADER_FIRST_TICK_HEIGHT_NONE tick_height in
  if v =? SHARED_LEADER_FIRST_TICK_HEIGHT_NONE then None else Some v.

Definition compute_leader_slot_tick_heights (next_leader_slot : option (Z * Z)) (ticks_per_slot : Z)
    : outcome (option Z * Z * Z) :=
  let* most := plain_mul U64_MAX ticks_per_slot MAX_GRACE_SLOTS in
  match next_leader_slot with
  | Some (first_slot, last_slot) =>
      let* first := plain_mul U64_MAX first_slot ticks_per_slot in
      let* leader_first_tick_height := plain_add U64_MAX first 1 in
      let* next := plain_add U64_MAX last_slot 1 in
      let* last_tick_height := plain_mul U64_MAX next ticks_per_slot in
      let* slots := plain_sub last_slot first_slot in
      let* num_slots := plain_add U64_MAX slots 1 in
      let* ticks := plain_mul U64_MAX ticks_per_slot num_slots in
      Done (Some leader_first_tick_height, last_tick_height, Z.min most (ticks / GRACE_TICKS_FACTOR))
  | None =>
      let* ticks := plain_mul U64_MAX ticks_per_slot NUM_CONSECUTIVE_LEADER_SLOTS in
      Done (None, 0, Z.min most (ticks / GRACE_TICKS_FACTOR))
  end.

Definition set_leader_heights (self : PohRecorder) (next_leader_slot : option (Z * Z))
    : outcome PohRecorder :=
  let* heights := compute_leader_slot_tick_heights next_leader_slot (ticks_per_slot self) in
  let '(first, last, grace) := heights in
  Done (self<|grace_ticks := grace|><|leader_first_tick_height := shared_leader_height first|>
            <|leader_last_tick_height := last|>).

Definition new_with_clear_signal (tick_height : Z) (last_entry_hash : list Z) (start_bank : BankInfo)
    (next_leader_slot : option (Z * Z)) (ticks_per_slot : Z)
    (delay_leader_block_for_pending_fork : bool) (hashes_per_tick : option Z) : outcome PohRecorder :=
  let tick_number := 0 in
  let* poh := Poh.new_with_slot_info last_entry_hash hashes_per_tick tick_number in
  let* heights := compute_leader_slot_tick_heights next_leader_slot ticks_per_slot in
  let '(first, last, grace) := heights in
  let* start_tick_height := plain_add U64_MAX tick_height 1 in
  Done (mkRecorder poh tick_height start_bank [] start_tick_height [] None None [] []
          (shared_leader_height first) last grace ticks_per_slot delay_leader_block_for_pending_fork
          false).

Definition new (tick_height : Z) (last_entry_hash : list Z) (start_bank : BankInfo)
    (next_leader_slot : option (Z * Z)) (ticks_per_slot : Z) (hashes_per_tick : option Z)
    : outcome PohRecorder :=
  let delay_leader_block_for_pending_fork := false in
  new_with_clear_signal tick_height last_entry_hash start_bank next_leader_slot ticks_per_slot
    delay_leader_block_for_pending_fork hashes_per_tick.

Definition do_track_transaction_indexes (self : PohRecorder) : PohRecorder :=
  self<|track_transaction_indexes := true|>.

(** ** Banks *)

Definition clear_bank (self : PohRecorder) : outcome PohRecorder :=
  match working_bank self with
  | None => Done self
  | Some wb =>
      let bank := wb_bank wb in
      let self := self<|working_bank := None|><|shared_working_bank := None|> in
      if negb (ticks_per_slot self =? bi_ticks_per_slot bank) then Panicked
      else set_leader_heights self (next_leader_slot (bi_collector_id bank) (bi_slot bank))
  end.

Definition reset_poh (self : PohRecorder) (reset_bank : BankInfo) (reset_start_bank : bool)
    : outcome PohRecorder :=
  let* p := Poh.reset (poh self) (bi_last_blockhash reset_bank) (bi_hashes_per_tick reset_bank) in
  let self := self<|poh := p|><|tick_cache := []|> in
  let self :=
    if reset_start_bank
    then self<|start_bank := reset_bank|><|start_bank_active_descendants := []|> else self in
  let* next := plain_add U64_MAX (start_slot self) 1 in
  let* height := plain_mul U64_MAX next (ticks_per_slot self) in
  let* start := plain_add U64_MAX height 1 in
  Done (self<|tick_height := height|><|start_tick_height := start|>).

Definition reset (self : PohRecorder) (reset_bank : BankInfo) (next_leader_slot : option (Z * Z))
    : outcome PohRecorder :=
  let* self := clear_bank self in
  let* self := reset_poh self reset_bank true in
  set_leader_heights self next_leader_slot.

(** [take_while]. *)
Fixpoint take_while {A} (p : A -> bool) (l : list A) : list A :=
  match l with x :: l => if p x then x :: take_while p l else [] | [] => [] end.

(** How many of [n] entries sent in a row arrive, when the first is the
    [i]-th of the channel: a loop of sends ends at the first one that fails. *)
Fixpoint delivered (i n : nat) : nat :=
  match n with
  | O => O
  | S n => if connected i then S (delivered (S i) n) else O
  end.

Definition flush_cache (self : PohRecorder) (tick : bool)
    : outcome (result PohRecorderError unit * PohRecorder) :=
  match working_bank self with
  | None => Done (Err MaxHeightReached, self)
  | Some wb =>
      if tick_height self <? min_tick_height wb then Done (Err MinHeightNotReached, self)
      else if tick && (tick_height self =? min_tick_height wb)
      then Done (Err MinHeightNotReached, self)
      else
        let slot := bi_slot (wb_bank wb) in
        let ticks := take_while (fun x => x.2 <=? max_tick_height wb) (tick_cache self) in
        let entry_count := length ticks in
        let arrived := delivered (length (sent self)) entry_count in
        let self :=
          self<|registered := registered self ++ map (fun x => (slot, e_hash x.1)) (take (S arrived) ticks)|>
              <|sent := sent self ++ map (fun x => (slot, x)) (take arrived ticks)|> in
        let* self :=
          if max_tick_height wb <=? tick_height self then
            let self := self<|start_bank := wb_bank wb|> in
            let* first := plain_mul U64_MAX (start_slot self) (ticks_per_slot self) in
            let* start := plain_add U64_MAX first 1 in
            clear_bank (self<|start_tick_height := start|>)
          else Done self in
        let* self :=
          if (arrived <? entry_count)%nat then clear_bank self
          else Done (self<|tick_cache := drop entry_count (tick_cache self)|>) in
        Done (Ok tt, self)
  end.

Definition set_bank (self : PohRecorder) (bank : BankInfo) : outcome PohRecorder :=
  match working_bank self with
  | Some _ => Panicked
  | None =>
      let wb :=
        mkWorkingBank bank (bi_tick_height bank) (bi_max_tick_height bank)
          (if track_transaction_indexes self then Some 0 else None) in
      if negb (bi_ticks_per_slot bank =? ticks_per_slot self) then Panicked
      else
        let* self :=
          match bi_hashes_per_tick bank with
          | Some n =>
              if negb (hashes_per_tick (poh self) =? n) then reset_poh self bank false else Done self
          | None => Done self
          end in
        let self :=
          self<|shared_working_bank := Some bank|><|working_bank := Some wb|> in
        let* r := flush_cache self false in
        Done r.2
  end.

(** ** Ticks and records *)

Definition tick (self : PohRecorder) : outcome PohRecorder :=
  let* r := Poh.tick (poh self) in
  let (poh_entry, p) := r in
  let self := self<|poh := p|> in
  match poh_entry with
  | None => Done self
  | Some poh_entry =>
      let self := self<|tick_height := wrapping_add U64_MAX (tick_height self) 1|> in
      match leader_first_tick_height self with
      | None => Done self
      | Some _ =>
          let entry := mkEntry _ (pe_num_hashes poh_entry) (pe_hash poh_entry) [] in
          let* r := flush_cache (self<|tick_cache := tick_cache self ++ [(entry, tick_height self)]|>) true in
          Done r.2
      end
  end.

(** The hashing of the service between ticks. *)
Definition hash (self : PohRecorder) (max_num_hashes : Z) : outcome (bool * PohRecorder) :=
  let* r := Poh.hash (poh self) max_num_hashes in
  Done (r.1, self<|poh := r.2|>).

(** The loop of [record]: until the mixins fit into the current tick; [None]
    when the fuel is used up. *)
Fixpoint record_loop (fuel : nat) (self : PohRecorder) (bank_slot : Z) (mixins : list (list Z))
    (transaction_batches : list (list VersionedTransaction))
    : option (outcome (result PohRecorderError (option Z) * PohRecorder)) :=
  match fuel with
  | O => None
  | S fuel =>
      match flush_cache self false with
      | Done (Err e, self) => Some (Done (Err e, self))
      | Done (Ok _, self) =>
          match working_bank self with
          | None => Some (Done (Err MaxHeightReached, self))
          | Some wb =>
              if negb (bank_slot =? bi_slot (wb_bank wb)) then Some (Done (Err MaxHeightReached, self))
              else
                match Poh.record_batches (poh self) mixins [] with
                | Done (true, entries, p) =>
                    let self := self<|poh := p|> in
                    let entries := entries_of entries transaction_batches in
                    let arrived := delivered (length (sent self)) (length entries) in
                    let self :=
                      self<|sent := sent self ++
                              map (fun e => (bi_slot (wb_bank wb), (e, tick_height self)))
                                (take arrived entries)|> in
                    if (arrived <? length entries)%nat then Some (Done (Err SendError, self))
                    else
                      let num_transactions := zlen (concat transaction_batches) in
                      Some (Done (Ok (transaction_index wb),
                        self<|working_bank := Some (wb<|transaction_index :=
                          (fun i => saturating_add U64_MAX i num_transactions) <$> transaction_index wb|>)|>))
                | Done (false, _, p) =>
                    match tick (self<|poh := p|>) with
                    | Done self => record_loop fuel self bank_slot mixins transaction_batches
                    | Undefined => Some Undefined
                    | Panicked => Some Panicked
                    end
                | Undefined => Some Undefined
                | Panicked => Some Panicked
                end
          end
      | Undefined => Some Undefined
      | Panicked => Some Panicked
      end
  end.

Definition record (fuel : nat) (self : PohRecorder) (bank_slot : Z) (mixins : list (list Z))
    (transaction_batches : list (list VersionedTransaction))
    : option (outcome (result PohRecorderError (option Z) * PohRecorder)) :=
  if negb (zlen mixins =? zlen transaction_batches) then Some Panicked
  else if existsb (fun batch => match batch with [] => true | _ => false end) transaction_batches
  then Some Panicked
  else record_loop fuel self bank_slot mixins transaction_batches.

(** ** Whose turn it is *)

Abbreviation has_bank self := (match working_bank self with Some _ => true | None => false end).

Definition would_be_leader (self : PohRecorder) (within_next_n_ticks : Z) : outcome bool :=
  if has_bank self then Done true
  else
    match leader_first_tick_height self with
    | None => Done false
    | Some first =>
        let* soon := plain_add U64_MAX (tick_height self) within_next_n_ticks in
        Done ((first <=? soon) && (tick_height self <=? leader_last_tick_height self))
    end.

Definition slot_for_tick_height (self : PohRecorder) (tick_height : Z) : outcome Z :=
  if ticks_per_slot self =? 0 then Panicked
  else Done (saturating_sub tick_height 1 / ticks_per_slot self).

Definition current_poh_slot (self : PohRecorder) : outcome Z :=
  slot_for_tick_height self (saturating_add U64_MAX (tick_height self) 1).

Definition leader_and_slot_after_n_slots (self : PohRecorder) (slots_in_the_future : Z)
    : outcome (option (list Z * Z)) :=
  let* current := current_poh_slot self in
  Done (target_slot ← checked_add U64_MAX current slots_in_the_future;
        leader ← slot_leader_at target_slot;
        Some (leader, target_slot)).

(** The slots of the previous leader: the ones before [next_leader_slot], the
    last one first. *)
Definition previous_slots (next_leader_slot : Z) : list Z :=
  let first := saturating_sub next_leader_slot NUM_CONSECUTIVE_LEADER_SLOTS in
  map (fun i => next_leader_slot - 1 - Z.of_nat i) (seq 0 (Z.to_nat (next_leader_slot - first))).

Definition start_slot_was_mine_or_previous_leader (self : PohRecorder) (next_leader_slot : Z) : bool :=
  existsb (fun slot => slot =? start_slot self) (previous_slots next_leader_slot).

Fixpoint walk_back (self : PohRecorder) (my_pubkey : list Z) (slots : list Z) : bool :=
  match slots with
  | [] => false
  | slot :: slots =>
      match slot_leader_at slot with
      | None => walk_back self my_pubkey slots
      | Some leader =>
          if bool_decide (leader = my_pubkey) then walk_back self my_pubkey slots
          else slot =? start_slot self
      end
  end.

Definition building_off_previous_leader_last_block (self : PohRecorder) (my_pubkey : list Z)
    (next_leader_slot : Z) : bool :=
  walk_back self my_pubkey (previous_slots next_leader_slot).

Definition is_new_reset_bank_pending (self : PohRecorder) (next_leader_slot : Z) : bool :=
  existsb (fun pending_slot => pending_slot <? next_leader_slot) (start_bank_active_descendants self).

Definition can_skip_grace_ticks (self : PohRecorder) (my_pubkey : list Z) (next_leader_slot : Z) : bool :=
  if bool_decide (bi_collector_id (start_bank self) = my_pubkey) then true
  else if start_slot_was_mine_or_previous_leader self next_leader_slot
  then building_off_previous_leader_last_block self my_pubkey next_leader_slot
  else if negb (is_new_reset_bank_pending self next_leader_slot) then true
  else negb (delay_leader_block_for_pending_fork self).

Definition reached_leader_tick (self : PohRecorder) (my_pubkey : list Z) (leader_first_tick_height : Z)
    : outcome bool :=
  if start_tick_height self =? leader_first_tick_height then Done true
  else
    let ideal_target_tick_height := saturating_sub leader_first_tick_height 1 in
    if tick_height self <? ideal_target_tick_height then Done false
    else if saturating_add U64_MAX ideal_target_tick_height (grace_ticks self) <=? tick_height self
    then Done true
    else
      let* next_leader_slot := current_poh_slot self in
      Done (can_skip_grace_ticks self my_pubkey next_leader_slot).

Definition reached_leader_slot (self : PohRecorder) (my_pubkey : list Z) : outcome PohLeaderStatus :=
  let* current := current_poh_slot self in
  match leader_first_tick_height self with
  | None => Done NotReached
  | Some first =>
      let* reached := reached_leader_tick self my_pubkey first in
      if negb reached then Done NotReached
      else if has_existing_shreds_for_slot current then Done NotReached
      else Done (Reached current (start_slot self))
  end.

Definition update_start_bank_active_descendants (self : PohRecorder) (active_descendants : list Z)
    : PohRecorder :=
  self<|start_bank_active_descendants := active_descendants|>.

End Recorder.

(** ** Chains that the generator continues *)

Section Chain.
Context {env : PohEnv}.
Context (start : list Z) (hpt : Z) (Hhpt : 1 < hpt < U64_MAX).

Definition chain_end (h : list Z) (es : list Entry) : list Z := foldl (fun _ e => e_hash e) h es.

(** The entries are a valid chain with the right number of hashes between
    ticks. *)
Definition well_counted (es : list Entry) (count : Z) : Prop :=
  valid_chain start es = true /\ EntrySlice.verify_tick_hash_count es 0 hpt = (true, count) /\
  0 <= count /\ Forall counted es.

(** The generator goes on where the entries end. *)
Definition continues (es : list Entry) (p : PohState) : Prop :=
  exists count, well_counted es count /\
    poh_hash p = Poh.hash_times (poh_num_hashes p) (chain_end start es) /\
    hashes_per_tick p = hpt /\ 0 <= poh_num_hashes p /\ 1 <= remaining_hashes p /\
    count + poh_num_hashes p + remaining_hashes p = hpt /\ 0 <= tick_number p.

Lemma valid_chain_app es : forall h es',
  valid_chain h (es ++ es') = valid_chain h es && valid_chain (chain_end h es) es'.
Proof. induction es as [|e es IH]; intros h es'; [done|]. cbn. by rewrite IH, andb_assoc. Qed.

Lemma tick_count_app es : forall c c' es',
  EntrySlice.verify_tick_hash_count es c hpt = (true, c') ->
  EntrySlice.verify_tick_hash_count (es ++ es') c hpt = EntrySlice.verify_tick_hash_count es' c' hpt.
Proof.
  assert ((hpt =? 0) = false) as E0 by (apply Z.eqb_neq; lia).
  induction es as [|e es IH]; intros c c' es'; cbn [app EntrySlice.verify_tick_hash_count]; rewrite E0.
  - intros [= _ <-]. done.
  - destruct (Entry.is_tick e); [|apply IH]. destruct (negb _); [done|apply IH].
Qed.

Lemma hash_continues es p n :
  continues es p -> 0 <= n ->
  exists b p', Poh.hash p n = Done (b, p') /\ continues es p' /\ tick_number p' = tick_number p.
Proof.
  intros (c & Hw & Hh & Hp & H0 & H1 & Hsum & Ht) Hn. pose proof Hw as (_ & _ & Hc & _).
  unfold Poh.hash. rewrite plain_sub_Done by lia. cbn [obind].
  set (k := Z.min (remaining_hashes p - 1) n). rewrite plain_add_Done, plain_sub_Done by lia. cbn [obind].
  rewrite (proj2 (Z.ltb_lt _ _)) by lia. cbn [negb]. eexists _, _. split; [done|]. split; [|done].
  exists c. cbn. split_and!; try done; try lia.
  rewrite Hh, <- hash_times_add by lia. done.
Qed.

(** One more entry with transactions. *)
Lemma add_transactions es count num txs :
  well_counted es count -> txs <> [] -> 1 <= num -> count + num < hpt ->
  let h := hashv [Poh.hash_times (num - 1) (chain_end start es); mixin_of txs] in
  well_counted (es ++ [mkEntry _ num h txs]) (count + num).
Proof.
  intros (Hv & Hc & H0 & Hf) Ht Hn Hlt h. split_and!; [| |lia|].
  - rewrite valid_chain_app, Hv. cbn. unfold expected. destruct txs; [done|].
    by rewrite bool_decide_true.
  - rewrite (tick_count_app es _ _ _ Hc). cbn. rewrite (proj2 (Z.eqb_neq hpt 0)) by lia.
    unfold Entry.is_tick. cbn. destruct txs; [done|]. unfold saturating_add. rewrite Z.min_r by lia.
    by rewrite (proj2 (Z.ltb_lt _ _)).
  - apply Forall_app. split; [done|]. constructor; [|done]. unfold counted. cbn. lia.
Qed.

Lemma chain_end_app es e : chain_end start (es ++ [e]) = e_hash e.
Proof. unfold chain_end. by rewrite foldl_app. Qed.

(** The entries of several mixins. *)
Lemma mix_in_chain batches : forall es count num,
  well_counted es count -> Forall (fun b => b <> []) batches -> 1 <= num ->
  (batches <> [] -> count + num + zlen batches - 1 < hpt) -> batches <> [] ->
  let (entries, last) := Poh.mix_in (Poh.hash_times (num - 1) (chain_end start es)) num (map mixin_of batches) in
  well_counted (es ++ entries_of entries batches) (count + num + zlen batches - 1) /\
  last = chain_end start (es ++ entries_of entries batches).
Proof.
  induction batches as [|txs batches IH]; intros es count num Hw Hb Hn Hlt Hne; [done|].
  apply Forall_cons in Hb as [Ht Hb]. rewrite zlen_cons in *. pose proof (zlen_nonneg batches) as Hz.
  specialize (Hlt ltac:(done)). cbn [map Poh.mix_in].
  set (h := hashv [Poh.hash_times (num - 1) (chain_end start es); mixin_of txs]).
  pose proof (add_transactions es count num txs Hw Ht Hn ltac:(lia)) as Hw1. cbn zeta in Hw1. fold h in Hw1.
  destruct batches as [|txs' batches].
  - cbn. rewrite chain_end_app. split; [|done]. eapply eq_ind; [exact Hw1|]. unfold zlen. cbn. lia.
  - specialize (IH (es ++ [mkEntry _ num h txs]) (count + num) 1 Hw1 Hb ltac:(lia)).
    rewrite chain_end_app in IH. change (Poh.hash_times (1 - 1) (e_hash (mkEntry _ num h txs))) with h in IH.
    destruct (Poh.mix_in h 1 (map mixin_of (txs' :: batches))) as [entries last].
    destruct IH as [IH1 IH2]; [lia|done|]. cbn [entries_of zip_with].
    fold (entries_of entries (txs' :: batches)). rewrite <- app_assoc in IH1, IH2. cbn in IH1, IH2.
    split; [|exact IH2]. eapply eq_ind; [exact IH1|]. lia.
Qed.

Lemma record_continues es p batches :
  continues es p -> batches <> [] -> Forall (fun b => b <> []) batches -> zlen batches < U64_MAX ->
  (remaining_hashes p < zlen batches + 1 ->
   Poh.record_batches p (map mixin_of batches) [] = Done (false, [], p)) /\
  (zlen batches + 1 <= remaining_hashes p ->
   exists entries p', Poh.record_batches p (map mixin_of batches) [] = Done (true, entries, p') /\
     continues (es ++ entries_of entries batches) p' /\ tick_number p' = tick_number p).
Proof.
  intros (c & Hw & Hh & Hp & H0 & H1 & Hsum & Ht) Hne Hb Hmax. pose proof Hw as (_ & _ & Hc & _).
  assert (0 < zlen batches) as Hz by (destruct batches; [done|]; unfold zlen; cbn; lia).
  assert (zlen (map mixin_of batches) = zlen batches) as El by (unfold zlen; by rewrite length_map).
  unfold Poh.record_batches. rewrite El. rewrite (proj2 (Z.eqb_neq _ _)) by lia. split.
  - intros Hlt. rewrite plain_add_Done by lia. cbn [obind]. by rewrite (proj2 (Z.ltb_lt _ _)).
  - intros Hle. rewrite plain_add_Done by lia. cbn [obind]. rewrite (proj2 (Z.ltb_ge _ _)) by lia.
    rewrite plain_add_Done by lia. cbn [obind].
    pose proof (mix_in_chain batches es c (poh_num_hashes p + 1) Hw Hb ltac:(lia)) as Hmix.
    replace (poh_num_hashes p + 1 - 1) with (poh_num_hashes p) in Hmix by lia. rewrite <- Hh in Hmix.
    destruct (Poh.mix_in _ _ _) as [entries last]. destruct Hmix as [Hw' Hlast]; [lia|done|].
    rewrite plain_sub_Done by lia. cbn [obind]. eexists _, _. split; [done|]. split; [|done].
    exists (c + (poh_num_hashes p + 1) + zlen batches - 1). cbn. split_and!; try done; lia.
Qed.

Lemma tick_continues es p :
  continues es p -> tick_number p < U64_MAX ->
  (1 < remaining_hashes p ->
   exists p', Poh.tick p = Done (None, p') /\ continues es p' /\
     remaining_hashes p' = remaining_hashes p - 1 /\ tick_number p' = tick_number p) /\
  (remaining_hashes p = 1 ->
   exists pe p', Poh.tick p = Done (Some pe, p') /\
     continues (es ++ [mkEntry _ (pe_num_hashes pe) (pe_hash pe) []]) p' /\
     remaining_hashes p' = hpt /\ tick_number p' = tick_number p + 1).
Proof.
  intros (c & (Hv & Hcnt & Hc & Hf) & Hh & Hp & H0 & H1 & Hsum & Ht) Hlt.
  unfold Poh.tick. rewrite plain_add_Done, plain_sub_Done by lia. cbn [obind].
  cbn [hashes_per_tick set_field]. rewrite Hp. unfold LOW_POWER_MODE.
  rewrite (proj2 (Z.eqb_neq hpt U64_MAX)) by lia. cbn [negb andb]. split.
  - intros Hr. rewrite (proj2 (Z.eqb_neq _ _)) by lia. cbn [negb]. eexists. split; [done|].
    cbn. split_and!; try done. exists c. cbn. split_and!; try done; try lia.
    rewrite Hh. by rewrite hash_times_succ.
  - intros Hr. rewrite Hr. cbn [negb Z.sub Z.eqb]. cbn. rewrite plain_add_Done by lia. cbn [obind].
    eexists _, _. split; [done|]. cbn. split_and!; try done. exists 0. cbn.
    split_and!; try done; try lia.
    split_and!; try lia.
    + rewrite valid_chain_app, Hv. cbn. rewrite Hh, hash_times_succ by done. by rewrite bool_decide_true.
    + rewrite (tick_count_app es _ _ _ Hcnt). cbn. rewrite (proj2 (Z.eqb_neq hpt 0)) by lia.
      unfold saturating_add. rewrite Z.min_r by lia.
      replace (c + (poh_num_hashes p + 1)) with hpt by lia. rewrite Z.eqb_refl. cbn.
      by rewrite (proj2 (Z.ltb_lt _ _)) by lia.
    + apply Forall_app. split; [done|]. constructor; [|done]. unfold counted. cbn. lia.
    + unfold chain_end. rewrite foldl_app. done.
Qed.

End Chain.

(** ** Runs of the recorder *)

Lemma delivered_all {env : RecorderEnv} (Hconn : forall i, connected i = true) i n : delivered i n = n.
Proof. revert i. induction n as [|n IH]; intros i; cbn; [done|]. by rewrite Hconn, IH. Qed.

Section Runs.
Context {env : RecorderEnv}.
Context (start : list Z) (hpt tps : Z) (Hhpt : 1 < hpt < U64_MAX) (Htps : 0 < tps) (Hconn : forall i, connected i = true).
(** Slots below [last] are far from the end of the numbers, and so are the ones
    that the schedule gives for them. *)
Context (last : Z) (Hlast : last * tps < U64_MAX).
Context (Hsched : forall c s, 0 <= s < last ->
  exists x, compute_leader_slot_tick_heights (next_leader_slot c s) tps = Done x).
Context (base : list (Z * (Entry * Z))).

Abbreviation cached r := (map fst (tick_cache r)).

(** What was sent since the generator was reset. *)
Definition sent_since (r : PohRecorder) (es : list Entry) : Prop :=
  exists new, sent r = base ++ new /\ es = map (fun x => x.2.1) new.

Record rec_inv (r : PohRecorder) (es : list Entry) : Prop := {
  ri_tps : ticks_per_slot r = tps;
  ri_sent : sent_since r es;
  ri_counted : exists c, well_counted start hpt es c;
  ri_chain : is_Some (leader_first_tick_height r) -> continues start hpt (es ++ cached r) (poh r);
  ri_idle : leader_first_tick_height r = None -> working_bank r = None;
  ri_poh : exists es', continues start hpt es' (poh r);
  ri_cache : Forall (fun x => e_transactions x.1 = [] /\ x.2 <= tick_height r) (tick_cache r);
  ri_height : tick_number (poh r) <= tick_height r;
  ri_shared : shared_working_bank r = wb_bank <$> working_bank r;
  ri_bank wb : working_bank r = Some wb ->
    bi_ticks_per_slot (wb_bank wb) = tps /\ 0 <= bi_slot (wb_bank wb) < last /\
    max_tick_height wb <= U64_MAX;
  ri_start : 0 <= bi_slot (start_bank r) < last;
}.

Lemma clear_bank_inv r es :
  rec_inv r es -> exists r', clear_bank r = Done r' /\ rec_inv r' es /\ working_bank r' = None /\
    poh r' = poh r /\ tick_height r' = tick_height r /\ tick_cache r' = tick_cache r.
Proof.
  intros I. pose proof I as [I1 I2 I3 I4 I5 I6 I7 I8 I9 I10 I11]. unfold clear_bank.
  destruct (working_bank r) as [wb|] eqn:E; [|exists r; split_and!; done].
  destruct (I10 wb eq_refl) as (Hb & Hslot & _). rewrite <- I1 in Hb. cbn [ticks_per_slot set_field].
  unfold set_leader_heights. cbn. rewrite Hb, Z.eqb_refl. cbn.
  destruct (Hsched (bi_collector_id (wb_bank wb)) (bi_slot (wb_bank wb)) Hslot) as [[[first final] grace] Hx].
  rewrite I1, Hx. cbn. eexists. split; [done|]. split_and!; try done.
  assert (is_Some (leader_first_tick_height r)) as Hlead.
  { destruct (leader_first_tick_height r); [done|]. by specialize (I5 eq_refl). }
  split; cbn; try done. intros _. by apply I4.
Qed.

(** The cache does not matter for clearing the bank. *)
Lemma clear_bank_cache r c :
  clear_bank (r<|tick_cache := c|>)
  = let* r' := clear_bank r in Done (r'<|tick_cache := c|>).
Proof.
  unfold clear_bank, set_leader_heights. cbn. destruct (working_bank r) as [wb|]; [|done]. cbn.
  destruct (negb _); [done|]. by destruct (compute_leader_slot_tick_heights _ _) as [[[? ?] ?]| |].
Qed.

Lemma take_while_app {A} (f : A -> bool) l : exists l', l = take_while f l ++ l'.
Proof.
  induction l as [|x l [l' IH]]; [by exists []|]. cbn. destruct (f x); [|by exists (x :: l)].
  exists l'. cbn. by f_equal.
Qed.

Lemma take_while_all {A} (f : A -> bool) l : Forall (fun x => f x = true) l -> take_while f l = l.
Proof. induction 1 as [|x l Hx _ IH]; [done|]. cbn. by rewrite Hx, IH. Qed.

(** A chain may be cut after ticks. *)
Lemma tick_count_prefix es1 es2 c : c < hpt -> Forall (fun e => e_transactions e = []) es1 ->
  (EntrySlice.verify_tick_hash_count (es1 ++ es2) c hpt).1 = true ->
  0 <= c -> Forall counted es1 ->
  exists c', EntrySlice.verify_tick_hash_count es1 c hpt = (true, c') /\ 0 <= c'.
Proof.
  assert ((hpt =? 0) = false) as E0 by (apply Z.eqb_neq; lia).
  intros Hc Ht. revert c Hc. induction Ht as [|e es1 He _ IH]; intros c Hc;
    cbn [app EntrySlice.verify_tick_hash_count]; rewrite E0.
  - intros _ H0 _. exists c. by rewrite (proj2 (Z.ltb_lt _ _)).
  - unfold Entry.is_tick. rewrite He. destruct (negb _); [done|]. intros H _ [_ Hf]%Forall_cons.
    apply IH; try done; lia.
Qed.

Lemma well_counted_lt es c : well_counted start hpt es c -> c < hpt.
Proof.
  assert ((hpt =? 0) = false) as E0 by (apply Z.eqb_neq; lia).
  intros (_ & H & _). revert H. generalize 0. induction es as [|e es IH]; intros c0;
    cbn [EntrySlice.verify_tick_hash_count]; rewrite E0.
  - intros [= H <-]. by apply Z.ltb_lt.
  - destruct (Entry.is_tick e); [destruct (negb _); [done|]|]; apply IH.
Qed.

Lemma well_counted_prefix es ticks rest c c' :
  well_counted start hpt es c -> Forall (fun e => e_transactions e = []) ticks ->
  well_counted start hpt (es ++ ticks ++ rest) c' -> exists c'', well_counted start hpt (es ++ ticks) c''.
Proof.
  intros Hw Ht (V & C & _ & F). pose proof (well_counted_lt es c Hw) as Hlt.
  destruct Hw as (V1 & C1 & H1 & F1). rewrite (tick_count_app hpt Hhpt es _ _ _ C1) in C.
  rewrite app_assoc, !Forall_app in F. rewrite app_assoc, valid_chain_app in V.
  apply andb_prop in V as [V _].
  destruct (tick_count_prefix ticks rest c Hlt Ht) as (c2 & C2 & H2); [by rewrite C|done|tauto|].
  exists c2. split_and!; [done| |done|apply Forall_app; tauto].
  by rewrite (tick_count_app hpt Hhpt es _ _ _ C1).
Qed.

(** Sending the ticks at the front of the cache. *)
Lemma send_ticks r es ticks rest slot reg :
  rec_inv r es -> tick_cache r = ticks ++ rest -> is_Some (working_bank r) ->
  let r' := r<|registered := reg|><|sent := sent r ++ map (fun x => (slot, x)) ticks|>
             <|tick_cache := rest|> in
  rec_inv r' (es ++ map fst ticks).
Proof.
  intros [I1 I2 I3 I4 I5 I6 I7 I8 I9 I10 I11] E [wb Hwb] r'.
  assert (is_Some (leader_first_tick_height r)) as Hlead.
  { destruct (leader_first_tick_height r); [done|]. by rewrite I5 in Hwb. }
  rewrite E in I4, I7. rewrite map_app in I4. apply Forall_app in I7 as [I7a I7b]. specialize (I4 Hlead).
  split; cbn; try done.
  - destruct I2 as (new & E1 & ->). exists (new ++ map (fun x => (slot, x)) ticks). cbn.
    rewrite E1, <- app_assoc. split; [done|]. rewrite map_app. f_equal. rewrite map_map. by apply map_ext.
  - destruct I3 as [c Hw]. destruct I4 as (c' & Hw' & _). eapply well_counted_prefix; [exact Hw| |exact Hw'].
    apply Forall_fmap. eapply Forall_impl; [exact I7a|]. by intros x [? _].
  - intros _. by rewrite <- app_assoc.
Qed.

(** Only ticks were added. *)
Definition ticks_more (es es' : list Entry) : Prop :=
  exists ticks, es' = es ++ ticks /\ Forall (fun e => e_transactions e = []) ticks.

Lemma ticks_more_refl es : ticks_more es es.
Proof. exists []. by rewrite app_nil_r. Qed.

Lemma ticks_more_trans es1 es2 es3 : ticks_more es1 es2 -> ticks_more es2 es3 -> ticks_more es1 es3.
Proof.
  intros (t & -> & H) (t' & -> & H'). exists (t ++ t'). rewrite app_assoc. split; [done|].
  by apply Forall_app.
Qed.

(** What a flush does: it may send cached ticks; if it succeeds and the bank
    stays, nothing is left in the cache and the bank's last tick is ahead. *)
Definition flushed (r r' : PohRecorder) (es es' : list Entry) (res : result PohRecorderError unit)
    : Prop :=
  rec_inv r' es' /\ ticks_more es es' /\ poh r' = poh r /\ tick_height r' = tick_height r /\
  (working_bank r' = None \/
   working_bank r' = working_bank r /\ leader_first_tick_height r' = leader_first_tick_height r /\
   (res = Ok tt -> forall wb, working_bank r' = Some wb ->
      tick_cache r' = [] /\ tick_height r' < max_tick_height wb)).

Lemma flush_inv r es tick :
  rec_inv r es -> exists res r' es', flush_cache r tick = Done (res, r') /\ flushed r r' es es' res.
Proof.
  intros I. unfold flush_cache. destruct (working_bank r) as [wb|] eqn:Ewb.
  2: { exists (Err MaxHeightReached), r, es. split; [done|].
       split_and!; try done; [apply ticks_more_refl|by left]. }
  destruct (tick_height r <? min_tick_height wb).
  { exists (Err MinHeightNotReached), r, es. split; [done|].
    split_and!; try done; [apply ticks_more_refl|by right]. }
  destruct (tick && _).
  { exists (Err MinHeightNotReached), r, es. split; [done|].
    split_and!; try done; [apply ticks_more_refl|by right]. }
  cbn zeta. rewrite (delivered_all Hconn), Nat.ltb_irrefl, firstn_all, (take_ge _ (S _)) by lia.
  set (ticks := take_while (fun x => x.2 <=? max_tick_height wb) (tick_cache r)).
  destruct (take_while_app (fun x => x.2 <=? max_tick_height wb) (tick_cache r)) as [rest Er].
  fold ticks in Er.
  pose proof (send_ticks r es ticks rest (bi_slot (wb_bank wb))
    (registered r ++ map (fun x => (bi_slot (wb_bank wb), e_hash x.1)) ticks) I Er ltac:(by eexists)) as I'.
  cbn zeta in I'. set (r2 := r<|registered := _|><|sent := _|><|tick_cache := rest|>) in I'.
  pose proof I as [I1 _ _ _ _ _ I7 _ _ I10 _]. destruct (I10 wb Ewb) as (B1 & B2 & B4).
  assert (bi_slot (wb_bank wb) * tps < U64_MAX) as B3 by nia.
  assert (ticks_more es (es ++ map fst ticks)) as Hmore.
  { exists (map fst ticks). split; [done|]. apply Forall_fmap. rewrite Er in I7.
    apply Forall_app in I7 as [I7 _]. eapply Forall_impl; [exact I7|]. by intros x [? _]. }
  destruct (Z.leb_spec (max_tick_height wb) (tick_height r)) as [Hmax|Hmax].
  - cbn. rewrite (proj2 (Z.leb_le (max_tick_height wb) (tick_height r))) by lia. rewrite I1.
    unfold plain_mul. rewrite (proj2 (Z.leb_le (bi_slot (wb_bank wb) * tps) U64_MAX)) by lia. cbn [obind].
    rewrite plain_add_Done by lia. cbn [obind].
    set (r3 := r2<|start_bank := wb_bank wb|><|start_tick_height := bi_slot (wb_bank wb) * tps + 1|>).
    assert (rec_inv r3 (es ++ map fst ticks)) as I3 by (destruct I'; by split).
    destruct (clear_bank_inv _ _ I3) as (r4 & E4 & I4 & Hn & Hp & Hh & Hc).
    exists (Ok tt), r4, (es ++ map fst ticks). split.
    + match goal with |- obind (clear_bank ?x) _ = _ => set (r1 := x) end.
      assert (r3 = r1<|tick_cache := rest|>) as E31 by done. rewrite E31, clear_bank_cache in E4.
      assert (tick_cache r1 = tick_cache r) as Hc1 by done.
      assert (forall r', clear_bank r1 = Done r' -> tick_cache r' = tick_cache r) as Hkeep.
      { intros r' E. unfold clear_bank, set_leader_heights in E. cbn in E. rewrite Ewb in E. cbn in E.
        destruct (negb _); [done|]. destruct (compute_leader_slot_tick_heights _ _) as [[[? ?] ?]| |]; try done.
        by injection E as <-. }
      destruct (clear_bank r1) as [r'| |] eqn:Ec; try done. cbn in E4. injection E4 as <-. cbn [obind].
      rewrite (Hkeep r' eq_refl), Er. by rewrite drop_app_length.
    + split_and!; try done. by left.
  - cbn. rewrite (proj2 (Z.leb_gt (max_tick_height wb) (tick_height r))) by lia.
    exists (Ok tt), r2, (es ++ map fst ticks). split.
    { unfold r2. cbn. do 2 f_equal. rewrite Er. by rewrite drop_app_length. }
    split_and!; try done. right. cbn. split; [done|]. split; [done|]. intros _ wb' Hwb'.
    rewrite Ewb in Hwb'. injection Hwb' as <-. split; [|done].
    assert (ticks = tick_cache r) as Et.
    { apply take_while_all. eapply Forall_impl; [exact I7|]. intros x [_ Hx]. apply Z.leb_le. lia. }
    rewrite Et in Er. rewrite <- (app_nil_r (tick_cache r)) in Er at 1. by apply app_inv_head in Er.
Qed.

(** Hashes until the last tick of the working bank. *)
Definition hashes_left (r : PohRecorder) : Z :=
  match working_bank r with
  | Some wb => (max_tick_height wb - tick_height r) * hpt + remaining_hashes (poh r)
  | None => 0
  end.

Lemma tick_inv r es :
  rec_inv r es -> tick_height r < U64_MAX ->
  exists r' es', tick r = Done r' /\ rec_inv r' es' /\ ticks_more es es' /\
    (working_bank r' = None \/ working_bank r' = working_bank r /\ hashes_left r' = hashes_left r - 1).
Proof.
  intros I Hlt. pose proof I as [I1 I2 I3 I4 I5 I6 I7 I8 I9 I10 I11]. destruct I6 as [es0 C0].
  pose proof C0 as (_ & _ & _ & _ & _ & Hr1 & _ & Ht0).
  destruct (tick_continues start hpt Hhpt es0 (poh r) C0 ltac:(lia)) as [T1 T2].
  destruct (decide (remaining_hashes (poh r) = 1)) as [Hr|Hr].
  - destruct (T2 Hr) as (pe & p' & E & C' & Hrem & Htn). unfold tick. rewrite E. cbn [obind].
    set (e := mkEntry _ (pe_num_hashes pe) (pe_hash pe) []) in *.
    assert (wrapping_add U64_MAX (tick_height r) 1 = tick_height r + 1) as Hw
      by (apply wrapping_add_small; lia).
    destruct (leader_first_tick_height r) as [first|] eqn:El; cbn; rewrite El, Hw.
    2: { eexists _, es. split; [done|]. split.
         - split; cbn; try done; [rewrite El; by intros [? ?]|by intros _; apply I5|by exists (es0 ++ [e])| |lia].
           eapply Forall_impl; [exact I7|]. cbn. intros x [? ?]. split; [done|lia].
         - split; [apply ticks_more_refl|]. left. by apply I5. }
    match goal with |- context [flush_cache ?x true] => set (r1 := x) end.
    assert (rec_inv r1 es) as I1'.
    { destruct (tick_continues start hpt Hhpt _ _ (I4 ltac:(by eexists)) ltac:(lia)) as [_ T3].
      destruct (T3 Hr) as (pe' & p2 & E2 & C2 & _). rewrite E in E2. injection E2 as <- <-.
      split; cbn; try done; [|by rewrite El|by exists (es0 ++ [e])| |lia].
      - intros _. rewrite map_app, app_assoc. exact C2.
      - apply Forall_app. split; [|constructor; [cbn; split; [done|lia]|done]].
        eapply Forall_impl; [exact I7|]. intros x [? ?]. split; [done|lia]. }
    destruct (flush_inv r1 es true I1') as (res & r' & es' & -> & F1 & Fm & F2 & F3 & F4). cbn [obind].
    exists r', es'. split; [done|]. split; [done|]. split; [done|]. destruct F4 as [Hn|(Hwb & _)]; [by left|].
    change (working_bank r1) with (working_bank r) in Hwb.
    destruct (working_bank r) as [wb|] eqn:Ewb; [right|by left].
    split; [by rewrite Hwb|]. unfold hashes_left. rewrite Hwb, Ewb, F2, F3. cbn. rewrite Hrem, Hr. lia.
  - destruct (T1 ltac:(lia)) as (p' & E & C' & Hrem & Htn). unfold tick. rewrite E. cbn [obind].
    eexists _, es. split; [done|]. split.
    + split; cbn; try done; [|by exists es0|lia]. intros Hl.
      destruct (tick_continues start hpt Hhpt _ _ (I4 Hl) ltac:(lia)) as [T3 _].
      destruct (T3 ltac:(lia)) as (p2 & E2 & C2 & _). rewrite E in E2. by injection E2 as <-.
    + split; [apply ticks_more_refl|]. unfold hashes_left. cbn. destruct (working_bank r); [right|by left]. split; [done|]. rewrite Hrem. lia.
Qed.

(** The entries of a record hold the transactions, batch by batch. *)
Lemma mix_in_length mixins : forall h n, length (Poh.mix_in h n mixins).1 = length mixins.
Proof.
  induction mixins as [|m mixins IH]; intros h n; [done|]. cbn. specialize (IH (hashv [h; m]) 1).
  destruct (Poh.mix_in _ _ _). cbn in *. by rewrite IH.
Qed.

Lemma record_batches_length p mixins entries p' :
  Poh.record_batches p mixins [] = Done (true, entries, p') -> length entries = length mixins.
Proof.
  unfold Poh.record_batches. destruct (_ =? 0); [done|].
  destruct (plain_add _ _ _); try done. cbn [obind]. destruct (_ <? _); [done|].
  destruct (plain_add _ _ _) as [n| |]; try done. cbn [obind].
  pose proof (mix_in_length mixins (poh_hash p) n) as H.
  destruct (Poh.mix_in _ _ _). destruct (plain_sub _ _); try done. cbn [obind]. by intros [= <- _].
Qed.

Lemma entries_of_transactions entries batches :
  length entries = length batches -> map e_transactions (entries_of entries batches) = batches.
Proof.
  revert entries. induction batches as [|b batches IH]; intros [|e entries] H; try done.
  cbn. f_equal. apply IH. by injection H.
Qed.

(** What [record] leaves: on success the entries of the batches came last, in
    the given order and for the given bank. *)
Definition recorded (bank_slot : Z) (batches : list (list VersionedTransaction)) (es : list Entry)
    (res : result PohRecorderError (option Z)) (r' : PohRecorder) : Prop :=
  exists es1 es2, rec_inv r' (es1 ++ es2) /\ ticks_more es es1 /\
    match res with
    | Ok _ => map e_transactions es2 = batches /\
        exists wb, working_bank r' = Some wb /\ bi_slot (wb_bank wb) = bank_slot
    | Err _ => es2 = []
    end.

Lemma send_record r es entries p wb :
  rec_inv r es -> tick_cache r = [] -> working_bank r = Some wb ->
  continues start hpt (es ++ entries) p -> tick_number p = tick_number (poh r) ->
  forall i height,
  let r' := r<|poh := p|><|sent := sent r ++ map (fun e => (bi_slot (wb_bank wb), (e, height))) entries|>
             <|working_bank := Some (wb<|transaction_index := i|>)|> in
  rec_inv r' (es ++ entries).
Proof.
  intros [I1 I2 I3 I4 I5 I6 I7 I8 I9 I10 I11] Hc Hwb HC Ht i height r'. split; cbn; try done.
  - destruct I2 as (new & E & ->). exists (new ++ map (fun e => (bi_slot (wb_bank wb), (e, height))) entries).
    cbn. rewrite E, <- app_assoc. split; [done|]. rewrite map_app, map_map. f_equal. cbn. by rewrite map_id.
  - by destruct HC as (c & Hw & _); exists c.
  - intros _. by rewrite Hc, app_nil_r.
  - intros El. by rewrite I5 in Hwb.
  - by exists (es ++ entries).
  - lia.
  - by rewrite I9, Hwb.
  - intros wb' [= <-]. exact (I10 wb Hwb).
Qed.

(** Recording ends, with as much fuel as there are hashes left. *)
Lemma record_loop_inv batches bank_slot :
  batches <> [] -> Forall (fun b => b <> []) batches -> zlen batches < U64_MAX ->
  forall fuel r es, rec_inv r es -> (Z.to_nat (hashes_left r) < fuel)%nat ->
  exists res r', record_loop fuel r bank_slot (map mixin_of batches) batches = Some (Done (res, r')) /\
    recorded bank_slot batches es res r'.
Proof.
  intros Hne Hb Hmax. induction fuel as [|fuel IH]; intros r es I Hf; [lia|]. cbn [record_loop].
  destruct (flush_inv r es false I) as (res & r1 & es1 & -> & F1 & Fm & F2 & F3 & F4).
  assert (forall e, recorded bank_slot batches es (Err e) r1) as Herr.
  { intros e. exists es1, []. by rewrite app_nil_r. }
  destruct res as [[]|e]; [|by eexists _, _]. destruct (working_bank r1) as [wb|] eqn:Ewb; [|by eexists _, _].
  destruct (Z.eqb_spec bank_slot (bi_slot (wb_bank wb))) as [Eslot|_]; cbn [negb]; [|by eexists _, _].
  destruct F4 as [?|(Hwb & _ & Hok)]; [done|]. destruct (Hok eq_refl wb eq_refl) as [Hcache Hlt].
  pose proof F1 as [_ _ _ J4 J5 _ _ _ _ J10 _]. destruct (J10 wb Ewb) as (_ & _ & Htop).
  assert (continues start hpt es1 (poh r1)) as HC.
  { rewrite Hcache, app_nil_r in J4. apply J4. destruct (leader_first_tick_height r1); [done|].
    by rewrite J5 in Ewb. }
  destruct (record_continues start hpt Hhpt es1 (poh r1) batches HC Hne Hb Hmax) as [R1 R2].
  destruct (decide (remaining_hashes (poh r1) < zlen batches + 1)) as [Hr|Hr].
  - rewrite (R1 Hr). replace (r1<|poh := poh r1|>) with r1 by (by destruct r1).
    destruct (tick_inv r1 es1 F1 ltac:(lia)) as (r2 & es2 & -> & T1 & Tm & T2).
    destruct HC as (_ & _ & _ & _ & _ & Hrem & _).
    assert (hashes_left r1 = hashes_left r /\ 0 < hashes_left r1) as [El Hpos].
    { unfold hashes_left. rewrite <- Hwb, F2, F3, Ewb. rewrite <- F2, <- F3. split; [done|]. nia. }
    destruct (IH r2 es2 T1) as (res & r' & E & es3 & es4 & G1 & G2 & G3).
    { destruct T2 as [Hn|[_ Hd]]; [unfold hashes_left at 1; rewrite Hn|]; lia. }
    exists res, r'. split; [done|]. exists es3, es4. split; [done|]. split; [|done].
    eauto using ticks_more_trans.
  - destruct (R2 ltac:(lia)) as (entries & p' & E & C' & Ht). rewrite E. cbn zeta.
    rewrite (delivered_all Hconn), Nat.ltb_irrefl, firstn_all.
    eexists _, _. split; [done|]. exists es1, (entries_of entries batches).
    split; [refine (send_record r1 es1 _ p' wb F1 Hcache Ewb C' Ht _ _)|]. split; [done|]. split; [|by eexists].
    apply entries_of_transactions. apply record_batches_length in E. by rewrite E, length_map.
Qed.

Lemma hash_inv r es n :
  rec_inv r es -> 0 <= n -> exists b r', hash r n = Done (b, r') /\ rec_inv r' es.
Proof.
  intros [I1 I2 I3 I4 I5 I6 I7 I8 I9 I10 I11] Hn. destruct I6 as [es0 C0]. unfold hash.
  destruct (hash_continues start hpt Hhpt es0 (poh r) n C0 Hn) as (b & p' & E & C & Ht).
  rewrite E. cbn. eexists _, _. split; [done|]. split; cbn; try done; [|by exists es0|lia].
  intros Hl. destruct (hash_continues start hpt Hhpt _ (poh r) n (I4 Hl) Hn) as (b2 & p2 & E2 & C2 & _).
  rewrite E in E2. by injection E2 as <- <-.
Qed.

(** The bank fits the recorder. *)
Definition fitting (bank : BankInfo) : Prop :=
  bi_ticks_per_slot bank = tps /\ 0 <= bi_slot bank < last /\ bi_max_tick_height bank <= U64_MAX.

Lemma place_bank r es bank i :
  rec_inv r es -> is_Some (leader_first_tick_height r) -> fitting bank ->
  let wb := mkWorkingBank bank (bi_tick_height bank) (bi_max_tick_height bank) i in
  rec_inv (r<|shared_working_bank := Some bank|><|working_bank := Some wb|>) es.
Proof.
  intros [I1 I2 I3 I4 I5 I6 I7 I8 I9 I10 I11] [h Hl] Hfit wb. split; cbn; try done.
  - intros E. by rewrite Hl in E.
  - intros wb' [= <-]. exact Hfit.
Qed.

Lemma set_bank_inv r es bank :
  rec_inv r es -> working_bank r = None -> is_Some (leader_first_tick_height r) -> fitting bank ->
  (forall n, bi_hashes_per_tick bank = Some n -> n = hpt) ->
  exists r' es', set_bank r bank = Done r' /\ rec_inv r' es' /\ ticks_more es es'.
Proof.
  intros I Hn Hl Hfit Hh. pose proof I as [I1 _ _ _ _ (es0 & _ & _ & _ & Hp & _) _ _ _ _ _].
  unfold set_bank. rewrite Hn. destruct Hfit as [Ht Hfit]. rewrite Ht, I1, Z.eqb_refl. cbn [negb].
  assert (match bi_hashes_per_tick bank with
    | Some n => if negb (hashes_per_tick (poh r) =? n) then reset_poh r bank false else Done r
    | None => Done r
    end = Done r) as ->.
  { destruct (bi_hashes_per_tick bank) as [n|]; [|done]. by rewrite (Hh n eq_refl), Hp, Z.eqb_refl. }
  cbn [obind]. match goal with |- context [flush_cache ?x false] => set (r1 := x) end.
  destruct (flush_inv r1 es false) as (res & r' & es' & -> & F1 & F2 & _).
  { by apply place_bank. }
  by exists r', es'.
Qed.

End Runs.

(** ** From one reset to the next *)

Section Reach.
Context {env : RecorderEnv}.
Context (tps : Z) (Htps : 0 < tps) (Hconn : forall i, connected i = true).
Context (last : Z) (Hlast : last * tps < U64_MAX).
Context (Hsched : forall c s, 0 <= s < last ->
  exists x, compute_leader_slot_tick_heights (next_leader_slot c s) tps = Done x).

Abbreviation hash_rate h := (1 < h < U64_MAX).

Lemma fresh_chain h hpt : hash_rate hpt -> continues h hpt [] (mkPoh h 0 hpt hpt 0).
Proof.
  intros Hh. exists 0. cbn. split_and!; try done; try lia. unfold well_counted.
  cbn. rewrite (proj2 (Z.eqb_neq hpt 0)), (proj2 (Z.ltb_lt _ _)) by lia. by split_and!.
Qed.

(** A reset starts a new chain. *)
Lemma reset_poh_inv r bank hpt b :
  ticks_per_slot r = tps -> working_bank r = None -> shared_working_bank r = None ->
  fitting tps last bank -> bi_hashes_per_tick bank = Some hpt -> hash_rate hpt ->
  (b = false -> 0 <= bi_slot (start_bank r) < last) ->
  exists r', reset_poh r bank b = Done r' /\ rec_inv (bi_last_blockhash bank) hpt tps last (sent r) r' [] /\
    working_bank r' = None /\ leader_first_tick_height r' = leader_first_tick_height r /\
    continues (bi_last_blockhash bank) hpt [] (poh r') /\ tick_cache r' = [].
Proof.
  intros H1 H2 H3 (F1 & F2 & F4) Hb Hh Hstart. unfold reset_poh.
  assert (Poh.reset (poh r) (bi_last_blockhash bank) (bi_hashes_per_tick bank)
    = Done (mkPoh (bi_last_blockhash bank) 0 hpt hpt 0)) as ->.
  { rewrite Hb. unfold Poh.reset, Poh.new_with_slot_info. cbn. by rewrite (proj2 (Z.ltb_lt 1 hpt)) by lia. }
  cbn [obind].
  set (r1 := if b then _ else _).
  assert (0 <= bi_slot (start_bank r1) < last) as S1.
  { destruct b; cbn; [done|]. by apply Hstart. }
  assert ((bi_slot (start_bank r1) + 1) * tps < U64_MAX) as S2 by nia.
  assert (ticks_per_slot r1 = tps) as H1' by (by destruct b).
  rewrite H1'. rewrite plain_add_Done by nia. cbn [obind]. unfold plain_mul.
  rewrite (proj2 (Z.leb_le ((bi_slot (start_bank r1) + 1) * tps) U64_MAX)) by lia. cbn [obind].
  rewrite plain_add_Done by lia. cbn [obind]. eexists. split; [done|].
  assert (sent r1 = sent r /\ working_bank r1 = None /\ shared_working_bank r1 = None /\
    leader_first_tick_height r1 = leader_first_tick_height r /\ tick_cache r1 = [] /\
    poh r1 = mkPoh (bi_last_blockhash bank) 0 hpt hpt 0) as (E1 & E2 & E3 & E4 & E5 & E7)
    by (by destruct b).
  pose proof (fresh_chain (bi_last_blockhash bank) hpt Hh) as HC.
  split; [|by cbn; rewrite E2, E4, E5, E7; split_and!].
  split; cbn; rewrite ?E2, ?E3, ?E5, ?E7; try done; cbn.
  - exists []. cbn. by rewrite E1, app_nil_r.
  - by destruct HC as (c & Hw & _); exists c.
  - by exists [].
  - nia.
Qed.

(** With nothing sent and nothing cached, the leader slots may change. *)
Lemma lead_again start hpt base r next :
  rec_inv start hpt tps last base r [] -> working_bank r = None -> continues start hpt [] (poh r) ->
  tick_cache r = [] -> (exists x, compute_leader_slot_tick_heights next tps = Done x) ->
  exists r', set_leader_heights r next = Done r' /\ rec_inv start hpt tps last base r' [].
Proof.
  intros [I1 I2 I3 I4 I5 I6 I7 I8 I9 I10 I11] Hn HC Hc [[[first final] grace] Hx].
  unfold set_leader_heights. rewrite I1, Hx. cbn. eexists. split; [done|]. split; cbn; try done.
  intros _. by rewrite Hc.
Qed.

Lemma clear_bank_sent r r' : clear_bank r = Done r' -> sent r' = sent r.
Proof.
  unfold clear_bank, set_leader_heights. destruct (working_bank r); [|by intros [= <-]].
  destruct (negb _); [done|]. destruct (compute_leader_slot_tick_heights _ _) as [[[? ?] ?]| |]; try done.
  by intros [= <-].
Qed.

Lemma reset_inv start hpt base r es bank next hpt' :
  hash_rate hpt -> rec_inv start hpt tps last base r es -> fitting tps last bank ->
  bi_hashes_per_tick bank = Some hpt' -> hash_rate hpt' ->
  (exists x, compute_leader_slot_tick_heights next tps = Done x) ->
  exists r', reset r bank next = Done r' /\ rec_inv (bi_last_blockhash bank) hpt' tps last (sent r) r' [].
Proof.
  intros Hh I Hfit Hb Hh' Hx. unfold reset.
  destruct (clear_bank_inv start hpt tps last Hsched base r es I) as (r1 & E1 & I1 & Hn & _ & _ & _).
  pose proof (clear_bank_sent r r1 E1) as Es.
  rewrite E1. cbn [obind]. pose proof I1 as [J1 _ _ _ _ _ _ _ J9 _ _]. rewrite Hn in J9. cbn in J9.
  destruct (reset_poh_inv r1 bank hpt' true J1 Hn J9 Hfit Hb Hh' ltac:(done))
    as (r2 & E2 & I2 & Hn2 & _ & HC & Hc). rewrite E2. cbn [obind].
  rewrite Es in I2. by apply lead_again.
Qed.

(** A bank with another number of hashes starts a new chain. *)
Lemma set_other_bank_inv start hpt base r es bank hpt' :
  rec_inv start hpt tps last base r es -> working_bank r = None ->
  is_Some (leader_first_tick_height r) -> fitting tps last bank ->
  bi_hashes_per_tick bank = Some hpt' -> hash_rate hpt' -> hpt' <> hpt ->
  exists r' es', set_bank r bank = Done r' /\ rec_inv (bi_last_blockhash bank) hpt' tps last (sent r) r' es'.
Proof.
  intros I Hn Hl Hfit Hb Hh' Hne.
  pose proof I as [I1 _ _ _ _ (es0 & _ & _ & _ & Hp & _) _ _ I9 _ I11].
  unfold set_bank. rewrite Hn. pose proof Hfit as [Ht _]. rewrite Ht, I1, Z.eqb_refl, Hb, Hp. cbn [negb].
  rewrite (proj2 (Z.eqb_neq hpt hpt')) by congruence. cbn [negb]. rewrite Hn in I9. cbn in I9.
  destruct (reset_poh_inv r bank hpt' false I1 Hn I9 Hfit Hb Hh' ltac:(done))
    as (r1 & E1 & I1' & Hn1 & Hl1 & _ & _). rewrite E1. cbn [obind]. rewrite <- Hl1 in Hl.
  match goal with |- context [flush_cache ?x false] => set (r2 := x) end.
  destruct (flush_inv (bi_last_blockhash bank) hpt' tps Hh' Htps Hconn last Hlast Hsched (sent r) r2 [] false)
    as (res & r' & es' & -> & F1 & _).
  { by apply place_bank. }
  by exists r', es'.
Qed.

(** The states of a recorder, with the hash and the number of hashes per tick of
    its last reset and what was sent before it. *)
Inductive reachable : list Z -> Z -> list (Z * (Entry * Z)) -> PohRecorder -> Prop :=
| reach_new height start bank next delay hpt r :
    0 <= height -> fitting tps last bank -> hash_rate hpt ->
    new_with_clear_signal height start bank next tps delay (Some hpt) = Done r ->
    reachable start hpt [] r
| reach_track start hpt base r :
    reachable start hpt base r -> reachable start hpt base (do_track_transaction_indexes r)
| reach_descendants start hpt base r slots :
    reachable start hpt base r ->
    reachable start hpt base (update_start_bank_active_descendants r slots)
| reach_hash start hpt base r n b r' :
    reachable start hpt base r -> 0 <= n -> hash r n = Done (b, r') -> reachable start hpt base r'
| reach_tick start hpt base r r' :
    reachable start hpt base r -> tick_height r < U64_MAX -> tick r = Done r' ->
    reachable start hpt base r'
| reach_record start hpt base r fuel slot batches res r' :
    reachable start hpt base r -> batches <> [] -> zlen batches < U64_MAX ->
    (Z.to_nat (hashes_left hpt r) < fuel)%nat ->
    record fuel r slot (map mixin_of batches) batches = Some (Done (res, r')) ->
    reachable start hpt base r'
| reach_set_bank start hpt base r bank r' :
    reachable start hpt base r -> is_Some (leader_first_tick_height r) -> fitting tps last bank ->
    (forall n, bi_hashes_per_tick bank = Some n -> n = hpt) ->
    set_bank r bank = Done r' -> reachable start hpt base r'
| reach_other_bank start hpt base r bank hpt' r' :
    reachable start hpt base r -> is_Some (leader_first_tick_height r) -> fitting tps last bank ->
    bi_hashes_per_tick bank = Some hpt' -> hash_rate hpt' -> hpt' <> hpt ->
    set_bank r bank = Done r' -> reachable (bi_last_blockhash bank) hpt' (sent r) r'
| reach_reset start hpt base r bank next hpt' r' :
    reachable start hpt base r -> fitting tps last bank ->
    bi_hashes_per_tick bank = Some hpt' -> hash_rate hpt' ->
    (exists x, compute_leader_slot_tick_heights next tps = Done x) ->
    reset r bank next = Done r' -> reachable (bi_last_blockhash bank) hpt' (sent r) r'.

Lemma new_inv height start bank next delay hpt r :
  0 <= height -> fitting tps last bank -> hash_rate hpt ->
  new_with_clear_signal height start bank next tps delay (Some hpt) = Done r ->
  rec_inv start hpt tps last [] r [].
Proof.
  intros H0 (_ & F2 & _) Hh. unfold new_with_clear_signal, Poh.new_with_slot_info. cbn.
  rewrite (proj2 (Z.ltb_lt 1 hpt)) by lia. cbn.
  destruct (compute_leader_slot_tick_heights next tps) as [[[first final] grace]| |]; try done. cbn.
  destruct (plain_add U64_MAX height 1) as [start_height| |]; try done. cbn. intros [= <-].
  pose proof (fresh_chain start hpt Hh) as HC. split; cbn; try done.
  - by exists [].
  - by destruct HC as (c & Hw & _); exists c.
  - by exists [].
Qed.

Lemma nonempty_batches {A} (batches : list (list A)) :
  existsb (fun batch => match batch with [] => true | _ => false end) batches = false <->
  Forall (fun b => b <> []) batches.
Proof.
  induction batches as [|b batches IH]; [done|]. cbn. rewrite Forall_cons, <- IH. by destruct b; split; intros; try tauto.
Qed.

Lemma record_inv start hpt base r es fuel slot batches :
  hash_rate hpt -> rec_inv start hpt tps last base r es ->
  batches <> [] -> Forall (fun b => b <> []) batches -> zlen batches < U64_MAX ->
  (Z.to_nat (hashes_left hpt r) < fuel)%nat ->
  exists res r', record fuel r slot (map mixin_of batches) batches = Some (Done (res, r')) /\
    recorded start hpt tps last base slot batches es res r'.
Proof.
  intros Hh I Hne Hb Hmax Hf. unfold record.
  assert (zlen (map mixin_of batches) = zlen batches) as -> by (unfold zlen; by rewrite length_map).
  rewrite Z.eqb_refl, (proj2 (nonempty_batches batches) Hb). cbn [negb].
  by apply record_loop_inv.
Qed.

Lemma reachable_inv start hpt base r :
  reachable start hpt base r -> hash_rate hpt /\ exists es, rec_inv start hpt tps last base r es.
Proof.
  induction 1 as [height start bank next delay hpt r H0 Hfit Hh E
    |start hpt base r R [Hh [es I]]|start hpt base r slots R [Hh [es I]]
    |start hpt base r n b r' R [Hh [es I]] Hn E|start hpt base r r' R [Hh [es I]] Hlt E
    |start hpt base r fuel slot batches res r' R [Hh [es I]] Hne Hmax Hf E
    |start hpt base r bank r' R [Hh [es I]] Hl Hfit Hsame E
    |start hpt base r bank hpt' r' R [Hh [es I]] Hl Hfit Hb Hh' Hdiff E
    |start hpt base r bank next hpt' r' R [Hh [es I]] Hfit Hb Hh' Hx E]; (split; [done|]).
  - exists []. eapply new_inv; eauto.
  - exists es. by destruct I.
  - exists es. by destruct I.
  - destruct (hash_inv start hpt tps Hh last base r es n I Hn) as (b2 & r2 & E2 & I2).
    rewrite E in E2. injection E2 as <- <-. by exists es.
  - destruct (tick_inv start hpt tps Hh Htps Hconn last Hlast Hsched base r es I Hlt) as (r2 & es2 & E2 & I2 & _).
    rewrite E in E2. injection E2 as <-. by exists es2.
  - destruct (decide (Forall (fun b => b <> []) batches)) as [Hb|Hb].
    + destruct (record_inv start hpt base r es fuel slot batches Hh I Hne Hb Hmax Hf)
        as (res2 & r2 & E2 & es1 & es2 & I2 & _).
      rewrite E in E2. injection E2 as <- <-. by exists (es1 ++ es2).
    + unfold record in E. rewrite <- nonempty_batches, not_false_iff_true in Hb. rewrite Hb in E.
      by destruct (negb _).
  - destruct (working_bank r) as [wb|] eqn:Ewb; [by unfold set_bank in E; rewrite Ewb in E|].
    destruct (set_bank_inv start hpt tps Hh Htps Hconn last Hlast Hsched base r es bank I Ewb Hl Hfit Hsame)
      as (r2 & es2 & E2 & I2 & _). rewrite E in E2. injection E2 as <-. by exists es2.
  - destruct (working_bank r) as [wb|] eqn:Ewb; [by unfold set_bank in E; rewrite Ewb in E|].
    destruct (set_other_bank_inv start hpt base r es bank hpt' I Ewb Hl Hfit Hb Hh' Hdiff)
      as (r2 & es2 & E2 & I2). rewrite E in E2. injection E2 as <-. by exists es2.
  - destruct (reset_inv start hpt base r es bank next hpt' Hh I Hfit Hb Hh' Hx) as (r2 & E2 & I2).
    rewrite E in E2. injection E2 as <-. by exists [].
Qed.

End Reach.

(** ** What is sent, and that everything returns *)

Definition entries_sent {env : RecorderEnv} (r : PohRecorder) : list Entry := map (fun x => x.2.1) (sent r).

(** The tick heights of slots below [last], and of the ones that the schedule
    gives for them, are numbers of 64 bits. *)
Definition roomy {env : RecorderEnv} (tps last : Z) : Prop :=
  last * tps < U64_MAX /\
  forall c s, 0 <= s < last ->
    exists x, compute_leader_slot_tick_heights (next_leader_slot c s) tps = Done x.

(** C29: whatever was hashed, ticked, recorded and whichever banks were worked on,
    the entries that the recorder sent since its last reset verify as a chain
    from the hash of that reset and have the right number of hashes between
    ticks, and the shared working bank is the working bank. *)
Theorem recorder_entries_form_chain {env : RecorderEnv} (tps last hpt : Z) (start : list Z)
    (base : list (Z * (Entry * Z))) (r : PohRecorder) :
  0 < tps -> (forall i, connected i = true) -> roomy tps last -> reachable tps last start hpt base r ->
  exists new, sent r = base ++ new /\
    let es := map (fun x => x.2.1) new in
    EntrySlice.verify_cpu_generic es start = Done Success /\
    (EntrySlice.verify_tick_hash_count es 0 hpt).1 = true /\
    shared_working_bank r = wb_bank <$> working_bank r.
Proof.
  intros Htps Hconn [Hlast Hsched] R.
  destruct (reachable_inv tps Htps Hconn last Hlast Hsched start hpt base r R) as [Hh [es I]].
  destruct I as [_ (new & E & ->) (c & V & T & _ & F) _ _ _ _ _ I9 _ _]. exists new. split; [done|].
  cbn zeta. rewrite generic_spec, V, T by done. done.
Qed.

Lemma record_empty_batch {env : RecorderEnv} fuel r slot mixins batches :
  [] ∈ batches -> record fuel r slot mixins batches = Some Panicked.
Proof.
  intros Hin. unfold record. destruct (negb _); [done|].
  rewrite (proj2 (existsb_exists _ _)); [done|]. exists []. split; [by apply list_elem_of_In|done].
Qed.

(** C30: when the operations of a recorder return, while its entries are
    received.  Hashing returns, and so does ticking below the largest height.
    Starting a bank returns if no bank is being worked on, the leader's turn is
    known and the bank fits the recorder with its ticks per slot, its slot and its
    rate of hashes; while a bank is being worked on, it panics.  A reset to a bank
    that fits returns if the heights of the leader's next turn are of 64 bits.  [record] panics on an empty
    batch.  Given at least one batch and none of them empty, its loop ends after
    at most as many rounds as hashes are left for the bank; it sends the entries
    of ticks and then, when it succeeds, one entry for each batch with exactly its
    transactions, and nothing else when it fails. *)
Theorem recorder_operations_return {env : RecorderEnv} (tps last hpt : Z) (start : list Z)
    (base : list (Z * (Entry * Z))) (r : PohRecorder) :
  0 < tps -> (forall i, connected i = true) -> roomy tps last -> reachable tps last start hpt base r ->
  (forall n, 0 <= n -> exists b r', hash r n = Done (b, r')) /\
  (tick_height r < U64_MAX -> exists r', tick r = Done r') /\
  (forall bank, working_bank r = None -> is_Some (leader_first_tick_height r) -> fitting tps last bank ->
     (forall n, bi_hashes_per_tick bank = Some n -> 1 < n < U64_MAX) -> exists r', set_bank r bank = Done r') /\
  (forall bank, is_Some (working_bank r) -> set_bank r bank = Panicked) /\
  (forall bank next n, fitting tps last bank -> bi_hashes_per_tick bank = Some n -> 1 < n < U64_MAX ->
     (exists x, compute_leader_slot_tick_heights next tps = Done x) -> exists r', reset r bank next = Done r') /\
  (forall slot mixins batches fuel, [] ∈ batches -> record fuel r slot mixins batches = Some Panicked) /\
  (forall slot batches fuel, batches <> [] -> Forall (fun b => b <> []) batches -> zlen batches < U64_MAX ->
     (Z.to_nat (hashes_left hpt r) < fuel)%nat ->
     exists res r' ticks es,
       record fuel r slot (map mixin_of batches) batches = Some (Done (res, r')) /\
       entries_sent r' = entries_sent r ++ ticks ++ es /\
       Forall (fun e => e_transactions e = []) ticks /\
       match res with Ok _ => map e_transactions es = batches | Err _ => es = [] end).
Proof.
  intros Htps Hconn [Hlast Hsched] R.
  destruct (reachable_inv tps Htps Hconn last Hlast Hsched start hpt base r R) as [Hh [es I]].
  split_and!.
  - intros n Hn. destruct (hash_inv start hpt tps Hh last base r es n I Hn) as (b & r' & E & _). eauto.
  - intros Hlt. destruct (tick_inv start hpt tps Hh Htps Hconn last Hlast Hsched base r es I Hlt)
      as (r' & es' & E & _). eauto.
  - intros bank Hn Hl Hfit Hrate.
    destruct (decide (bi_hashes_per_tick bank = None \/ bi_hashes_per_tick bank = Some hpt)) as [Hs|Hs].
    + destruct (set_bank_inv start hpt tps Hh Htps Hconn last Hlast Hsched base r es bank I Hn Hl Hfit)
        as (r' & es' & E & _); [intros n En; destruct Hs; congruence|eauto].
    + destruct (bi_hashes_per_tick bank) as [n|] eqn:En; [|tauto].
      destruct (set_other_bank_inv tps Htps Hconn last Hlast Hsched start hpt base r es bank n I Hn Hl Hfit En)
        as (r' & es' & E & _); [by apply Hrate|intros ->; tauto|eauto].
  - intros bank [wb E]. unfold set_bank. by rewrite E.
  - intros bank next n Hfit Hb Hrate Hx.
    destruct (reset_inv tps Htps last Hlast Hsched start hpt base r es bank next n Hh I Hfit Hb Hrate Hx)
      as (r' & E & _). eauto.
  - intros slot mixins batches fuel Hin. by apply record_empty_batch.
  - intros slot batches fuel Hne Hb Hmax Hf.
    destruct (record_inv tps Htps Hconn last Hlast Hsched start hpt base r es fuel slot batches Hh I Hne Hb Hmax Hf)
      as (res & r' & E & es1 & es2 & I2 & (ticks & -> & Ht) & Hres).
    exists res, r', ticks, es2. split; [done|]. split; [|split; [done|by destruct res as [?|?]; [destruct Hres|]]].
    destruct I as [_ (new & E1 & ->) _ _ _ _ _ _ _ _ _]. destruct I2 as [_ (new' & E2 & E3) _ _ _ _ _ _ _ _ _].
    unfold entries_sent. rewrite E1, E2, !map_app, <- E3. by rewrite !app_assoc.
Qed.

(** ** A recorder for tests *)

Definition test_recorder : RecorderEnv := {|
  recorder_poh := test_poh;
  next_leader_slot _ _ := Some (8, 11);
  slot_leader_at _ := Some [7];
  has_existing_shreds_for_slot _ := false;
  NUM_CONSECUTIVE_LEADER_SLOTS := 4;
  connected _ := true;
|}.

Definition test_bank (slot : Z) : BankInfo :=
  mkBankInfo slot (slot * 2) (slot * 2 + 2) 2 (Some 4) (replicate 32 slot) [7].

Definition done_or {A} (d : A) (o : outcome A) : A := match o with Done x => x | _ => d end.

Definition is_done {A} (o : outcome A) : bool := match o with Done _ => true | _ => false end.

Lemma done_or_eq {A} (d : A) o : is_done o = true -> o = Done (done_or d o).
Proof. by destruct o. Qed.
Lemma done_or_pair {A B} (d : A * B) o : is_done o = true -> o = Done ((done_or d o).1, (done_or d o).2).
Proof. by destruct o as [[]| |]. Qed.

(** A recorder that starts after slot 0, is leader of slots 1 to 4, works on the
    bank of slot 1, records two batches and ticks. *)
Definition test_batches : list (list (list (list Z))) := [[[[1; 2]]; [[3]]]; [[[5]]]].
Definition test_r0 : @PohRecorder test_recorder :=
  done_or (@mkRecorder test_recorder (mkPoh [] 0 0 0 0) 0 (test_bank 0) [] 0 [] None None [] [] None 0 0 0 false false)
    (@new_with_clear_signal test_recorder 2 test_start (test_bank 0) (Some (1, 4)) 2 false (Some 4)).
Definition test_r1 := done_or test_r0 (@set_bank test_recorder test_r0 (test_bank 1)).
Definition test_r2 := (done_or (false, test_r1) (@hash test_recorder test_r1 2)).2.
Abbreviation test_record :=
  (@record test_recorder 20 test_r2 1 (map (@mixin_of (@recorder_poh test_recorder)) test_batches) test_batches).
Definition test_r3 := (done_or (Err SendError, test_r2) (default Panicked test_record)).2.

Lemma test_roomy : @roomy test_recorder 2 100.
Proof. split; [done|]. intros c s _. eexists. vm_compute. reflexivity. Qed.

Lemma test_fitting slot : 0 <= slot < 100 -> fitting 2 100 (test_bank slot).
Proof. intros H. split_and!; cbn; try done; lia. Qed.

Lemma test_recorder_reachable : @reachable test_recorder 2 100 test_start 4 [] test_r2.
Proof.
  eapply (@reach_hash test_recorder 2 100 test_start 4 [] test_r1 2); [|lia|].
  2: { apply (done_or_pair (false, test_r1)). vm_compute. reflexivity. }
  apply (@reach_set_bank test_recorder 2 100 test_start 4 [] test_r0 (test_bank 1)).
  - apply (@reach_new test_recorder 2 100 2 test_start (test_bank 0) (Some (1, 4)) false 4);
      [lia|apply test_fitting; lia|lia|]. apply done_or_eq. vm_compute. reflexivity.
  - exists 3. vm_compute. reflexivity.
  - apply test_fitting. lia.
  - by intros n [= <-].
  - apply done_or_eq. vm_compute. reflexivity.
Qed.

Lemma test_recorded : exists res, test_record = Some (Done (res, test_r3)).
Proof.
  assert (match test_record with Some o => is_done o | None => false end = true) as H
    by (vm_compute; reflexivity).
  unfold test_r3. destruct test_record as [o|]; [|done]. eexists. f_equal.
  apply (done_or_pair (Err SendError, test_r2) o H).
Qed.

Lemma recorder_entries_form_chain_witness :
  exists new, sent test_r3 = [] ++ new /\ length new = 3%nat /\
    @EntrySlice.verify_cpu_generic test_poh (map (fun x => x.2.1) new) test_start = Done Success /\
    (@EntrySlice.verify_tick_hash_count test_poh (map (fun x => x.2.1) new) 0 4).1 = true.
Proof.
  destruct test_recorded as [res Hrec].
  destruct (@recorder_entries_form_chain test_recorder 2 100 4 test_start [] test_r3) as (new & E & H1 & H2 & _).
  - lia.
  - reflexivity.
  - exact test_roomy.
  - apply (@reach_record test_recorder 2 100 test_start 4 [] test_r2 20 1 test_batches res);
      [exact test_recorder_reachable|discriminate|vm_compute; reflexivity|vm_compute; lia|exact Hrec].
  - exists new. split; [exact E|]. split; [|split; assumption].
    cbn [app] in E. rewrite <- E. vm_compute. reflexivity.
Defined.

Lemma recorder_operations_return_witness :
  exists res r' ticks es,
    test_record = Some (Done (res, r')) /\
    @entries_sent test_recorder r' = @entries_sent test_recorder test_r2 ++ ticks ++ es /\
    match res with Ok _ => map e_transactions es = test_batches | Err _ => es = [] end.
Proof.
  destruct (@recorder_operations_return test_recorder 2 100 4 test_start [] test_r2) as (_ & _ & _ & _ & _ & _ & H).
  - lia.
  - reflexivity.
  - exact test_roomy.
  - exact test_recorder_reachable.
  - destruct (H 1 test_batches 20%nat) as (res & r' & ticks & es & H1 & H2 & _ & H3).
    + done.
    + by repeat (constructor; [done|]).
    + vm_compute. reflexivity.
    + vm_compute. lia.
    + exists res, r', ticks, es. split; [exact H1|]. split; assumption.
Defined.
