(* ===== verification/CostModel.v ===== *)
(** * The cost of transactions and the limits of a block

    The cost of a transaction in compute units
    ([gorchain/cost-model/src/cost_model.rs], [transaction_cost.rs],
    [block_cost_limits.rs]), the tracker of the costs of a block
    ([cost_tracker.rs]) and its use by the threads that fill a block
    ([gorchain/core/src/banking_stage/qos_service.rs]): costs are added when a
    batch is selected, and after its execution they are corrected to what was
    used, or removed.

    [BlockCosts] proves what these sums are. *)

From stdpp Require Import base numbers list gmap.
From Stdlib Require Import Lia.
From S2P Require Import Prelude Errors Pod TxBytes TxFrame TxFormat TxView ComputeBudget Fees TxMeta.
Local Open Scope Z_scope.
Local Open Scope rust_scope.

(** ** Limits *)

Definition COMPUTE_UNIT_TO_US_RATIO : Z := 30.
Definition SIGNATURE_COST : Z := COMPUTE_UNIT_TO_US_RATIO * 24.
Definition SECP256K1_VERIFY_COST : Z := COMPUTE_UNIT_TO_US_RATIO * 223.
Definition ED25519_VERIFY_COST : Z := COMPUTE_UNIT_TO_US_RATIO * 76.
Definition ED25519_VERIFY_STRICT_COST : Z := COMPUTE_UNIT_TO_US_RATIO * 80.
Definition SECP256R1_VERIFY_COST : Z := COMPUTE_UNIT_TO_US_RATIO * 160.
Definition WRITE_LOCK_UNITS : Z := COMPUTE_UNIT_TO_US_RATIO * 10.
Definition INSTRUCTION_DATA_BYTES_COST : Z := 140 / COMPUTE_UNIT_TO_US_RATIO.
Definition MAX_BLOCK_UNITS : Z := 60000000.
Definition MAX_WRITABLE_ACCOUNT_UNITS : Z := 12000000.
Definition MAX_VOTE_UNITS : Z := 36000000.
Definition MAX_BLOCK_ACCOUNTS_DATA_SIZE_DELTA : Z := 100000000.

(** [gorchain/programs/vote/src/vote_processor.rs]. *)
Definition DEFAULT_COMPUTE_UNITS : Z := 2100.
Definition SIMPLE_VOTE_USAGE_COST : Z := 3428.

(** Other crates: the instructions of the system program that allocate (every
    other one is [NoAllocation]), their decoder, the limits of the system
    program and the price of loaded bytes; and the features that change a
    cost. *)
Inductive SystemAllocation : Type :=
| CreateAccount (space : Z)
| CreateAccountWithSeed (space : Z)
| Allocate (space : Z)
| AllocateWithSeed (space : Z)
| NoAllocation.

Class CostEnv := {
  cost_meta :: MetaEnv;
  decode_system_instruction : list Z -> option SystemAllocation;
  MAX_PERMITTED_DATA_LENGTH : Z;
  MAX_PERMITTED_ACCOUNTS_DATA_ALLOCATIONS_PER_TRANSACTION : Z;
  calculate_memory_usage_cost : Z -> Z -> Z;
  ed25519_precompile_verify_strict : bool;
  enable_secp256r1_precompile : bool;
}.

(** The price of loaded data grows with the number of pages, and an allocation
    is a number of 64 bits. *)
Class CostLaws (env : CostEnv) : Prop := {
  cost_meta_laws :: MetaLaws cost_meta;
  memory_cost_range size : 0 <= size <= U32_MAX ->
    0 <= calculate_memory_usage_cost size DEFAULT_HEAP_COST <= U32_MAX;
  decoded_space_nonneg data i : decode_system_instruction data = Some i ->
    match i with
    | CreateAccount space | CreateAccountWithSeed space | Allocate space | AllocateWithSeed space => 0 <= space
    | NoAllocation => True
    end;
  allocation_limit_nonneg : 0 <= MAX_PERMITTED_ACCOUNTS_DATA_ALLOCATIONS_PER_TRANSACTION;
}.

(** ** The cost of a transaction *)

Record UsageCostDetails := mkUsage {
  cost_transaction : RuntimeTransaction;
  signature_cost : Z;
  write_lock_cost : Z;
  data_bytes_cost : Z;
  programs_execution_cost_ : Z;
  loaded_accounts_data_size_cost_ : Z;
  allocated_accounts_data_size_ : Z;
}.

Inductive TransactionCost : Type :=
| SimpleVote (transaction : RuntimeTransaction)
| UsageCost (details : UsageCostDetails).

Module TransactionCost.

Definition usage_sum (self : UsageCostDetails) : Z :=
  saturating_add U64_MAX
    (saturating_add U64_MAX
       (saturating_add U64_MAX
          (saturating_add U64_MAX (signature_cost self) (write_lock_cost self))
          (data_bytes_cost self))
       (programs_execution_cost_ self))
    (loaded_accounts_data_size_cost_ self).

Definition sum (self : TransactionCost) : Z :=
  match self with
  | SimpleVote _ => SIMPLE_VOTE_USAGE_COST
  | UsageCost usage_cost => usage_sum usage_cost
  end.

Definition programs_execution_cost (self : TransactionCost) : Z :=
  match self with
  | SimpleVote _ => DEFAULT_COMPUTE_UNITS
  | UsageCost usage_cost => programs_execution_cost_ usage_cost
  end.

Definition is_simple_vote (self : TransactionCost) : bool :=
  match self with SimpleVote _ => true | UsageCost _ => false end.

Definition allocated_accounts_data_size (self : TransactionCost) : Z :=
  match self with
  | SimpleVote _ => 0
  | UsageCost usage_cost => allocated_accounts_data_size_ usage_cost
  end.

Definition loaded_accounts_data_size_cost (self : TransactionCost) : Z :=
  match self with
  | SimpleVote _ => 8
  | UsageCost usage_cost => loaded_accounts_data_size_cost_ usage_cost
  end.

Definition transaction_of (self : TransactionCost) : RuntimeTransaction :=
  match self with
  | SimpleVote transaction => transaction
  | UsageCost usage_cost => cost_transaction usage_cost
  end.

Definition writable_accounts (self : TransactionCost) : list (list Z) :=
  let m := transaction (transaction_of self) in
  (filter (fun x => message_is_writable m (Z.of_nat x.1) = true) (imap pair (account_keys m))).*2.

(** The counts of signatures: required ones, then those of the precompiles. *)
Definition num_transaction_signatures (self : TransactionCost) : Z :=
  match self with
  | SimpleVote _ => 1
  | UsageCost usage_cost => sd_transaction (signature_details (meta (cost_transaction usage_cost)))
  end.
Definition precompile_counts (self : TransactionCost) : PrecompileSignatureDetails :=
  match self with
  | SimpleVote _ => mkPrecompile 0 0 0
  | UsageCost usage_cost => sd_precompile (signature_details (meta (cost_transaction usage_cost)))
  end.

End TransactionCost.

Inductive SystemProgramAccountAllocation : Type :=
| AllocationNone
| AllocationSome (size : Z)
| AllocationFailed.

Module CostModel.
Section CostModel.
Context {env : CostEnv}.

Definition get_signature_cost (transaction : RuntimeTransaction) : Z :=
  let details := signature_details (meta transaction) in
  let ed25519_verify_cost :=
    if ed25519_precompile_verify_strict then ED25519_VERIFY_STRICT_COST else ED25519_VERIFY_COST in
  let secp256r1_verify_cost := if enable_secp256r1_precompile then SECP256R1_VERIFY_COST else 0 in
  saturating_add U64_MAX
    (saturating_add U64_MAX
       (saturating_add U64_MAX
          (saturating_mul U64_MAX (sd_transaction details) SIGNATURE_COST)
          (saturating_mul U64_MAX (num_secp256k1_instruction_signatures (sd_precompile details))
             SECP256K1_VERIFY_COST))
       (saturating_mul U64_MAX (num_ed25519_instruction_signatures (sd_precompile details))
          ed25519_verify_cost))
    (saturating_mul U64_MAX (num_secp256r1_instruction_signatures (sd_precompile details))
       secp256r1_verify_cost).

Definition get_write_lock_cost (num_write_locks : Z) : Z :=
  saturating_mul U64_MAX WRITE_LOCK_UNITS num_write_locks.

Definition calculate_loaded_accounts_data_size_cost (loaded_accounts_data_size : Z) : Z :=
  calculate_memory_usage_cost loaded_accounts_data_size DEFAULT_HEAP_COST.

Definition get_estimated_execution_cost (transaction : RuntimeTransaction) : outcome (Z * Z) :=
  let* limits :=
    sanitize_and_convert_to_compute_budget_limits (compute_budget_instruction_details (meta transaction)) in
  Done
    match limits with
    | Ok limits =>
        (compute_unit_limit limits,
         calculate_loaded_accounts_data_size_cost (loaded_accounts_bytes limits))
    | Err _ => (0, 0)
    end.

Definition get_instructions_data_cost (transaction : RuntimeTransaction) : Z :=
  instruction_data_len (meta transaction) / INSTRUCTION_DATA_BYTES_COST.

Definition calculate_account_data_size_on_deserialized_system_instruction
    (instruction : SystemAllocation) : SystemProgramAccountAllocation :=
  match instruction with
  | CreateAccount space | CreateAccountWithSeed space | Allocate space | AllocateWithSeed space =>
      if MAX_PERMITTED_DATA_LENGTH <? space then AllocationFailed else AllocationSome space
  | NoAllocation => AllocationNone
  end.

Definition calculate_account_data_size_on_instruction (program_id : list Z)
    (instruction : SVMInstruction) : SystemProgramAccountAllocation :=
  if bool_decide (program_id = system_id) then
    match decode_system_instruction (ix_data instruction) with
    | Some instruction =>
        calculate_account_data_size_on_deserialized_system_instruction instruction
    | None => AllocationFailed
    end
  else AllocationNone.

(** The loop over the instructions, with the size so far; [None] is the early
    return. *)
Fixpoint allocations (instructions : list (list Z * SVMInstruction)) (size : Z) : option Z :=
  match instructions with
  | [] => Some size
  | (program_id, instruction) :: instructions =>
      match calculate_account_data_size_on_instruction program_id instruction with
      | AllocationFailed => None
      | AllocationNone => allocations instructions size
      | AllocationSome n => allocations instructions (saturating_add U64_MAX size n)
      end
  end.

Definition calculate_allocated_accounts_data_size (instructions : list (list Z * SVMInstruction)) : Z :=
  match allocations instructions 0 with
  | None => 0
  | Some size => Z.min MAX_PERMITTED_ACCOUNTS_DATA_ALLOCATIONS_PER_TRANSACTION size
  end.

Definition calculate_non_vote_transaction_cost (transaction : RuntimeTransaction)
    (instructions : list (list Z * SVMInstruction))
    (num_write_locks programs_execution_cost loaded_accounts_data_size_cost data_bytes_cost : Z)
    : TransactionCost :=
  UsageCost (mkUsage transaction (get_signature_cost transaction) (get_write_lock_cost num_write_locks)
    data_bytes_cost programs_execution_cost loaded_accounts_data_size_cost
    (calculate_allocated_accounts_data_size instructions)).

Definition calculate_cost (tx : RuntimeTransaction) : outcome TransactionCost :=
  if is_simple_vote_transaction (meta tx) then Done (SimpleVote tx)
  else
    let* costs := get_estimated_execution_cost tx in
    let (programs_execution_cost, loaded_accounts_data_size_cost) := costs in
    Done (calculate_non_vote_transaction_cost tx (program_instructions (transaction tx))
            (num_write_locks tx) programs_execution_cost loaded_accounts_data_size_cost
            (get_instructions_data_cost tx)).

Definition estimate_cost (tx : RuntimeTransaction) (instructions : list (list Z * SVMInstruction))
    (num_write_locks : Z) : outcome TransactionCost :=
  if is_simple_vote_transaction (meta tx) then Done (SimpleVote tx)
  else
    let* costs := get_estimated_execution_cost tx in
    let (programs_execution_cost, loaded_accounts_data_size_cost) := costs in
    Done (calculate_non_vote_transaction_cost tx instructions num_write_locks programs_execution_cost
            loaded_accounts_data_size_cost (get_instructions_data_cost tx)).

Definition calculate_cost_for_executed_transaction (tx : RuntimeTransaction)
    (actual_programs_execution_cost actual_loaded_accounts_data_size_bytes : Z) : TransactionCost :=
  if is_simple_vote_transaction (meta tx) then SimpleVote tx
  else
    calculate_non_vote_transaction_cost tx (program_instructions (transaction tx))
      (num_write_locks tx) actual_programs_execution_cost
      (calculate_loaded_accounts_data_size_cost actual_loaded_accounts_data_size_bytes)
      (get_instructions_data_cost tx).

End CostModel.
End CostModel.

(** ** The tracker of a block *)

Module CostTrackerError.
Inductive CostTrackerError : Type :=
| WouldExceedBlockMaxLimit
| WouldExceedVoteMaxLimit
| WouldExceedAccountMaxLimit
| WouldExceedAccountDataBlockLimit
| WouldExceedAccountDataTotalLimit.
End CostTrackerError.
Export CostTrackerError (CostTrackerError).

#[export] Instance FromErr_CostTrackerError : FromErr CostTrackerError TransactionError := fun err =>
  match err with
  | CostTrackerError.WouldExceedBlockMaxLimit => TransactionError.WouldExceedMaxBlockCostLimit
  | CostTrackerError.WouldExceedVoteMaxLimit => TransactionError.WouldExceedMaxVoteCostLimit
  | CostTrackerError.WouldExceedAccountMaxLimit => TransactionError.WouldExceedMaxAccountCostLimit
  | CostTrackerError.WouldExceedAccountDataBlockLimit => TransactionError.WouldExceedAccountDataBlockLimit
  | CostTrackerError.WouldExceedAccountDataTotalLimit => TransactionError.WouldExceedAccountDataTotalLimit
  end.

Record CostTracker := mkTracker {
  account_cost_limit : Z;
  block_cost_limit : Z;
  vote_cost_limit : Z;
  cost_by_writable_accounts : gmap (list Z) Z;
  block_cost : Z;
  vote_cost : Z;
  transaction_count : Z;
  ct_allocated_accounts_data_size : Z;
  transaction_signature_count : Z;
  secp256k1_instruction_signature_count : Z;
  ed25519_instruction_signature_count : Z;
  in_flight_transaction_count : Z;
  secp256r1_instruction_signature_count : Z;
}.
#[export] Instance eta_CostTracker : Eta CostTracker := fun t =>
  mkTracker (account_cost_limit t) (block_cost_limit t) (vote_cost_limit t)
    (cost_by_writable_accounts t) (block_cost t) (vote_cost t) (transaction_count t)
    (ct_allocated_accounts_data_size t) (transaction_signature_count t)
    (secp256k1_instruction_signature_count t) (ed25519_instruction_signature_count t)
    (in_flight_transaction_count t) (secp256r1_instruction_signature_count t).

Record UpdatedCosts := mkUpdated {
  updated_block_cost : Z;
  updated_costliest_account_cost : Z;
}.

Module CostTracker.
Import TransactionCost.

Definition default : CostTracker :=
  mkTracker MAX_WRITABLE_ACCOUNT_UNITS MAX_BLOCK_UNITS MAX_VOTE_UNITS ∅ 0 0 0 0 0 0 0 0 0.

Definition set_limits (self : CostTracker) (account block vote : Z) : CostTracker :=
  self<|account_cost_limit := account|><|block_cost_limit := block|><|vote_cost_limit := vote|>.

Definition new_from_parent_limits (self : CostTracker) : CostTracker :=
  set_limits default (account_cost_limit self) (block_cost_limit self) (vote_cost_limit self).

Definition reset (self : CostTracker) : CostTracker :=
  self<|cost_by_writable_accounts := ∅|><|block_cost := 0|><|vote_cost := 0|>
      <|transaction_count := 0|><|ct_allocated_accounts_data_size := 0|>
      <|transaction_signature_count := 0|><|secp256k1_instruction_signature_count := 0|>
      <|ed25519_instruction_signature_count := 0|><|secp256r1_instruction_signature_count := 0|>
      <|in_flight_transaction_count := 0|>.

Definition add_transactions_in_flight (self : CostTracker) (n : Z) : CostTracker :=
  self<|in_flight_transaction_count := saturating_add U64_MAX (in_flight_transaction_count self) n|>.
Definition sub_transactions_in_flight (self : CostTracker) (n : Z) : CostTracker :=
  self<|in_flight_transaction_count := saturating_sub (in_flight_transaction_count self) n|>.

(** The loop of [would_fit] over the writable accounts. *)
Fixpoint accounts_fit (costs : gmap (list Z) Z) (limit cost : Z) (keys : list (list Z)) : bool :=
  match keys with
  | [] => true
  | account_key :: keys =>
      match costs !! account_key with
      | Some chained_cost =>
          if limit <? saturating_add U64_MAX chained_cost cost then false
          else accounts_fit costs limit cost keys
      | None => accounts_fit costs limit cost keys
      end
  end.

Definition would_fit (self : CostTracker) (tx_cost : TransactionCost) : result CostTrackerError unit :=
  let cost := sum tx_cost in
  if is_simple_vote tx_cost && (vote_cost_limit self <? saturating_add U64_MAX (vote_cost self) cost)
  then Err CostTrackerError.WouldExceedVoteMaxLimit
  else if block_cost_limit self <? saturating_add U64_MAX (block_cost self) cost
  then Err CostTrackerError.WouldExceedBlockMaxLimit
  else if account_cost_limit self <? cost then Err CostTrackerError.WouldExceedAccountMaxLimit
  else if MAX_BLOCK_ACCOUNTS_DATA_SIZE_DELTA <?
          saturating_add U64_MAX (ct_allocated_accounts_data_size self)
            (TransactionCost.allocated_accounts_data_size tx_cost)
  then Err CostTrackerError.WouldExceedAccountDataBlockLimit
  else if negb (accounts_fit (cost_by_writable_accounts self) (account_cost_limit self) cost
                  (writable_accounts tx_cost))
  then Err CostTrackerError.WouldExceedAccountMaxLimit
  else Ok tt.

(** [entry(key).or_insert(0)] and the new value, for every writable account. *)
Definition adjust_accounts (f : Z -> Z) (keys : list (list Z)) (costs : gmap (list Z) Z)
    : gmap (list Z) Z :=
  foldl (fun costs key => <[key := f (from_option id 0 (costs !! key))]> costs) costs keys.

(** The largest value among those that the loop has just written. *)
Fixpoint costliest (f : Z -> Z) (keys : list (list Z)) (costs : gmap (list Z) Z) (most : Z) : Z :=
  match keys with
  | [] => most
  | key :: keys =>
      let cost := f (from_option id 0 (costs !! key)) in
      costliest f keys (<[key := cost]> costs) (Z.max most cost)
  end.

Definition add_transaction_execution_cost (self : CostTracker) (tx_cost : TransactionCost)
    (adjustment : Z) : Z * CostTracker :=
  let add x := saturating_add U64_MAX x adjustment in
  let costs := cost_by_writable_accounts self in
  let self' :=
    self<|cost_by_writable_accounts := adjust_accounts add (writable_accounts tx_cost) costs|>
        <|block_cost := add (block_cost self)|> in
  (costliest add (writable_accounts tx_cost) costs 0,
   if is_simple_vote tx_cost then self'<|vote_cost := add (vote_cost self)|> else self').

Definition sub_transaction_execution_cost (self : CostTracker) (tx_cost : TransactionCost)
    (adjustment : Z) : CostTracker :=
  let sub x := saturating_sub x adjustment in
  let self' :=
    self<|cost_by_writable_accounts :=
            adjust_accounts sub (writable_accounts tx_cost) (cost_by_writable_accounts self)|>
        <|block_cost := sub (block_cost self)|> in
  if is_simple_vote tx_cost then self'<|vote_cost := sub (vote_cost self)|> else self'.

(** The counters that only grow and shrink with whole transactions. *)
Definition count_transaction (op : Z -> Z -> Z) (self : CostTracker) (tx_cost : TransactionCost)
    : CostTracker :=
  let counts := precompile_counts tx_cost in
  self<|ct_allocated_accounts_data_size :=
          op (ct_allocated_accounts_data_size self)
            (TransactionCost.allocated_accounts_data_size tx_cost)|>
      <|transaction_count := op (transaction_count self) 1|>
      <|transaction_signature_count :=
          op (transaction_signature_count self) (num_transaction_signatures tx_cost)|>
      <|secp256k1_instruction_signature_count :=
          op (secp256k1_instruction_signature_count self) (num_secp256k1_instruction_signatures counts)|>
      <|ed25519_instruction_signature_count :=
          op (ed25519_instruction_signature_count self) (num_ed25519_instruction_signatures counts)|>
      <|secp256r1_instruction_signature_count :=
          op (secp256r1_instruction_signature_count self) (num_secp256r1_instruction_signatures counts)|>.

Definition add_transaction_cost (self : CostTracker) (tx_cost : TransactionCost) : Z * CostTracker :=
  add_transaction_execution_cost (count_transaction (saturating_add U64_MAX) self tx_cost) tx_cost
    (sum tx_cost).

Definition remove_transaction_cost (self : CostTracker) (tx_cost : TransactionCost) : CostTracker :=
  count_transaction saturating_sub (sub_transaction_execution_cost self tx_cost (sum tx_cost)) tx_cost.

Definition try_add (self : CostTracker) (tx_cost : TransactionCost)
    : result CostTrackerError UpdatedCosts * CostTracker :=
  match would_fit self tx_cost with
  | Err e => (Err e, self)
  | Ok _ =>
      let (costliest, self) := add_transaction_cost self tx_cost in
      (Ok (mkUpdated (block_cost self) costliest), self)
  end.

Definition remove (self : CostTracker) (tx_cost : TransactionCost) : CostTracker :=
  remove_transaction_cost self tx_cost.

Definition update_execution_cost (self : CostTracker) (estimated_tx_cost : TransactionCost)
    (actual_execution_units actual_loaded_accounts_data_size_cost : Z) : CostTracker :=
  let actual := saturating_add U64_MAX actual_execution_units actual_loaded_accounts_data_size_cost in
  let estimated :=
    saturating_add U64_MAX (programs_execution_cost estimated_tx_cost)
      (loaded_accounts_data_size_cost estimated_tx_cost) in
  match actual ?= estimated with
  | Eq => self
  | Gt => (add_transaction_execution_cost self estimated_tx_cost (actual - estimated)).2
  | Lt => sub_transaction_execution_cost self estimated_tx_cost (estimated - actual)
  end.

End CostTracker.

(** ** Filling a block *)

Inductive CommitTransactionDetails : Type :=
| Committed (compute_units loaded_accounts_data_size : Z) (result : result TransactionError unit)
| NotCommitted (e : TransactionError).

Module QosService.
Section QosService.
Context {env : CostEnv}.

Fixpoint compute_transaction_costs (transactions : list RuntimeTransaction)
    (pre_results : list (result TransactionError unit))
    : outcome (list (result TransactionError TransactionCost)) :=
  match transactions, pre_results with
  | tx :: transactions, Ok _ :: pre_results =>
      let* cost := CostModel.calculate_cost tx in
      let* costs := compute_transaction_costs transactions pre_results in
      Done (Ok cost :: costs)
  | _ :: transactions, Err e :: pre_results =>
      let* costs := compute_transaction_costs transactions pre_results in
      Done (Err e :: costs)
  | _, _ => Done []
  end.

(** The loop of [select_transactions_per_cost]. *)
Fixpoint select_loop (cost_tracker : CostTracker)
    (transactions_costs : list (result TransactionError TransactionCost)) (num_included : Z)
    : list (result TransactionError TransactionCost) * Z * CostTracker :=
  match transactions_costs with
  | [] => ([], num_included, cost_tracker)
  | Ok cost :: transactions_costs =>
      match CostTracker.try_add cost_tracker cost with
      | (Ok _, cost_tracker) =>
          let '(results, n, cost_tracker) :=
            select_loop cost_tracker transactions_costs (num_included + 1) in
          (Ok cost :: results, n, cost_tracker)
      | (Err e, cost_tracker) =>
          let '(results, n, cost_tracker) :=
            select_loop cost_tracker transactions_costs num_included in
          (Err (from_err e) :: results, n, cost_tracker)
      end
  | Err e :: transactions_costs =>
      let '(results, n, cost_tracker) := select_loop cost_tracker transactions_costs num_included in
      (Err e :: results, n, cost_tracker)
  end.

Definition select_transactions_per_cost (cost_tracker : CostTracker)
    (transactions_costs : list (result TransactionError TransactionCost))
    : list (result TransactionError TransactionCost) * Z * CostTracker :=
  let '(results, num_included, cost_tracker) := select_loop cost_tracker transactions_costs 0 in
  (results, num_included, CostTracker.add_transactions_in_flight cost_tracker num_included).

Definition select_and_accumulate_transaction_costs (cost_tracker : CostTracker)
    (transactions : list RuntimeTransaction) (pre_results : list (result TransactionError unit))
    : outcome (list (result TransactionError TransactionCost) * Z * CostTracker) :=
  let* transaction_costs := compute_transaction_costs transactions pre_results in
  let '(results, num_included, cost_tracker) :=
    select_transactions_per_cost cost_tracker transaction_costs in
  Done (results, saturating_sub (zlen transactions) num_included, cost_tracker).

(** What happens to one recorded transaction. *)
Definition remove_or_update (cost_tracker : CostTracker) (tx_cost : TransactionCost)
    (details : CommitTransactionDetails) : CostTracker :=
  match details with
  | Committed compute_units loaded_accounts_data_size _ =>
      CostTracker.update_execution_cost cost_tracker tx_cost compute_units
        (CostModel.calculate_loaded_accounts_data_size_cost loaded_accounts_data_size)
  | NotCommitted _ => CostTracker.remove cost_tracker tx_cost
  end.

Fixpoint recorded_loop (cost_tracker : CostTracker)
    (transaction_cost_results : list (result TransactionError TransactionCost))
    (transaction_committed_status : list CommitTransactionDetails) (num_included : Z)
    : Z * CostTracker :=
  match transaction_cost_results, transaction_committed_status with
  | Ok tx_cost :: results, details :: status =>
      recorded_loop (remove_or_update cost_tracker tx_cost details) results status (num_included + 1)
  | Err _ :: results, _ :: status => recorded_loop cost_tracker results status num_included
  | _, _ => (num_included, cost_tracker)
  end.

Definition remove_or_update_recorded_transaction_costs (cost_tracker : CostTracker)
    (transaction_cost_results : list (result TransactionError TransactionCost))
    (transaction_committed_status : list CommitTransactionDetails) : CostTracker :=
  let (num_included, cost_tracker) :=
    recorded_loop cost_tracker transaction_cost_results transaction_committed_status 0 in
  CostTracker.sub_transactions_in_flight cost_tracker num_included.

Fixpoint unrecorded_loop (cost_tracker : CostTracker)
    (transaction_cost_results : list (result TransactionError TransactionCost)) (num_included : Z)
    : Z * CostTracker :=
  match transaction_cost_results with
  | Ok tx_cost :: results =>
      unrecorded_loop (CostTracker.remove cost_tracker tx_cost) results (num_included + 1)
  | Err _ :: results => unrecorded_loop cost_tracker results num_included
  | [] => (num_included, cost_tracker)
  end.

Definition remove_unrecorded_transaction_costs (cost_tracker : CostTracker)
    (transaction_cost_results : list (result TransactionError TransactionCost)) : CostTracker :=
  let (num_included, cost_tracker) := unrecorded_loop cost_tracker transaction_cost_results 0 in
  CostTracker.sub_transactions_in_flight cost_tracker num_included.

Definition remove_or_update_costs (cost_tracker : CostTracker)
    (transaction_cost_results : list (result TransactionError TransactionCost))
    (transaction_committed_status : option (list CommitTransactionDetails)) : CostTracker :=
  match transaction_committed_status with
  | Some status =>
      remove_or_update_recorded_transaction_costs cost_tracker transaction_cost_results status
  | None => remove_unrecorded_transaction_costs cost_tracker transaction_cost_results
  end.

End QosService.
End QosService.
