(* ===== verification/BlockCosts.v ===== *)
(** * What a block has been charged

    The tracker of [CostModel] keeps sums only.  Along every interleaving of
    selections and corrections the sums are those of the transactions that are
    in flight or committed, the limits hold, and a transaction is refused
    exactly when it would break one.  The cost of a transaction is determined by
    its bytes. *)

From stdpp Require Import base numbers list gmap.
From Stdlib Require Import Lia.
From S2P Require Import Prelude Errors Pod TxBytes TxFrame TxFormat TxView ComputeBudget Fees TxMeta CostModel.
Local Open Scope Z_scope.
Local Open Scope rust_scope.

(** ** The sums of a tracker *)

Import TransactionCost.

(** A transaction of the block with what it counts at the moment. *)
Abbreviation Item := (TransactionCost * Z)%type.

Definition estimated (c : TransactionCost) : Z :=
  programs_execution_cost c + loaded_accounts_data_size_cost c.

(** The six counters that a transaction adds to. *)
Definition weights : list (TransactionCost -> Z) :=
  [TransactionCost.allocated_accounts_data_size; fun _ => 1; num_transaction_signatures;
   fun c => num_secp256k1_instruction_signatures (precompile_counts c);
   fun c => num_ed25519_instruction_signatures (precompile_counts c);
   fun c => num_secp256r1_instruction_signatures (precompile_counts c)].

Definition counters (t : CostTracker) : list Z :=
  [ct_allocated_accounts_data_size t; transaction_count t; transaction_signature_count t;
   secp256k1_instruction_signature_count t; ed25519_instruction_signature_count t;
   secp256r1_instruction_signature_count t].

Definition total (items : list Item) : Z := zsum snd items.
Definition vote_total (items : list Item) : Z :=
  zsum (fun x => if is_simple_vote x.1 then x.2 else 0) items.
Definition account_total (k : list Z) (items : list Item) : Z :=
  zsum (fun x => if bool_decide (k ∈ writable_accounts x.1) then x.2 else 0) items.
Definition weight_total (w : TransactionCost -> Z) (items : list Item) : Z := zsum (fun x => w x.1) items.

Definition account_cost (t : CostTracker) (k : list Z) : Z :=
  from_option id 0 (cost_by_writable_accounts t !! k).

Section Block.
Context {env : CostEnv} (la lb lv : Z).

(** The tracker of a block with the limits [la], [lb] and [lv] (for an account,
    for the block and for votes) shows the sums over some transactions. *)
Record represents (t : CostTracker) (items : list Item) (flying : Z) : Prop := {
  rep_limits : (account_cost_limit t, block_cost_limit t, vote_cost_limit t) = (la, lb, lv);
  rep_block : block_cost t = total items;
  rep_vote : vote_cost t = vote_total items;
  rep_accounts k : account_cost t k = account_total k items;
  rep_counters : counters t = map (fun w => weight_total w items) weights;
  rep_flying : in_flight_transaction_count t = flying;
}.

(** Costs of a block stay below this; a transaction has fewer than 2^24
    signatures of any kind. *)
Definition COST_ROOM : Z := 2 ^ 39.
Definition COUNT_ROOM : Z := 2 ^ 24.

(** A cost as the cost model gives it for a transaction without repeated keys. *)
Record cost_ok (c : TransactionCost) : Prop := {
  ok_keys : NoDup (writable_accounts c);
  ok_programs : 0 <= programs_execution_cost c;
  ok_loaded : 0 <= loaded_accounts_data_size_cost c;
  ok_sum : estimated c + 1 <= sum c <= U64_MAX;
  ok_allocated : 0 <= TransactionCost.allocated_accounts_data_size c;
  ok_counts : Forall (fun w => 0 <= w c <= COUNT_ROOM * (sum c - estimated c)) (tail weights);
}.

(** All sums are numbers of 64 bits. *)
Definition sums_fit (items : list Item) : Prop :=
  total items <= U64_MAX /\ Forall (fun w => weight_total w items <= U64_MAX) weights.

Definition items_ok (items : list Item) : Prop :=
  Forall (fun x => cost_ok x.1 /\ sum x.1 - estimated x.1 <= x.2) items.

Lemma cost_ok_range c : cost_ok c -> 0 <= estimated c /\ estimated c + 1 <= sum c /\ sum c <= U64_MAX.
Proof. intros [_ ? ? [? ?] _ _]. unfold estimated in *. lia. Qed.

Lemma item_ok_positive c z : cost_ok c -> sum c - estimated c <= z -> 1 <= z.
Proof. intros Hc. pose proof (cost_ok_range c Hc). lia. Qed.

Lemma cost_ok_weights c : cost_ok c -> Forall (fun w => 0 <= w c) weights.
Proof.
  intros [_ _ _ _ Ha Hw]. apply Forall_cons. split; [done|]. eapply Forall_impl; [exact Hw|]. cbn. lia.
Qed.

Lemma represents_perm t items items' n : items ≡ₚ items' -> represents t items n -> represents t items' n.
Proof.
  intros Hp [R0 R1 R2 R3 R4 R5]. split.
  - done.
  - rewrite R1. by apply zsum_perm.
  - rewrite R2. by apply zsum_perm.
  - intros k. rewrite R3. by apply zsum_perm.
  - rewrite R4. apply map_ext. intros w. by apply zsum_perm.
  - done.
Qed.

(** The loop over the accounts changes each of them once. *)
Lemma adjust_accounts_spec f keys : forall costs k,
  NoDup keys ->
  from_option id 0 (CostTracker.adjust_accounts f keys costs !! k)
  = if bool_decide (k ∈ keys) then f (from_option id 0 (costs !! k)) else from_option id 0 (costs !! k).
Proof.
  induction keys as [|key keys IH]; intros costs k Hn; [done|].
  apply NoDup_cons in Hn as [Hk Hn]. unfold CostTracker.adjust_accounts in *. cbn [foldl]. rewrite IH by done.
  destruct (decide (k = key)) as [->|Hne].
  - rewrite bool_decide_false, bool_decide_true by set_solver. by rewrite lookup_insert_eq.
  - rewrite lookup_insert_ne by done.
    rewrite (bool_decide_ext (k ∈ key :: keys) (k ∈ keys)) by set_solver. done.
Qed.

Lemma account_total_le k items : items_ok items -> 0 <= account_total k items <= total items.
Proof.
  intros H. split.
  - apply zsum_nonneg. eapply Forall_impl; [exact H|]. intros x [Hc Hx]. pose proof (item_ok_positive _ _ Hc Hx). cbn. case_bool_decide; lia.
  - apply zsum_le. eapply Forall_impl; [exact H|]. intros x [Hc Hx]. pose proof (item_ok_positive _ _ Hc Hx). cbn. case_bool_decide; lia.
Qed.

Lemma vote_total_le items : items_ok items -> 0 <= vote_total items <= total items.
Proof.
  intros H. split.
  - apply zsum_nonneg. eapply Forall_impl; [exact H|]. intros x [Hc Hx]. pose proof (item_ok_positive _ _ Hc Hx). cbn. destruct (is_simple_vote x.1); lia.
  - apply zsum_le. eapply Forall_impl; [exact H|]. intros x [Hc Hx]. pose proof (item_ok_positive _ _ Hc Hx). cbn. destruct (is_simple_vote x.1); lia.
Qed.

Lemma total_nonneg items : items_ok items -> 0 <= total items.
Proof.
  intros H. apply zsum_nonneg. eapply Forall_impl; [exact H|]. intros x [Hc Hx].
  pose proof (item_ok_positive _ _ Hc Hx). lia.
Qed.

Lemma weight_total_nonneg w items : items_ok items -> w ∈ weights -> 0 <= weight_total w items.
Proof.
  intros H Hw. apply zsum_nonneg. eapply Forall_impl; [exact H|]. intros x [Hc _].
  apply cost_ok_weights in Hc. rewrite Forall_forall in Hc. by apply Hc.
Qed.

Lemma total_cons c z items : total ((c, z) :: items) = z + total items.
Proof. done. Qed.

Lemma vote_total_cons c z items :
  vote_total ((c, z) :: items) = (if is_simple_vote c then z else 0) + vote_total items.
Proof. done. Qed.

Lemma account_total_cons k c z items :
  account_total k ((c, z) :: items)
  = (if bool_decide (k ∈ writable_accounts c) then z else 0) + account_total k items.
Proof. done. Qed.

Lemma weight_total_cons w c z items : weight_total w ((c, z) :: items) = w c + weight_total w items.
Proof. done. Qed.

(** Changing what one transaction counts. *)
Lemma adjust_represents f t c z d rest n :
  cost_ok c -> 0 <= z -> items_ok rest ->
  (forall x, z <= x <= z + total rest -> f x = x + d) ->
  represents t ((c, z) :: rest) n ->
  let t' :=
    t<|cost_by_writable_accounts :=
         CostTracker.adjust_accounts f (writable_accounts c) (cost_by_writable_accounts t)|>
     <|block_cost := f (block_cost t)|> in
  represents (if is_simple_vote c then t'<|vote_cost := f (vote_cost t)|> else t') ((c, z + d) :: rest) n.
Proof.
  intros Hc Hz Hrest Hf [R0 R1 R2 R3 R4 R5] t'. pose proof (total_nonneg rest Hrest) as H0.
  pose proof (vote_total_le rest Hrest) as Hv. apply ok_keys in Hc as Hn.
  assert (block_cost t' = total ((c, z + d) :: rest)) as E1.
  { change (f (block_cost t) = total ((c, z + d) :: rest)). rewrite R1, !total_cons, Hf by lia. lia. }
  assert (forall k, account_cost t' k = account_total k ((c, z + d) :: rest)) as E3.
  { intros k. pose proof (account_total_le k rest Hrest). specialize (R3 k). rewrite account_total_cons in *.
    unfold account_cost in *. cbn [t' set_field cost_by_writable_accounts].
    change (cost_by_writable_accounts t') with
      (CostTracker.adjust_accounts f (writable_accounts c) (cost_by_writable_accounts t)).
    rewrite adjust_accounts_spec, R3 by done.
    destruct (bool_decide _); [rewrite Hf by lia|]; lia. }
  assert (counters t' = map (fun w => weight_total w ((c, z + d) :: rest)) weights) as E4 by exact R4.
  rewrite vote_total_cons in R2.
  destruct (is_simple_vote c) eqn:Ev; split; try done; rewrite vote_total_cons, Ev.
  - change (f (vote_cost t) = z + d + vote_total rest). rewrite R2, Hf by lia. lia.
  - exact R2.
Qed.

(** Counting a transaction in and out. *)
Lemma count_represents t items c n :
  sums_fit ((c, 0) :: items) -> represents t items n ->
  represents (CostTracker.count_transaction (saturating_add U64_MAX) t c) ((c, 0) :: items) n.
Proof.
  intros [_ Hs] [R0 R1 R2 R3 R4 R5]. split; try done.
  - rewrite vote_total_cons. change (vote_cost t = (if is_simple_vote c then 0 else 0) + vote_total items).
    destruct (is_simple_vote c); lia.
  - intros k. change (account_cost (CostTracker.count_transaction _ t c) k) with (account_cost t k).
    rewrite R3, account_total_cons. destruct (bool_decide _); lia.
  - unfold weights in *. rewrite !Forall_cons in Hs. cbn [map] in *. rewrite !weight_total_cons in *.
    destruct Hs as (H1 & H2 & H3 & H4 & H5 & H6 & _). injection R4 as E1 E2 E3 E4 E5 E6.
    unfold counters, CostTracker.count_transaction, saturating_add. cbn.
    rewrite E1, E2, E3, E4, E5, E6. repeat f_equal; lia.
Qed.

Lemma uncount_represents t items c n :
  items_ok items -> represents t ((c, 0) :: items) n ->
  represents (CostTracker.count_transaction saturating_sub t c) items n.
Proof.
  intros Hok [R0 R1 R2 R3 R4 R5]. rewrite vote_total_cons in R2. split; try done.
  - change (vote_cost t = vote_total items). destruct (is_simple_vote c); lia.
  - intros k. change (account_cost (CostTracker.count_transaction _ t c) k) with (account_cost t k).
    rewrite R3, account_total_cons. destruct (bool_decide _); lia.
  - assert (forall w, w ∈ weights -> 0 <= weight_total w items) as Hw
      by (intros w; by apply weight_total_nonneg).
    rewrite <- Forall_forall in Hw. unfold weights in *. rewrite !Forall_cons in Hw. cbn [map] in *.
    rewrite !weight_total_cons in *.
    destruct Hw as (H1 & H2 & H3 & H4 & H5 & H6 & _). injection R4 as E1 E2 E3 E4 E5 E6.
    unfold counters, CostTracker.count_transaction, saturating_sub. cbn.
    rewrite E1, E2, E3, E4, E5, E6. repeat f_equal; lia.
Qed.

(** The three operations on the transactions of the block. *)
Lemma add_represents t items c n :
  cost_ok c -> items_ok items -> sums_fit ((c, sum c) :: items) -> represents t items n ->
  represents (CostTracker.add_transaction_cost t c).2 ((c, sum c) :: items) n.
Proof.
  intros Hc Hok [Ht Hs] R. assert (sums_fit ((c, 0) :: items)) as Hs0.
  { split; [|exact Hs]. rewrite total_cons in *. pose proof (cost_ok_range c Hc). lia. }
  apply (count_represents _ _ c) in R; [|done].
  apply (adjust_represents (fun x => saturating_add U64_MAX x (sum c)) _ c 0 (sum c)) in R; try done.
  intros x Hx. rewrite total_cons in Ht. unfold saturating_add. lia.
Qed.

Lemma remove_represents t items c n :
  cost_ok c -> items_ok items -> represents t ((c, sum c) :: items) n ->
  represents (CostTracker.remove t c) items n.
Proof.
  intros Hc Hok R. pose proof (cost_ok_range c Hc) as Hsum.
  unfold CostTracker.remove, CostTracker.remove_transaction_cost. apply uncount_represents; [done|].
  apply (adjust_represents (fun x => saturating_sub x (sum c)) _ c (sum c) (- sum c)) in R; try done.
  - by rewrite Z.add_opp_diag_r in R.
  - lia.
  - intros x Hx. unfold saturating_sub. lia.
Qed.

(** What a transaction counts once it has run. *)
Definition measured (c : TransactionCost) (units loaded_cost : Z) : Z :=
  sum c - estimated c + saturating_add U64_MAX units loaded_cost.

Lemma update_represents t items c n units loaded_cost :
  cost_ok c -> items_ok items -> 0 <= units -> 0 <= loaded_cost ->
  measured c units loaded_cost + total items <= U64_MAX ->
  represents t ((c, sum c) :: items) n ->
  represents (CostTracker.update_execution_cost t c units loaded_cost)
    ((c, measured c units loaded_cost) :: items) n.
Proof.
  intros Hc Hok Hu Hl Hfit R. unfold CostTracker.update_execution_cost.
  pose proof (cost_ok_range c Hc) as Hsum.
  pose proof (total_nonneg items Hok).
  assert (saturating_add U64_MAX (programs_execution_cost c) (loaded_accounts_data_size_cost c) = estimated c) as ->
    by (unfold saturating_add, estimated in *; lia).
  unfold measured in *. set (actual := saturating_add U64_MAX units loaded_cost) in *.
  assert (0 <= actual) by (unfold actual, saturating_add; lia).
  destruct (actual ?= estimated c) eqn:Hcmp.
  - apply Z.compare_eq in Hcmp. replace (sum c - estimated c + actual) with (sum c) by lia. done.
  - rewrite Z.compare_lt_iff in Hcmp.
    apply (adjust_represents (fun x => saturating_sub x (estimated c - actual)) _ c (sum c)
             (actual - estimated c)) in R; try done; [|lia|].
    + by replace (sum c - estimated c + actual) with (sum c + (actual - estimated c)) by lia.
    + intros x Hx. unfold saturating_sub. lia.
  - rewrite Z.compare_gt_iff in Hcmp.
    apply (adjust_represents (fun x => saturating_add U64_MAX x (actual - estimated c)) _ c (sum c)
             (actual - estimated c)) in R; try done; [|lia|].
    + by replace (sum c - estimated c + actual) with (sum c + (actual - estimated c)) by lia.
    + intros x Hx. unfold saturating_add. lia.
Qed.

(** *** Selection *)

(** The decision about one more transaction, in terms of the transactions that
    are already counted. *)
Definition reference_fit (items : list Item) (c : TransactionCost) : result CostTrackerError unit :=
  if is_simple_vote c && (lv <? vote_total items + sum c) then Err CostTrackerError.WouldExceedVoteMaxLimit
  else if lb <? total items + sum c then Err CostTrackerError.WouldExceedBlockMaxLimit
  else if la <? sum c then Err CostTrackerError.WouldExceedAccountMaxLimit
  else if MAX_BLOCK_ACCOUNTS_DATA_SIZE_DELTA <?
          weight_total TransactionCost.allocated_accounts_data_size ((c, 0) :: items)
  then Err CostTrackerError.WouldExceedAccountDataBlockLimit
  else if existsb (fun k => la <? account_total k items + sum c) (writable_accounts c)
  then Err CostTrackerError.WouldExceedAccountMaxLimit
  else Ok tt.

Fixpoint reference_select (items : list Item) (costs : list (result TransactionError TransactionCost))
    : list (result TransactionError TransactionCost) :=
  match costs with
  | [] => []
  | Ok c :: costs =>
      match reference_fit items c with
      | Ok _ => Ok c :: reference_select ((c, sum c) :: items) costs
      | Err e => Err (from_err e) :: reference_select items costs
      end
  | Err e :: costs => Err e :: reference_select items costs
  end.

Definition included (b : list (result TransactionError TransactionCost)) : list TransactionCost :=
  omap (fun r => match r with Ok c => Some c | Err _ => None end) b.
Definition batch_items (b : list (result TransactionError TransactionCost)) : list Item :=
  map (fun c => (c, sum c)) (included b).

(** What holds of the transactions of a block at every moment, and the limits. *)
Record good (items : list Item) : Prop := {
  good_items : items_ok items;
  good_total : total items <= COST_ROOM;
  good_allocated :
    weight_total TransactionCost.allocated_accounts_data_size items <= MAX_BLOCK_ACCOUNTS_DATA_SIZE_DELTA;
}.

Definition within (items : list Item) : Prop :=
  total items <= lb /\ vote_total items <= lv /\ forall k, account_total k items <= la.

Lemma good_perm items items' : items ≡ₚ items' -> good items -> good items'.
Proof.
  intros Hp [G1 G2 G3]. split.
  - unfold items_ok. by rewrite <- Hp.
  - unfold total. by rewrite <- (zsum_perm _ _ _ Hp).
  - unfold weight_total. by rewrite <- (zsum_perm _ _ _ Hp).
Qed.

Lemma within_perm items items' : items ≡ₚ items' -> within items -> within items'.
Proof.
  intros Hp (W1 & W2 & W3). split_and!.
  - unfold total. by rewrite <- (zsum_perm _ _ _ Hp).
  - unfold vote_total. by rewrite <- (zsum_perm _ _ _ Hp).
  - intros k. unfold account_total. rewrite <- (zsum_perm _ _ _ Hp). apply W3.
Qed.

(** The counters of signatures cannot overflow. *)
Lemma good_sums_fit items : good items -> sums_fit items.
Proof.
  intros [G1 G2 G3]. split; [unfold COST_ROOM in *; lia|].
  apply Forall_cons. split; [unfold MAX_BLOCK_ACCOUNTS_DATA_SIZE_DELTA in *; lia|].
  apply Forall_forall. intros w Hw.
  trans (COUNT_ROOM * total items); [|unfold COUNT_ROOM, COST_ROOM in *; lia].
  unfold weight_total, total. rewrite <- zsum_scale. apply zsum_le.
  eapply Forall_impl; [exact G1|]. intros x [Hc Hx]. destruct Hc as [_ _ _ _ _ Hc].
  rewrite Forall_forall in Hc. specialize (Hc w Hw). unfold COUNT_ROOM in *. cbn. lia.
Qed.

Section Selection.
Context (Hla : 0 <= la < COST_ROOM) (Hlb : 0 <= lb < COST_ROOM) (Hlv : 0 <= lv < COST_ROOM).

Lemma saturated_above limit x : limit < COST_ROOM -> (limit <? Z.min U64_MAX x) = (limit <? x).
Proof. intros H. unfold COST_ROOM in *. destruct (Z.ltb_spec limit x), (Z.ltb_spec limit (Z.min U64_MAX x)); lia. Qed.

Lemma accounts_fit_reference t items n cost keys :
  represents t items n -> (la <? cost) = false ->
  CostTracker.accounts_fit (cost_by_writable_accounts t) la cost keys
  = negb (existsb (fun k => la <? account_total k items + cost) keys).
Proof.
  intros R Hc. induction keys as [|k keys IH]; [done|]. cbn. rewrite negb_orb, <- IH.
  pose proof (rep_accounts _ _ _ R k) as E. unfold account_cost in E.
  destruct (cost_by_writable_accounts t !! k) as [x|]; cbn in E; rewrite <- E.
  - unfold saturating_add. rewrite saturated_above by lia. by destruct (la <? x + cost).
  - by rewrite Z.add_0_l, Hc.
Qed.

Lemma would_fit_reference t items n c :
  represents t items n -> CostTracker.would_fit t c = reference_fit items c.
Proof.
  intros R. unfold CostTracker.would_fit, reference_fit. cbv zeta.
  pose proof (rep_limits _ _ _ R) as E. injection E as -> -> ->.
  rewrite (rep_vote _ _ _ R), (rep_block _ _ _ R). unfold saturating_add. rewrite !saturated_above by lia.
  pose proof (f_equal (hd 0) (rep_counters _ _ _ R)) as E. cbn [counters hd map weights] in E. rewrite E.
  rewrite weight_total_cons, (saturated_above MAX_BLOCK_ACCOUNTS_DATA_SIZE_DELTA) by done.
  rewrite (Z.add_comm (TransactionCost.allocated_accounts_data_size c)).
  destruct (is_simple_vote c && (lv <? vote_total items + sum c)); [done|].
  destruct (lb <? total items + sum c); [done|]. destruct (la <? sum c) eqn:Hc; [done|].
  destruct (MAX_BLOCK_ACCOUNTS_DATA_SIZE_DELTA <? _); [done|].
  by rewrite (accounts_fit_reference t items n _ _ R Hc), negb_involutive.
Qed.

Lemma reference_fit_admits items c :
  reference_fit items c = Ok tt -> good items -> cost_ok c ->
  good ((c, sum c) :: items) /\ (within items -> within ((c, sum c) :: items)).
Proof.
  intros H [G1 G2 G3] Hc. unfold reference_fit in H. pose proof (cost_ok_range c Hc).
  destruct (is_simple_vote c && _) eqn:Ev; [done|]. destruct (lb <? _) eqn:Eb; [done|].
  destruct (la <? sum c) eqn:Ea; [done|].
  destruct (MAX_BLOCK_ACCOUNTS_DATA_SIZE_DELTA <? _) eqn:Em; [done|].
  destruct (existsb _ _) eqn:Ex; [done|]. apply Z.ltb_ge in Eb, Em.
  split.
  - split.
    + apply Forall_cons. split; [|done]. split; [done|]. cbn. lia.
    + rewrite total_cons. lia.
    + done.
  - intros (W1 & W2 & W3). split_and!.
    + rewrite total_cons. lia.
    + rewrite vote_total_cons. destruct (is_simple_vote c); cbn in Ev; lia.
    + intros k. rewrite account_total_cons. specialize (W3 k). case_bool_decide as Hk; [|lia].
      assert ((la <? account_total k items + sum c) = false) as E; [|lia].
      apply not_true_iff_false. intros E. apply not_true_iff_false in Ex. apply Ex, existsb_exists.
      exists k. by rewrite <- list_elem_of_In.
Qed.

Lemma select_loop_spec costs : forall t items n k,
  represents t items n -> good items -> Forall cost_ok (included costs) ->
  let b := reference_select items costs in
  exists t', QosService.select_loop t costs k = (b, k + zlen (included b), t') /\
    represents t' (batch_items b ++ items) n /\ good (batch_items b ++ items) /\
    (within items -> within (batch_items b ++ items)).
Proof.
  induction costs as [|[c|e] costs IH]; intros t items n k R G Hc; cbn [QosService.select_loop].
  - exists t. split_and!; try done. by rewrite Z.add_0_r.
  - cbn [included omap list_omap] in Hc. apply Forall_cons in Hc as [Hc1 Hc].
    unfold CostTracker.try_add. rewrite (would_fit_reference _ _ _ c R). cbn [reference_select].
    destruct (reference_fit items c) as [[]|e] eqn:Ef.
    + destruct (reference_fit_admits items c Ef G Hc1) as [G' W].
      pose proof (add_represents t items c n Hc1 (good_items _ G) (good_sums_fit _ G') R) as R'.
      destruct (CostTracker.add_transaction_cost t c) as [most t1]. cbn [snd] in R'.
      destruct (IH t1 _ n (k + 1) R' G' Hc) as (t' & -> & Rt & Gt & Wt).
      exists t'. set (b := reference_select _ costs) in *.
      assert (batch_items (Ok c :: b) ++ items ≡ₚ batch_items b ++ (c, sum c) :: items) as Hp
        by (cbn; by rewrite Permutation_middle).
      split_and!.
      * f_equal. f_equal. change (included (Ok c :: b)) with (c :: included b). rewrite zlen_cons. lia.
      * eapply represents_perm; [by symmetry|done].
      * by eapply good_perm.
      * intros Hw. eapply within_perm; [by symmetry|]. auto.
    + destruct (IH t items n k R G Hc) as (t' & -> & Rt). by exists t'.
  - cbn [reference_select]. destruct (IH t items n k R G Hc) as (t' & -> & Rt). by exists t'.
Qed.

End Selection.

(** *** Settlement *)

Definition details_ok (d : CommitTransactionDetails) : Prop :=
  match d with
  | Committed units size _ => 0 <= units <= U64_MAX /\ 0 <= size <= U32_MAX
  | NotCommitted _ => True
  end.

(** The transactions of a batch that stay in the block, with what they used. *)
Fixpoint settled_list (b : list (result TransactionError TransactionCost))
    (status : list CommitTransactionDetails) : list Item :=
  match b, status with
  | Ok c :: b, Committed units size _ :: status =>
      (c, measured c units (CostModel.calculate_loaded_accounts_data_size_cost size)) :: settled_list b status
  | _ :: b, _ :: status => settled_list b status
  | _, _ => []
  end.

Definition settled (b : list (result TransactionError TransactionCost))
    (status : option (list CommitTransactionDetails)) : list Item :=
  from_option (settled_list b) [] status.

Section Settlement.
Context {laws : CostLaws env}.

Lemma measured_ok c units size :
  cost_ok c -> details_ok (Committed units size (Ok tt)) ->
  sum c - estimated c <= measured c units (CostModel.calculate_loaded_accounts_data_size_cost size).
Proof.
  intros Hc [Hu Hs]. unfold measured, saturating_add, CostModel.calculate_loaded_accounts_data_size_cost.
  pose proof (memory_cost_range size Hs). lia.
Qed.

Lemma settled_list_ok b : forall status,
  Forall cost_ok (included b) -> Forall details_ok status -> items_ok (settled_list b status).
Proof.
  induction b as [|[c|e] b IH]; intros [|d status] Hb Hd;
    try (by apply Forall_nil); apply Forall_cons in Hd as [Hd1 Hd].
  - apply Forall_cons in Hb as [Hc Hb]. destruct d as [units size r|]; cbn [settled_list]; [|by apply IH].
    apply Forall_cons. split; [|by apply IH]. split; [done|]. by apply measured_ok.
  - by apply IH.
Qed.

Lemma batch_items_ok b : Forall cost_ok (included b) -> items_ok (batch_items b).
Proof.
  intros H. unfold items_ok, batch_items. apply Forall_map. eapply Forall_impl; [exact H|].
  intros c Hc. pose proof (cost_ok_range c Hc). cbn. split; [done|lia].
Qed.

Lemma recorded_loop_spec b : forall status t rest n k,
  length status = length b -> Forall cost_ok (included b) -> Forall details_ok status -> items_ok rest ->
  total (batch_items b) + total (settled_list b status) + total rest <= U64_MAX ->
  represents t (batch_items b ++ rest) n ->
  exists t', QosService.recorded_loop t b status k = (k + zlen (included b), t') /\
    represents t' (settled_list b status ++ rest) n.
Proof.
  induction b as [|[c|e] b IH]; intros [|d status] t rest n k Hl Hb Hd Hrest Hfit R; try done.
  - exists t. split; [by rewrite Z.add_0_r|done].
  - apply Forall_cons in Hd as [Hd1 Hd], Hb as [Hc Hb]. injection Hl as Hl.
    change (batch_items (Ok c :: b)) with ((c, sum c) :: batch_items b) in *.
    change (included (Ok c :: b)) with (c :: included b). rewrite zlen_cons, Z.add_assoc, <- Z.add_assoc.
    pose proof (cost_ok_range c Hc). rewrite total_cons in Hfit.
    pose proof (batch_items_ok b Hb) as Hbi. pose proof (settled_list_ok b status Hb Hd) as Hst.
    pose proof (total_nonneg _ Hbi). pose proof (total_nonneg _ Hst). pose proof (total_nonneg _ Hrest).
    cbn [app] in R. cbn [QosService.recorded_loop QosService.remove_or_update].
    destruct d as [units size r|]; cbn [settled_list QosService.remove_or_update] in *.
    + pose proof (measured_ok c units size Hc Hd1). rewrite total_cons in Hfit.
      apply (update_represents _ _ _ _ units (CostModel.calculate_loaded_accounts_data_size_cost size)) in R;
        [|done|by apply Forall_app|apply Hd1|apply memory_cost_range, Hd1|].
      2: { unfold total in *. rewrite zsum_app. lia. }
      apply (represents_perm _ _ _ _ (Permutation_middle _ _ _)) in R.
      eapply (IH status _ _ n (k + 1) Hl Hb Hd) in R as (t' & -> & R').
      * exists t'. split; [f_equal; lia|]. eapply represents_perm; [|exact R'].
        symmetry. apply Permutation_middle.
      * apply Forall_cons. split; [|done]. split; [done|]. cbn. lia.
      * rewrite total_cons. lia.
    + apply remove_represents in R; [|done|by apply Forall_app].
      apply (IH status _ _ n (k + 1) Hl Hb Hd Hrest) in R as (t' & -> & R'); [|lia].
      exists t'. split; [f_equal; lia|done].
  - apply Forall_cons in Hd as [Hd1 Hd]. injection Hl as Hl.
    destruct (IH status t rest n k Hl Hb Hd Hrest) as (t' & E & R'); [done|done|].
    exists t'. split; [exact E|]. exact R'.
Qed.

Lemma unrecorded_loop_spec b : forall t rest n k,
  Forall cost_ok (included b) -> items_ok rest -> represents t (batch_items b ++ rest) n ->
  exists t', QosService.unrecorded_loop t b k = (k + zlen (included b), t') /\ represents t' rest n.
Proof.
  induction b as [|[c|e] b IH]; intros t rest n k Hb Hrest R.
  - exists t. split; [by rewrite Z.add_0_r|done].
  - apply Forall_cons in Hb as [Hc Hb]. pose proof (batch_items_ok b Hb).
    change (included (Ok c :: b)) with (c :: included b). rewrite zlen_cons.
    apply remove_represents in R; [|done|by apply Forall_app]. cbn [QosService.unrecorded_loop].
    destruct (IH _ _ n (k + 1) Hb Hrest R) as (t' & -> & R'). exists t'. split; [f_equal; lia|done].
  - by apply (IH t rest n k).
Qed.

End Settlement.

(** *** The history of a block *)

Definition items_of (flying : list (list (result TransactionError TransactionCost)))
    (committed : list Item) : list Item :=
  concat (map batch_items flying) ++ committed.
Definition num_flying (flying : list (list (result TransactionError TransactionCost))) : Z :=
  zlen (concat (map included flying)).

(** Batches are selected and settled by several threads in any order; [metered]
    says that no transaction uses more than it was charged for, otherwise only
    the total is bounded.  A child of the block starts with its limits. *)
Inductive filling (metered : bool)
    : CostTracker -> list (list (result TransactionError TransactionCost)) -> list Item -> Prop :=
| filling_start : filling metered (CostTracker.set_limits CostTracker.default la lb lv) [] []
| filling_child t flying committed :
    filling metered t flying committed -> filling metered (CostTracker.new_from_parent_limits t) [] []
| filling_select t flying committed costs b n t' :
    filling metered t flying committed -> Forall cost_ok (included costs) ->
    QosService.select_transactions_per_cost t costs = (b, n, t') ->
    filling metered t' (b :: flying) committed
| filling_settle t flying committed b rest status :
    filling metered t flying committed -> flying ≡ₚ b :: rest ->
    from_option (fun l => length l = length b /\ Forall details_ok l) True status ->
    (if metered then Forall (fun x => x.2 <= sum x.1) (settled b status)
     else total (settled b status ++ items_of rest committed) <= COST_ROOM) ->
    filling metered (QosService.remove_or_update_costs t b status) rest (settled b status ++ committed).

(** A settled batch counts at most what the batch counted. *)
Lemma settled_zsum_le h b status :
  Forall cost_ok (included b) -> (forall c, cost_ok c -> 0 <= h (c, sum c)) ->
  Forall (fun x => h x <= h (x.1, sum x.1)) (settled b status) ->
  zsum h (settled b status) <= zsum h (batch_items b).
Proof.
  intros Hb Hh. destruct status as [status|]; cbn [settled from_option].
  - revert status. induction b as [|[c|e] b IH]; intros [|d status] Hs; cbn [settled_list] in *; try done.
    + apply Forall_cons in Hb as [Hc Hb]. apply zsum_nonneg, Forall_map, Forall_cons. split; [by apply Hh|].
      eapply Forall_impl; [exact Hb|apply Hh].
    + apply Forall_cons in Hb as [Hc Hb]. specialize (Hh c Hc) as H0.
      change (batch_items (Ok c :: b)) with ((c, sum c) :: batch_items b). rewrite zsum_cons.
      destruct d.
      * apply Forall_cons in Hs as [Hs1 Hs]. rewrite zsum_cons. specialize (IH Hb status Hs). cbn in Hs1. lia.
      * specialize (IH Hb status Hs). lia.
    + apply zsum_nonneg, Forall_map. eapply Forall_impl; [exact Hb|apply Hh].
    + by apply IH.
  - intros _. apply zsum_nonneg, Forall_map. eapply Forall_impl; [exact Hb|apply Hh].
Qed.

Lemma items_of_cons b flying committed :
  items_of (b :: flying) committed = batch_items b ++ items_of flying committed.
Proof. unfold items_of. cbn. by rewrite <- app_assoc. Qed.

Lemma items_of_perm flying flying' committed :
  flying ≡ₚ flying' -> items_of flying committed ≡ₚ items_of flying' committed.
Proof. intros H. unfold items_of. by rewrite H. Qed.

Lemma num_flying_cons b flying : num_flying (b :: flying) = zlen (included b) + num_flying flying.
Proof. unfold num_flying. cbn. apply zlen_app. Qed.

Lemma num_flying_perm flying flying' : flying ≡ₚ flying' -> num_flying flying = num_flying flying'.
Proof. intros H. unfold num_flying, zlen. by rewrite H. Qed.

Lemma num_flying_le flying committed :
  items_ok (items_of flying committed) -> num_flying flying <= total (items_of flying committed).
Proof.
  intros H. unfold total, items_of in *. apply Forall_app in H as [H Hc]. rewrite zsum_app.
  pose proof (total_nonneg _ Hc). unfold total in *. cut (num_flying flying <= zsum snd (concat (map batch_items flying))); [lia|].
  induction flying as [|b flying IH]; [done|]. rewrite num_flying_cons. cbn [map concat] in *.
  apply Forall_app in H as [Hb H]. rewrite zsum_app. specialize (IH H).
  cut (zlen (included b) <= zsum snd (batch_items b)); [lia|]. unfold zlen.
  replace (length (included b)) with (length (batch_items b)) by apply length_map.
  rewrite <- (Z.mul_1_l (Z.of_nat _)), <- zsum_const. apply zsum_le. eapply Forall_impl; [exact Hb|].
  intros x [Hx1 Hx2]. by eapply item_ok_positive.
Qed.

Section History.
Context {laws : CostLaws env}.
Context (Hla : 0 <= la < COST_ROOM) (Hlb : 0 <= lb < COST_ROOM) (Hlv : 0 <= lv < COST_ROOM).

Lemma empty_block t :
  t = CostTracker.set_limits CostTracker.default la lb lv -> represents t [] 0 /\ good [] /\ within [].
Proof.
  intros ->. split_and!.
  - split; try done.
  - split; [apply Forall_nil; done|done|done].
  - split_and!; [apply Hlb|apply Hlv|]. intros k. apply Hla.
Qed.

Lemma select_spec t items n costs b k t' :
  represents t items n -> good items -> Forall cost_ok (included costs) ->
  QosService.select_transactions_per_cost t costs = (b, k, t') ->
  (good (batch_items b ++ items) -> n + zlen (included b) <= U64_MAX) ->
  b = reference_select items costs /\ represents t' (batch_items b ++ items) (zlen (included b) + n) /\
  good (batch_items b ++ items) /\ (within items -> within (batch_items b ++ items)).
Proof.
  intros R G Hc H Hn. unfold QosService.select_transactions_per_cost in H.
  destruct (select_loop_spec Hla Hlb Hlv costs t items n 0 R G Hc) as (t1 & E & R1 & G1 & W1).
  rewrite E in H. injection H as <- <- <-. split_and!; try done.
  destruct R1 as [R0 R1 R2 R3 R4 R5]. split; try done.
  specialize (Hn G1). cbn. rewrite R5. unfold saturating_add. lia.
Qed.

Lemma settle_represents t b status rest n :
  good (batch_items b ++ rest) -> Forall cost_ok (included b) -> items_ok rest ->
  from_option (fun l => length l = length b /\ Forall details_ok l) True status ->
  total (settled b status ++ rest) <= COST_ROOM ->
  represents t (batch_items b ++ rest) (zlen (included b) + n) -> 0 <= n ->
  represents (QosService.remove_or_update_costs t b status) (settled b status ++ rest) n.
Proof.
  intros G Hb Hrest Hst Hfit R Hn. destruct G as [G1 G2 G3]. pose proof (total_nonneg _ Hrest) as H0.
  assert (forall t' k items, k = zlen (included b) -> represents t' items (zlen (included b) + n) ->
    represents (CostTracker.sub_transactions_in_flight t' k) items n) as Hsub.
  { intros t' k items -> [R0 R1 R2 R3 R4 R5]. split; try done. cbn. rewrite R5. unfold saturating_sub. lia. }
  unfold total in G2, Hfit, H0. rewrite zsum_app in G2, Hfit.
  destruct status as [l|]; cbn [settled from_option QosService.remove_or_update_costs app] in *.
  - destruct Hst as [Hl Hd].
    destruct (recorded_loop_spec b l t rest _ 0 Hl Hb Hd Hrest ltac:(unfold COST_ROOM, total in *; lia) R)
      as (t' & E & R').
    unfold QosService.remove_or_update_recorded_transaction_costs. rewrite E. by apply Hsub.
  - destruct (unrecorded_loop_spec b t rest _ 0 Hb Hrest R) as (t' & E & R').
    unfold QosService.remove_unrecorded_transaction_costs. rewrite E. by apply Hsub.
Qed.

Lemma settle_good b status rest :
  good (batch_items b ++ rest) -> Forall cost_ok (included b) ->
  from_option (fun l => length l = length b /\ Forall details_ok l) True status ->
  total (settled b status ++ rest) <= COST_ROOM -> good (settled b status ++ rest).
Proof.
  intros [G1 G2 G3] Hb Hst Hfit. apply Forall_app in G1 as [_ G1]. split; [|done|].
  - apply Forall_app. split; [|done]. destruct status as [l|]; [|by apply Forall_nil].
    apply settled_list_ok; [done|apply Hst].
  - unfold weight_total in *. rewrite zsum_app in *.
    pose proof (settled_zsum_le (fun x => TransactionCost.allocated_accounts_data_size x.1) b status Hb).
    cut (zsum (fun x : Item => TransactionCost.allocated_accounts_data_size x.1) (settled b status)
      <= zsum (fun x : Item => TransactionCost.allocated_accounts_data_size x.1) (batch_items b)); [lia|].
    apply H; [intros c Hc; apply Hc|]. by apply Forall_true.
Qed.

Lemma batch_costs_ok b : items_ok (batch_items b) -> Forall cost_ok (included b).
Proof.
  intros H. apply Forall_map in H. eapply Forall_impl; [exact H|]. by intros c [Hc _].
Qed.

(** With meters every sum over some of the transactions shrinks. *)
Lemma settle_shrinks (p : TransactionCost -> bool) b status rest :
  Forall cost_ok (included b) -> Forall (fun x => x.2 <= sum x.1) (settled b status) ->
  zsum (fun x : Item => if p x.1 then x.2 else 0) (settled b status ++ rest)
  <= zsum (fun x : Item => if p x.1 then x.2 else 0) (batch_items b ++ rest).
Proof.
  intros Hb Hm. rewrite !zsum_app. apply Z.add_le_mono_r. apply settled_zsum_le; [done| |].
  - intros c Hc. pose proof (cost_ok_range c Hc). cbn. destruct (p c); lia.
  - eapply Forall_impl; [exact Hm|]. intros [c z]. cbn. destruct (p c); lia.
Qed.

Lemma filling_invariant metered t flying committed :
  filling metered t flying committed ->
  represents t (items_of flying committed) (num_flying flying) /\
  good (items_of flying committed) /\ (metered = true -> within (items_of flying committed)).
Proof.
  induction 1 as [|t flying committed _ (R & _)|t flying committed costs b n t' _ (R & G & W) Hc Hsel
                 |t flying committed b rest status _ (R & G & W) Hp Hst Hm].
  - destruct (empty_block _ eq_refl) as (? & ? & ?). done.
  - assert (CostTracker.new_from_parent_limits t = CostTracker.set_limits CostTracker.default la lb lv) as ->.
    { pose proof (rep_limits _ _ _ R) as E. injection E as <- <- <-. done. }
    destruct (empty_block _ eq_refl) as (? & ? & ?). done.
  - destruct (select_spec t _ _ costs b n t' R G Hc Hsel) as (_ & R' & G' & W').
    { rewrite <- items_of_cons. intros G'. pose proof (num_flying_le _ _ (good_items _ G')).
      rewrite num_flying_cons in *. pose proof (good_total _ G'). unfold COST_ROOM in *. lia. }
    rewrite items_of_cons, num_flying_cons. auto.
  - pose proof (items_of_perm _ _ committed Hp) as Hp'. rewrite items_of_cons in Hp'.
    apply (represents_perm _ _ _ _ Hp') in R. apply (good_perm _ _ Hp') in G.
    rewrite (num_flying_perm _ _ Hp), num_flying_cons in R.
    assert (metered = true -> within (batch_items b ++ items_of rest committed)) as W0.
    { intros Hmet. eapply within_perm; [exact Hp'|auto]. }
    clear W Hp Hp'.
    pose proof (good_items _ G) as [Hb Hrest]%Forall_app.
    assert (settled b status ++ items_of rest committed ≡ₚ items_of rest (settled b status ++ committed)) as Hp
      by apply Permutation_app_swap_app.
    apply batch_costs_ok in Hb. assert (total (settled b status ++ items_of rest committed) <= COST_ROOM) as Hfit.
    { destruct metered; [|done]. etrans; [|exact (good_total _ G)].
      exact (settle_shrinks (fun _ => true) b status _ Hb Hm). }
    split_and!.
    + eapply represents_perm; [exact Hp|]. apply settle_represents; try done. apply zlen_nonneg.
    + eapply good_perm; [exact Hp|]. by apply settle_good.
    + intros ->. eapply within_perm; [exact Hp|]. destruct (W0 eq_refl) as (W1 & W2 & W3). split_and!.
      * etrans; [exact (settle_shrinks (fun _ => true) b status _ Hb Hm)|done].
      * etrans; [exact (settle_shrinks is_simple_vote b status _ Hb Hm)|done].
      * intros k. etrans; [|exact (W3 k)].
        exact (settle_shrinks (fun c => bool_decide (k ∈ writable_accounts c)) b status _ Hb Hm).
Qed.

End History.

End Block.

(** ** The cost of a transaction from its bytes *)

(** The data of the instructions is part of the encoding. *)
Lemma data_len_le t :
  zsum (fun x => zlen (ix_data x.2)) (with_programs t) <= zlen (encode t).
Proof.
  assert (forall l, zsum (fun ix => zlen (ix_data ix)) l <= zlen (enc_instructions l)) as H.
  { intros l. unfold enc_instructions. rewrite zlen_app. pose proof (zlen_nonneg (compact_u16 (zlen l))).
    cut (zsum (fun ix => zlen (ix_data ix)) l <= zlen (concat (map enc_instruction l))); [lia|]. clear.
    induction l as [|ix l IH]; [done|]. cbn [map concat]. rewrite zsum_cons, zlen_app.
    unfold enc_instruction at 1. rewrite zlen_cons, !zlen_app.
    pose proof (zlen_nonneg (compact_u16 (zlen (ix_account_indexes ix)))).
    pose proof (zlen_nonneg (ix_account_indexes ix)).
    pose proof (zlen_nonneg (compact_u16 (zlen (ix_data ix)))). lia. }
  assert (zsum (fun x => zlen (ix_data x.2)) (with_programs t)
    = zsum (fun ix => zlen (ix_data ix)) (t_instructions t)) as ->.
  { unfold with_programs. induction (t_instructions t) as [|ix l IH]; [done|]. cbn [fmap list_fmap].
    rewrite !zsum_cons. cbn [snd]. by rewrite <- IH. }
  specialize (H (t_instructions t)). unfold encode. rewrite !zlen_app.
  pose proof (zlen_nonneg (enc_array (t_signatures t))). pose proof (zlen_nonneg (enc_header (t_header t))).
  pose proof (zlen_nonneg (enc_array (t_account_keys t))). pose proof (zlen_nonneg (t_recent_blockhash t)).
  pose proof (zlen_nonneg (match h_version (t_header t) with Legacy => [] | V0 => enc_lookups (t_lookups t) end)).
  lia.
Qed.

Lemma data_lens_small t :
  zlen (encode t) <= U16_MAX -> Forall (fun x => zlen (ix_data x.2) <= U16_MAX) (with_programs t).
Proof.
  intros Hu. pose proof (data_len_le t) as H. apply Forall_lookup. intros i x Hx.
  etrans; [|etrans; [exact H|exact Hu]].
  eapply (zsum_lookup_le (fun x => zlen (ix_data x.2))); [|exact Hx].
  apply Forall_true. intros y. apply zlen_nonneg.
Qed.

Section WireCost.
Context {env : CostEnv} {laws : CostLaws env}.

(** The units and the price of the loaded data that a transaction asks for;
    nothing when its requests are refused later. *)
Definition reference_execution (t : Transaction) : Z * Z :=
  match reference_limits (with_programs t) with
  | Ok limits =>
      (compute_unit_limit limits, calculate_memory_usage_cost (loaded_accounts_bytes limits) DEFAULT_HEAP_COST)
  | Err _ => (0, 0)
  end.

Definition reference_signature_cost (t : Transaction) : Z :=
  SIGNATURE_COST * h_num_required_signatures (t_header t)
  + SECP256K1_VERIFY_COST * precompile_signatures secp256k1_id (with_programs t)
  + (if ed25519_precompile_verify_strict then ED25519_VERIFY_STRICT_COST else ED25519_VERIFY_COST)
    * precompile_signatures ed25519_id (with_programs t)
  + (if enable_secp256r1_precompile then SECP256R1_VERIFY_COST else 0)
    * precompile_signatures secp256r1_id (with_programs t).

Definition requested_write_locks (t : Transaction) : Z :=
  zlen (t_account_keys t) - h_num_readonly_signed (t_header t) - h_num_readonly_unsigned (t_header t)
  + total_writable (t_lookups t).

Definition reference_cost (t : Transaction) : Z :=
  reference_signature_cost t + WRITE_LOCK_UNITS * requested_write_locks t
  + zsum (fun x => zlen (ix_data x.2)) (with_programs t) / 4
  + (reference_execution t).1 + (reference_execution t).2.

Lemma reference_execution_range t :
  0 <= (reference_execution t).1 <= 1400000 /\ 0 <= (reference_execution t).2 <= U32_MAX.
Proof.
  unfold reference_execution. destruct (reference_limits (with_programs t)) as [lim|e] eqn:E; [|cbn; lia].
  apply reference_limits_range in E as (_ & ? & _ & ?). cbn [fst snd]. split; [done|].
  apply memory_cost_range. lia.
Qed.

Lemma allocations_nonneg l : forall size n,
  0 <= size -> CostModel.allocations l size = Some n -> 0 <= n.
Proof.
  induction l as [|[p ix] l IH]; intros size n Hs H; cbn [CostModel.allocations] in H; [by injection H as <-|].
  unfold CostModel.calculate_account_data_size_on_instruction in H. case_bool_decide; [|by eapply IH].
  destruct (decode_system_instruction (ix_data ix)) as [i|] eqn:E; [|done]. apply decoded_space_nonneg in E.
  destruct i; cbn in H; try (destruct (_ <? _); [done|]); (eapply IH; [|exact H]); [|unfold saturating_add; lia..|done].
  unfold saturating_add; lia.
Qed.

Lemma allocated_size_nonneg l : 0 <= CostModel.calculate_allocated_accounts_data_size l.
Proof.
  unfold CostModel.calculate_allocated_accounts_data_size. pose proof allocation_limit_nonneg.
  destruct (CostModel.allocations l 0) as [n|] eqn:E; [|done]. apply allocations_nonneg in E; lia.
Qed.

Lemma writable_accounts_nodup c :
  NoDup (Fees.account_keys (transaction (transaction_of c))) -> NoDup (writable_accounts c).
Proof.
  intros H. unfold writable_accounts. set (l := Fees.account_keys _) in *.
  eapply sublist_NoDup; [exact H|]. assert ((imap pair l).*2 = l) as El.
  { rewrite fmap_imap. apply list_eq. intros i. rewrite list_lookup_imap. by destruct (l !! i). }
  rewrite <- El at 2. apply fmap_sublist, sublist_filter.
Qed.

Section Sent.
Context (t : Transaction) (Hok : transaction_ok t) (Hsane : sane t).
Context (Hwf : bytes_wf (encode t)) (Hu : zlen (encode t) <= U16_MAX).
Context {keys : AccountKeysEnv} (loaded : option LoadedAddresses) (cache : list bool).
Local Abbreviation view := (mkView (encode t) (transaction_frame t)).
Local Abbreviation resolved := (mkResolved view loaded cache).

Lemma wire_counts :
  InstructionMeta.try_new (with_programs t)
  = Done (mkInstructionMeta
      (mkPrecompile (precompile_signatures secp256k1_id (with_programs t))
         (precompile_signatures ed25519_id (with_programs t))
         (precompile_signatures secp256r1_id (with_programs t)))
      (zsum (fun x => zlen (ix_data x.2)) (with_programs t))) /\
  forall p, 0 <= precompile_signatures p (with_programs t) <= 255 * U16_MAX.
Proof.
  destruct (wire_programs t Hok Hsane Hwf) as (Hn & Hk & Hp & Hd & _).
  assert (zlen (with_programs t) <= U16_MAX) as Hl.
  { unfold with_programs, zlen. rewrite length_fmap. destruct Hok as (_ & _ & _ & _ & Hi & _).
    unfold is_len, zlen in Hi. lia. }
  pose proof (zlen_nonneg (with_programs t)). split.
  - rewrite (try_new_spec (t_account_keys t)); try done; [|by apply data_lens_small].
    rewrite Z.min_r; [done|]. pose proof (data_len_le t). lia.
  - intros p. destruct (precompile_count_spec p (with_programs t) 0 ltac:(lia) Hd) as [_ ?]; lia.
Qed.

Lemma wire_instructions : Message.program_instructions_iter view = Some (Done (with_programs t)).
Proof.
  pose proof (wire_message t Hok Hsane Hwf loaded cache Hu) as H. unfold Message.message_of in H.
  cbn [rv_view] in H. destruct (Message.program_instructions_iter view) as [o|]; [|done].
  injection H as H. destruct o as [l| |]; cbn [obind] in H; [|done..].
  destruct (TransactionView.static_account_keys view); cbn [obind] in H; [|done..].
  destruct (TransactionView.recent_blockhash view); cbn [obind] in H; [|done..].
  by injection H as ->.
Qed.

Lemma wire_details :
  exists r, Details.try_from (with_programs t) = Done r /\
    match r with
    | Err e => reference_limits (with_programs t) = Err e
    | Ok d => sanitize_and_convert_to_compute_budget_limits d = Done (reference_limits (with_programs t))
    end.
Proof.
  destruct (wire_programs t Hok Hsane Hwf) as (Hn & Hk & Hp & _).
  pose proof (process_spec _ _ Hn Hk Hp) as H. unfold process_compute_budget_instructions in H.
  destruct (Details.try_from (with_programs t)) as [r| |]; [|done..]. exists r. split; [done|].
  cbn [obind] in H. destruct r; [done|]. by injection H.
Qed.

Lemma wire_meta hash vote :
  exists r, RuntimeTransaction.try_from view hash vote = Some (Done r) /\
    match r with
    | Err e => reference_limits (with_programs t) = Err e
    | Ok m =>
        signature_details m = mkSignatureDetails (h_num_required_signatures (t_header t))
          (mkPrecompile (precompile_signatures secp256k1_id (with_programs t))
             (precompile_signatures ed25519_id (with_programs t))
             (precompile_signatures secp256r1_id (with_programs t))) /\
        instruction_data_len m = zsum (fun x => zlen (ix_data x.2)) (with_programs t) /\
        sanitize_and_convert_to_compute_budget_limits (compute_budget_instruction_details m)
        = Done (reference_limits (with_programs t))
    end.
Proof.
  assert (zlen (encode t) <= ISIZE_MAX) as Hlen by (unfold ISIZE_MAX; lia).
  unfold RuntimeTransaction.try_from. rewrite wire_instructions. cbn [obind].
  pose proof (message_data_spec (encode t) t Hok eq_refl) as Hm. unfold the_view in Hm.
  destruct (frame_shows_message (encode t) Hlen t Hok eq_refl) as (A1 & _).
  unfold RuntimeTransaction.is_simple_vote, TransactionView.signatures. cbn [view_frame view_data].
  rewrite Hm, A1. rewrite (proj1 wire_counts).
  destruct wire_details as (r & Hr & Hd).
  destruct hash as [h|], vote as [v|]; cbn [obind]; rewrite Hr; cbn [obind];
    destruct r as [d|e]; eexists; (split; [reflexivity|]); done.
Qed.

Lemma wire_runtime meta :
  exists m, Message.message_of resolved = Some (Done m) /\
    runtime_transaction resolved meta = Some (Done (mkRuntime m (requested_write_locks t) meta)) /\
    program_instructions m = with_programs t /\ Fees.account_keys m = TxView.account_keys (t_account_keys t) loaded.
Proof.
  eexists. split; [by apply wire_message|]. split; [|done].
  unfold runtime_transaction. rewrite wire_message by done. cbn [obind rv_view].
  destruct (sane_counters (encode t) Hwf Hu t Hok Hsane eq_refl) as (_ & _ & _ & _ & C).
  unfold the_view in C. by rewrite C.
Qed.

Lemma wire_signature_cost meta m n :
  signature_details meta = mkSignatureDetails (h_num_required_signatures (t_header t))
    (mkPrecompile (precompile_signatures secp256k1_id (with_programs t))
       (precompile_signatures ed25519_id (with_programs t))
       (precompile_signatures secp256r1_id (with_programs t))) ->
  CostModel.get_signature_cost (mkRuntime m n meta) = reference_signature_cost t /\
  SIGNATURE_COST * h_num_required_signatures (t_header t) <= reference_signature_cost t <= U32_MAX * 60.
Proof.
  intros E. destruct wire_counts as [_ Hc]. destruct (sane_header (encode t) Hwf t Hok Hsane eq_refl) as (H1 & H2 & _).
  pose proof (Hc secp256k1_id). pose proof (Hc ed25519_id). pose proof (Hc secp256r1_id).
  unfold CostModel.get_signature_cost, reference_signature_cost, saturating_add, saturating_mul.
  cbn [TxMeta.meta]. rewrite E. cbn [sd_transaction sd_precompile num_secp256k1_instruction_signatures
    num_ed25519_instruction_signatures num_secp256r1_instruction_signatures].
  unfold SIGNATURE_COST, SECP256K1_VERIFY_COST, ED25519_VERIFY_STRICT_COST, ED25519_VERIFY_COST,
    SECP256R1_VERIFY_COST, COMPUTE_UNIT_TO_US_RATIO.
  destruct ed25519_precompile_verify_strict, enable_secp256r1_precompile; split; lia.
Qed.

Lemma vote_cost_ok tx :
  NoDup (Fees.account_keys (transaction tx)) -> cost_ok (SimpleVote tx).
Proof.
  intros H. split; [by apply writable_accounts_nodup|done..|].
  unfold weights. cbn [tail]. repeat (apply Forall_cons; split; [done|]). apply Forall_nil; done.
Qed.

Section Usage.
Context (meta : TransactionMeta) (m : SVMMessage).
Context (Es : signature_details meta = mkSignatureDetails (h_num_required_signatures (t_header t))
  (mkPrecompile (precompile_signatures secp256k1_id (with_programs t))
     (precompile_signatures ed25519_id (with_programs t))
     (precompile_signatures secp256r1_id (with_programs t)))).
Context (El : instruction_data_len meta = zsum (fun x => zlen (ix_data x.2)) (with_programs t)).
Local Abbreviation tx := (mkRuntime m (requested_write_locks t) meta).
Local Abbreviation usage :=
  (CostModel.calculate_non_vote_transaction_cost tx (with_programs t) (requested_write_locks t)
    (reference_execution t).1 (reference_execution t).2 (CostModel.get_instructions_data_cost tx)).

Lemma usage_sum_exact :
  sum usage = reference_cost t /\ sum usage <= U64_MAX /\
  SIGNATURE_COST * h_num_required_signatures (t_header t) <= sum usage - estimated usage.
Proof.
  destruct (wire_signature_cost meta m (requested_write_locks t) Es) as [Hs Hr].
  destruct (sane_header (encode t) Hwf t Hok Hsane eq_refl) as (H1 & H2 & H3 & H4 & H5 & H6 & H7).
  assert (0 <= requested_write_locks t <= 256) as Hw by (unfold requested_write_locks; lia).
  pose proof (reference_execution_range t) as [He1 He2]. pose proof (data_len_le t) as Hd.
  change (estimated usage) with ((reference_execution t).1 + (reference_execution t).2).
  change (sum usage) with (usage_sum
    (mkUsage tx (CostModel.get_signature_cost tx) (CostModel.get_write_lock_cost (requested_write_locks t))
       (CostModel.get_instructions_data_cost tx) (reference_execution t).1 (reference_execution t).2
       (CostModel.calculate_allocated_accounts_data_size (with_programs t)))).
  unfold usage_sum, reference_cost. cbn [signature_cost write_lock_cost data_bytes_cost
    programs_execution_cost_ loaded_accounts_data_size_cost_].
  rewrite Hs. unfold CostModel.get_instructions_data_cost. cbn [TxMeta.meta]. rewrite El.
  change INSTRUCTION_DATA_BYTES_COST with 4.
  assert (0 <= zsum (fun x => zlen (ix_data x.2)) (with_programs t)) as Hd0
    by (apply zsum_nonneg, Forall_true; intros x; apply zlen_nonneg).
  assert (0 <= zsum (fun x => zlen (ix_data x.2)) (with_programs t) / 4 <= U16_MAX) as Hq
    by (split; [apply Z.div_pos; lia|apply Z.div_le_upper_bound; lia]).
  unfold CostModel.get_write_lock_cost, saturating_mul, saturating_add, SIGNATURE_COST, WRITE_LOCK_UNITS,
    COMPUTE_UNIT_TO_US_RATIO in *. split_and!; lia.
Qed.

Lemma usage_cost_ok : NoDup (Fees.account_keys m) -> cost_ok usage.
Proof.
  intros Hn. destruct usage_sum_exact as (_ & Hmax & Hstatic).
  pose proof (reference_execution_range t) as [He1 He2].
  destruct (sane_header (encode t) Hwf t Hok Hsane eq_refl) as (H1 & _).
  unfold SIGNATURE_COST, COMPUTE_UNIT_TO_US_RATIO in *.
  destruct wire_counts as [_ Hc]. split.
  - by apply writable_accounts_nodup.
  - apply He1.
  - apply He2.
  - lia.
  - apply allocated_size_nonneg.
  - assert (num_transaction_signatures usage = h_num_required_signatures (t_header t)) as E1
      by (cbn; by rewrite Es).
    assert (precompile_counts usage = sd_precompile (signature_details meta)) as E2 by done. rewrite Es in E2.
    set (static := sum usage - estimated usage) in *. unfold weights, COUNT_ROOM. cbn [tail].
    pose proof (Hc secp256k1_id). pose proof (Hc ed25519_id). pose proof (Hc secp256r1_id).
    repeat (apply Forall_cons; split; [cbv beta; rewrite ?E1, ?E2; cbn [sd_precompile
      num_secp256k1_instruction_signatures num_ed25519_instruction_signatures
      num_secp256r1_instruction_signatures]; fold static; lia|]).
    by apply Forall_nil.
Qed.

Lemma wire_cost :
  program_instructions m = with_programs t ->
  sanitize_and_convert_to_compute_budget_limits (compute_budget_instruction_details meta)
  = Done (reference_limits (with_programs t)) ->
  exists c, CostModel.calculate_cost tx = Done c /\ transaction_of c = tx /\
    sum c = (if is_simple_vote_transaction meta then SIMPLE_VOTE_USAGE_COST else reference_cost t) /\
    (NoDup (Fees.account_keys m) -> cost_ok c).
Proof.
  intros Em Eb. unfold CostModel.calculate_cost. cbn [TxMeta.meta].
  destruct (is_simple_vote_transaction meta); [exists (SimpleVote tx); split_and!; try done; exact (vote_cost_ok tx)|].
  assert (CostModel.get_estimated_execution_cost tx = Done (reference_execution t)) as ->.
  { unfold CostModel.get_estimated_execution_cost. cbn [TxMeta.meta]. rewrite Eb. cbn [obind].
    unfold reference_execution. by destruct (reference_limits (with_programs t)). }
  cbn [obind]. pose proof usage_sum_exact as [E _]. pose proof usage_cost_ok as Hok'.
  destruct (reference_execution t) as [units price]. eexists. split; [reflexivity|].
  cbn [transaction num_write_locks]. rewrite Em. done.
Qed.

End Usage.

End Sent.
End WireCost.

(** ** Examples *)

Definition test_meta : MetaEnv := {|
  meta_fees := test_fees;
  hash_raw_message := take 32;
  is_simple_vote_transaction_impl := fun _ _ _ => false;
|}.

(** The first byte of a system instruction is its number, the second a size. *)
Definition test_decode (data : list Z) : option SystemAllocation :=
  match data with
  | [] => None
  | n :: data =>
      let space := Z.max 0 (hd 0 data) in
      Some (if n =? 0 then CreateAccount space else if n =? 8 then Allocate space else NoAllocation)
  end.

Definition test_cost : CostEnv := {|
  cost_meta := test_meta;
  decode_system_instruction := test_decode;
  MAX_PERMITTED_DATA_LENGTH := 10485760;
  MAX_PERMITTED_ACCOUNTS_DATA_ALLOCATIONS_PER_TRANSACTION := 20971520;
  calculate_memory_usage_cost := fun size heap_cost => (size + 32767) / 32768 * heap_cost;
  ed25519_precompile_verify_strict := true;
  enable_secp256r1_precompile := true;
|}.

Lemma test_cost_laws : CostLaws test_cost.
Proof.
  split.
  - split; [exact test_fees_laws|]. cbn. repeat constructor; set_solver.
  - intros size Hs. cbn. assert (0 <= (size + 32767) / 32768 <= 131073) as H.
    { split; [apply Z.div_pos; lia|apply Z.div_le_upper_bound; lia]. }
    unfold DEFAULT_HEAP_COST. lia.
  - intros [|n data] i H; [done|]. injection H as <-. destruct (n =? 0), (n =? 8); done || lia.
  - done.
Qed.

(** A transfer that writes one account. *)
Definition test_transfer (key : list Z) (units : Z) : TransactionCost :=
  UsageCost (mkUsage
    (mkRuntime (mkMessage 1 [] [key] 0 (fun _ => true) (fun _ => true) [] 1) 1
       (mkMeta [] false (mkSignatureDetails 1 (mkPrecompile 0 0 0)) (@default_details test_budget) 0))
    720 300 0 units 8 0).

Lemma test_transfer_ok key units : 0 <= units <= U32_MAX -> cost_ok (test_transfer key units).
Proof.
  intros Hu.
  assert (sum (test_transfer key units) = 1028 + units) as E
    by (cbn; unfold usage_sum, saturating_add; cbn; lia).
  assert (estimated (test_transfer key units) = units + 8) as E' by done. split.
  - apply writable_accounts_nodup. cbn. apply NoDup_singleton.
  - cbn. lia.
  - done.
  - lia.
  - done.
  - rewrite E, E'. unfold weights, COUNT_ROOM. cbn [tail].
    repeat (apply Forall_cons; split; [cbn; lia|]). by apply Forall_nil.
Qed.

(** A batch of two transfers from one account: the second does not fit before
    the first has run, and fits afterwards. *)
Definition test_batch : list (result TransactionError TransactionCost) :=
  [Ok (test_transfer (test_id 90) 3000); Ok (test_transfer (test_id 90) 1000)].
Definition test_selection : list (result TransactionError TransactionCost) * Z * CostTracker :=
  QosService.select_transactions_per_cost (CostTracker.set_limits CostTracker.default 5000 9000 6000) test_batch.
Lemma test_selection_parts : test_selection = (test_selection.1.1, test_selection.1.2, test_selection.2).
Proof. by destruct test_selection as [[? ?] ?]. Qed.
Definition test_status : list CommitTransactionDetails :=
  [Committed 500 100 (Ok tt); NotCommitted TransactionError.WouldExceedMaxAccountCostLimit].

(** ** Claims *)

(** C13: the tracker of a block counts exactly what the block holds.  Along any
    interleaving of batches that are selected, and then recorded with what they
    used or dropped, starting from an empty block or from a child's block: the
    cost of the block, of votes and of every account, the allocated data and all
    counters are the sums over the transactions that are in flight (at their
    estimate) or committed (at what they used); when no transaction uses more
    than it asked for, no limit is ever exceeded; and the next batch is selected
    exactly as the reference does, which admits a transaction if and only if its
    cost fits within what those transactions leave. *)
Theorem block_costs_are_exact {env : CostEnv} {laws : CostLaws env} la lb lv metered t flying committed :
  0 <= la < COST_ROOM -> 0 <= lb < COST_ROOM -> 0 <= lv < COST_ROOM ->
  filling la lb lv metered t flying committed ->
  let items := items_of flying committed in
  represents la lb lv t items (num_flying flying) /\
  (metered = true -> within la lb lv items) /\
  weight_total TransactionCost.allocated_accounts_data_size items <= MAX_BLOCK_ACCOUNTS_DATA_SIZE_DELTA /\
  forall costs, Forall cost_ok (included costs) ->
    let b := reference_select la lb lv items costs in
    (QosService.select_transactions_per_cost t costs).1 = (b, zlen (included b)).
Proof.
  intros Hla Hlb Hlv H items. destruct (filling_invariant la lb lv Hla Hlb Hlv _ _ _ _ H) as (R & G & W).
  split_and!; try done; [apply G|]. intros costs Hc b.
  destruct (select_loop_spec la lb lv Hla Hlb Hlv costs t items _ 0 R G Hc) as (t' & E & _).
  unfold QosService.select_transactions_per_cost. by rewrite E.
Qed.

Lemma block_costs_are_exact_witness :
  let _ := test_cost in
  let t := QosService.remove_or_update_costs test_selection.2 test_selection.1.1 (Some test_status) in
  block_cost t = 1528 /\ account_cost t (test_id 90) = 1528 /\
  test_selection.1.2 = 1 /\
  (QosService.select_transactions_per_cost t [Ok (test_transfer (test_id 90) 1000)]).1.2 = 1.
Proof.
  intros env t.
  assert (filling 5000 9000 6000 true t [] (settled test_selection.1.1 (Some test_status) ++ [])) as H.
  { apply (filling_settle 5000 9000 6000 true test_selection.2 [test_selection.1.1]).
    - apply (filling_select _ _ _ _ (CostTracker.set_limits CostTracker.default 5000 9000 6000) [] []
        test_batch _ test_selection.1.2); [apply filling_start| |exact test_selection_parts].
      repeat (apply Forall_cons; split; [by apply test_transfer_ok|]). by apply Forall_nil.
    - done.
    - split; [reflexivity|]. repeat (apply Forall_cons; split; [done|]). by apply Forall_nil.
    - apply Forall_cons. split; [by vm_compute|]. by apply Forall_nil. }
  destruct (@block_costs_are_exact test_cost test_cost_laws 5000 9000 6000 true t [] _
    ltac:(done) ltac:(done) ltac:(done) H) as (R & _ & _ & S).
  split_and!.
  - rewrite (rep_block _ _ _ _ _ _ R). vm_compute. reflexivity.
  - rewrite (rep_accounts _ _ _ _ _ _ R). vm_compute. reflexivity.
  - vm_compute. reflexivity.
  - rewrite S; [vm_compute; reflexivity|]. apply Forall_cons. split; [by apply test_transfer_ok|].
    by apply Forall_nil.
Defined.

(** C37: the cost of a transaction is determined by its bytes.  For every sane
    transaction of at most 65535 bytes the runtime's metadata is computed
    without panic and refused only when its compute-budget requests are; the
    cost is then computed without panic and equals, with no saturation, the
    price of its signatures and of those that its precompile instructions
    announce, 300 units for each write lock, a unit for every four bytes of
    instruction data, the units it asks for and the price of the data it may
    load, or 3428 for a simple vote; and if no account is named twice, the
    tracker of a block can count it. *)
Theorem transaction_cost_is_exact {env : CostEnv} {laws : CostLaws env} {keys : AccountKeysEnv}
    t loaded cache hash vote :
  transaction_ok t -> sane t -> bytes_wf (encode t) -> zlen (encode t) <= U16_MAX ->
  let view := mkView (encode t) (transaction_frame t) in
  exists r, RuntimeTransaction.try_from view hash vote = Some (Done r) /\
    match r with
    | Err e => reference_limits (with_programs t) = Err e
    | Ok meta => exists tx c,
        runtime_transaction (mkResolved view loaded cache) meta = Some (Done tx) /\
        CostModel.calculate_cost tx = Done c /\ transaction_of c = tx /\
        sum c = (if is_simple_vote_transaction meta then SIMPLE_VOTE_USAGE_COST else reference_cost t) /\
        (NoDup (TxView.account_keys (t_account_keys t) loaded) -> cost_ok c)
    end.
Proof.
  intros Hok Hsane Hwf Hu view. destruct (wire_meta t Hok Hsane Hwf Hu loaded cache hash vote) as (r & Hr & H).
  exists r. split; [exact Hr|]. destruct r as [meta|e]; [|exact H]. destruct H as (Es & El & Eb).
  destruct (wire_runtime t Hok Hsane Hwf Hu loaded cache meta) as (m & _ & Et & Em & Ek).
  destruct (wire_cost t Hok Hsane Hwf Hu meta m Es El Em Eb) as (c & Ec & Etx & Esum & Hc).
  eexists _, c. split_and!; [exact Et|exact Ec|exact Etx|exact Esum|]. by rewrite <- Ek.
Qed.

Lemma transaction_cost_is_exact_witness :
  let _ := test_cost in let _ := sample_keys_env in
  exists meta tx c,
    RuntimeTransaction.try_from (mkView sample_bytes (transaction_frame sample_transaction)) None None
    = Some (Done (Ok meta)) /\
    runtime_transaction (mkResolved (mkView sample_bytes (transaction_frame sample_transaction))
      (Some sample_loaded) []) meta = Some (Done tx) /\
    CostModel.calculate_cost tx = Done c /\ sum c = 20705.
Proof.
  destruct (@transaction_cost_is_exact test_cost test_cost_laws sample_keys_env sample_transaction
    (Some sample_loaded) [] None None sample_ok sample_sane sample_wf) as (r & Hr & H).
  { vm_compute. discriminate. }
  destruct r as [meta|e].
  - destruct H as (tx & c & Ht & Hc & _ & Hs & _). exists meta, tx, c. split_and!; [exact Hr|exact Ht|exact Hc|].
    assert (is_simple_vote_transaction meta = false) as E.
    { vm_compute in Hr. injection Hr as <-. reflexivity. }
    rewrite Hs, E. vm_compute. reflexivity.
  - vm_compute in H. discriminate.
Defined.
