(* ===== verification/NonceProgram.v ===== *)
(** * Durable nonces: all instructions of the system program

    The nonce instructions ([gorchain/programs/system/src/system_instruction.rs])
    and the whole dispatch of [Entrypoint] ([system_processor.rs]), on top of
    [SystemProgram].

    A transaction signed over a durable nonce stays valid until the nonce moves
    on.  That it cannot run again afterwards rests on the nonces of an account
    never coming back: shown along every history of the account, under
    everything the system program and other programs can do to it. *)

From stdpp Require Import base numbers list gmap.
From Stdlib Require Import Lia.
From S2P Require Import Prelude Errors Pod Runtime SystemProgram Isolation.
Import SystemProgram.
Local Open Scope Z_scope.

(** The state of a nonce account. *)
Record NonceData := mkNonceData {
  authority : Pubkey;
  durable_nonce : list Z;
  lamports_per_signature : Z;
}.

Module State.
Inductive State : Type :=
| Uninitialized
| Initialized (data : NonceData).
End State.
Abbreviation NonceState := State.State.

Inductive AuthorizeNonceError : Type :=
| AuthorizeMissingRequiredSignature (account_authority : Pubkey)
| AuthorizeUninitialized.

(** Other crates: the versions of the state with their layout, the nonce of a
    blockhash, addresses with a seed (with the error as the processor converts
    it) and the keys of two sysvars. *)
Class NonceEnv := {
  Versions : Type;
  versions_new : NonceState -> Versions;
  versions_state : Versions -> NonceState;
  versions_authorize : Versions -> list Pubkey -> Pubkey -> result AuthorizeNonceError Versions;
  versions_upgrade : Versions -> option Versions;
  serialize : Versions -> list Z;
  deserialize : list Z -> option Versions;
  from_blockhash : list Z -> list Z;
  create_with_seed : Pubkey -> list Z -> Pubkey -> result InstructionError Pubkey;
  recent_blockhashes_id : Pubkey;
  rent_id : Pubkey;
}.

(** What an instruction reads of the invocation: the last blockhash, its price,
    and the sysvars (of the rent, the minimum balance for a size). *)
Record InvokeContext := mkInvoke {
  blockhash : list Z;
  blockhash_lamports_per_signature : Z;
  sysvar_recent_blockhashes : option (list (list Z));
  sysvar_rent : option (Z -> Z);
}.

Inductive SystemInstruction : Type :=
| CreateAccount (lamports space : Z) (owner : Pubkey)
| Assign (owner : Pubkey)
| Transfer (lamports : Z)
| CreateAccountWithSeed (base : Pubkey) (seed : list Z) (lamports space : Z) (owner : Pubkey)
| AdvanceNonceAccount
| WithdrawNonceAccount (lamports : Z)
| InitializeNonceAccount (authorized : Pubkey)
| AuthorizeNonceAccount (nonce_authority : Pubkey)
| Allocate (space : Z)
| AllocateWithSeed (base : Pubkey) (seed : list Z) (space : Z) (owner : Pubkey)
| AssignWithSeed (base : Pubkey) (seed : list Z) (owner : Pubkey)
| TransferWithSeed (lamports : Z) (from_seed : list Z) (from_owner : Pubkey)
| UpgradeNonceAccount.

Module NonceProgram.
Section NonceProgram.
Context {env : NonceEnv}.

Definition AddressWithSeedMismatch : InstructionError := InstructionError.Custom 5.
Definition NonceNoRecentBlockhashes : InstructionError := InstructionError.Custom 6.
Definition NonceBlockhashNotExpired : InstructionError := InstructionError.Custom 7.

(** *** State in the data of an account ([transaction-context/src/lib.rs]) *)

Definition get_state (i : AccountInfo) (t : Tx) : result InstructionError Versions :=
  ok_or (deserialize (data (BorrowedAccount.get i t))) InstructionError.InvalidAccountData.

Definition set_state (i : AccountInfo) (state : Versions) (t : Tx) : result InstructionError Tx :=
  BorrowedAccount.can_data_be_changed system_program_id i t ;?
  let a := BorrowedAccount.get i t in
  if zlen (serialize state) >? zlen (data a) then Err InstructionError.AccountDataTooSmall
  else Ok (set_account t (key i)
             a<|data := serialize state ++ drop (length (serialize state)) (data a)|>).

(** *** The nonce instructions *)

Definition advance_nonce_account (account : AccountInfo) (signers : list Pubkey)
    (invoke_context : InvokeContext) (t : Tx) : result InstructionError Tx :=
  if negb (is_writable account) then Err InstructionError.InvalidArgument
  else
    let? state := get_state account t in
    match versions_state state with
    | State.Initialized data =>
        if negb (bool_decide (authority data ∈ signers)) then Err InstructionError.MissingRequiredSignature
        else
          let next_durable_nonce := from_blockhash (blockhash invoke_context) in
          if bool_decide (durable_nonce data = next_durable_nonce) then Err NonceBlockhashNotExpired
          else
            set_state account
              (versions_new (State.Initialized (mkNonceData (authority data) next_durable_nonce
                 (blockhash_lamports_per_signature invoke_context)))) t
    | State.Uninitialized => Err InstructionError.InvalidAccountData
    end.

Definition withdraw_nonce_account (from : AccountInfo) (n : Z) (to : AccountInfo)
    (minimum_balance : Z -> Z) (signers : list Pubkey) (invoke_context : InvokeContext) (t : Tx)
    : result InstructionError Tx :=
  if negb (is_writable from) then Err InstructionError.InvalidArgument
  else
    let? state := get_state from t in
    let? r :=
      match versions_state state with
      | State.Uninitialized =>
          if n >? lamports (BorrowedAccount.get from t) then Err InstructionError.InsufficientFunds
          else Ok (key from, t)
      | State.Initialized data =>
          if n =? lamports (BorrowedAccount.get from t) then
            if bool_decide (durable_nonce data = from_blockhash (blockhash invoke_context))
            then Err NonceBlockhashNotExpired
            else
              let? t := set_state from (versions_new State.Uninitialized) t in
              Ok (authority data, t)
          else
            let min_balance := minimum_balance (zlen (Runtime.data (BorrowedAccount.get from t))) in
            let? amount := ok_or (checked_add U64_MAX n min_balance) InstructionError.InsufficientFunds in
            if amount >? lamports (BorrowedAccount.get from t) then Err InstructionError.InsufficientFunds
            else Ok (authority data, t)
      end in
    let (signer, t) := r in
    if negb (bool_decide (signer ∈ signers)) then Err InstructionError.MissingRequiredSignature
    else
      let? t := BorrowedAccount.checked_sub_lamports system_program_id from n t in
      BorrowedAccount.checked_add_lamports system_program_id to n t.

Definition initialize_nonce_account (account : AccountInfo) (nonce_authority : Pubkey)
    (minimum_balance : Z -> Z) (invoke_context : InvokeContext) (t : Tx) : result InstructionError Tx :=
  if negb (is_writable account) then Err InstructionError.InvalidArgument
  else
    let? state := get_state account t in
    match versions_state state with
    | State.Uninitialized =>
        let min_balance := minimum_balance (zlen (data (BorrowedAccount.get account t))) in
        if lamports (BorrowedAccount.get account t) <? min_balance
        then Err InstructionError.InsufficientFunds
        else
          set_state account
            (versions_new (State.Initialized (mkNonceData nonce_authority
               (from_blockhash (blockhash invoke_context))
               (blockhash_lamports_per_signature invoke_context)))) t
    | State.Initialized _ => Err InstructionError.InvalidAccountData
    end.

Definition authorize_nonce_account (account : AccountInfo) (nonce_authority : Pubkey)
    (signers : list Pubkey) (t : Tx) : result InstructionError Tx :=
  if negb (is_writable account) then Err InstructionError.InvalidArgument
  else
    let? state := get_state account t in
    match versions_authorize state signers nonce_authority with
    | Ok versions => set_state account versions t
    | Err AuthorizeUninitialized => Err InstructionError.InvalidAccountData
    | Err (AuthorizeMissingRequiredSignature _) => Err InstructionError.MissingRequiredSignature
    end.

Definition upgrade_nonce_account (account : AccountInfo) (t : Tx) : result InstructionError Tx :=
  if negb (owner (BorrowedAccount.get account t) =? system_program_id)
  then Err InstructionError.InvalidAccountOwner
  else if negb (is_writable account) then Err InstructionError.InvalidArgument
  else
    let? state := get_state account t in
    match versions_upgrade state with
    | None => Err InstructionError.InvalidArgument
    | Some versions => set_state account versions t
    end.

(** *** The rest of the dispatch *)

(** [Address::create]. *)
Definition create_address (addr : Pubkey) (with_seed : option (Pubkey * list Z * Pubkey))
    : result InstructionError Address :=
  match with_seed with
  | Some (base, seed, owner) =>
      let? address_with_seed := create_with_seed base seed owner in
      if negb (addr =? address_with_seed) then Err AddressWithSeedMismatch
      else Ok (mkAddress addr (Some base))
  | None => Ok (mkAddress addr None)
  end.

Definition transfer_with_seed (from from_base : AccountInfo) (from_seed : list Z) (from_owner : Pubkey)
    (to : AccountInfo) (n : Z) (t : Tx) : result InstructionError Tx :=
  if negb (is_signer from_base) then Err InstructionError.MissingRequiredSignature
  else
    let? address_from_seed := create_with_seed (key from_base) from_seed from_owner in
    if negb (key from =? address_from_seed) then Err AddressWithSeedMismatch
    else transfer_verified from to n t.

(** [get_sysvar_with_account_check]: the account at the index is the sysvar, and
    the runtime knows its value. *)
Definition check_sysvar {A} (id : Pubkey) (value : option A) (infos : list AccountInfo) (index : nat)
    : result InstructionError A :=
  let? i := ok_or (infos !! index) InstructionError.NotEnoughAccountKeys in
  if negb (key i =? id) then Err InstructionError.InvalidArgument
  else ok_or value InstructionError.UnsupportedSysvar.

Definition check_recent_blockhashes (invoke_context : InvokeContext) (infos : list AccountInfo)
    : result InstructionError unit :=
  let? recent_blockhashes :=
    check_sysvar recent_blockhashes_id (sysvar_recent_blockhashes invoke_context) infos 1 in
  match recent_blockhashes with
  | [] => Err NonceNoRecentBlockhashes
  | _ => Ok tt
  end.

Definition Entrypoint (invoke_context : InvokeContext) (instruction : SystemInstruction)
    (infos : list AccountInfo) (t : Tx) : result InstructionError Tx :=
  let signers := get_signers infos in
  match instruction, infos with
  | CreateAccount n space owner, from :: to :: _ =>
      let? to_address := create_address (key to) None in
      create_account from to to_address n space owner signers t
  | CreateAccountWithSeed base seed n space owner, from :: to :: _ =>
      let? to_address := create_address (key to) (Some (base, seed, owner)) in
      create_account from to to_address n space owner signers t
  | Assign owner, account :: _ =>
      let? addr := create_address (key account) None in
      assign account addr owner signers t
  | Transfer n, from :: to :: _ => transfer from to n t
  | TransferWithSeed n from_seed from_owner, from :: from_base :: to :: _ =>
      transfer_with_seed from from_base from_seed from_owner to n t
  | AdvanceNonceAccount, me :: _ =>
      check_recent_blockhashes invoke_context infos ;?
      advance_nonce_account me signers invoke_context t
  | WithdrawNonceAccount n, from :: to :: _ =>
      let? _ := check_sysvar recent_blockhashes_id (sysvar_recent_blockhashes invoke_context) infos 2 in
      let? rent := check_sysvar rent_id (sysvar_rent invoke_context) infos 3 in
      withdraw_nonce_account from n to rent signers invoke_context t
  | InitializeNonceAccount authorized, me :: _ =>
      check_recent_blockhashes invoke_context infos ;?
      let? rent := check_sysvar rent_id (sysvar_rent invoke_context) infos 2 in
      initialize_nonce_account me authorized rent invoke_context t
  | AuthorizeNonceAccount nonce_authority, me :: _ =>
      authorize_nonce_account me nonce_authority signers t
  | UpgradeNonceAccount, nonce_account :: _ => upgrade_nonce_account nonce_account t
  | Allocate space, account :: _ =>
      let? addr := create_address (key account) None in
      allocate account addr space signers t
  | AllocateWithSeed base seed space owner, account :: _ =>
      let? addr := create_address (key account) (Some (base, seed, owner)) in
      allocate_and_assign account addr space owner signers t
  | AssignWithSeed base seed owner, account :: _ =>
      let? addr := create_address (key account) (Some (base, seed, owner)) in
      assign account addr owner signers t
  | _, _ => Err InstructionError.NotEnoughAccountKeys
  end.

End NonceProgram.
End NonceProgram.

(** ** Laws of the arguments *)

(** What the crates document: a new state is of the current version; reading
    gives back what was written, whatever follows; zeroed or empty data holds no
    initialized state; an authority is replaced, within a version, when it
    signed; only initialized states of the old version are upgraded. *)
Class NonceLaws (env : NonceEnv) : Prop := {
  state_of_new s : versions_state (versions_new s) = s;
  deserialize_written v rest : deserialize (serialize v ++ rest) = Some v;
  zeroed_uninitialized bs v :
    BorrowedAccount.is_zeroed bs = true -> deserialize bs = Some v ->
    versions_state v = State.Uninitialized;
  authorize_needs_signature v signers a v' :
    versions_authorize v signers a = Ok v' ->
    exists d, versions_state v = State.Initialized d /\ authority d ∈ signers;
  authorize_current d signers a v' :
    versions_authorize (versions_new (State.Initialized d)) signers a = Ok v' ->
    v' = versions_new (State.Initialized (mkNonceData a (durable_nonce d) (lamports_per_signature d)));
  upgrade_current s : versions_upgrade (versions_new s) = None;
  upgrade_uninitialized v : versions_state v = State.Uninitialized -> versions_upgrade v = None;
}.

Import NonceProgram.

Section Proofs.
Context {env : NonceEnv} {laws : NonceLaws env}.

(** The instructions that the restaking programs send are dispatched alike. *)
Lemma sent_instructions_dispatch ctx ix infos t :
  SystemProgram.process_instruction ix infos t
  = match ix with
    | system_create_account _ _ n space o => Entrypoint ctx (CreateAccount n space o) infos t
    | system_transfer _ _ n => Entrypoint ctx (Transfer n) infos t
    | system_allocate _ space => Entrypoint ctx (Allocate space) infos t
    | system_assign _ o => Entrypoint ctx (Assign o) infos t
    | _ => Err InstructionError.NotEnoughAccountKeys
    end.
Proof. by destruct ix, infos as [|a [|b infos]]. Qed.

(** ** Who can change an account *)

(** Accounts outside [A] keep data and owner and lose no lamports; lamports in
    total stay the same. *)
Definition respects (A : Pubkey -> Prop) (t t' : Tx) : Prop :=
  forall k, ~ A k ->
    lamports (acct (accounts t) k) <= lamports (acct (accounts t') k) /\
    data (acct (accounts t') k) = data (acct (accounts t) k) /\
    owner (acct (accounts t') k) = owner (acct (accounts t) k).

#[export] Instance respects_preorder A : PreOrder (respects A).
Proof.
  split.
  - by intros t k _.
  - intros t1 t2 t3 H1 H2 k Hk. destruct (H1 k Hk) as (L1 & D1 & O1), (H2 k Hk) as (L2 & D2 & O2).
    rewrite D2, O2. split_and!; [lia|done|done].
Qed.

Lemma respects_only A i t t' : A (key i) -> only_changes (key i) t t' -> respects A t t'.
Proof.
  intros Hi Hc k Hk. rewrite Hc; [done|]. intros ->. done.
Qed.

Lemma credited_respects A prog i n t t' :
  A (key i) \/ lamports (BorrowedAccount.get i t) <= n ->
  BorrowedAccount.set_lamports prog i n t = Ok t' -> respects A t t'.
Proof.
  intros Hi H. apply set_lamports_Ok in H as (_ & _ & Hg & Hc & _). intros k Hk.
  destruct (decide (k = key i)) as [->|Hne]; [|by rewrite Hc].
  unfold BorrowedAccount.get in *. rewrite Hg. destruct Hi as [Hi|Hi]; [done|]. cbn. split_and!; [lia|done|done].
Qed.

Lemma checked_add_lamports_spec i n t t' :
  0 <= n -> BorrowedAccount.checked_add_lamports system_program_id i n t = Ok t' ->
  (forall A, respects A t t') /\ lamports_delta t' = lamports_delta t + n.
Proof.
  unfold BorrowedAccount.checked_add_lamports, checked_add. intros Hn H.
  destruct (_ <=? U64_MAX); [|done]. cbn in H. split.
  - intros A. eapply credited_respects; [|exact H]. right. lia.
  - apply set_lamports_Ok in H as (_ & _ & _ & _ & Hd & _). lia.
Qed.

Lemma checked_sub_lamports_spec i n t t' :
  BorrowedAccount.checked_sub_lamports system_program_id i n t = Ok t' ->
  (forall A : Pubkey -> Prop, A (key i) -> respects A t t') /\ lamports_delta t' = lamports_delta t - n.
Proof.
  unfold BorrowedAccount.checked_sub_lamports, checked_sub. intros H.
  destruct (_ <=? _); [|done]. cbn in H. split.
  - intros A Hi. eapply credited_respects; [|exact H]. by left.
  - apply set_lamports_Ok in H as (_ & _ & _ & _ & Hd & _). lia.
Qed.

Lemma set_state_Ok i v t t' :
  set_state i v t = Ok t' ->
  is_writable i = true /\ owner (BorrowedAccount.get i t) = system_program_id /\
  (exists rest, BorrowedAccount.get i t' = (BorrowedAccount.get i t)<|data := serialize v ++ rest|>) /\
  only_changes (key i) t t' /\ lamports_delta t' = lamports_delta t.
Proof.
  unfold set_state, BorrowedAccount.can_data_be_changed, BorrowedAccount.is_owned_by_current_program.
  intros H. inv_ok. split_and!; try done; [|apply only_changes_set].
  eexists. unfold BorrowedAccount.get. cbn. by rewrite acct_insert.
Qed.

(** Changes within [A] that move lamports without making or losing any. *)
Definition conserves (A : Pubkey -> Prop) (t t' : Tx) : Prop :=
  respects A t t' /\ lamports_delta t' = lamports_delta t.

#[export] Instance conserves_preorder A : PreOrder (conserves A).
Proof.
  split; [done|]. intros t1 t2 t3 [R1 L1] [R2 L2]. split; [by etrans|]. lia.
Qed.

Section System.
Context (A : Pubkey -> Prop).

Lemma set_state_conserves i v t t' : A (key i) -> set_state i v t = Ok t' -> conserves A t t'.
Proof.
  intros Hi H. apply set_state_Ok in H as (_ & _ & _ & Hc & Hd). split; [by eapply respects_only|done].
Qed.

Lemma allocate_conserves i addr space signers t t' :
  (address_is_signer addr signers = true -> A (key i)) ->
  allocate i addr space signers t = Ok t' -> conserves A t t'.
Proof.
  intros Hi H. unfold allocate in H. destruct (address_is_signer addr signers); [|done]. cbn in H. inv_ok.
  apply set_data_length_Ok in H as (_ & _ & _ & Hc & Hd). split; [by eapply respects_only; [apply Hi|]|done].
Qed.

Lemma assign_conserves i addr o signers t t' :
  (address_is_signer addr signers = true -> A (key i)) ->
  assign i addr o signers t = Ok t' -> conserves A t t'.
Proof.
  intros Hi H. unfold assign in H. case_match; [by injection H as ->|].
  destruct (address_is_signer addr signers); [|done]. cbn in H.
  apply set_owner_Ok in H as (_ & _ & _ & _ & Hc & Hd). split; [by eapply respects_only; [apply Hi|]|done].
Qed.

Lemma transfer_verified_conserves from to n t t' :
  A (key from) -> 0 <= n -> transfer_verified from to n t = Ok t' -> conserves A t t'.
Proof.
  intros Hf Hn H. unfold transfer_verified in H. inv_ok.
  apply checked_sub_lamports_spec in Hr as [R1 L1]. apply checked_add_lamports_spec in H as [R2 L2]; [|done].
  split; [etrans; [by apply R1|apply R2]|lia].
Qed.

Lemma transfer_conserves from to n t t' :
  (is_signer from = true -> A (key from)) -> 0 <= n -> transfer from to n t = Ok t' -> conserves A t t'.
Proof.
  intros Hf Hn H. unfold transfer in H. destruct (is_signer from); [|done].
  eapply transfer_verified_conserves; [auto|done|exact H].
Qed.

Lemma allocate_and_assign_conserves i addr space o signers t t' :
  (address_is_signer addr signers = true -> A (key i)) ->
  allocate_and_assign i addr space o signers t = Ok t' -> conserves A t t'.
Proof.
  intros Hi H. apply qbind_Ok in H as (t1 & H1 & H).
  etrans; [eapply allocate_conserves; done|eapply assign_conserves; done].
Qed.

Lemma create_account_conserves from to addr n space o signers t t' :
  (is_signer from = true -> A (key from)) -> (address_is_signer addr signers = true -> A (key to)) -> 0 <= n ->
  create_account from to addr n space o signers t = Ok t' -> conserves A t t'.
Proof.
  intros Hf Ht Hn H. unfold create_account in H. case_match; [done|]. apply qbind_Ok in H as (t1 & H1 & H).
  etrans; [by eapply allocate_and_assign_conserves|by eapply transfer_conserves].
Qed.

Lemma withdraw_conserves from to n rent signers ctx t t' :
  (forall v, deserialize (data (BorrowedAccount.get from t)) = Some v ->
     match versions_state v with
     | State.Uninitialized => key from ∈ signers
     | State.Initialized d => authority d ∈ signers
     end -> A (key from)) -> 0 <= n ->
  withdraw_nonce_account from n to rent signers ctx t = Ok t' -> conserves A t t'.
Proof.
  intros HA Hn H. unfold withdraw_nonce_account in H.
  destruct (negb (is_writable from)); [done|]. apply qbind_Ok in H as (v & Hv & H).
  apply qbind_Ok in H as ([signer t1] & Hm & H). destruct (bool_decide (signer ∈ signers)) eqn:Hs; [|done].
  apply bool_decide_eq_true in Hs. apply ok_or_Ok in Hv. specialize (HA v Hv).
  apply qbind_Ok in H as (t2 & Hsub & H). apply checked_sub_lamports_spec in Hsub as [R1 L1]. apply checked_add_lamports_spec in H as [R2 L2]; [|done].
  assert (A (key from) /\ conserves A t t1) as [Hi C].
  { destruct (versions_state v) as [|d].
    - inv_ok. split; [by apply HA|done].
    - assert (signer = authority d /\ (t1 = t \/ set_state from (versions_new State.Uninitialized) t = Ok t1))
        as [-> Ht] by (case_match; inv_ok; auto).
      split; [by apply HA|]. destruct Ht as [->|Ht]; [done|]. eapply set_state_conserves; [|done]. by apply HA. }
  destruct C as [R L]. split; [|lia]. etrans; [exact R|]. etrans; [by apply R1|apply R2].
Qed.

End System.

(** The nonce state that the data of an account holds. *)
Definition stored_nonce (a : Account) : option NonceData :=
  match deserialize (data a) with
  | Some v => match versions_state v with State.Initialized d => Some d | State.Uninitialized => None end
  | None => None
  end.

(** The account signed, or the base of its address did, or the authority of its
    nonce did. *)
Definition may_change (infos : list AccountInfo) (t : Tx) (k : Pubkey) : Prop :=
  k ∈ get_signers infos \/
  (exists base seed o, base ∈ get_signers infos /\ create_with_seed base seed o = Ok k) \/
  (exists d, stored_nonce (acct (accounts t) k) = Some d /\ authority d ∈ get_signers infos).

(** Amounts are numbers of 64 bits. *)
Definition amounts_ok (ix : SystemInstruction) : Prop :=
  match ix with
  | CreateAccount n _ _ | Transfer n | CreateAccountWithSeed _ _ n _ _ | WithdrawNonceAccount n
  | TransferWithSeed n _ _ => is_u64 n
  | _ => True
  end.

Lemma signer_listed infos i : i ∈ infos -> is_signer i = true -> key i ∈ get_signers infos.
Proof.
  intros Hi Hs. unfold get_signers. apply list_elem_of_fmap. exists i. split; [done|].
  by apply list_elem_of_filter.
Qed.

Lemma address_may_change infos t k ws addr :
  create_address k ws = Ok addr -> address_is_signer addr (get_signers infos) = true -> may_change infos t k.
Proof.
  intros H Hs. destruct ws as [[[base seed] o]|]; cbn in H.
  - apply qbind_Ok in H as (k' & Hk & H). destruct (Z.eqb_spec k k') as [->|]; [|done].
    injection H as <-. apply bool_decide_eq_true in Hs. right. left. by exists base, seed, o.
  - injection H as <-. apply bool_decide_eq_true in Hs. by left.
Qed.

Lemma stored_nonce_spec a v :
  deserialize (data a) = Some v ->
  stored_nonce a = match versions_state v with State.Initialized d => Some d | State.Uninitialized => None end.
Proof. intros H. unfold stored_nonce. by rewrite H. Qed.

(** A nonce instruction on the first account, when its authority signed. *)
Lemma nonce_authority_may_change infos t i v d :
  get_state i t = Ok v -> versions_state v = State.Initialized d -> authority d ∈ get_signers infos ->
  may_change infos t (key i).
Proof.
  intros Hv Hd Hs. apply ok_or_Ok in Hv. right. right. exists d. split; [|done].
  unfold BorrowedAccount.get in Hv. by rewrite (stored_nonce_spec _ v Hv), Hd.
Qed.

Lemma advance_conserves infos me ctx t t' :
  advance_nonce_account me (get_signers infos) ctx t = Ok t' -> conserves (may_change infos t) t t'.
Proof.
  intros H. unfold advance_nonce_account in H. destruct (negb (is_writable me)); [done|].
  apply qbind_Ok in H as (v & Hv & H). destruct (versions_state v) as [|d] eqn:Hd; [done|].
  destruct (bool_decide (authority d ∈ get_signers infos)) eqn:Hs; [|done]. apply bool_decide_eq_true in Hs.
  cbn in H. case_match; [done|]. eapply set_state_conserves; [|exact H]. by eapply nonce_authority_may_change.
Qed.

Lemma authorize_conserves infos me a t t' :
  authorize_nonce_account me a (get_signers infos) t = Ok t' -> conserves (may_change infos t) t t'.
Proof.
  intros H. unfold authorize_nonce_account in H. destruct (negb (is_writable me)); [done|].
  apply qbind_Ok in H as (v & Hv & H). destruct (versions_authorize _ _ _) as [v'|[]] eqn:Ha; [|done..].
  apply authorize_needs_signature in Ha as (d & Hd & Hs). eapply set_state_conserves; [|exact H].
  by eapply nonce_authority_may_change.
Qed.

Lemma withdraw_may_change infos from to n rent ctx t t' :
  0 <= n -> withdraw_nonce_account from n to rent (get_signers infos) ctx t = Ok t' ->
  conserves (may_change infos t) t t'.
Proof.
  intros Hn. apply withdraw_conserves; [|done]. intros v Hv Hs.
  destruct (versions_state v) as [|d] eqn:Hd; [by left|]. eapply nonce_authority_may_change; [|done|done].
  unfold get_state. by rewrite Hv.
Qed.

Lemma transfer_with_seed_conserves from from_base seed o to n infos t t' :
  0 <= n -> transfer_with_seed from from_base seed o to n t = Ok t' ->
  conserves (may_change (from :: from_base :: to :: infos) t) t t'.
Proof.
  intros Hn H. unfold transfer_with_seed in H. destruct (is_signer from_base) eqn:Hs; [|done].
  apply qbind_Ok in H as (k & Hk & H). destruct (Z.eqb_spec (key from) k) as [<-|]; [|done].
  eapply transfer_verified_conserves; [|done|exact H]. right. left. exists (key from_base), seed, o.
  split; [|done]. apply signer_listed; [set_solver|done].
Qed.

(** What needs no signature: an uninitialized nonce account is initialized and
    an old state is upgraded, which changes the data only. *)
Definition unsigned_change (ix : SystemInstruction) (a : Account) : Prop :=
  owner a = system_program_id /\
  match ix with
  | InitializeNonceAccount _ => stored_nonce a = None
  | UpgradeNonceAccount => exists v v', deserialize (data a) = Some v /\ versions_upgrade v = Some v'
  | _ => False
  end.

Definition keeps_balance_and_owner (ix : SystemInstruction) (t t' : Tx) : Prop :=
  forall k, lamports (acct (accounts t') k) = lamports (acct (accounts t) k) /\
    owner (acct (accounts t') k) = owner (acct (accounts t) k) /\
    (data (acct (accounts t') k) = data (acct (accounts t) k) \/ unsigned_change ix (acct (accounts t) k)).

Lemma set_state_unsigned ix i v t t' :
  set_state i v t = Ok t' -> unsigned_change ix (BorrowedAccount.get i t) ->
  keeps_balance_and_owner ix t t' /\ lamports_delta t' = lamports_delta t.
Proof.
  intros H Hu. apply set_state_Ok in H as (_ & _ & (rest & Hg) & Hc & Hd). split; [|done]. intros k.
  destruct (decide (k = key i)) as [->|Hne]; [|rewrite Hc by done; auto].
  unfold BorrowedAccount.get in *. rewrite Hg. auto.
Qed.

Lemma initialize_unsigned me a rent ctx t t' :
  initialize_nonce_account me a rent ctx t = Ok t' ->
  keeps_balance_and_owner (InitializeNonceAccount a) t t' /\ lamports_delta t' = lamports_delta t.
Proof.
  intros H. unfold initialize_nonce_account in H. destruct (negb (is_writable me)); [done|].
  apply qbind_Ok in H as (v & Hv & H). destruct (versions_state v) eqn:Hs; [|done]. case_match; [done|].
  apply ok_or_Ok in Hv. pose proof (set_state_Ok _ _ _ _ H) as (_ & Ho & _).
  eapply set_state_unsigned; [exact H|]. split; [done|]. by rewrite (stored_nonce_spec _ v Hv), Hs.
Qed.

Lemma upgrade_unsigned me t t' :
  upgrade_nonce_account me t = Ok t' ->
  keeps_balance_and_owner UpgradeNonceAccount t t' /\ lamports_delta t' = lamports_delta t.
Proof.
  intros H. unfold upgrade_nonce_account in H. destruct (negb (_ =? _)); [done|].
  destruct (negb (is_writable me)); [done|]. apply qbind_Ok in H as (v & Hv & H). apply ok_or_Ok in Hv.
  destruct (versions_upgrade v) as [v'|] eqn:Hu; [|done]. pose proof (set_state_Ok _ _ _ _ H) as (_ & Ho & _).
  eapply set_state_unsigned; [exact H|]. split; [done|]. by exists v, v'.
Qed.

Lemma entrypoint_authorized ctx ix infos t t' :
  amounts_ok ix -> Entrypoint ctx ix infos t = Ok t' ->
  lamports_delta t' = lamports_delta t /\
  (respects (may_change infos t) t t' \/ keeps_balance_and_owner ix t t').
Proof.
  intros Ha H. cut (conserves (may_change infos t) t t' \/
    keeps_balance_and_owner ix t t' /\ lamports_delta t' = lamports_delta t).
  { intros [[? ?]|[? ?]]; auto. }
  unfold Entrypoint in H. cbv zeta in H. unfold amounts_ok, is_u64 in Ha.
  assert (forall i, i ∈ infos -> is_signer i = true -> may_change infos t (key i)) as Hsig
    by (intros i Hi Hs; left; by apply signer_listed).
  destruct ix, infos as [|a [|b [|c infos]]]; try done; 
    repeat (apply qbind_Ok in H as (? & ? & H)).
  all: first
    [ right; eapply initialize_unsigned; exact H
    | right; eapply upgrade_unsigned; exact H
    | left; eapply advance_conserves; exact H
    | left; eapply authorize_conserves; exact H
    | left; eapply withdraw_may_change; [|exact H]; lia
    | idtac ].
  all: left.
  all: try (eapply create_account_conserves; [| | |exact H]; [apply Hsig; set_solver|by eapply address_may_change|lia]).
  all: try (eapply assign_conserves; [|exact H]; by eapply address_may_change).
  all: try (eapply allocate_conserves; [|exact H]; by eapply address_may_change).
  all: try (etrans; [eapply allocate_conserves|eapply assign_conserves]; [|done| |done];
            by eapply address_may_change).
  all: try (eapply transfer_conserves; [| |exact H]; [apply Hsig; set_solver|lia]).
  eapply transfer_with_seed_conserves; [|exact H]. lia.
Qed.

(** ** The nonces of an account *)

(** The nonce that a transaction can use. *)
Definition nonce_value (a : Account) : option (list Z) :=
  if owner a =? system_program_id then durable_nonce <$> stored_nonce a else None.

(** A usable nonce is of the current version, and its account is not empty. *)
Definition sound (a : Account) : Prop :=
  (owner a = system_program_id -> forall v d, deserialize (data a) = Some v ->
     versions_state v = State.Initialized d -> v = versions_new (State.Initialized d)) /\
  (is_Some (nonce_value a) -> 0 < lamports a).

(** While the nonce of the last blockhash is [next], a nonce moves at most to it
    or away, and [next] itself stays. *)
Definition moves (next : list Z) (v v' : option (list Z)) : Prop :=
  v' = v \/ v <> Some next /\ (v' = None \/ v' = Some next).

Definition goes (next : list Z) (a a' : Account) : Prop :=
  sound a -> sound a' /\ moves next (nonce_value a) (nonce_value a').

Definition steps (next : list Z) (t t' : Tx) : Prop :=
  forall k, goes next (acct (accounts t) k) (acct (accounts t') k).

Section Moves.
Context (next : list Z).

#[export] Instance moves_preorder : PreOrder (moves next).
Proof.
  split; [by left|]. intros v1 v2 v3 [->|[H1 H2]] [->|[H3 H4]]; try (by left); right; auto.
Qed.

#[export] Instance goes_preorder : PreOrder (goes next).
Proof.
  split; [done|]. intros a1 a2 a3 H1 H2 Hs. destruct (H1 Hs) as [S1 M1]. destruct (H2 S1) as [S2 M2].
  split; [done|]. by etrans.
Qed.

#[export] Instance steps_preorder : PreOrder (steps next).
Proof. split; [by intros t k|]. intros t1 t2 t3 H1 H2 k. etrans; [apply H1|apply H2]. Qed.

Lemma steps_one i t t' :
  only_changes (key i) t t' -> goes next (BorrowedAccount.get i t) (BorrowedAccount.get i t') -> steps next t t'.
Proof.
  intros Hc Hg k. destruct (decide (k = key i)) as [->|Hne]; [done|]. by rewrite Hc.
Qed.

Lemma set_account_steps t p a : goes next (acct (accounts t) p) a -> steps next t (set_account t p a).
Proof.
  intros Hg k. cbn. destruct (decide (p = k)) as [->|Hne]; [by rewrite acct_insert|].
  by rewrite acct_insert_ne.
Qed.

Lemma unusable_sound a : nonce_value a = None -> sound a.
Proof.
  intros H. split.
  - intros Ho v d Hv Hd. unfold nonce_value in H. by rewrite Ho, Z.eqb_refl, (stored_nonce_spec _ v Hv), Hd in H.
  - rewrite H. by intros [? ?].
Qed.

Lemma goes_unusable a a' : nonce_value a = None -> nonce_value a' = None -> goes next a a'.
Proof. intros H H' _. split; [by apply unusable_sound|left; congruence]. Qed.

Lemma goes_lamports a n :
  nonce_value a = None \/ lamports a <= n \/ 0 < n -> goes next a a<|lamports := n|>.
Proof.
  intros Hn [S1 S2]. split; [|by left]. split; [done|]. intros Hv. cbn.
  assert (is_Some (nonce_value a)) as Ha by done. specialize (S2 Ha).
  destruct Hn as [Hn|[Hn|Hn]]; [|lia|lia]. rewrite Hn in Ha. by destruct Ha.
Qed.

Lemma zeroed_unusable a : BorrowedAccount.is_zeroed (data a) = true -> nonce_value a = None.
Proof.
  intros Hz. unfold nonce_value, stored_nonce. destruct (owner a =? system_program_id); [|done].
  destruct (deserialize (data a)) as [v|] eqn:Hv; [|done]. by rewrite (zeroed_uninitialized _ v Hz Hv).
Qed.

Lemma foreign_unusable a : owner a <> system_program_id -> nonce_value a = None.
Proof. intros Ho. unfold nonce_value. destruct (Z.eqb_spec (owner a) system_program_id); done. Qed.

(** Writing a state of the current version. *)
Lemma nonce_value_written a s rest :
  owner a = system_program_id ->
  nonce_value a<|data := serialize (versions_new s) ++ rest|>
  = match s with State.Initialized d => Some (durable_nonce d) | State.Uninitialized => None end.
Proof.
  intros Ho. unfold nonce_value, stored_nonce. cbn. rewrite Ho, Z.eqb_refl, deserialize_written, state_of_new.
  by destruct s.
Qed.

Lemma goes_written a s rest :
  owner a = system_program_id ->
  (forall d, s = State.Initialized d -> sound a -> 0 < lamports a) ->
  moves next (nonce_value a)
    (match s with State.Initialized d => Some (durable_nonce d) | State.Uninitialized => None end) ->
  goes next a a<|data := serialize (versions_new s) ++ rest|>.
Proof.
  intros Ho Hl Hm Hs. pose proof (nonce_value_written a s rest Ho) as Hv. rewrite Hv.
  split; [|exact Hm]. split.
  - intros _ v d Hd Hi. cbn in Hd. rewrite deserialize_written in Hd. injection Hd as <-.
    rewrite state_of_new in Hi. by rewrite Hi.
  - rewrite Hv. cbn. destruct s as [|d]; [by intros [? ?]|]. intros _. by eapply Hl.
Qed.

(** *** Every operation of the runtime *)

Lemma set_lamports_steps prog i n t t' :
  nonce_value (BorrowedAccount.get i t) = None \/ lamports (BorrowedAccount.get i t) <= n \/ 0 < n ->
  BorrowedAccount.set_lamports prog i n t = Ok t' -> steps next t t'.
Proof.
  intros Hn H. apply set_lamports_Ok in H as (_ & _ & Hg & Hc & _).
  apply (steps_one i); [done|]. rewrite Hg. by apply goes_lamports.
Qed.

Lemma checked_add_lamports_steps i n t t' :
  0 <= n -> BorrowedAccount.checked_add_lamports system_program_id i n t = Ok t' -> steps next t t'.
Proof.
  intros Hn H. apply qbind_Ok in H as (m & Hm & H). apply ok_or_Ok in Hm. inv_ok.
  eapply set_lamports_steps; [|exact H]. right. left. lia.
Qed.

Lemma checked_sub_lamports_steps i n t t' :
  nonce_value (BorrowedAccount.get i t) = None \/ n < lamports (BorrowedAccount.get i t) ->
  BorrowedAccount.checked_sub_lamports system_program_id i n t = Ok t' -> steps next t t'.
Proof.
  intros Hn H. apply qbind_Ok in H as (m & Hm & H). apply ok_or_Ok in Hm. inv_ok.
  eapply set_lamports_steps; [|exact H]. destruct Hn; [by left|]. right. right. lia.
Qed.

Lemma set_owner_steps prog i pk t t' : BorrowedAccount.set_owner prog i pk t = Ok t' -> steps next t t'.
Proof.
  intros H. apply set_owner_Ok in H as (_ & _ & Hz & Hg & Hc & _). apply (steps_one i); [done|].
  rewrite Hg. by apply goes_unusable; apply zeroed_unusable.
Qed.

Lemma set_data_steps prog i bs t t' :
  prog <> system_program_id -> BorrowedAccount.set_data_from_slice prog i bs t = Ok t' -> steps next t t'.
Proof.
  intros Hp H. apply set_data_from_slice_Ok in H as (_ & Ho & Hg & Hc & _). apply (steps_one i); [done|].
  rewrite Hg. apply goes_unusable; apply foreign_unusable; cbn; congruence.
Qed.

Lemma set_data_length_steps prog i n t t' :
  data (BorrowedAccount.get i t) = [] -> BorrowedAccount.set_data_length prog i n t = Ok t' -> steps next t t'.
Proof.
  intros He H. apply set_data_length_Ok in H as (_ & _ & Hg & Hc & _). apply (steps_one i); [done|].
  rewrite Hg, He. apply goes_unusable; apply zeroed_unusable; [by rewrite He|]. cbn.
  unfold BorrowedAccount.resize. rewrite take_nil. cbn. apply forallb_forall. intros x Hx.
  apply list_elem_of_In, elem_of_replicate in Hx as [-> _]. done.
Qed.

(** What another program leaves in its memory. *)
Lemma commits_steps prog i a t t1 t2 t3 :
  prog <> system_program_id ->
  commit_lamports prog i a t = Ok t1 -> commit_data prog i a t1 = Ok t2 -> commit_owner prog i a t2 = Ok t3 ->
  steps next t t3.
Proof.
  intros Hp H1 H2 H3. etrans; [|etrans].
  - unfold commit_lamports in H1. case_match; [by injection H1 as ->|].
    pose proof (set_lamports_Ok _ _ _ _ _ H1) as (_ & Hor & _). eapply set_lamports_steps; [|exact H1].
    destruct Hor as [Ho|Hn]; [|by right; left]. left. apply foreign_unusable. congruence.
  - unfold commit_data in H2. case_match; [by eapply set_data_steps|]. case_match; [|done]. by injection H2 as ->.
  - unfold commit_owner in H3. case_match; [by injection H3 as ->|]. by eapply set_owner_steps.
Qed.

(** *** Every instruction of the system program *)

Lemma allocate_steps i addr space signers t t' : allocate i addr space signers t = Ok t' -> steps next t t'.
Proof.
  intros H. unfold allocate in H. inv_ok. eapply set_data_length_steps; [|exact H].
  apply nil_length_inv. by apply Nat.eqb_eq.
Qed.

Lemma assign_steps i addr o signers t t' : assign i addr o signers t = Ok t' -> steps next t t'.
Proof.
  intros H. unfold assign in H. case_match; [by injection H as ->|]. case_match; [done|].
  by eapply set_owner_steps.
Qed.

Lemma transfer_verified_steps from to n t t' :
  0 <= n -> transfer_verified from to n t = Ok t' -> steps next t t'.
Proof.
  intros Hn H. unfold transfer_verified in H. destruct (Nat.eqb _ 0) eqn:He; [|done]. cbn in H.
  case_match; [done|]. apply qbind_Ok in H as (t1 & H1 & H). etrans; [|by eapply checked_add_lamports_steps].
  eapply checked_sub_lamports_steps; [|exact H1]. left. apply zeroed_unusable.
  apply Nat.eqb_eq, nil_length_inv in He. by rewrite He.
Qed.

Lemma create_account_steps from to addr n space o signers t t' :
  0 <= n -> create_account from to addr n space o signers t = Ok t' -> steps next t t'.
Proof.
  intros Hn H. unfold create_account, transfer in H. case_match; [done|]. apply qbind_Ok in H as (t2 & H2 & H).
  apply qbind_Ok in H2 as (t1 & H1 & H2). case_match; [done|].
  etrans; [by eapply allocate_steps|]. etrans; [by eapply assign_steps|]. by eapply transfer_verified_steps.
Qed.

Section Instructions.
Context (ctx : InvokeContext) (Hnext : next = from_blockhash (blockhash ctx)).

Lemma usable_nonce a v d :
  owner a = system_program_id -> deserialize (data a) = Some v -> versions_state v = State.Initialized d ->
  nonce_value a = Some (durable_nonce d).
Proof.
  intros Ho Hv Hd. unfold nonce_value. by rewrite Ho, Z.eqb_refl, (stored_nonce_spec _ v Hv), Hd.
Qed.

Lemma unused_nonce a v :
  deserialize (data a) = Some v -> versions_state v = State.Uninitialized -> nonce_value a = None.
Proof.
  intros Hv Hd. unfold nonce_value. rewrite (stored_nonce_spec _ v Hv), Hd. by destruct (_ =? _).
Qed.

Lemma set_state_steps i s t t' :
  set_state i (versions_new s) t = Ok t' ->
  (forall d, s = State.Initialized d -> sound (BorrowedAccount.get i t) -> 0 < lamports (BorrowedAccount.get i t)) ->
  moves next (nonce_value (BorrowedAccount.get i t))
    (match s with State.Initialized d => Some (durable_nonce d) | State.Uninitialized => None end) ->
  steps next t t'.
Proof.
  intros H Hl Hm. apply set_state_Ok in H as (_ & Ho & (rest & Hg) & Hc & _). apply (steps_one i); [done|].
  rewrite Hg. by apply goes_written.
Qed.

Lemma advance_steps me signers t t' : advance_nonce_account me signers ctx t = Ok t' -> steps next t t'.
Proof.
  intros H. unfold advance_nonce_account in H. case_match; [done|]. apply qbind_Ok in H as (v & Hv & H).
  destruct (versions_state v) as [|d] eqn:Hd; [done|]. case_match; [done|]. rewrite <- Hnext in H.
  destruct (bool_decide (durable_nonce d = next)) eqn:Hn; [done|]. apply bool_decide_eq_false in Hn.
  apply ok_or_Ok in Hv. pose proof (set_state_Ok _ _ _ _ H) as (_ & Ho & _).
  pose proof (usable_nonce _ v d Ho Hv Hd) as Hu. eapply set_state_steps; [exact H| |].
  - intros _ _ [_ Hs]. apply Hs. by rewrite Hu.
  - rewrite Hu. right. split; [congruence|]. by right.
Qed.

Lemma initialize_steps me a rent t t' :
  (forall n, 0 < rent n) -> initialize_nonce_account me a rent ctx t = Ok t' -> steps next t t'.
Proof.
  intros Hrent H. unfold initialize_nonce_account in H. case_match; [done|]. apply qbind_Ok in H as (v & Hv & H).
  destruct (versions_state v) as [|d] eqn:Hd; [|done]. destruct (_ <? _) eqn:Hl; [done|]. apply Z.ltb_ge in Hl.
  apply ok_or_Ok in Hv. rewrite <- Hnext in H. eapply set_state_steps; [exact H| |].
  - intros _ _ _. pose proof (Hrent (zlen (data (BorrowedAccount.get me t)))). lia.
  - rewrite (unused_nonce _ v Hv Hd). right. split; [done|]. by right.
Qed.

(** The other two rewrite a state only within its version. *)
Lemma authorize_steps me a signers t t' :
  authorize_nonce_account me a signers t = Ok t' -> steps next t t'.
Proof.
  intros H. unfold authorize_nonce_account in H. case_match; [done|]. apply qbind_Ok in H as (v & Hv & H).
  destruct (versions_authorize v signers a) as [v'|[]] eqn:Ha; [|done..]. apply ok_or_Ok in Hv.
  pose proof (authorize_needs_signature _ _ _ _ Ha) as (d & Hd & _).
  pose proof (set_state_Ok _ _ _ _ H) as (_ & Ho & (rest & Hg) & Hc & _). apply (steps_one me); [done|]. intros Hs.
  rewrite (proj1 Hs Ho v d Hv Hd) in Ha. apply authorize_current in Ha as ->.
  pose proof (usable_nonce _ v d Ho Hv Hd) as Hu. revert Hs. rewrite Hg. apply goes_written; [done| |].
  - intros _ _ [_ Hs]. apply Hs. by rewrite Hu.
  - rewrite Hu. by left.
Qed.

Lemma upgrade_steps me t t' : upgrade_nonce_account me t = Ok t' -> steps next t t'.
Proof.
  intros H. unfold upgrade_nonce_account in H.
  destruct (Z.eqb_spec (owner (BorrowedAccount.get me t)) system_program_id) as [Ho|]; [|done].
  cbn in H. case_match; [done|]. apply qbind_Ok in H as (v & Hv & H). apply ok_or_Ok in Hv.
  destruct (versions_upgrade v) as [v'|] eqn:Hup; [|done].
  apply set_state_Ok in H as (_ & _ & _ & Hc & _). apply (steps_one me); [done|]. intros Hs. exfalso.
  destruct (versions_state v) as [|d] eqn:Hd; [by rewrite upgrade_uninitialized in Hup|].
  by rewrite (proj1 Hs Ho v d Hv Hd), upgrade_current in Hup.
Qed.

Lemma withdraw_steps from n to rent signers t t' :
  (forall n, 0 < rent n) -> 0 <= n ->
  withdraw_nonce_account from n to rent signers ctx t = Ok t' -> steps next t t'.
Proof.
  intros Hrent Hn H. unfold withdraw_nonce_account in H. case_match; [done|].
  apply qbind_Ok in H as (v & Hv & H). apply ok_or_Ok in Hv.
  apply qbind_Ok in H as ([signer t1] & Hm & H). case_match; [done|]. apply qbind_Ok in H as (t2 & H2 & H).
  etrans; [|by eapply checked_add_lamports_steps]. destruct (versions_state v) as [|d] eqn:Hd.
  - case_match; [done|]. injection Hm as <- <-. eapply checked_sub_lamports_steps; [|exact H2]. left.
    by eapply unused_nonce.
  - rewrite <- Hnext in Hm. destruct (Z.eqb_spec n (lamports (BorrowedAccount.get from t))) as [->|Hne].
    + destruct (bool_decide (durable_nonce d = next)) eqn:Hd'; [done|]. apply bool_decide_eq_false in Hd'.
      apply qbind_Ok in Hm as (t3 & H3 & Hm). injection Hm as <- <-.
      pose proof (set_state_Ok _ _ _ _ H3) as (_ & Ho & (rest & Hg) & _). etrans.
      * eapply set_state_steps; [exact H3|done|]. rewrite (usable_nonce _ v d Ho Hv Hd).
        right. split; [congruence|by left].
      * eapply checked_sub_lamports_steps; [|exact H2]. left. rewrite Hg. by apply nonce_value_written.
    + apply qbind_Ok in Hm as (m & Hm' & Hm). apply ok_or_Ok, checked_add_Some in Hm' as [-> _].
      destruct (_ >? _) eqn:Hgt; [done|]. injection Hm as <- <-.
      eapply checked_sub_lamports_steps; [|exact H2]. right.
      pose proof (Hrent (zlen (data (BorrowedAccount.get from t)))). lia.
Qed.

Lemma transfer_with_seed_steps from from_base seed o to n t t' :
  0 <= n -> transfer_with_seed from from_base seed o to n t = Ok t' -> steps next t t'.
Proof.
  intros Hn H. unfold transfer_with_seed in H. case_match; [done|]. apply qbind_Ok in H as (k & _ & H).
  case_match; [done|]. by eapply transfer_verified_steps.
Qed.

Lemma transfer_steps from to n t t' : 0 <= n -> transfer from to n t = Ok t' -> steps next t t'.
Proof. intros Hn H. unfold transfer in H. case_match; [done|]. by eapply transfer_verified_steps. Qed.

Lemma check_sysvar_Ok {A} id (value : option A) infos index x :
  check_sysvar id value infos index = Ok x -> value = Some x.
Proof. intros H. apply qbind_Ok in H as (i & _ & H). case_match; [done|]. by apply ok_or_Ok in H. Qed.

Lemma entrypoint_steps ix infos t t' :
  (forall rent, sysvar_rent ctx = Some rent -> forall n, 0 < rent n) -> amounts_ok ix ->
  Entrypoint ctx ix infos t = Ok t' -> steps next t t'.
Proof.
  intros Hrent Ha H. unfold Entrypoint in H. cbv zeta in H. unfold amounts_ok, is_u64 in Ha.
  destruct ix, infos as [|a [|b [|c infos]]]; try done; repeat (apply qbind_Ok in H as (? & ? & H)).
  all: first
    [ eapply advance_steps; exact H
    | eapply authorize_steps; exact H
    | eapply upgrade_steps; exact H
    | eapply create_account_steps; [|exact H]; lia
    | eapply transfer_with_seed_steps; [|exact H]; lia
    | eapply transfer_steps; [|exact H]; lia
    | eapply initialize_steps; [eapply Hrent, check_sysvar_Ok; eassumption|exact H]
    | eapply withdraw_steps; [eapply Hrent, check_sysvar_Ok; eassumption| |exact H]; lia
    | etrans; [eapply allocate_steps|eapply assign_steps]; done
    | eapply assign_steps; exact H
    | eapply allocate_steps; exact H ].
Qed.

End Instructions.

End Moves.

(** *** Histories *)

(** The nonces that an account has had, the newest first. *)
Definition record_nonce (v v' : option (list Z)) (trace : list (list Z)) : list (list Z) :=
  if bool_decide (v' = v) then trace else match v' with Some x => x :: trace | None => trace end.

Lemma record_nonce_same v trace : record_nonce v v trace = trace.
Proof. unfold record_nonce. by rewrite bool_decide_true. Qed.

Lemma paid_nonce_value t p n k :
  nonce_value (acct (accounts (set_account t p (acct (accounts t) p)<|lamports := n|>)) k)
  = nonce_value (acct (accounts t) k).
Proof.
  cbn. destruct (decide (p = k)) as [->|Hne]; [by rewrite acct_insert|by rewrite acct_insert_ne].
Qed.

(** What can happen to an account, with the blockhashes so far, the newest first:
    a new blockhash whose nonce is new; an instruction of the system program;
    what another program wrote before a call or when it returned; what the runtime
    itself does, namely to take a fee, which leaves a nonce account its minimum
    balance, to pay a reward, to advance the nonce of a transaction that failed,
    and to remove the account when it is empty.  The other steps of a transaction
    that fails are undone and do not belong to the history.  The steps of a
    transaction come with the blockhash with which it was checked: its accounts
    are locked from then until they are stored. *)
Inductive history (k : Pubkey) : Tx -> list (list Z) -> list (list Z) -> Prop :=
| history_start t h : nonce_value (acct (accounts t) k) = None -> history k t [h] []
| history_block t hashes trace h :
    history k t hashes trace -> from_blockhash h ∉ map from_blockhash hashes ->
    history k t (h :: hashes) trace
| history_system t h hashes trace ctx ix infos t' :
    history k t (h :: hashes) trace -> blockhash ctx = h ->
    (forall rent, sysvar_rent ctx = Some rent -> forall n, 0 < rent n) -> amounts_ok ix ->
    Entrypoint ctx ix infos t = Ok t' ->
    history k t' (h :: hashes)
      (record_nonce (nonce_value (acct (accounts t) k)) (nonce_value (acct (accounts t') k)) trace)
| history_call t hashes trace prog i a t' :
    history k t hashes trace -> prog <> system_program_id -> update_callee_account prog i a t = Ok t' ->
    history k t' hashes
      (record_nonce (nonce_value (acct (accounts t) k)) (nonce_value (acct (accounts t') k)) trace)
| history_return t hashes trace prog i pre_len a t' :
    history k t hashes trace -> prog <> system_program_id ->
    deserialize_account prog i pre_len a t = Ok t' ->
    history k t' hashes
      (record_nonce (nonce_value (acct (accounts t) k)) (nonce_value (acct (accounts t') k)) trace)
| history_paid t hashes trace p minimum n :
    history k t hashes trace -> 0 < minimum ->
    let a := acct (accounts t) p in
    (is_Some (nonce_value a) -> lamports a <= n \/ minimum <= n) ->
    history k (set_account t p a<|lamports := n|>) hashes trace
| history_failed t h hashes trace p d rate rest :
    history k t (h :: hashes) trace ->
    let a := acct (accounts t) p in
    owner a = system_program_id -> stored_nonce a = Some d ->
    let t' := set_account t p a<|data := serialize (versions_new
      (State.Initialized (mkNonceData (authority d) (from_blockhash h) rate))) ++ rest|> in
    history k t' (h :: hashes)
      (record_nonce (nonce_value (acct (accounts t) k)) (nonce_value (acct (accounts t') k)) trace)
| history_removed t hashes trace :
    history k t hashes trace -> lamports (acct (accounts t) k) = 0 ->
    history k (set_account t k empty_account) hashes trace.

(** The trace has no nonce twice, all are of blockhashes so far, the one of the
    last blockhash only if it is in use, and the one in use is the newest. *)
Record trace_ok (a : Account) (hashes trace : list (list Z)) : Prop := {
  trace_sound : sound a;
  trace_nodup : NoDup trace;
  trace_known x : x ∈ trace -> x ∈ map from_blockhash hashes;
  trace_last h : head hashes = Some h -> from_blockhash h ∈ trace -> nonce_value a = Some (from_blockhash h);
  trace_head x : nonce_value a = Some x -> head trace = Some x;
}.

Lemma trace_step a a' h hashes trace :
  trace_ok a (h :: hashes) trace -> goes (from_blockhash h) a a' ->
  trace_ok a' (h :: hashes) (record_nonce (nonce_value a) (nonce_value a') trace).
Proof.
  intros [T1 T2 T3 T4 T5] Hg. destruct (Hg T1) as [Hs Hm]. unfold record_nonce.
  destruct (bool_decide (nonce_value a' = nonce_value a)) eqn:E.
  { apply bool_decide_eq_true in E. split; try done; rewrite E; auto. }
  apply bool_decide_eq_false in E. destruct Hm as [|[Hn Hm]]; [done|].
  assert (from_blockhash h ∉ trace) as Hfresh by (intros Hin; apply Hn; by apply T4).
  destruct Hm as [Hm|Hm]; rewrite Hm.
  - split; try done; [|by rewrite Hm]. intros h' [= <-] Hin. done.
  - split; [done|by apply NoDup_cons| | |].
    + intros x [->|Hx]%elem_of_cons; [|by apply T3]. cbn. by left.
    + intros h' [= <-] _. done.
    + intros x Hx. by rewrite Hm in Hx.
Qed.

Lemma history_trace k t hashes trace :
  history k t hashes trace -> exists h rest, hashes = h :: rest /\ trace_ok (acct (accounts t) k) hashes trace.
Proof.
  induction 1 as [t h Hn|t hashes trace h _ (h0 & rest & -> & [T1 T2 T3 T4 T5]) Hf
    |t h hashes trace ctx ix infos t' _ (h0 & rest & [= <- <-] & T) Hh Hrent Ha He
    |t hashes trace prog i a t' _ (h0 & rest & -> & T) Hp He
    |t hashes trace prog i pre_len a t' _ (h0 & rest & -> & T) Hp He
    |t hashes trace p minimum n _ (h0 & rest & -> & T) Hmin a Hn
    |t h hashes trace p d rate rest _ (h0 & rest' & [= <- <-] & T) a Ho Hd t'
    |t hashes trace _ (h0 & rest & -> & [T1 T2 T3 T4 T5]) Hl].
  - exists h, []. split; [done|]. split;
      [by apply unusable_sound|constructor|set_solver|set_solver|congruence].
  - eexists _, _. split; [done|]. split; try done.
    + intros x Hx. right. by apply T3.
    + intros h' [= <-] Hin. by apply T3 in Hin.
  - eexists _, _. split; [done|]. apply trace_step; [done|].
    eapply (entrypoint_steps _ ctx); [by rewrite Hh|done|done|done].
  - eexists _, _. split; [done|]. apply trace_step; [done|]. unfold update_callee_account in He. inv_ok.
    by eapply commits_steps.
  - eexists _, _. split; [done|]. apply trace_step; [done|]. unfold deserialize_account in He. inv_ok.
    by eapply commits_steps.
  - eexists _, _. split; [done|]. rewrite <- (record_nonce_same (nonce_value (acct (accounts t) k)) trace).
    replace (nonce_value (acct (accounts t) k)) with
      (nonce_value (acct (accounts (set_account t p a<|lamports := n|>)) k)) at 2 by by apply paid_nonce_value.
    apply trace_step; [done|]. apply set_account_steps, goes_lamports. fold a.
    destruct (nonce_value a); [|by left]. destruct Hn; [done|by auto|right; right; lia].
  - eexists _, _. split; [done|]. apply trace_step; [done|]. apply set_account_steps, goes_written; [done| |].
    + intros d' _ [_ S2]. apply S2. unfold nonce_value. fold a. by rewrite Ho, Z.eqb_refl, Hd.
    + cbn. destruct (decide (nonce_value a = Some (from_blockhash h))) as [->|]; [by left|]. by right; auto.
  - assert (nonce_value (acct (accounts t) k) = None) as Hn.
    { destruct T1 as [_ T1]. destruct (nonce_value _); [|done]. specialize (T1 ltac:(done)). lia. }
    assert (acct (accounts (set_account t k empty_account)) k = empty_account) as -> by apply acct_insert.
    assert (nonce_value empty_account = None) as He by by apply zeroed_unusable.
    eexists _, _. split; [done|]. split; try done; [by apply unusable_sound| |by rewrite He].
    intros h Hh Hin. by rewrite (T4 h Hh Hin) in Hn.
Qed.

End Proofs.

(** ** Examples *)

(** Versions as a flag for the current one with the state; a hash is the nonce of
    itself behind a mark; the address of a seed is a number made of its parts. *)
Definition test_serialize (v : bool * NonceState) : list Z :=
  (if v.1 then 1 else 0) ::
  match v.2 with
  | State.Uninitialized => [0]
  | State.Initialized d =>
      1 :: authority d :: lamports_per_signature d :: zlen (durable_nonce d) :: durable_nonce d
  end.

Definition test_deserialize (bs : list Z) : option (bool * NonceState) :=
  match bs with
  | c :: tag :: rest =>
      if tag =? 0 then Some (c =? 1, State.Uninitialized)
      else
        match rest with
        | a :: l :: n :: rest => Some (c =? 1, State.Initialized (mkNonceData a (take (Z.to_nat n) rest) l))
        | _ => None
        end
  | _ => None
  end.

Definition test_authorize (v : bool * NonceState) (signers : list Pubkey) (a : Pubkey)
    : result AuthorizeNonceError (bool * NonceState) :=
  match v.2 with
  | State.Uninitialized => Err AuthorizeUninitialized
  | State.Initialized d =>
      if bool_decide (authority d ∈ signers)
      then Ok (v.1, State.Initialized (mkNonceData a (durable_nonce d) (lamports_per_signature d)))
      else Err (AuthorizeMissingRequiredSignature (authority d))
  end.

Definition test_upgrade (v : bool * NonceState) : option (bool * NonceState) :=
  match v with
  | (false, State.Initialized d) =>
      Some (true, State.Initialized (mkNonceData (authority d) (7 :: durable_nonce d) (lamports_per_signature d)))
  | _ => None
  end.

Definition test_nonces : NonceEnv := {|
  Versions := bool * NonceState;
  versions_new := pair true;
  versions_state := snd;
  versions_authorize := test_authorize;
  versions_upgrade := test_upgrade;
  serialize := test_serialize;
  deserialize := test_deserialize;
  from_blockhash := cons 7;
  create_with_seed := fun base seed owner => Ok (base + zlen seed * 1000 + owner);
  recent_blockhashes_id := 101;
  rent_id := 102;
|}.

Lemma test_nonces_laws : NonceLaws test_nonces.
Proof.
  split; cbn.
  - done.
  - intros [c [|[a n l]]] rest; cbn; destruct c; cbn; try done;
      unfold zlen; by rewrite Nat2Z.id, take_app_length.
  - intros [|c [|tag rest]] v Hz Hv; [done..|]. unfold BorrowedAccount.is_zeroed in Hz.
    cbn [forallb] in Hz. apply andb_true_iff in Hz as [_ [H _]%andb_true_iff]. apply Z.eqb_eq in H as <-.
    by injection Hv as <-.
  - intros [c [|d]] signers a v' H; cbn in *; [done|]. case_bool_decide; [|done]. by exists d.
  - intros d signers a v' H. cbn in H. case_bool_decide; [|done]. by injection H as <-.
  - by intros [|d].
  - by intros [[] [|d]].
Qed.

(** A wallet creates a nonce account with itself as authority and uses it after
    the next blockhash. *)
Definition test_context (h : list Z) : InvokeContext := mkInvoke h 5000 (Some [h]) (Some (fun n => Z.max 0 n + 1)).
Definition test_start : Tx := mkTx {[ 40 := mkAccount 1000 [] system_program_id false ]} 0 0.
Definition test_infos : list AccountInfo :=
  [mkInfo 41 true true; mkInfo 101 false false; mkInfo 102 false false; mkInfo 40 true true].
Definition test_system (h : list Z) (ix : SystemInstruction) (infos : list AccountInfo) (t : Tx) : Tx :=
  match @NonceProgram.Entrypoint test_nonces (test_context h) ix infos t with Ok t' => t' | Err _ => t end.

Definition test_created : Tx :=
  test_system [1] (CreateAccount 100 20 system_program_id) [mkInfo 40 true true; mkInfo 41 true true] test_start.
Definition test_initialized : Tx := test_system [1] (InitializeNonceAccount 40) test_infos test_created.
Definition test_advanced : Tx := test_system [2] AdvanceNonceAccount test_infos test_initialized.

Lemma test_step k t h hashes trace ix infos t' trace' :
  let _ := test_nonces in
  history k t (h :: hashes) trace -> amounts_ok ix ->
  NonceProgram.Entrypoint (test_context h) ix infos t = Ok t' ->
  record_nonce (nonce_value (acct (accounts t) k)) (nonce_value (acct (accounts t') k)) trace = trace' ->
  history k t' (h :: hashes) trace'.
Proof.
  intros env H Ha He <-. eapply (history_system k t h hashes trace (test_context h)); [exact H|reflexivity| |exact Ha|exact He].
  intros rent [= <-] n. lia.
Qed.

(** ** Claims *)

(** C14: a nonce never comes back.  Whatever instructions of the system program
    with whatever accounts and signers succeed, whatever other programs write,
    whatever fees and failed transactions the account serves, and however often
    it is emptied, removed and made again: as long as
    every new blockhash gives a new nonce, the nonces that a durable-nonce
    account has had are all different, and the last of them is the one in use.
    A transaction signed over a nonce that has been replaced stays invalid. *)
Theorem nonces_never_return {env : NonceEnv} {laws : NonceLaws env} k t hashes trace :
  history k t hashes trace ->
  NoDup trace /\ forall x, nonce_value (acct (accounts t) k) = Some x -> head trace = Some x.
Proof.
  intros H. apply history_trace in H as (h & rest & _ & T). split; [apply T|]. intros x. apply T.
Qed.

Lemma nonces_never_return_witness :
  let _ := test_nonces in
  NoDup [[7; 2]; [7; 1]] /\ nonce_value (acct (accounts test_advanced) 41) = Some [7; 2].
Proof.
  intros env.
  assert (history 41 test_advanced [[2]; [1]] [[7; 2]; [7; 1]]) as H.
  { eapply (test_step 41 test_initialized [2] [[1]] [[7; 1]] AdvanceNonceAccount test_infos);
      [|done|vm_compute; reflexivity|vm_compute; reflexivity].
    apply history_block; [|vm_compute; set_solver].
    eapply (test_step 41 test_created [1] [] [] (InitializeNonceAccount 40) test_infos);
      [|done|vm_compute; reflexivity|vm_compute; reflexivity].
    eapply (test_step 41 test_start [1] [] [] (CreateAccount 100 20 system_program_id)
      [mkInfo 40 true true; mkInfo 41 true true]); [by apply history_start| |vm_compute; reflexivity|vm_compute; reflexivity].
    cbn. unfold is_u64. lia. }
  destruct (@nonces_never_return test_nonces test_nonces_laws 41 test_advanced _ _ H) as [Hn _].
  split; [exact Hn|]. vm_compute. reflexivity.
Defined.

(** C17: the system program changes an account only for those who may.  A
    successful instruction, with any accounts, keeps the sum of all lamports; and
    an account that loses lamports or whose data or owner change signed itself,
    or is at an address derived from a seed of an account that signed, or holds a
    nonce whose authority signed.  Without a signature only a nonce account that
    is not initialized can be initialized and one of the old version upgraded,
    which keeps its balance and owner. *)
Theorem system_changes_are_authorized {env : NonceEnv} {laws : NonceLaws env} ctx ix infos t t' :
  amounts_ok ix -> NonceProgram.Entrypoint ctx ix infos t = Ok t' ->
  lamports_delta t' = lamports_delta t /\
  (respects (may_change infos t) t t' \/ keeps_balance_and_owner ix t t').
Proof. apply entrypoint_authorized. Qed.

Lemma system_changes_are_authorized_witness :
  let _ := test_nonces in
  lamports_delta test_created = 0 /\ lamports (acct (accounts test_created) 40) = 900 /\
  (respects (may_change [mkInfo 40 true true; mkInfo 41 true true] test_start) test_start test_created \/
   keeps_balance_and_owner (CreateAccount 100 20 system_program_id) test_start test_created).
Proof.
  intros env.
  destruct (@system_changes_are_authorized test_nonces test_nonces_laws (test_context [1])
    (CreateAccount 100 20 system_program_id) [mkInfo 40 true true; mkInfo 41 true true] test_start test_created)
    as [Hd Hr].
  - cbn. unfold is_u64. lia.
  - vm_compute. reflexivity.
  - split_and!; [exact Hd|vm_compute; reflexivity|exact Hr].
Defined.
