(* ===== verification/Consumer.v ===== *)
(** * A leader fills a block

    The model of [gorchain/core/src/banking_stage/consumer.rs] with
    [committer.rs] and [gorchain/poh/src/transaction_recorder.rs]: a thread takes
    a batch of transactions, reserves their cost, locks their accounts, executes
    them, records those that were processed in the proof of history, commits
    them, and gives locks and unused cost back.  It is composed of the parts that
    [CostModel], [Admission] and [PohRecorder] model.

    Several threads do this at once, while the clock of the proof of history goes
    on.  Along every interleaving the entries that the leader sends hold exactly
    the transactions that the bank commits and that the block is charged for. *)

From stdpp Require Import base numbers list gmap sorting.
From Stdlib Require Import Lia.
From S2P Require Import Prelude Errors Pod TxBytes TxFrame TxFormat TxView ComputeBudget Fees TxMeta.
From S2P Require Import Processing Locks Blockhashes StatusCache BatchLamports WireMessage Admission.
From S2P Require Import Merkle Poh PohRecorder CostModel BlockCosts Concurrency.
Local Open Scope Z_scope.
Local Open Scope rust_scope.
Import AccountLoader Loading Processor.

(** A computation with fuel that may panic. *)
Definition fbind {A B} (m : option (outcome A)) (k : A -> option (outcome B)) : option (outcome B) :=
  match m with
  | Some (Done x) => k x
  | Some Undefined => Some Undefined
  | Some Panicked => Some Panicked
  | None => None
  end.
Notation "'let+' x ':=' m 'in' k" := (fbind m (fun x => k))
  (at level 10, x pattern, m at level 100, k at level 200,
   format "'[v' 'let+'  x  ':='  m  'in' '//' k ']'") : rust_scope.

(** Other code: the form of a transaction that entries hold, and the age at which
    a blockhash is too old. *)
Class LeaderEnv := {
  leader_admission :: AdmissionEnv;
  leader_recorder :: RecorderEnv;
  leader_cost :: CostEnv;
  to_versioned_transaction : RuntimeTransaction -> VersionedTransaction;
  MAX_PROCESSING_AGE : Z;
}.

Module ProcessedTransaction.

(** [units] stands for what the virtual machine measured. *)
Definition executed_units (units : Z) (self : ProcessedTransaction) : Z :=
  match self with
  | ExecutedTx _ => units
  | FeesOnlyTx _ => 0
  end.

Definition loaded_accounts_data_size (self : ProcessedTransaction) : Z :=
  match self with
  | ExecutedTx t => transaction_data_size (loaded_transaction t)
  | FeesOnlyTx t => as_uint U32_MAX (RollbackAccounts.data_size (fees_only_rollback_accounts t))
  end.

End ProcessedTransaction.

Module TransactionRecorder.

(** The service behind the channel calls [record] of the recorder.  The channel
    closes only when the validator stops. *)
Definition record_transactions {env : RecorderEnv} (fuel : nat) (poh_recorder : PohRecorder) (bank_slot : Z)
    (transactions : list VersionedTransaction)
    : option (outcome (result PohRecorderError (option Z) * PohRecorder)) :=
  match transactions with
  | [] => Some (Done (Ok None, poh_recorder))
  | _ =>
      let+ hash := Some (Entry.hash_transactions transactions) in
      let+ (res, poh_recorder) := record fuel poh_recorder bank_slot [hash] [transactions] in
      match res with
      | Ok starting_index => Some (Done (Ok starting_index, poh_recorder))
      | Err MaxHeightReached => Some (Done (Err MaxHeightReached, poh_recorder))
      | Err SendError => Some (Done (Err SendError, poh_recorder))
      | Err _ => Some Panicked
      end
  end.

End TransactionRecorder.

Definition was_processed (r : TransactionProcessingResult) : bool := is_ok r.

Module Committer.
Section Committer.
Context {env : LeaderEnv}.

(** What is reported of the transaction with the given units. *)
Definition commit_details (units : Z) (r : TransactionProcessingResult) : CommitTransactionDetails :=
  match r with
  | Ok t =>
      CostModel.Committed (ProcessedTransaction.executed_units units t)
        (ProcessedTransaction.loaded_accounts_data_size t) (LiveBank.status t)
  | Err e => NotCommitted e
  end.

(** Votes, the cache of prioritization fees and the status sender are told
    afterwards. *)
Definition commit_transactions (random : list Z -> Z) (units : nat -> Z) (bank : LiveBank)
    (batch : TransactionBatch) (processing_results : list TransactionProcessingResult)
    : outcome (list CommitTransactionDetails * LiveBank) :=
  let* bank := LiveBank.commit_transactions random bank (sanitized_txs batch) processing_results in
  Done (imap (fun i => commit_details (units i)) processing_results, bank).

End Committer.
End Committer.

Module Consumer.
Section Consumer.
Context {env : LeaderEnv}.

(** What the threads share. *)
Record Leader := mkLeader {
  leader_bank : LiveBank;
  leader_tracker : CostTracker;
  leader_poh : PohRecorder;
}.
#[export] Instance eta_Leader : Eta Leader := fun l =>
  mkLeader (leader_bank l) (leader_tracker l) (leader_poh l).

Definition is_retryable (r : result TransactionError unit) : bool :=
  match r with
  | Err TransactionError.AccountInUse
  | Err TransactionError.WouldExceedMaxBlockCostLimit
  | Err TransactionError.WouldExceedMaxVoteCostLimit
  | Err TransactionError.WouldExceedMaxAccountCostLimit
  | Err TransactionError.WouldExceedAccountDataBlockLimit => true
  | _ => false
  end.

(** The indexes of the elements with a property. *)
Definition indexes {A} (p : A -> bool) (l : list A) : list nat :=
  omap (fun x => if p x.2 then Some x.1 else None) (imap pair l).

(** The transactions that were processed. *)
Definition processed_transactions {A} (txs : list A) (rs : list TransactionProcessingResult) : list A :=
  omap (fun x => if was_processed x.2 then Some x.1 else None) (zip txs rs).

(** The end of [execute_and_commit_transactions_locked]: what was recorded is
    committed. *)
Definition commit_recorded (random : list Z -> Z) (units : nat -> Z) (bank : LiveBank)
    (batch : TransactionBatch) (processing_results : list TransactionProcessingResult)
    : outcome (list CommitTransactionDetails * LiveBank) :=
  if existsb was_processed processing_results
  then Committer.commit_transactions random units bank batch processing_results
  else Done (map (Committer.commit_details 0) processing_results, bank).

(** [txs] are the transactions of the batch with their metadata. *)
Definition execute_and_commit_transactions_locked (random : list Z -> Z) (units : nat -> Z) (fuel : nat)
    (self : Leader) (txs : list RuntimeTransaction) (batch : TransactionBatch)
    : option (outcome (list nat * result PohRecorderError (list CommitTransactionDetails) * Leader)) :=
  let bank := leader_bank self in
  let retryable_transaction_indexes := indexes is_retryable (lock_results batch) in
  let+ processing_results := Some (LiveBank.load_and_execute_transactions bank batch MAX_PROCESSING_AGE) in
  let processed := map to_versioned_transaction (processed_transactions txs processing_results) in
  let+ (record_transactions_result, poh) :=
    TransactionRecorder.record_transactions fuel (leader_poh self) (bank_slot bank) processed in
  let self := self<|leader_poh := poh|> in
  match record_transactions_result with
  | Err recorder_err =>
      Some (Done (merge_sort (≤)%nat
                    (retryable_transaction_indexes ++ indexes was_processed processing_results),
                  Err recorder_err, self))
  | Ok _ =>
      let+ (commit_transaction_statuses, bank) :=
        Some (commit_recorded random units bank batch processing_results) in
      Some (Done (retryable_transaction_indexes, Ok commit_transaction_statuses, self<|leader_bank := bank|>))
  end.

(** Which transactions the accounts are locked for. *)
Definition selected (costs : list (result TransactionError TransactionCost))
    : list (result TransactionError unit) :=
  map (fun r => match r with Ok _ => Ok tt | Err e => Err e end) costs.

Definition process_and_record_transactions_with_pre_results (random : list Z -> Z) (units : nat -> Z)
    (fuel : nat) (self : Leader) (txs : list RuntimeTransaction)
    (pre_results : list (result TransactionError unit))
    : option (outcome (Z * list nat * result PohRecorderError (list CommitTransactionDetails) * Leader)) :=
  let+ (transaction_qos_cost_results, throttled, tracker) :=
    Some (QosService.select_and_accumulate_transaction_costs (leader_tracker self) txs pre_results) in
  let self := self<|leader_tracker := tracker|> in
  let+ (batch, bank) :=
    Some (LiveBank.prepare_sanitized_batch_with_results (leader_bank self)
            (map TxMeta.transaction txs) (selected transaction_qos_cost_results)) in
  let self := self<|leader_bank := bank|> in
  let+ (retryable, commit_transactions_result, self) :=
    execute_and_commit_transactions_locked random units fuel self txs batch in
  let self := self<|leader_bank := LiveBank.drop_batch (leader_bank self) batch|> in
  let status := match commit_transactions_result with Ok l => Some l | Err _ => None end in
  let self := self<|leader_tracker :=
    QosService.remove_or_update_costs (leader_tracker self) transaction_qos_cost_results status|> in
  Some (Done (throttled, retryable, commit_transactions_result, self)).

Definition process_and_record_transactions (random : list Z -> Z) (units : nat -> Z) (fuel : nat)
    (self : Leader) (txs : list RuntimeTransaction)
    : option (outcome (Z * list nat * result PohRecorderError (list CommitTransactionDetails) * Leader)) :=
  let+ check_results :=
    Some (LiveBank.check_transactions (leader_bank self) (map TxMeta.transaction txs)
            (map (fun _ => Ok tt) txs) MAX_PROCESSING_AGE) in
  process_and_record_transactions_with_pre_results random units fuel self txs
    (map (fun r => match r with Ok _ => Ok tt | Err e => Err e end) check_results).

End Consumer.
End Consumer.

(** ** Threads *)

Inductive Stage : Type :=
| Selected
| Holding (batch : TransactionBatch)
| Ran (batch : TransactionBatch) (results : list TransactionProcessingResult)
| Recorded (batch : TransactionBatch) (results : list TransactionProcessingResult)
| Finished (flight : Flight) (status : option (list CommitTransactionDetails))
| Released (status : option (list CommitTransactionDetails)).

(** A batch on its way. *)
Record Job := mkJob {
  job_txs : list RuntimeTransaction;
  job_costs : list (result TransactionError TransactionCost);
  job_stage : Stage;
}.

Import Consumer.

Section Leader.
Context {env : LeaderEnv} {keys : AccountKeysEnv}.

(** The leader and the batches of its threads.  What was recorded, what was
    committed and what the tracker was told of is remembered as well. *)
Record State := mkState {
  leader : Leader;
  jobs : list Job;
  block : list RuntimeTransaction;
  log : list RuntimeTransaction;
  charged : list Item;
}.

Context (reserved : gset (list Z)) (la lb lv : Z) (metered : bool) (tps last : Z).

(** Batches that hold locks. *)
Definition job_flights (j : Job) : list Flight :=
  match job_stage j with
  | Holding batch => [mkFlight batch Locked]
  | Ran batch rs | Recorded batch rs => [mkFlight batch (Executed rs)]
  | Finished f _ => [f]
  | Selected | Released _ => []
  end.

(** A transaction as it comes from the wire; see [transaction_cost_is_exact] for
    its cost. *)
Definition receivable (tx : RuntimeTransaction) : Prop :=
  from_wire reserved (TxMeta.transaction tx) /\
  forall c, CostModel.calculate_cost tx = Done c -> cost_ok c.

(** What a settled batch may cost: what it asked for, or at most what the
    numbers can hold. *)
Definition affordable_costs (costs : list (result TransactionError TransactionCost))
    (status : option (list CommitTransactionDetails)) (rest : list Job) (ch : list Item) : Prop :=
  if metered then Forall (fun x => x.2 <= TransactionCost.sum x.1) (settled costs status)
  else total (settled costs status ++ items_of (map job_costs rest) ch) <= COST_ROOM.

(** A thread takes a batch through its stages.  Meanwhile the clock hashes and
    ticks, blockhashes are registered, and the recorder may be reset.  Fewer than
    2^64 keys are locked at any time, and what a commit reports are numbers of 64
    and 32 bits. *)
Inductive leader_step : State -> State -> Prop :=
| leader_select l js bl lg ch txs pre costs n tracker :
    Forall receivable txs -> length pre = length txs ->
    QosService.select_and_accumulate_transaction_costs (leader_tracker l) txs pre = Done (costs, n, tracker) ->
    leader_step (mkState l js bl lg ch)
      (mkState (l<|leader_tracker := tracker|>) (mkJob txs costs Selected :: js) bl lg ch)
| leader_lock l js1 txs costs js2 bl lg ch batch bank :
    batch_size (map TxMeta.transaction txs)
      + zlen (held_keys (map (fun f => flight_pairs f) (concat (map job_flights (js1 ++ js2))))) <= U64_MAX ->
    LiveBank.prepare_sanitized_batch_with_results (leader_bank l) (map TxMeta.transaction txs) (selected costs)
    = Done (batch, bank) ->
    leader_step (mkState l (js1 ++ mkJob txs costs Selected :: js2) bl lg ch)
      (mkState (l<|leader_bank := bank|>) (mkJob txs costs (Holding batch) :: js1 ++ js2) bl lg ch)
| leader_execute l js1 txs costs batch js2 bl lg ch rs :
    LiveBank.load_and_execute_transactions (leader_bank l) batch MAX_PROCESSING_AGE = Done rs ->
    leader_step (mkState l (js1 ++ mkJob txs costs (Holding batch) :: js2) bl lg ch)
      (mkState l (js1 ++ mkJob txs costs (Ran batch rs) :: js2) bl lg ch)
| leader_record l js1 txs costs batch rs js2 bl lg ch fuel i poh :
    TransactionRecorder.record_transactions fuel (leader_poh l) (bank_slot (leader_bank l))
      (map to_versioned_transaction (processed_transactions txs rs)) = Some (Done (Ok i, poh)) ->
    leader_step (mkState l (js1 ++ mkJob txs costs (Ran batch rs) :: js2) bl lg ch)
      (mkState (l<|leader_poh := poh|>) (js1 ++ mkJob txs costs (Recorded batch rs) :: js2)
         (bl ++ processed_transactions txs rs) lg ch)
| leader_fail l js1 txs costs batch rs js2 bl lg ch fuel e poh :
    TransactionRecorder.record_transactions fuel (leader_poh l) (bank_slot (leader_bank l))
      (map to_versioned_transaction (processed_transactions txs rs)) = Some (Done (Err e, poh)) ->
    leader_step (mkState l (js1 ++ mkJob txs costs (Ran batch rs) :: js2) bl lg ch)
      (mkState (l<|leader_poh := poh|>)
         (js1 ++ mkJob txs costs (Finished (mkFlight batch (Executed rs)) None) :: js2) bl lg ch)
| leader_commit l js1 txs costs batch rs js2 bl lg ch random units status bank :
    commit_recorded random units (leader_bank l) batch rs = Done (status, bank) -> Forall details_ok status ->
    leader_step (mkState l (js1 ++ mkJob txs costs (Recorded batch rs) :: js2) bl lg ch)
      (mkState (l<|leader_bank := bank|>)
         (js1 ++ mkJob txs costs (Finished (mkFlight batch
            (if existsb was_processed rs then Committed else Executed rs)) (Some status)) :: js2)
         bl (lg ++ processed_transactions txs rs) ch)
| leader_release l js1 txs costs f status js2 bl lg ch :
    leader_step (mkState l (js1 ++ mkJob txs costs (Finished f status) :: js2) bl lg ch)
      (mkState (l<|leader_bank := LiveBank.drop_batch (leader_bank l) (flight_batch f)|>)
         (js1 ++ mkJob txs costs (Released status) :: js2) bl lg ch)
| leader_settle l js1 txs costs status js2 bl lg ch :
    affordable_costs costs status (js1 ++ js2) ch ->
    leader_step (mkState l (js1 ++ mkJob txs costs (Released status) :: js2) bl lg ch)
      (mkState (l<|leader_tracker := QosService.remove_or_update_costs (leader_tracker l) costs status|>)
         (js1 ++ js2) bl lg (settled costs status ++ ch))
| leader_register l js bl lg ch hash rate now :
    leader_step (mkState l js bl lg ch)
      (mkState (l<|leader_bank := LiveBank.register_recent_blockhash (leader_bank l) hash rate now|>) js bl lg ch)
| leader_hash l js bl lg ch n b poh :
    0 <= n -> hash (leader_poh l) n = Done (b, poh) ->
    leader_step (mkState l js bl lg ch) (mkState (l<|leader_poh := poh|>) js bl lg ch)
| leader_tick l js bl lg ch poh :
    tick_height (leader_poh l) < U64_MAX -> tick (leader_poh l) = Done poh ->
    leader_step (mkState l js bl lg ch) (mkState (l<|leader_poh := poh|>) js bl lg ch)
| leader_reset l js bl lg ch next_bank next hpt poh :
    fitting tps last next_bank -> bi_hashes_per_tick next_bank = Some hpt -> 1 < hpt < U64_MAX ->
    (exists x, compute_leader_slot_tick_heights next tps = Done x) ->
    reset (leader_poh l) next_bank next = Done poh ->
    leader_step (mkState l js bl lg ch) (mkState (l<|leader_poh := poh|>) js bl lg ch).

Inductive leader_run : State -> State -> Prop :=
| leader_end s : leader_run s s
| leader_next s s' s'' : leader_step s s' -> leader_run s' s'' -> leader_run s s''.

Lemma leader_run_trans s1 s2 s3 : leader_run s1 s2 -> leader_run s2 s3 -> leader_run s1 s3.
Proof. induction 1; [done|]. intros H'. eapply leader_next; [done|auto]. Qed.

End Leader.

(** ** Who is left in a batch

    A batch gets smaller from stage to stage: what is processed was locked, and
    what was locked was selected. *)

Definition narrowed {A B} (l : list (result TransactionError A)) (l' : list (result TransactionError B)) : Prop :=
  Forall2 (fun r r' => is_ok r' = true -> is_ok r = true) l l'.

Lemma narrowed_trans {A B C} (l1 : list (result TransactionError A)) (l2 : list (result TransactionError B))
    (l3 : list (result TransactionError C)) : narrowed l1 l2 -> narrowed l2 l3 -> narrowed l1 l3.
Proof.
  intros H. revert l3. induction H; intros l3 H3; inversion H3; subst; constructor; [auto|]. by apply IHForall2.
Qed.

Lemma granted_narrowed relax limit held : forall txs results mine, length results = length txs ->
  narrowed results (reference_grants relax limit held mine txs results).
Proof.
  induction txs as [|tx txs IH]; intros [|r results] mine [=]; [constructor|].
  constructor; [|by apply IH]. by destruct r.
Qed.

Lemma repeated_narrowed message_hash : forall txs results seen, length results = length txs ->
  narrowed results (BankLocks.refuse_repeated message_hash seen txs results).
Proof.
  induction txs as [|tx txs IH]; intros [|[[]|e] results] seen [=]; [constructor| |].
  - cbn. case_bool_decide; constructor; try done; by apply IH.
  - constructor; [done|by apply IH].
Qed.

Lemma prepare_narrowed {env : AdmissionEnv} b bs txs results batch b' :
  locks_of b bs -> batch_size txs + zlen (held_keys bs) <= U64_MAX -> length results = length txs ->
  LiveBank.prepare_sanitized_batch_with_results b txs results = Done (batch, b') ->
  narrowed results (lock_results batch).
Proof.
  intros H Hsize Hl. unfold LiveBank.prepare_sanitized_batch_with_results, BankLocks.try_lock_accounts_with_results.
  set (res := if relax_intrabatch_account_locks then _ else _).
  assert (narrowed results res) as Hn.
  { unfold res. destruct relax_intrabatch_account_locks; [by apply repeated_narrowed|].
    apply Forall2_same_length_lookup_2; [done|]. intros i x y Hx Hy. rewrite Hx in Hy. by injection Hy as <-. }
  destruct (Accounts.lock_accounts (account_locks b) txs res _ _) as [rs L'] eqn:E.
  destruct (history_represents _ _ _ _ H) as [R _].
  pose proof (lock_accounts_spec (transaction_account_lock_limit b) relax_intrabatch_account_locks _ txs res _ R Hsize) as Hspec.
  rewrite E in Hspec. destruct Hspec as [-> _]. unfold TransactionBatch.new.
  destruct (Z.eqb _ _); [|done]. cbn. intros [= <- <-]. eapply narrowed_trans; [exact Hn|].
  apply granted_narrowed. rewrite <- Hl. symmetry. by apply Forall2_length in Hn.
Qed.

(** ** The costs of a batch *)

Section Costs.
Context {env : CostEnv}.

(** Every cost is the cost of its transaction. *)
Definition costs_of (txs : list RuntimeTransaction) (costs : list (result TransactionError TransactionCost)) : Prop :=
  Forall2 (fun tx r => forall c, r = Ok c -> TransactionCost.transaction_of c = tx) txs costs.

Lemma calculate_cost_of tx c : CostModel.calculate_cost tx = Done c -> TransactionCost.transaction_of c = tx.
Proof.
  unfold CostModel.calculate_cost, CostModel.calculate_non_vote_transaction_cost.
  destruct (is_simple_vote_transaction _); [by intros [= <-]|].
  destruct (CostModel.get_estimated_execution_cost tx) as [[units price]| |]; try done. by intros [= <-].
Qed.

Lemma compute_costs_spec (P : TransactionCost -> Prop) txs : forall pre costs,
  length pre = length txs -> Forall (fun tx => forall c, CostModel.calculate_cost tx = Done c -> P c) txs ->
  QosService.compute_transaction_costs txs pre = Done costs ->
  costs_of txs costs /\ Forall P (included costs).
Proof.
  induction txs as [|tx txs IH]; intros [|[[]|e] pre] costs Hl Hp H; try done; cbn in H;
    try (injection Hl as Hl).
  - injection H as <-. split; [constructor|by apply Forall_nil].
  - apply Forall_cons in Hp as [Htx Hp]. destruct (CostModel.calculate_cost tx) as [c| |] eqn:E; try done.
    cbn in H. destruct (QosService.compute_transaction_costs txs pre) as [costs'| |] eqn:E2; try done.
    cbn in H. injection H as <-. destruct (IH pre costs' Hl Hp E2) as [H1 H2].
    split; [|apply Forall_cons; auto]. constructor; [|done]. intros c' [= <-]. by apply calculate_cost_of.
  - apply Forall_cons in Hp as [_ Hp].
    destruct (QosService.compute_transaction_costs txs pre) as [costs'| |] eqn:E2; try done.
    cbn in H. injection H as <-. destruct (IH pre costs' Hl Hp E2) as [H1 H2].
    split; [by constructor|done].
Qed.

Lemma select_loop_costs txs : forall costs t n b n' t',
  costs_of txs costs -> QosService.select_loop t costs n = (b, n', t') -> costs_of txs b.
Proof.
  induction txs as [|tx txs IH]; intros costs t n b n' t' Hc H; inversion Hc as [|? r ? costs' Hr Hcs]; subst; cbn in H.
  - injection H as <- _ _. constructor.
  - destruct r as [c|e].
    + destruct (CostTracker.try_add t c) as [[x|x] t1];
        destruct (QosService.select_loop t1 costs' _) as [[b1 n1] t2] eqn:E; injection H as <- <- <-;
        (constructor; [done|by eapply IH]).
    + destruct (QosService.select_loop t costs' n) as [[b1 n1] t2] eqn:E. injection H as <- <- <-.
      constructor; [done|by eapply IH].
Qed.

End Costs.

(** ** What the recorder sends *)

Section Sent.
Context {env : RecorderEnv}.
Context (tps : Z) (Htps : 0 < tps) (Hconn : forall i, connected i = true).
Context (last : Z) (Hlast : last * tps < U64_MAX).
Context (Hsched : forall c s, 0 <= s < last ->
  exists x, compute_leader_slot_tick_heights (next_leader_slot c s) tps = Done x).

Definition transactions_sent (r : PohRecorder) : list VersionedTransaction :=
  concat (map e_transactions (entries_sent r)).

Definition recorder_ok (r : PohRecorder) : Prop :=
  exists start hpt base es, 1 < hpt < U64_MAX /\ rec_inv start hpt tps last base r es.

Lemma transactions_sent_app start hpt base r es :
  rec_inv start hpt tps last base r es ->
  transactions_sent r = concat (map (fun x => e_transactions x.2.1) base) ++ concat (map e_transactions es).
Proof.
  intros I. destruct (ri_sent _ _ _ _ _ _ _ I) as (new & E & ->). unfold transactions_sent, entries_sent.
  by rewrite E, !map_app, !map_map, concat_app.
Qed.

Lemma ticks_more_transactions es es' :
  ticks_more es es' -> concat (map e_transactions es') = concat (map e_transactions es).
Proof.
  intros (ticks & -> & H). rewrite map_app, concat_app. rewrite <- (app_nil_r (concat (map _ es))) at 2. f_equal.
  induction H as [|e ticks He _ IH]; [done|]. cbn. by rewrite He.
Qed.

Lemma record_loop_fuel slot mixins batches fuel : forall r x fuel', (fuel <= fuel')%nat ->
  record_loop fuel r slot mixins batches = Some x -> record_loop fuel' r slot mixins batches = Some x.
Proof.
  induction fuel as [|fuel IH]; intros r x [|fuel'] Hle; try done; [lia|]. cbn [record_loop].
  destruct (flush_cache r false) as [[[[]|e] r1]| |]; try done.
  destruct (working_bank r1) as [wb|]; [|done]. destruct (negb _); [done|].
  destruct (Poh.record_batches (poh r1) mixins []) as [[[[] entries] p]| |]; try done.
  destruct (tick _) as [r2| |]; try done. apply IH. lia.
Qed.

(** Whatever the fuel is, a batch that is recorded is sent and nothing else. *)
Lemma record_one_batch r slot txs : recorder_ok r -> txs <> [] ->
  exists res r', recorder_ok r' /\ transactions_sent r' = transactions_sent r ++ (if is_ok res then txs else []) /\
    (exists n, forall fuel, (n <= fuel)%nat -> record fuel r slot [mixin_of txs] [txs] = Some (Done (res, r'))) /\
    forall fuel x, record fuel r slot [mixin_of txs] [txs] = Some x -> x = Done (res, r').
Proof.
  intros (start & hpt & base & es & Hh & I) Hne. set (n := S (Z.to_nat (hashes_left hpt r))).
  destruct (record_inv tps Htps Hconn last Hlast Hsched start hpt base r es n slot [txs] Hh I)
    as (res & r' & E & es1 & es2 & I2 & Ht & Hres); [done|by repeat constructor|done|unfold n; lia|].
  exists res, r'. split_and!.
  - by exists start, hpt, base, (es1 ++ es2).
  - rewrite (transactions_sent_app _ _ _ _ _ I2), (transactions_sent_app _ _ _ _ _ I).
    rewrite map_app, concat_app, (ticks_more_transactions _ _ Ht), app_assoc. f_equal.
    destruct res as [x|e]; [|by subst]. destruct Hres as [-> _]. apply app_nil_r.
  - exists n. intros fuel Hf. cbn [map] in E. revert E. unfold record. cbn [zlen length]. destruct (negb _); [done|].
    destruct (existsb _ _); [done|]. by apply record_loop_fuel.
  - intros fuel x Hx. cbn [map] in E. revert E Hx. unfold record. destruct (negb _); [done|].
    destruct (existsb _ _); [done|]. intros E Hx.
    apply (record_loop_fuel _ _ _ _ _ _ (fuel + n)%nat) in E, Hx; [|lia..]. congruence.
Qed.

Lemma record_transactions_spec r slot txs : recorder_ok r ->
  (exists n, forall fuel, (n <= fuel)%nat -> TransactionRecorder.record_transactions fuel r slot txs <> None) /\
  forall fuel res r', TransactionRecorder.record_transactions fuel r slot txs = Some (Done (res, r')) ->
    recorder_ok r' /\ transactions_sent r' = transactions_sent r ++ (if is_ok res then txs else []).
Proof.
  intros Hr. destruct txs as [|tx txs].
  { split; [by exists 0%nat|]. intros fuel res r' [= <- <-]. by rewrite app_nil_r. }
  destruct (record_one_batch r slot (tx :: txs) Hr ltac:(done)) as (res & r' & H1 & H2 & (n & H3) & H4).
  unfold TransactionRecorder.record_transactions. rewrite hash_transactions_spec. cbn [fbind]. split.
  - exists n. intros fuel Hf. rewrite (H3 fuel Hf). by destruct res as [|[]].
  - intros fuel res1 r1. destruct (record fuel r slot _ _) as [[[res2 r2]| |]|] eqn:E; try done.
    apply H4 in E. injection E as -> ->. by destruct res as [|[]]; intros [= <- <-].
Qed.

Lemma hash_recorder_ok r n b r' : recorder_ok r -> 0 <= n -> hash r n = Done (b, r') ->
  recorder_ok r' /\ transactions_sent r' = transactions_sent r.
Proof.
  intros (start & hpt & base & es & Hh & I) Hn E.
  destruct (hash_inv start hpt tps Hh last base r es n I Hn) as (b2 & r2 & E2 & I2).
  rewrite E in E2. injection E2 as <- <-. split; [by exists start, hpt, base, es|].
  by rewrite (transactions_sent_app _ _ _ _ _ I2), (transactions_sent_app _ _ _ _ _ I).
Qed.

Lemma tick_recorder_ok r r' : recorder_ok r -> tick_height r < U64_MAX -> tick r = Done r' ->
  recorder_ok r' /\ transactions_sent r' = transactions_sent r.
Proof.
  intros (start & hpt & base & es & Hh & I) Hn E.
  destruct (tick_inv start hpt tps Hh Htps Hconn last Hlast Hsched base r es I Hn) as (r2 & es2 & E2 & I2 & Ht & _).
  rewrite E in E2. injection E2 as <-. split; [by exists start, hpt, base, es2|].
  by rewrite (transactions_sent_app _ _ _ _ _ I2), (transactions_sent_app _ _ _ _ _ I), (ticks_more_transactions _ _ Ht).
Qed.

Lemma reset_recorder_ok r bank next hpt r' : recorder_ok r -> fitting tps last bank ->
  bi_hashes_per_tick bank = Some hpt -> 1 < hpt < U64_MAX ->
  (exists x, compute_leader_slot_tick_heights next tps = Done x) -> reset r bank next = Done r' ->
  recorder_ok r' /\ transactions_sent r' = transactions_sent r.
Proof.
  intros (start & hpt0 & base & es & Hh & I) Hfit Hb Hh' Hx E.
  destruct (reset_inv tps Htps last Hlast Hsched start hpt0 base r es bank next hpt Hh I Hfit Hb Hh' Hx) as (r2 & E2 & I2).
  rewrite E in E2. injection E2 as <-. split; [by exists (bi_last_blockhash bank), hpt, (sent r), []|].
  rewrite (transactions_sent_app _ _ _ _ _ I2), app_nil_r. unfold transactions_sent, entries_sent. by rewrite map_map.
Qed.

End Sent.

(** ** What was processed *)

Lemma processed_map txs : forall rs,
  processed (map TxMeta.transaction txs) rs = map TxMeta.transaction (processed_transactions txs rs).
Proof.
  unfold processed, processed_transactions. induction txs as [|tx txs IH]; intros [|[t|e] rs]; try done; cbn.
  - f_equal. apply IH.
  - apply IH.
Qed.

Lemma nothing_processed {A} (txs : list A) : forall rs,
  existsb was_processed rs = false -> processed_transactions txs rs = [].
Proof.
  unfold processed_transactions. induction txs as [|tx txs IH]; intros [|[t|e] rs] H; try done. cbn. by apply IH.
Qed.

Lemma committed_length {env : LeaderEnv} random units bank batch rs status bank' :
  commit_recorded random units bank batch rs = Done (status, bank') -> length status = length rs.
Proof.
  unfold commit_recorded, Committer.commit_transactions. destruct (existsb _ _).
  - destruct (LiveBank.commit_transactions _ _ _ _); try done. cbn. intros [= <- _]. by rewrite length_imap.
  - intros [= <- _]. by rewrite length_map.
Qed.

Lemma fresh_narrowed {env : AdmissionEnv} self txs locks rs :
  Forall3 (fresh self) txs locks rs -> narrowed locks rs.
Proof.
  induction 1 as [|m lock r txs locks rs Hf _ IH]; constructor; [|done].
  destruct r as [t|e]; [|done]. by destruct (Hf t eq_refl) as [-> _].
Qed.

(** A batch of transactions that are not in the log. *)
Definition in_flight (f : Flight) : list SVMMessage :=
  match flight_phase f with Executed rs => processed (flight_txs f) rs | _ => [] end.

Lemma concat_nodup {A B} (g : A -> list B) l :
  Forall (fun x => NoDup (g x)) l ->
  (forall l1 x l2 y b, l = l1 ++ x :: l2 -> y ∈ l1 ++ l2 -> b ∈ g x -> b ∈ g y -> False) ->
  NoDup (concat (map g l)).
Proof.
  induction l as [|x l IH]; intros Hn Hd; cbn; [apply NoDup_nil_2|]. apply Forall_cons in Hn as [Hx Hn].
  apply NoDup_app. split_and!; [done| |apply IH; [done|]].
  - intros b Hb Hin. apply list_elem_of_In, in_concat in Hin as (gy & Hgy & Hin).
    apply in_map_iff in Hgy as (y & <- & Hy). apply list_elem_of_In in Hin, Hy.
    by apply (Hd [] x l y b).
  - intros l1 x' l2 y b -> Hy. apply (Hd (x :: l1) x' l2 y b); [done|]. cbn. by apply elem_of_cons; right.
Qed.

(** What was executed at the same time differs from each other and from the log. *)
Lemma inv_in_flight {env : AdmissionEnv} {laws : AdmissionLaws env} s :
  Concurrency.inv s -> NoDup (ledger s ++ concat (map in_flight (flights s))).
Proof.
  intros [I1 I2 _ _ I5 _ I7]. rewrite Forall_forall in I2, I7.
  assert (forall f m, f ∈ flights s -> m ∈ in_flight f -> m ∈ granted (flight_pairs f) /\ m ∉ ledger s) as Hin.
  { intros f m Hf Hm. pose proof (I7 f Hf) as Hu. unfold unseen, in_flight in *.
    destruct (flight_phase f) as [|rs|]; [by apply not_elem_of_nil in Hm| |by apply not_elem_of_nil in Hm].
    destruct Hu as [H1 H2]. rewrite Forall_forall in H2. split; [by eapply elem_of_sublist|by apply H2]. }
  apply NoDup_app. split_and!; [done| |].
  - intros m Hm Hc. apply list_elem_of_In, in_concat in Hc as (l & Hl & Hc).
    apply in_map_iff in Hl as (f & <- & Hf). apply list_elem_of_In in Hc, Hf. by apply (Hin f m Hf Hc).
  - apply concat_nodup.
    + apply Forall_forall. intros f Hf. pose proof (I7 f Hf) as Hu. unfold unseen, in_flight in *.
      destruct (flight_phase f) as [|rs|]; [apply NoDup_nil_2| |apply NoDup_nil_2].
      eapply sublist_NoDup; [apply (I2 f Hf)|apply Hu].
    + intros fs1 f fs2 f' m E Hf' H1 H2. assert (f ∈ flights s) as Hf by (rewrite E, elem_of_app, elem_of_cons; tauto).
      assert (f' ∈ flights s) as Hf''.
      { rewrite elem_of_app in Hf'. rewrite E, elem_of_app, elem_of_cons. tauto. }
      rewrite E in I1.
      by apply (granted_disjoint (sys_bank s) fs1 f fs2 f' m I1 (I2 f Hf) Hf'); apply Hin.
Qed.

(** ** The invariant *)

Section Invariant.
Context {env : LeaderEnv} {keys : AccountKeysEnv}.
Context (reserved : gset (list Z)) (la lb lv : Z) (metered : bool) (tps last : Z).
Context (before : list VersionedTransaction).

(** What a batch has recorded and not committed, and what it has committed and
    not settled. *)
Definition job_recorded (j : Job) : list RuntimeTransaction :=
  match job_stage j with
  | Recorded _ rs => processed_transactions (job_txs j) rs
  | _ => []
  end.
Definition charged_transactions (items : list Item) : list RuntimeTransaction :=
  map (fun x => TransactionCost.transaction_of x.1) items.
Definition job_unsettled (j : Job) : list RuntimeTransaction :=
  match job_stage j with
  | Finished _ status | Released status => charged_transactions (settled (job_costs j) status)
  | _ => []
  end.

Definition status_ok (costs : list (result TransactionError TransactionCost))
    (status : option (list CommitTransactionDetails)) : Prop :=
  from_option (fun l => length l = length costs /\ Forall details_ok l) True status.

Definition job_ok (j : Job) : Prop :=
  Forall (receivable reserved) (job_txs j) /\ costs_of (job_txs j) (job_costs j) /\
  match job_stage j with
  | Selected => True
  | Holding batch =>
      sanitized_txs batch = map TxMeta.transaction (job_txs j) /\ narrowed (job_costs j) (lock_results batch)
  | Ran batch rs | Recorded batch rs =>
      sanitized_txs batch = map TxMeta.transaction (job_txs j) /\ narrowed (job_costs j) rs
  | Finished _ status | Released status => status_ok (job_costs j) status
  end.

(** The leader as a bank with batches in flight. *)
Definition system (s : State) : System :=
  mkSystem (leader_bank (leader s)) (concat (map job_flights (jobs s))) (map TxMeta.transaction (log s)).

Record leader_inv (s : State) : Prop := {
  li_system : Concurrency.inv (system s);
  li_filling : exists flying, flying ≡ₚ map job_costs (jobs s) /\
    filling la lb lv metered (leader_tracker (leader s)) flying (charged s);
  li_recorder : recorder_ok tps last (leader_poh (leader s));
  li_sent : transactions_sent (leader_poh (leader s)) = before ++ map to_versioned_transaction (block s);
  li_jobs : Forall job_ok (jobs s);
  li_block : block s ≡ₚ log s ++ concat (map job_recorded (jobs s));
  li_log : log s ≡ₚ charged_transactions (charged s) ++ concat (map job_unsettled (jobs s));
}.

Lemma map_as_imap {A B} (f : A -> B) l : map f l = imap (fun _ => f) l.
Proof. apply list_eq. intros i. by rewrite list_lookup_imap, list_lookup_fmap. Qed.

(** The statuses of a committed batch charge what was processed. *)
Lemma settled_transactions txs : forall costs rs units,
  costs_of txs costs -> narrowed costs rs ->
  charged_transactions (settled_list costs (imap (fun i => Committer.commit_details (units i)) rs))
  = processed_transactions txs rs.
Proof.
  unfold processed_transactions.
  induction txs as [|tx txs IH]; intros costs rs units Hc Hn;
    inversion Hc as [|? c ? costs' Htx Hcs]; subst; inversion Hn as [|? r ? rs' Hr Hrs]; subst; [done|].
  destruct r as [t|e]; cbn [imap Committer.commit_details].
  - destruct c as [c|e]; [|by specialize (Hr eq_refl)]. cbn. f_equal; [by apply Htx|].
    apply (IH costs' rs' (fun i => units (S i)) Hcs Hrs).
  - destruct c as [c|e']; cbn; apply (IH costs' rs' (fun i => units (S i)) Hcs Hrs).
Qed.

Lemma committed_transactions random units bank batch txs costs rs status bank' :
  costs_of txs costs -> narrowed costs rs -> commit_recorded random units bank batch rs = Done (status, bank') ->
  charged_transactions (settled_list costs status) = processed_transactions txs rs.
Proof.
  intros Hc Hn. unfold commit_recorded, Committer.commit_transactions. destruct (existsb _ _).
  - destruct (LiveBank.commit_transactions _ _ _ _); try done. cbn. intros [= <- _]. by apply settled_transactions.
  - intros [= <- _]. rewrite map_as_imap. by apply (settled_transactions txs costs rs (fun _ => 0)).
Qed.

(** A step of one job changes the lists of all jobs at its place. *)
Lemma concat_middle {A B} (f : A -> list B) l1 x l2 :
  concat (map f (l1 ++ x :: l2)) = concat (map f l1) ++ f x ++ concat (map f l2).
Proof. by rewrite map_app, concat_app. Qed.

Lemma concat_first {A B} (f : A -> list B) l1 x l2 :
  concat (map f (l1 ++ x :: l2)) ≡ₚ f x ++ concat (map f (l1 ++ l2)).
Proof. rewrite concat_middle, map_app, concat_app. apply Permutation_app_swap_app. Qed.

Context {alaws : AdmissionLaws leader_admission} {klaws : AccountKeysLaws keys}.
Context (Hsysvar : instructions_sysvar_id ∈ reserved).

Lemma inv_select l js bl lg ch txs pre costs n tracker :
  Forall (receivable reserved) txs -> length pre = length txs ->
  QosService.select_and_accumulate_transaction_costs (leader_tracker l) txs pre = Done (costs, n, tracker) ->
  leader_inv (mkState l js bl lg ch) ->
  leader_inv (mkState (l<|leader_tracker := tracker|>) (mkJob txs costs Selected :: js) bl lg ch).
Proof.
  intros Hr Hl E [I1 I2 I3 I4 I5 I6 I7]. unfold QosService.select_and_accumulate_transaction_costs in E.
  destruct (QosService.compute_transaction_costs txs pre) as [all| |] eqn:Ec; try done. cbn [obind] in E.
  destruct (compute_costs_spec cost_ok txs pre all Hl) as [Hof Hok]; [|done|].
  { eapply Forall_impl; [exact Hr|]. by intros tx [_ H]. }
  destruct (QosService.select_transactions_per_cost _ all) as [[b k] t'] eqn:Es. injection E as <- <- <-.
  split; try done; cbn.
  - destruct I2 as (flying & Hp & I2). exists (b :: flying). split; [by constructor|].
    eapply filling_select; [exact I2|exact Hok|exact Es].
  - constructor; [|done]. split_and!; [done| |done]. unfold QosService.select_transactions_per_cost in Es.
    destruct (QosService.select_loop _ all 0) as [[b1 k1] t1] eqn:E1. injection Es as <- _ _.
    by eapply select_loop_costs.
Qed.

Lemma inv_lock l js1 txs costs js2 bl lg ch batch bank :
  batch_size (map TxMeta.transaction txs)
    + zlen (held_keys (map (fun f => flight_pairs f) (concat (map job_flights (js1 ++ js2))))) <= U64_MAX ->
  LiveBank.prepare_sanitized_batch_with_results (leader_bank l) (map TxMeta.transaction txs) (selected costs)
  = Done (batch, bank) ->
  leader_inv (mkState l (js1 ++ mkJob txs costs Selected :: js2) bl lg ch) ->
  leader_inv (mkState (l<|leader_bank := bank|>) (mkJob txs costs (Holding batch) :: js1 ++ js2) bl lg ch).
Proof.
  intros Hsize E [I1 I2 I3 I4 I5 I6 I7]. unfold system in I1. cbn in I1, I2, I6, I7.
  rewrite concat_first in I6, I7. apply Forall_app in I5 as [J1 [[Hr [Hc _]] J2]%Forall_cons].
  assert (concat (map job_flights (js1 ++ mkJob txs costs Selected :: js2)) = concat (map job_flights (js1 ++ js2))) as Ef
    by (by rewrite concat_middle, map_app, concat_app). rewrite Ef in I1.
  assert (Forall (from_wire reserved) (map TxMeta.transaction txs)) as Hw.
  { apply Forall_map. eapply Forall_impl; [exact Hr|]. by intros tx []. }
  split; try done; cbn.
  - eapply inv_step; [exact Hsysvar| |exact I1]. by eapply step_lock.
  - destruct I2 as (flying & Hp & I2). exists flying. split; [|done]. rewrite Hp, !map_app.
    symmetry. apply Permutation_middle.
  - constructor; [|by apply Forall_app]. split_and!; [done..|].
    assert (length (selected costs) = length (map TxMeta.transaction txs)) as Hl.
    { unfold selected. rewrite !length_map. symmetry. by apply Forall2_length in Hc. }
    assert (Forall wire_ok (map TxMeta.transaction txs)) as Hok.
    { eapply Forall_impl; [exact Hw|]. intros m. by apply from_wire_ok. }
    destruct (prepare_inv _ _ _ _ _ _ (inv_locks _ I1) Hok Hsize E) as (Es & _). split; [exact Es|].
    eapply narrowed_trans; [|by eapply (prepare_narrowed _ _ _ _ _ _ (inv_locks _ I1))].
    clear. unfold selected. induction costs as [|[c|e] costs IH]; constructor; done.
Qed.

(** A job goes to its next stage. *)
Lemma inv_replace l l' js1 j j' js2 bl bl' lg lg' ch :
  leader_inv (mkState l (js1 ++ j :: js2) bl lg ch) ->
  leader_tracker l' = leader_tracker l -> job_costs j' = job_costs j -> (job_ok j -> job_ok j') ->
  Concurrency.inv (system (mkState l' (js1 ++ j' :: js2) bl' lg' ch)) ->
  recorder_ok tps last (leader_poh l') ->
  transactions_sent (leader_poh l') = before ++ map to_versioned_transaction bl' ->
  bl' ++ lg ++ job_recorded j ≡ₚ bl ++ lg' ++ job_recorded j' ->
  lg' ++ job_unsettled j ≡ₚ lg ++ job_unsettled j' ->
  leader_inv (mkState l' (js1 ++ j' :: js2) bl' lg' ch).
Proof.
  intros [I1 I2 I3 I4 I5 I6 I7] Ht Hc Hj Hs Hr Hsent Hb Hl. cbn in I2, I6, I7. rewrite concat_first in I6, I7.
  apply Forall_app in I5 as [J1 [Jj J2]%Forall_cons]. split; try done; cbn; rewrite ?concat_first.
  - rewrite Ht. by rewrite map_app in *; cbn in *; rewrite Hc.
  - apply Forall_app. split; [done|]. constructor; auto.
  - apply (Permutation_app_inv_l (lg ++ job_recorded j)). rewrite I6 in Hb.
    rewrite (Permutation_app_comm _ bl'), Hb. solve_Permutation.
  - apply (Permutation_app_inv_l (job_unsettled j)). rewrite (Permutation_app_comm _ lg'), Hl, I7. solve_Permutation.
Qed.

(** What every flight keeps. *)
Lemma flights_middle js1 j js2 f :
  job_flights j = [f] -> concat (map job_flights (js1 ++ j :: js2))
  = concat (map job_flights js1) ++ f :: concat (map job_flights js2).
Proof. intros E. by rewrite concat_middle, E. Qed.

Lemma inv_run_batch l js1 txs costs batch js2 bl lg ch rs :
  LiveBank.load_and_execute_transactions (leader_bank l) batch MAX_PROCESSING_AGE = Done rs ->
  leader_inv (mkState l (js1 ++ mkJob txs costs (Holding batch) :: js2) bl lg ch) ->
  leader_inv (mkState l (js1 ++ mkJob txs costs (Ran batch rs) :: js2) bl lg ch).
Proof.
  intros E I. pose proof (li_system _ I) as Is. unfold system in Is. cbn in Is.
  rewrite (flights_middle _ _ _ (mkFlight batch Locked)) in Is by done.
  eapply inv_replace; [exact I|try done..]; try apply I; cbn.
  - intros (Hr & Hc & Es & Hn). split_and!; try done. cbn.
    pose proof (inv_flights _ Is) as Hf. apply Forall_app in Hf as [_ [Hf _]%Forall_cons].
    destruct Hf as (_ & Hl & Hw & _). cbn in Hl, Hw.
    destruct (execute_inv _ _ _ _ Hl Hw (inv_rate _ Is) E) as (checks & next & Hadm & ->).
    split; [done|]. eapply narrowed_trans; [exact Hn|]. eapply fresh_narrowed, executed_fresh; [exact Hadm|apply results_checked].
  - unfold system. cbn. rewrite (flights_middle _ _ _ (mkFlight batch (Executed rs))) by done.
    eapply inv_step; [exact Hsysvar| |exact Is]. by eapply step_execute.
Qed.

Context (Htps : 0 < tps) (Hconn : forall i, connected i = true) (Hlast : last * tps < U64_MAX).
Context (Hsched : forall c s, 0 <= s < last ->
  exists x, compute_leader_slot_tick_heights (next_leader_slot c s) tps = Done x).

Lemma inv_record l js1 txs costs batch rs js2 bl lg ch fuel i p :
  TransactionRecorder.record_transactions fuel (leader_poh l) (bank_slot (leader_bank l))
    (map to_versioned_transaction (processed_transactions txs rs)) = Some (Done (Ok i, p)) ->
  leader_inv (mkState l (js1 ++ mkJob txs costs (Ran batch rs) :: js2) bl lg ch) ->
  leader_inv (mkState (l<|leader_poh := p|>) (js1 ++ mkJob txs costs (Recorded batch rs) :: js2)
    (bl ++ processed_transactions txs rs) lg ch).
Proof.
  intros E I. destruct (record_transactions_spec tps Htps Hconn last Hlast Hsched (leader_poh l)
    (bank_slot (leader_bank l)) (map to_versioned_transaction (processed_transactions txs rs)) (li_recorder _ I)) as [_ H].
  destruct (H _ _ _ E) as [Hr Hs]. pose proof (li_system _ I) as Is. unfold system in Is. cbn in Is.
  rewrite (flights_middle _ _ _ (mkFlight batch (Executed rs))) in Is by done.
  eapply inv_replace; [exact I|try done..]; cbn.
  - unfold system. cbn. by rewrite (flights_middle _ _ _ (mkFlight batch (Executed rs))) by done.
  - rewrite Hs, map_app, app_assoc. f_equal. apply (li_sent _ I).
  - rewrite app_nil_r. solve_Permutation.
Qed.

Lemma inv_fail l js1 txs costs batch rs js2 bl lg ch fuel e p :
  TransactionRecorder.record_transactions fuel (leader_poh l) (bank_slot (leader_bank l))
    (map to_versioned_transaction (processed_transactions txs rs)) = Some (Done (Err e, p)) ->
  leader_inv (mkState l (js1 ++ mkJob txs costs (Ran batch rs) :: js2) bl lg ch) ->
  leader_inv (mkState (l<|leader_poh := p|>)
    (js1 ++ mkJob txs costs (Finished (mkFlight batch (Executed rs)) None) :: js2) bl lg ch).
Proof.
  intros E I. destruct (record_transactions_spec tps Htps Hconn last Hlast Hsched (leader_poh l)
    (bank_slot (leader_bank l)) (map to_versioned_transaction (processed_transactions txs rs)) (li_recorder _ I)) as [_ H].
  destruct (H _ _ _ E) as [Hr Hs]. pose proof (li_system _ I) as Is. unfold system in Is. cbn in Is.
  rewrite (flights_middle _ _ _ (mkFlight batch (Executed rs))) in Is by done.
  eapply inv_replace; [exact I|try done..]; cbn.
  - by intros (Hx & Hc & _).
  - unfold system. cbn. by rewrite (flights_middle _ _ _ (mkFlight batch (Executed rs))) by done.
  - rewrite Hs, app_nil_r. apply (li_sent _ I).
Qed.

Lemma inv_commit_batch l js1 txs costs batch rs js2 bl lg ch random units status b :
  commit_recorded random units (leader_bank l) batch rs = Done (status, b) -> Forall details_ok status ->
  leader_inv (mkState l (js1 ++ mkJob txs costs (Recorded batch rs) :: js2) bl lg ch) ->
  leader_inv (mkState (l<|leader_bank := b|>)
    (js1 ++ mkJob txs costs (Finished (mkFlight batch
       (if existsb was_processed rs then Committed else Executed rs)) (Some status)) :: js2)
    bl (lg ++ processed_transactions txs rs) ch).
Proof.
  intros E Hd I. pose proof (li_system _ I) as Is. unfold system in Is. cbn in Is.
  rewrite (flights_middle _ _ _ (mkFlight batch (Executed rs))) in Is by done.
  pose proof (li_jobs _ I) as Hj. apply Forall_app in Hj as [_ [(_ & Hc & Es & Hn) _]%Forall_cons]. cbn in Hc, Es, Hn.
  eapply inv_replace; [exact I|try done..]; try apply I; cbn.
  - intros (Hx & _). split_and!; [done..|]. cbn. split; [|done].
    rewrite (committed_length _ _ _ _ _ _ _ E). symmetry. by apply Forall2_length in Hn.
  - unfold system. cbn. erewrite flights_middle by done. revert E. unfold commit_recorded, Committer.commit_transactions.
    destruct (existsb was_processed rs) eqn:Ep.
    + destruct (LiveBank.commit_transactions _ _ _ _) as [b'| |] eqn:Eb; try done. cbn. intros [= _ <-].
      eapply inv_step; [exact Hsysvar| |exact Is]. rewrite map_app, <- processed_map, <- Es. by eapply step_commit.
    + intros [= _ <-]. by rewrite (nothing_processed txs rs Ep), app_nil_r.
  - by rewrite app_nil_r.
  - rewrite app_nil_r, <- (committed_transactions _ _ _ _ _ _ _ _ _ Hc Hn E). done.
Qed.

Lemma inv_release_batch l js1 txs costs f status js2 bl lg ch :
  leader_inv (mkState l (js1 ++ mkJob txs costs (Finished f status) :: js2) bl lg ch) ->
  leader_inv (mkState (l<|leader_bank := LiveBank.drop_batch (leader_bank l) (flight_batch f)|>)
    (js1 ++ mkJob txs costs (Released status) :: js2) bl lg ch).
Proof.
  intros I. pose proof (li_system _ I) as Is. unfold system in Is. cbn in Is.
  rewrite (flights_middle _ _ _ f) in Is by done. eapply inv_replace; [exact I|try done..]; try apply I.
  unfold system. cbn. rewrite concat_middle. eapply inv_step; [exact Hsysvar| |exact Is]. apply step_release.
Qed.

Lemma inv_settle l js1 txs costs status js2 bl lg ch :
  affordable_costs metered costs status (js1 ++ js2) ch ->
  leader_inv (mkState l (js1 ++ mkJob txs costs (Released status) :: js2) bl lg ch) ->
  leader_inv (mkState (l<|leader_tracker := QosService.remove_or_update_costs (leader_tracker l) costs status|>)
    (js1 ++ js2) bl lg (settled costs status ++ ch)).
Proof.
  intros Ha [I1 I2 I3 I4 I5 I6 I7]. apply Forall_app in I5 as [J1 [(_ & _ & Hst) J2]%Forall_cons].
  cbn in I2, I6, I7, Hst. rewrite concat_first in I6, I7. split; try done; cbn.
  - unfold system in *. cbn in *. rewrite map_app, concat_app. by rewrite concat_middle in I1.
  - destruct I2 as (flying & Hp & I2). exists (map job_costs (js1 ++ js2)). split; [done|].
    eapply filling_settle; [exact I2| |exact Hst|exact Ha].
    rewrite Hp, !map_app. symmetry. apply Permutation_middle.
  - by apply Forall_app.
  - rewrite I7. change (job_unsettled _) with (charged_transactions (settled costs status)).
    unfold charged_transactions. rewrite (map_app _ (settled costs status) ch). solve_Permutation.
Qed.

Lemma leader_inv_step s s' :
  leader_step reserved metered tps last s s' -> leader_inv s -> leader_inv s'.
Proof.
  destruct 1 as [| | | | | | | | |? ? ? ? ? n b p Hn E|? ? ? ? ? p Hn E|? ? ? ? ? nb next hpt p Hf Hb Hh Hx E];
    eauto using inv_select, inv_lock, inv_run_batch, inv_record, inv_fail, inv_commit_batch,
      inv_release_batch, inv_settle; intros [I1 I2 I3 I4 I5 I6 I7].
  - split; try done. eapply inv_step; [exact Hsysvar|apply step_register|exact I1].
  - destruct (hash_recorder_ok tps last _ _ _ _ I3 Hn E) as [Hr Hs]. split; try done. cbn. rewrite Hs. apply I4.
  - destruct (tick_recorder_ok tps Htps Hconn last Hlast Hsched _ _ I3 Hn E) as [Hr Hs].
    split; try done. cbn. rewrite Hs. apply I4.
  - destruct (reset_recorder_ok tps Htps last Hlast Hsched _ _ _ _ _ I3 Hf Hb Hh Hx E) as [Hr Hs].
    split; try done. cbn. rewrite Hs. apply I4.
Qed.

Lemma leader_inv_run s s' :
  leader_run reserved metered tps last s s' -> leader_inv s -> leader_inv s'.
Proof. induction 1 as [s|s s' s'' H _ IH]; [done|]. intros I. by apply IH, (leader_inv_step s s'). Qed.

(** At every moment the recorded transactions are different. *)
Lemma block_nodup s : leader_inv s -> NoDup (map TxMeta.transaction (block s)).
Proof.
  intros [I1 _ _ _ I5 I6 _]. rewrite (Permutation_map _ I6), map_app.
  eapply sublist_NoDup; [apply (inv_in_flight _ I1)|]. cbn. apply sublist_app; [done|].
  clear I1 I6. induction (jobs s) as [|j js IH]; [done|]. apply Forall_cons in I5 as [Hj Hjs].
  cbn [map concat]. rewrite !map_app, concat_app. apply sublist_app; [|by apply IH].
  unfold job_recorded, job_flights. destruct j as [txs costs [|b|b rs|b rs|f st|st]]; try apply sublist_nil_l.
  destruct Hj as (_ & _ & Es & _). cbn in *. unfold in_flight. cbn. by rewrite app_nil_r, Es, processed_map.
Qed.

End Invariant.

(** ** One thread *)

Section Thread.
Context {env : LeaderEnv} {keys : AccountKeysEnv}.
Context (reserved : gset (list Z)) (metered : bool) (tps last : Z).

Abbreviation runs := (leader_run reserved metered tps last).

Definition status_of (res : result PohRecorderError (list CommitTransactionDetails))
    : option (list CommitTransactionDetails) :=
  match res with Ok l => Some l | Err _ => None end.

(** The transactions that are reported as committed. *)
Definition reported_committed (txs : list RuntimeTransaction)
    (res : result PohRecorderError (list CommitTransactionDetails)) : list RuntimeTransaction :=
  omap (fun x => match x.2 with CostModel.Committed _ _ _ => Some x.1 | NotCommitted _ => None end)
    (zip txs (default [] (status_of res))).

Lemma imap_committed txs : forall rs units,
  reported_committed txs (Ok (imap (fun i => Committer.commit_details (units i)) rs)) = processed_transactions txs rs.
Proof.
  unfold reported_committed, processed_transactions. cbn [status_of default].
  induction txs as [|tx txs IH]; intros [|[t|e] rs] units; try done; cbn.
  - f_equal. apply (IH rs (fun i => units (S i))).
  - apply (IH rs (fun i => units (S i))).
Qed.

Lemma reported_processed random units bank batch txs rs status bank' :
  commit_recorded random units bank batch rs = Done (status, bank') ->
  reported_committed txs (Ok status) = processed_transactions txs rs.
Proof.
  unfold commit_recorded, Committer.commit_transactions. destruct (existsb _ _).
  - destruct (LiveBank.commit_transactions _ _ _ _); try done. cbn. intros [= <- _]. apply imap_committed.
  - intros [= <- _]. rewrite map_as_imap. apply (imap_committed txs rs (fun _ => 0)).
Qed.

(** The numbers that the batch reports. *)
Definition reported (l : Leader) txs pre res (js : list Job) (ch : list Item) : Prop :=
  forall costs n t,
    QosService.select_and_accumulate_transaction_costs (leader_tracker l) txs pre = Done (costs, n, t) ->
    from_option (Forall details_ok) True (status_of res) /\
    affordable_costs metered costs (status_of res) js ch.

(** The function of a thread is a run in which no other thread takes part. *)
Lemma consumer_runs random units fuel l txs pre n retryable res l' js bl lg ch :
  process_and_record_transactions_with_pre_results random units fuel l txs pre
  = Some (Done (n, retryable, res, l')) ->
  Forall (receivable reserved) txs -> length pre = length txs ->
  batch_size (map TxMeta.transaction txs)
    + zlen (held_keys (map (fun f => flight_pairs f) (concat (map job_flights js)))) <= U64_MAX ->
  reported l txs pre res js ch ->
  exists costs k t,
    QosService.select_and_accumulate_transaction_costs (leader_tracker l) txs pre = Done (costs, k, t) /\
    runs (mkState l js bl lg ch) (mkState l' js (bl ++ reported_committed txs res)
      (lg ++ reported_committed txs res) (settled costs (status_of res) ++ ch)).
Proof.
  intros H Hr Hl Hsize Hrep. unfold process_and_record_transactions_with_pre_results in H.
  destruct (QosService.select_and_accumulate_transaction_costs _ txs pre) as [[[costs k] t]| |] eqn:Esel; try done.
  destruct (Hrep costs k t Esel) as [Hd Ha]. cbn [fbind] in H.
  destruct (LiveBank.prepare_sanitized_batch_with_results _ _ _) as [[batch b1]| |] eqn:Elock; try done.
  cbn [fbind] in H. unfold execute_and_commit_transactions_locked in H.
  destruct (LiveBank.load_and_execute_transactions _ batch _) as [rs| |] eqn:Erun; try done. cbn [fbind] in H.
  destruct (TransactionRecorder.record_transactions _ _ _ _) as [[[rec p]| |]|] eqn:Erec; try done. cbn [fbind] in H.
  assert (forall s', runs (mkState (l<|leader_tracker := t|><|leader_bank := b1|>)
    (mkJob txs costs (Ran batch rs) :: js) bl lg ch) s' -> runs (mkState l js bl lg ch) s') as Hstart.
  { intros s' Hs. eapply leader_next; [by eapply leader_select|].
    eapply leader_next; [by eapply (leader_lock _ _ _ _ _ [])|].
    eapply leader_next; [by eapply (leader_execute _ _ _ _ _ [])|]. exact Hs. }
  destruct rec as [i|e].
  - destruct (commit_recorded _ _ _ _ _) as [[status b2]| |] eqn:Ecom; try done. injection H as <- <- <- <-.
    exists costs, k, t. split; [done|]. rewrite (reported_processed _ _ _ _ _ _ _ _ Ecom). apply Hstart.
    eapply leader_next; [by eapply (leader_record _ _ _ _ _ [])|].
    eapply leader_next; [by eapply (leader_commit _ _ _ _ _ [])|].
    eapply leader_next; [by eapply (leader_release _ _ _ _ _ [])|].
    eapply leader_next; [by eapply (leader_settle _ _ _ _ _ [])|]. apply leader_end.
  - injection H as <- <- <- <-. exists costs, k, t. split; [done|].
    replace (reported_committed txs (Err e)) with (@nil RuntimeTransaction) by (by destruct txs).
    rewrite !app_nil_r. apply Hstart.
    eapply leader_next; [by eapply (leader_fail _ _ _ _ _ [])|].
    eapply leader_next; [by eapply (leader_release _ _ _ _ _ [])|].
    eapply leader_next; [by eapply (leader_settle _ _ _ _ _ [])|]. apply leader_end.
Qed.

End Thread.

(** It does not run out of fuel. *)
Lemma consumer_returns {env : LeaderEnv} tps (Htps : 0 < tps) (Hconn : forall i, connected i = true) last
    (Hlast : last * tps < U64_MAX) (Hsched : forall c s, 0 <= s < last ->
      exists x, compute_leader_slot_tick_heights (next_leader_slot c s) tps = Done x)
    random units l txs pre :
  recorder_ok tps last (leader_poh l) ->
  exists n, forall fuel, (n <= fuel)%nat ->
    process_and_record_transactions_with_pre_results random units fuel l txs pre <> None.
Proof.
  intros Hok. unfold process_and_record_transactions_with_pre_results, execute_and_commit_transactions_locked.
  destruct (QosService.select_and_accumulate_transaction_costs _ txs pre) as [[[costs k] t]| |]; try by exists 0%nat.
  cbn [fbind]. destruct (LiveBank.prepare_sanitized_batch_with_results _ _ _) as [[batch b1]| |]; try by exists 0%nat.
  cbn [fbind]. destruct (LiveBank.load_and_execute_transactions _ batch _) as [rs| |]; try by exists 0%nat.
  cbn [fbind]. destruct (record_transactions_spec tps Htps Hconn last Hlast Hsched (leader_poh l) (bank_slot b1)
    (map to_versioned_transaction (processed_transactions txs rs)) Hok) as [(n & Hn) _].
  exists n. intros fuel Hf. specialize (Hn fuel Hf). revert Hn. cbn.
  destruct (TransactionRecorder.record_transactions _ _ _ _) as [[[[i|e] p]| |]|]; try done. intros _. cbn.
  by destruct (commit_recorded _ _ _ _ _) as [[status b2]| |].
Qed.

(** A leader at the start of its block. *)
Definition starting {env : LeaderEnv} (la lb lv tps last : Z) (l : Leader) : Prop :=
  idle (mkSystem (leader_bank l) [] []) /\
  leader_tracker l = CostTracker.set_limits CostTracker.default la lb lv /\
  exists start hpt base, reachable tps last start hpt base (leader_poh l).

(** ** A leader for tests

    The bank of slot 1 and the recorder that works on it.  A thread takes two
    payments and one of them a second time; another thread tries both again. *)

Definition test_leader : LeaderEnv := {|
  leader_admission := test_admission;
  leader_recorder := test_recorder;
  leader_cost := test_cost;
  to_versioned_transaction := fun tx => take 1 (account_keys (TxMeta.transaction tx)) : list (list Z);
  MAX_PROCESSING_AGE := 150;
|}.

Definition test_runtime (m : SVMMessage) : RuntimeTransaction :=
  mkRuntime m 2 (mkMeta [] false (mkSignatureDetails 1 (mkPrecompile 0 0 0)) (@default_details test_budget) 0).
Definition test_txs : list RuntimeTransaction :=
  [test_runtime test_payment_1; test_runtime test_payment_2; test_runtime test_payment_1].

Definition test_leader_start : @Leader test_leader :=
  @mkLeader test_leader (test_live<|bank_slot := 1|><|ancestors := {[ 1 ]}|>)
    (CostTracker.set_limits CostTracker.default 500000 900000 600000) test_r2.

Abbreviation test_output :=
  (Z * list nat * result PohRecorderError (list CommitTransactionDetails) * @Leader test_leader)%type.
Definition test_round (l : @Leader test_leader) : option (outcome test_output) :=
  @process_and_record_transactions_with_pre_results test_leader (fun _ => 0) (fun _ => 450) 20 l test_txs
    [Ok tt; Ok tt; Ok tt].
Definition test_output_of (l : @Leader test_leader) : test_output :=
  done_or (0, [], Ok [], l) (default Panicked (test_round l)).
Definition test_leader_1 : @Leader test_leader := (test_output_of test_leader_start).2.
Definition test_leader_2 : @Leader test_leader := (test_output_of test_leader_1).2.

Lemma test_round_parts l :
  match test_round l with Some o => is_done o | None => false end = true ->
  test_round l = Some (Done ((test_output_of l).1.1.1, (test_output_of l).1.1.2, (test_output_of l).1.2,
    (test_output_of l).2)).
Proof. unfold test_output_of. by destruct (test_round l) as [[[[[? ?] ?] ?]| |]|]. Qed.

(** The reports of a round, as a test. *)
#[local] Instance details_ok_dec d : Decision (details_ok d) | 0.
Proof. destruct d; apply _. Defined.

Definition test_reports (l : @Leader test_leader) : bool :=
  match QosService.select_and_accumulate_transaction_costs (env := @leader_cost test_leader) (leader_tracker l) test_txs
          [Ok tt; Ok tt; Ok tt] with
  | Done (costs, _, _) =>
      let status := status_of (test_output_of l).1.2 in
      bool_decide (Forall details_ok (default [] status)) &&
      forallb (fun x => x.2 <=? TransactionCost.sum x.1) (settled (env := @leader_cost test_leader) costs status)
  | _ => true
  end.

Lemma test_reports_ok l js ch : test_reports l = true ->
  @reported test_leader true l test_txs [Ok tt; Ok tt; Ok tt] (test_output_of l).1.2 js ch.
Proof.
  unfold test_reports, reported. intros H costs n t E. rewrite E in H. apply andb_true_iff in H as [H1 H2].
  apply bool_decide_eq_true in H1. apply Is_true_true_2, forallb_True in H2. split.
  - by destruct (status_of _).
  - eapply Forall_impl; [exact H2|]. intros x Hx%Is_true_true. by apply Z.leb_le.
Qed.

Lemma test_runtime_ok m : m = test_payment_1 \/ m = test_payment_2 ->
  @receivable test_leader sample_keys_env test_reserved (test_runtime m).
Proof.
  intros Hm. assert (NoDup (Fees.account_keys m)) as Hn by (destruct Hm as [-> | ->]; apply (bool_decide_unpack _); by vm_compute).
  split; [destruct test_payments_wire; by destruct Hm as [-> | ->]|]. intros c Hc.
  assert (exists d, c = UsageCost (mkUsage (test_runtime m) 720 600 d 0 16384 0) /\ d = 0) as (d & -> & ->).
  { destruct Hm as [-> | ->]; vm_compute in Hc; injection Hc as <-; by eexists. }
  split; [by apply writable_accounts_nodup|done..|].
  unfold weights, COUNT_ROOM. cbn [tail]. repeat (apply Forall_cons; split; [by vm_compute|]). by apply Forall_nil.
Qed.

Lemma test_txs_receivable : Forall (@receivable test_leader sample_keys_env test_reserved) test_txs.
Proof. repeat (apply Forall_cons; split; [apply test_runtime_ok; auto|]). by apply Forall_nil. Qed.

Lemma test_txs_small :
  batch_size (map TxMeta.transaction test_txs) + zlen (@held_keys []) <= U64_MAX.
Proof. vm_compute. discriminate. Qed.

(** One round as a run. *)
Lemma test_round_runs l bl lg ch :
  match test_round l with Some o => is_done o | None => false end = true -> test_reports l = true ->
  exists ch', @leader_run test_leader sample_keys_env test_reserved true 2 100 (mkState l [] bl lg ch)
    (mkState (test_output_of l).2 [] (bl ++ reported_committed test_txs (test_output_of l).1.2)
       (lg ++ reported_committed test_txs (test_output_of l).1.2) ch').
Proof.
  intros Hd Hr. apply test_round_parts in Hd.
  destruct (@consumer_runs test_leader sample_keys_env test_reserved true 2 100 _ _ _ _ _ _ _ _ _ _ [] bl lg ch Hd)
    as (costs & k & t & _ & R); [exact test_txs_receivable|done|exact test_txs_small|by apply test_reports_ok|].
  by eexists.
Qed.

Lemma test_start_done : match test_round test_leader_start with Some o => is_done o | None => false end = true.
Proof. vm_compute. reflexivity. Qed.
Lemma test_start_reports : test_reports test_leader_start = true.
Proof. vm_compute. reflexivity. Qed.

Lemma test_reported :
  reported_committed test_txs (test_output_of test_leader_start).1.2 = take 2 test_txs /\
  reported_committed test_txs (test_output_of test_leader_1).1.2 = [].
Proof. split; vm_compute; reflexivity. Qed.

Lemma test_leader_runs :
  exists ch, @leader_run test_leader sample_keys_env test_reserved true 2 100
    (mkState test_leader_start [] [] [] [])
    (mkState test_leader_2 [] (take 2 test_txs) (take 2 test_txs) ch).
Proof.
  destruct (test_round_runs test_leader_start [] [] [] test_start_done test_start_reports) as (c1 & R1).
  destruct (test_round_runs test_leader_1 (take 2 test_txs) (take 2 test_txs) c1) as (c2 & R2); [by vm_compute..|].
  destruct test_reported as [E1 E2]. rewrite E1 in R1. rewrite E2, app_nil_r in R2.
  fold test_leader_1 in R1. fold test_leader_2 in R2.
  exists c2. eapply leader_run_trans; [exact R1|exact R2].
Qed.

Lemma test_leader_starting : @starting test_leader 500000 900000 600000 2 100 test_leader_start.
Proof.
  split_and!; [split_and!; by vm_compute|done|]. exists test_start, 4, []. exact test_recorder_reachable.
Qed.

(** ** Claims *)

Lemma starting_inv {env : LeaderEnv} {keys : AccountKeysEnv} reserved la lb lv metered tps last l :
  0 < tps -> (forall i, connected i = true) -> roomy tps last -> starting la lb lv tps last l ->
  leader_inv reserved la lb lv metered tps last (transactions_sent (leader_poh l)) (mkState l [] [] [] []).
Proof.
  intros Htps Hconn [Hlast Hsched] (Hi & Ht & start & hpt & base & Hr).
  destruct (reachable_inv tps Htps Hconn last Hlast Hsched start hpt base _ Hr) as [Hh [es I]]. split; cbn; try done.
  - by apply idle_inv.
  - exists []. split; [done|]. rewrite Ht. apply filling_start.
  - by exists start, hpt, base, es.
  - by rewrite app_nil_r.
Qed.

(** C15: what a leader sends is what it commits and what it charges.  Let threads
    take batches of transactions from the wire, with repetitions, through
    selection, locking, execution, recording, commit, release and settlement in
    any interleaving, while the clock hashes and ticks, blockhashes are
    registered and the recorder is reset; somebody receives the entries, and the
    channel to the recorder is not shut down.  After every step the entries sent
    since the start hold the recorded transactions in their order, no message is
    recorded twice, and every committed transaction was recorded and is known to
    the bank as processed.  When no batch is on its way, the recorded, the
    committed and the charged transactions are the same, the tracker of the block
    is exactly the sum of what they used, and it is within the limits if no
    transaction used more than it asked for. *)
Theorem sent_committed_and_charged_agree {env : LeaderEnv} {keys : AccountKeysEnv}
    {alaws : AdmissionLaws leader_admission} {claws : CostLaws leader_cost} {klaws : AccountKeysLaws keys}
    reserved la lb lv metered tps last l s :
  instructions_sysvar_id ∈ reserved ->
  0 <= la < COST_ROOM -> 0 <= lb < COST_ROOM -> 0 <= lv < COST_ROOM ->
  0 < tps -> (forall i, connected i = true) -> roomy tps last -> starting la lb lv tps last l ->
  leader_run reserved metered tps last (mkState l [] [] [] []) s ->
  let l' := leader s in
  transactions_sent (leader_poh l') = transactions_sent (leader_poh l) ++ map to_versioned_transaction (block s) /\
  NoDup (map TxMeta.transaction (block s)) /\
  log s ⊆+ block s /\
  Forall (fun tx => Check.is_transaction_already_processed (TxMeta.transaction tx)
    (status_cache (leader_bank l')) (ancestors (leader_bank l')) = Done true) (log s) /\
  (jobs s = [] ->
    log s ≡ₚ block s /\ charged_transactions (charged s) ≡ₚ block s /\
    represents la lb lv (leader_tracker l') (charged s) 0 /\
    (metered = true -> within la lb lv (charged s))).
Proof.
  intros Hsys Hla Hlb Hlv Htps Hconn Hroomy Hstart Hrun l'. pose proof Hroomy as [Hlast Hsched].
  apply (leader_inv_run reserved la lb lv metered tps last (transactions_sent (leader_poh l)) Hsys Htps Hconn
    Hlast Hsched) in Hrun as I; [|by apply starting_inv].
  pose proof (block_nodup _ _ _ _ _ _ _ _ _ I) as Hn. destruct I as [I1 (flying & Hp & I2) I3 I4 I5 I6 I7].
  split_and!; try done.
  - rewrite I6. by apply submseteq_inserts_r.
  - pose proof (inv_known _ I1) as Hk. cbn in Hk. rewrite Forall_map in Hk.
    eapply Forall_impl; [exact Hk|]. intros tx. apply known_processed, (inv_slot _ I1).
  - intros Ej. rewrite Ej in *. cbn in I6, I7, Hp. rewrite app_nil_r in I6, I7. symmetry in I6.
    apply Permutation_nil_r in Hp as ->. split_and!; [done|by rewrite <- I7|..];
      destruct (filling_invariant la lb lv Hla Hlb Hlv _ _ _ _ I2) as (R & _ & W); [exact R|exact W].
Qed.

Lemma sent_committed_and_charged_agree_witness :
  transactions_sent (leader_poh test_leader_2) = [[test_id 90]; [test_id 91]] /\
  NoDup (map TxMeta.transaction (take 2 test_txs)) /\
  (exists items, represents 500000 900000 600000 (leader_tracker test_leader_2) items 0 /\
     charged_transactions items ≡ₚ take 2 test_txs) /\
  block_cost (leader_tracker test_leader_2) = 3556.
Proof.
  destruct test_leader_runs as [ch R].
  destruct (@sent_committed_and_charged_agree test_leader sample_keys_env test_admission_laws test_cost_laws
    sample_keys_laws test_reserved 500000 900000 600000 true 2 100 test_leader_start
    (mkState test_leader_2 [] (take 2 test_txs) (take 2 test_txs) ch)) as (H1 & H2 & _ & _ & H3).
  - apply elem_of_singleton. reflexivity.
  - done.
  - done.
  - done.
  - lia.
  - reflexivity.
  - exact test_roomy.
  - exact test_leader_starting.
  - exact R.
  - destruct H3 as (_ & H4 & H5 & _); [reflexivity|]. split_and!.
    + cbn [leader] in H1. rewrite H1. vm_compute. reflexivity.
    + exact H2.
    + exists ch. split; [exact H5|exact H4].
    + vm_compute. reflexivity.
Defined.

(** C16: a thread's function is a run.  With enough fuel for the hashes that are
    left for the bank, [process_and_record_transactions_with_pre_results] does
    not run out of it; and when it returns, whatever the results of the earlier
    checks and whatever other batches are on their way, its effect on bank,
    tracker and recorder is a run of the steps above after which the batch is
    gone, the transactions that it reports as committed are appended to the
    recorded and to the committed ones, and the tracker counts what was
    reported of the ones it had selected. *)
Theorem consumer_refines_steps {env : LeaderEnv} {keys : AccountKeysEnv}
    {alaws : AdmissionLaws leader_admission} {klaws : AccountKeysLaws keys}
    reserved la lb lv metered tps last l s random units txs pre :
  instructions_sysvar_id ∈ reserved ->
  0 < tps -> (forall i, connected i = true) -> roomy tps last -> starting la lb lv tps last l ->
  leader_run reserved metered tps last (mkState l [] [] [] []) s ->
  Forall (receivable reserved) txs -> length pre = length txs ->
  batch_size (map TxMeta.transaction txs)
    + zlen (held_keys (map (fun f => flight_pairs f) (concat (map job_flights (jobs s))))) <= U64_MAX ->
  (exists n, forall fuel, (n <= fuel)%nat ->
     process_and_record_transactions_with_pre_results random units fuel (leader s) txs pre <> None) /\
  forall fuel n retryable res l',
    process_and_record_transactions_with_pre_results random units fuel (leader s) txs pre
    = Some (Done (n, retryable, res, l')) ->
    reported metered (leader s) txs pre res (jobs s) (charged s) ->
    exists costs k t,
      QosService.select_and_accumulate_transaction_costs (leader_tracker (leader s)) txs pre
      = Done (costs, k, t) /\
      leader_run reserved metered tps last s
        (mkState l' (jobs s) (block s ++ reported_committed txs res) (log s ++ reported_committed txs res)
           (settled costs (status_of res) ++ charged s)).
Proof.
  intros Hsys Htps Hconn Hroomy Hstart Hrun Hr Hl Hsize. pose proof Hroomy as [Hlast Hsched]. split.
  - apply (leader_inv_run reserved la lb lv metered tps last (transactions_sent (leader_poh l)) Hsys Htps Hconn
      Hlast Hsched) in Hrun as I; [|by apply starting_inv].
    by apply (consumer_returns tps Htps Hconn last Hlast Hsched), (li_recorder _ _ _ _ _ _ _ _ _ I).
  - intros fuel n retryable res l' E Hrep. destruct s as [l1 js bl lg ch]. by eapply consumer_runs.
Qed.

Lemma consumer_refines_steps_witness :
  exists costs, @leader_run test_leader sample_keys_env test_reserved true 2 100
    (mkState test_leader_start [] [] [] [])
    (mkState test_leader_1 [] (take 2 test_txs) (take 2 test_txs)
       (settled (env := @leader_cost test_leader) costs (status_of (test_output_of test_leader_start).1.2) ++ [])) .
Proof.
  destruct (@consumer_refines_steps test_leader sample_keys_env test_admission_laws sample_keys_laws
    test_reserved 500000 900000 600000 true 2 100 test_leader_start (mkState test_leader_start [] [] [] [])
    (fun _ => 0) (fun _ => 450) test_txs [Ok tt; Ok tt; Ok tt]) as [_ H].
  - apply elem_of_singleton. reflexivity.
  - lia.
  - reflexivity.
  - exact test_roomy.
  - exact test_leader_starting.
  - apply leader_end.
  - exact test_txs_receivable.
  - reflexivity.
  - exact test_txs_small.
  - destruct (H 20%nat _ _ _ _ (test_round_parts test_leader_start test_start_done)
      (test_reports_ok test_leader_start [] [] test_start_reports)) as (costs & k & t & E & R).
    exists costs. destruct test_reported as [E1 _]. cbn [block log charged] in R. rewrite E1 in R.
    exact R.
Defined.
